(** * clean-sheet-bot: the reconciliation engine, embedded and verified

    The development follows the four scripts of the repository:

    - [scripts/split_daily_budgets.py] and [scripts/split_daily_plans.py]
      (calendar proration), modules [Budgets] and [Plans];
    - [scripts/dcqa_brand_two_pass.py] (alias index and two-pass brand
      resolver), module [TwoPass];
    - [scripts/run_cleaning.py] (fallback joins, FX merge and audit), module
      [Cleaning], on top of a small model of the pandas frames it uses,
      module [Pandas].

    Conventions of the embedding.

    - A Python [str] is a [string] over the code points 0 to 255 (ASCII and
      Latin-1).  A character beyond them, which only the NFKC normalisation
      can produce from such a text, is written [PyStr.other_char].
    - A Python [float] (and [int]) is the rational [Q] it denotes; [NaN] is a
      value of its own.  A decimal literal is read as the rational it spells;
      the divisions of the proration and the arithmetic of the audit take the
      nearest double of their operands and round their result to the nearest
      double ([Float64.round]); the products of the FX stage are kept exact.
      Overflow and infinities are outside the model.
    - A timestamp is kept at day granularity, as the day number of its date
      (days since 1970-01-01); [normalize()] is then the identity.
    - Code that can raise returns a [result]. *)

From Stdlib Require Import List String Ascii ZArith QArith Bool Lia.
From Stdlib Require Import Qabs Qround DecimalString.
Import ListNotations.

Local Open Scope string_scope.
Local Open Scope Z_scope.
Local Open Scope list_scope.

(** ** Python values *)

Inductive exn : Type :=
| KeyError (column : string)
| AttributeError
| TypeError
| MergeError
| SystemExit.

Inductive result (A : Type) : Type :=
| Ok (a : A)
| Raise (e : exn).

Arguments Ok {A} a.
Arguments Raise {A} e.

Definition bind {A B : Type} (r : result A) (k : A -> result B) : result B :=
  match r with
  | Ok a => k a
  | Raise e => Raise e
  end.

Notation "x <- r ;; k" := (bind r (fun x => k))
  (at level 61, r at next level, right associativity).

Definition of_option {A : Type} (e : exn) (o : option A) : result A :=
  match o with
  | Some a => Ok a
  | None => Raise e
  end.

(** One cell of a frame or of a row. *)
Inductive cell : Type :=
| Str (s : string)
| Num (q : Q)
| NaN
| Day (d : Z)
| NaT.

(** [pd.isna] on a scalar. *)
Definition isna (c : cell) : bool :=
  match c with
  | NaN | NaT => true
  | _ => false
  end.

(** The library functions the scripts call and whose code is not part of
    the repository.  Every definition below takes them from this record, and
    every general theorem holds for all of them. *)
Record PyLib : Type := {
  (** [str(x)] for a number or a timestamp *)
  py_str : cell -> string;
  (** [pd.to_datetime(x, errors="coerce")] as a day number, [None] for NaT *)
  to_datetime : cell -> option Z;
  (** whether [pd.Timestamp(y, 1, 1)] and [pd.Timestamp(y, 12, 31)] exist *)
  year_ok : Z -> bool;
  (** [pd.to_numeric(s, errors="coerce")] on a [str], [None] for NaN *)
  to_numeric_str : string -> option Q;
  (** [Series.str.contains(rgx, regex=True)] on one [str] *)
  re_contains : string -> string -> bool;
  (** removal of the combining marks after [unicodedata.normalize("NFKD", s)] *)
  strip_accents : string -> string;
  (** [str.casefold] *)
  casefold : string -> string
}.

(** ** Python strings *)

Module PyStr.

Definition code (c : ascii) : nat := nat_of_ascii c.

(** [str.isspace] on the characters of the model. *)
Definition is_space (c : ascii) : bool :=
  let n := code c in
  (((9 <=? n) && (n <=? 13)) || ((28 <=? n) && (n <=? 32))
   || (n =? 133) || (n =? 160))%nat.

Definition is_digit (c : ascii) : bool :=
  let n := code c in ((48 <=? n) && (n <=? 57))%nat.

Definition digit_val (c : ascii) : Z := Z.of_nat (code c) - 48.

(** The character that stands for any character beyond the code point 255:
    it is neither white space nor a digit nor a letter with another case. *)
Definition other_char : ascii := ascii_of_nat 128.

Fixpoint lstrip (s : string) : string :=
  match s with
  | EmptyString => EmptyString
  | String c t => if is_space c then lstrip t else s
  end.

Fixpoint rstrip (s : string) : string :=
  match s with
  | EmptyString => EmptyString
  | String c t =>
      match rstrip t with
      | EmptyString => if is_space c then EmptyString else String c EmptyString
      | t' => String c t'
      end
  end.

(** [s.strip()] *)
Definition strip (s : string) : string := rstrip (lstrip s).

Fixpoint str_filter (p : ascii -> bool) (s : string) : string :=
  match s with
  | EmptyString => EmptyString
  | String c t => if p c then String c (str_filter p t) else str_filter p t
  end.

Fixpoint str_map (f : ascii -> ascii) (s : string) : string :=
  match s with
  | EmptyString => EmptyString
  | String c t => String (f c) (str_map f t)
  end.

Definition lower_char (c : ascii) : ascii :=
  let n := code c in
  if ((65 <=? n) && (n <=? 90))%nat then ascii_of_nat (n + 32) else c.

Definition upper_char (c : ascii) : ascii :=
  let n := code c in
  if ((97 <=? n) && (n <=? 122))%nat then ascii_of_nat (n - 32) else c.

(** [s.lower()] and [s.upper()] *)
Definition lower : string -> string := str_map lower_char.
Definition upper : string -> string := str_map upper_char.

(** [needle in s] *)
Fixpoint contains (needle s : string) : bool :=
  if prefix needle s then true
  else match s with
       | EmptyString => false
       | String _ t => contains needle t
       end.

Fixpoint last_char (s : string) : option ascii :=
  match s with
  | EmptyString => None
  | String c EmptyString => Some c
  | String _ t => last_char t
  end.

Fixpoint drop_last (s : string) : string :=
  match s with
  | EmptyString => EmptyString
  | String _ EmptyString => EmptyString
  | String c t => String c (drop_last t)
  end.

(** [s[1:-1]] *)
Definition slice_1_m1 (s : string) : string :=
  match s with
  | EmptyString => EmptyString
  | String _ t => drop_last t
  end.

(** [s.replace(c, "")] for a one-character [c] *)
Definition remove_char (c : ascii) : string -> string :=
  str_filter (fun x => negb (Ascii.eqb x c)).

(** [re.sub(r"\s+", " ", s)]: every run of white space becomes one space. *)
Fixpoint squeeze (in_run : bool) (s : string) : string :=
  match s with
  | EmptyString => EmptyString
  | String c t =>
      if is_space c
      then if in_run then squeeze true t else String " " (squeeze true t)
      else String c (squeeze false t)
  end.

(** All the characters of a string satisfy [p]. *)
Fixpoint str_all (p : ascii -> bool) (s : string) : bool :=
  match s with
  | EmptyString => true
  | String c t => (p c && str_all p t)%bool
  end.

Definition no_space (c : ascii) : bool := negb (is_space c).

(** Split at the first character satisfying [p]. *)
Fixpoint split_first (p : ascii -> bool) (s : string) : string * option string :=
  match s with
  | EmptyString => (EmptyString, None)
  | String c t =>
      if p c then (EmptyString, Some t)
      else let '(a, b) := split_first p t in (String c a, b)
  end.

End PyStr.

(** ** [float(s)] and [int(x)] *)

Module PyFloat.

Import PyStr.

Inductive float_result : Type :=
| FVal (q : Q)
| FNan
| FError.

(** A run of decimal digits in which single underscores may separate digits:
    the value read so far and the number of digits. *)
Fixpoint digits_us (acc : Z) (n : nat) (after_digit : bool) (s : string)
  : option (Z * nat) :=
  match s with
  | EmptyString => if after_digit then Some (acc, n) else None
  | String c t =>
      if is_digit c then digits_us (10 * acc + digit_val c) (S n) true t
      else if (Ascii.eqb c "_" && after_digit)%bool then digits_us acc n false t
      else None
  end.

Definition digit_part (s : string) : option (Z * nat) :=
  match s with
  | EmptyString => Some (0, 0%nat)
  | _ => digits_us 0 0 false s
  end.

Definition pow10 (n : nat) : Z := 10 ^ Z.of_nat n.

(** [digits], [digits.], [.digits] or [digits.digits] *)
Definition mantissa (s : string) : option Q :=
  match split_first (fun c => Ascii.eqb c ".") s with
  | (ip, None) =>
      match ip with
      | EmptyString => None
      | _ => match digit_part ip with
             | Some (v, _) => Some (inject_Z v)
             | None => None
             end
      end
  | (ip, Some fp) =>
      match ip, fp with
      | EmptyString, EmptyString => None
      | _, _ =>
          match digit_part ip, digit_part fp with
          | Some (v, _), Some (w, k) =>
              Some (Qmake (v * pow10 k + w) (Z.to_pos (pow10 k)))
          | _, _ => None
          end
      end
  end.

Definition is_e (c : ascii) : bool := (Ascii.eqb c "e" || Ascii.eqb c "E")%bool.

Definition signed (s : string) : bool * string :=
  match s with
  | String "-" t => (true, t)
  | String "+" t => (false, t)
  | _ => (false, s)
  end.

Definition exponent (s : string) : option Z :=
  let '(neg, ds) := signed s in
  match ds with
  | EmptyString => None
  | _ => match digit_part ds with
         | Some (v, _) => Some (if neg then - v else v)
         | None => None
         end
  end.

Definition scale10 (q : Q) (e : Z) : Q :=
  if 0 <=? e then (q * inject_Z (10 ^ e))%Q else (q / inject_Z (10 ^ (- e)))%Q.

Definition decimal (s : string) : option Q :=
  match split_first is_e s with
  | (m, None) => mantissa m
  | (m, Some e) =>
      match mantissa m, exponent e with
      | Some q, Some k => Some (scale10 q k)
      | _, _ => None
      end
  end.

(** [float(s)] on a [str]: white space around the literal is ignored, then
    an optional sign, then [nan] or a decimal literal.  [FError] stands for
    [ValueError].  (The literals [inf] and [infinity] denote no rational and
    are not part of the model.) *)
Definition py_float (s : string) : float_result :=
  let '(neg, body) := signed (strip s) in
  if String.eqb (lower body) "nan" then FNan
  else match decimal body with
       | Some q => FVal (if neg then (- q)%Q else q)
       | None => FError
       end.

(** [int(x)] on a finite float: truncation towards zero. *)
Definition py_int (q : Q) : Z := Z.quot (Qnum q) (Zpos (Qden q)).

End PyFloat.

(** ** [float]: IEEE 754 binary64

    A finite double is the rational it denotes.  An operation of the scripts
    on doubles is the exact operation followed by [Float64.round], the
    rounding to the nearest double, ties to the even significand
    (53 significant bits, and multiples of [2^-1074] in the subnormal
    range).  Results beyond the largest double (which are infinite in
    Python) are outside the model. *)

Module Float64.

Definition pow2 (e : Z) : Q := (2 ^ e)%Q.

(** The binary exponent of a positive rational: [2^e <= q < 2^(e+1)]. *)
Definition exponent (q : Q) : Z :=
  let e := Z.log2 (Qnum q) - Z.log2 (Zpos (Qden q)) in
  if Qle_bool (pow2 e) q then e else e - 1.

(** The nearest integer, the even one when two are as near. *)
Definition nearest_even (q : Q) : Z :=
  let f := Qfloor q in
  match (q - inject_Z f ?= 1 # 2)%Q with
  | Lt => f
  | Gt => f + 1
  | Eq => if Z.even f then f else f + 1
  end.

(** The exponent of the unit in the last place of the doubles around a
    positive rational. *)
Definition ulp_exponent (q : Q) : Z := Z.max (exponent q - 52) (-1074).

Definition round_pos (q : Q) : Q :=
  let k := ulp_exponent q in
  Qred (inject_Z (nearest_even (q / pow2 k)) * pow2 k).

Definition round (q : Q) : Q :=
  match (q ?= 0)%Q with
  | Eq => 0%Q
  | Gt => round_pos q
  | Lt => (- round_pos (- q))%Q
  end.

(** The relative error of a rounding, and its absolute error in the
    subnormal range. *)
Definition eps : Q := pow2 (-53).
Definition eta : Q := pow2 (-1075).

End Float64.

(** ** Rows

    A row ([pd.Series] indexed by column name, as [iterrows] yields it) is an
    association list in column order. *)

Module Row.

Definition row : Type := list (string * cell).

(** [r.get(c)]: [None] when [c] is not in [r.index]. *)
Fixpoint get (c : string) (r : row) : option cell :=
  match r with
  | [] => None
  | (k, v) :: t => if String.eqb k c then Some v else get c t
  end.

Definition mem (c : string) (r : row) : bool :=
  match get c r with
  | Some _ => true
  | None => false
  end.

(** [r[c] = v]: the entry is replaced where it is, or added at the end. *)
Fixpoint set (c : string) (v : cell) (r : row) : row :=
  match r with
  | [] => [(c, v)]
  | (k, w) :: t => if String.eqb k c then (k, v) :: t else (k, w) :: set c v t
  end.

(** [r.get(c, "")] *)
Definition get_or_empty (c : string) (r : row) : cell :=
  match get c r with
  | Some v => v
  | None => Str ""
  end.

End Row.

(** [str(x)] of a cell, which is also what [astype(str)] gives. *)
Definition text (L : PyLib) (c : cell) : string :=
  match c with
  | Str s => s
  | NaN => "nan"
  | NaT => "NaT"
  | _ => py_str L c
  end.

(** A sheet as [pd.read_excel] returns it: the column names and the rows. *)
Record sheet : Type := {
  columns : list string;
  rows : list Row.row
}.

Definition has_column (c : string) (cols : list string) : bool :=
  existsb (String.eqb c) cols.

(** ** Calendar *)

Module Calendar.

(** Day number of a civil date of the proleptic Gregorian calendar. *)
Definition days_from_civil (y m d : Z) : Z :=
  let y' := if m <=? 2 then y - 1 else y in
  let era := y' / 400 in
  let yoe := y' - era * 400 in
  let mp := if 2 <? m then m - 3 else m + 9 in
  let doy := (153 * mp + 2) / 5 + d - 1 in
  let doe := yoe * 365 + yoe / 4 - yoe / 100 + doy in
  era * 146097 + doe - 719468.

(** [pd.date_range(a, b, freq="D")] on day numbers: empty when [b < a]. *)
Definition date_range (a b : Z) : list Z :=
  List.map (fun k => a + Z.of_nat k) (seq 0 (Z.to_nat (b - a + 1))).

(** The cell [pd.to_datetime] leaves in a date column. *)
Definition date_cell (d : option Z) : cell :=
  match d with
  | Some x => Day x
  | None => NaT
  end.

End Calendar.

(** Division of a float cell by a day count: the quotient of the double by
    the count, rounded to the nearest double. *)
Definition cell_div (c : cell) (n : Z) : cell :=
  match c with
  | Num q => Num (Float64.round (Float64.round q / inject_Z n))
  | _ => c
  end.

(** The number in a cell, a cell that holds none counting for zero, and the
    sum of a column over rows: the exact sum of the doubles the rows hold,
    not a sum accumulated in floating point. *)
Definition cell_value (o : option cell) : Q :=
  match o with
  | Some (Num q) => q
  | _ => 0
  end.

Definition column_sum (c : string) (rs : list Row.row) : Q :=
  fold_right (fun r acc => (cell_value (Row.get c r) + acc)%Q) 0%Q rs.

(** ** [scripts/split_daily_budgets.py] *)

Module Budgets.

Import PyStr PyFloat Calendar.

Definition START_COL := "Min Start Date".
Definition END_COL := "Max End Date".
Definition FX_YEAR_COL := "FX Year".
Definition PLANNED_COL := "Planned (Local)".

Definition PRORATE_COLS : list string :=
  [ "Budget (Local - Updated)"; "Budget (Local)"; "Planned (Local)";
    "Actualised (Local)"; "Budget (EUR)"; "Planned (EUR)";
    "Actualised (EUR)"; "Budget (DKK)"; "Planned (DKK)"; "Actualised (DKK)" ].

Definition nbsp : ascii := ascii_of_nat 160.

(** [unicodedata.normalize("NFKC", c)] for one character.  Fourteen code
    points up to 255 have a compatibility mapping: the no-break space (a
    space), the spacing diaeresis, macron, acute accent and cedilla (a space
    and a combining mark), the ordinal indicators (a, o), the superscripts
    one, two and three (the digit), the micro sign (the Greek mu) and the
    three fractions (two digits around the fraction slash).  The combining
    marks, the mu and the fraction slash are beyond 255.  Every other
    character is unchanged, and no two characters of such a text compose. *)
Definition nfkc_char (c : ascii) : string :=
  let n := code c in
  if (n =? 160)%nat then " "
  else if ((n =? 168) || (n =? 175) || (n =? 180) || (n =? 184))%nat
  then String " " (String other_char "")
  else if (n =? 170)%nat then "a"
  else if (n =? 178)%nat then "2"
  else if (n =? 179)%nat then "3"
  else if (n =? 181)%nat then String other_char ""
  else if (n =? 185)%nat then "1"
  else if (n =? 186)%nat then "o"
  else if (n =? 188)%nat then String "1" (String other_char "4")
  else if (n =? 189)%nat then String "1" (String other_char "2")
  else if (n =? 190)%nat then String "3" (String other_char "4")
  else String c "".

(** [unicodedata.normalize("NFKC", s)] *)
Fixpoint nfkc (s : string) : string :=
  match s with
  | EmptyString => EmptyString
  | String c t => (nfkc_char c ++ nfkc t)%string
  end.

(** A character NFKC leaves as it is. *)
Definition nfkc_stable (c : ascii) : bool :=
  String.eqb (nfkc_char c) (String c "").

(** The placeholders of [parse_number] that the model can spell (the em and
    en dashes of the source are beyond the code point 255, and no text of the
    model normalises to one of them). *)
Definition placeholders : list string := ["-"; "NA"; "N/A"; "n/a"; "na"; "--"].

(** What [_num_re] leaves: digits, minus, dot and parentheses. *)
Definition num_char (c : ascii) : bool :=
  (is_digit c || Ascii.eqb c "-" || Ascii.eqb c "." || Ascii.eqb c "("
   || Ascii.eqb c ")")%bool.

Definition starts_with_paren (s : string) : bool :=
  match s with
  | String "(" _ => true
  | _ => false
  end.

Definition ends_with_paren (s : string) : bool :=
  match last_char s with
  | Some ")"%char => true
  | _ => false
  end.

(** The end of [parse_number], from the test that follows [_num_re.sub]:
    a value in parentheses is negated, and [float] decides; its
    [ValueError] is caught. *)
Definition parse_cleaned (s : string) : option cell :=
  if String.eqb s "" then None
  else
    let s := if (starts_with_paren s && ends_with_paren s)%bool
             then String "-" (slice_1_m1 s) else s in
    match py_float s with
    | FVal q => Some (Num q)
    | FNan => Some NaN
    | FError => None
    end.

(** [parse_number(x)]: [None] is Python's [None]; a result is a float cell. *)
Definition parse_number (L : PyLib) (x : cell) : option cell :=
  if isna x then None
  else
    let s := strip (text L x) in
    if String.eqb s "" then None
    else
      let s := nfkc s in
      let s := remove_char nbsp s in
      if existsb (String.eqb s) placeholders then None
      else parse_cleaned (str_filter num_char s).

(** The negation of a parsed value. *)
Definition negated (o : option cell) : option cell :=
  match o with
  | Some (Num q) => Some (Num (- q))
  | other => other
  end.

(** An unsigned decimal literal is made of digits and dots. *)
Definition unsigned_char (c : ascii) : bool := (is_digit c || Ascii.eqb c ".")%bool.

(** The columns of [PRORATE_COLS] present in the sheet. *)
Definition mapped_prorate (cols : list string) : list string :=
  List.filter (fun c => has_column c cols) PRORATE_COLS.

(** [int(float(str(fy)))] and the two [pd.Timestamp] of the [try] block:
    [None] when any of them raises. *)
Definition fiscal_year (L : PyLib) (fy : option cell) : option Z :=
  let s := match fy with
           | Some c => text L c
           | None => "None"
           end in
  match py_float s with
  | FVal q => let y := py_int q in if year_ok L y then Some y else None
  | _ => None
  end.

(** [x in (None, "", pd.NA)].  The tuple is searched in order with [is] and
    [==]; for a string or a number that is not [""], the comparison with
    [pd.NA] gives [pd.NA], whose truth value raises [TypeError]. *)
Definition in_none_empty_na (x : option cell) : result bool :=
  match x with
  | None => Ok true
  | Some (Str EmptyString) => Ok true
  | Some _ => Raise TypeError
  end.

(** The state of the loop of [main]. *)
Record acc : Type := {
  out_rows : list Row.row;
  debug_rows : list Row.row;
  total_input_planned_count : Z;
  total_emitted_planned_positive : Z
}.

Definition acc0 : acc :=
  {| out_rows := []; debug_rows := [];
     total_input_planned_count := 0; total_emitted_planned_positive := 0 |}.

(** The [except] branch: one row with the prorated columns at [0.0] and no
    date. *)
Definition zero_row (prorate : list string) (r : Row.row) : Row.row :=
  Row.set "Date" NaT
    (fold_left (fun b col => Row.set col (Num 0) b) prorate r).

(** The value a prorated column takes in the regular branch, from the cell
    it had ([None] when the column is not in the row): [0.0] when
    [parse_number] gives [None], else the parsed value over [n]. *)
Definition prorated (L : PyLib) (n : Z) (o : option cell) : cell :=
  match match o with
        | Some v => parse_number L v
        | None => None
        end with
  | None => Num 0
  | Some val => cell_div val n
  end.

(** The prorated base row of the regular branch. *)
Definition prorate_row (L : PyLib) (prorate : list string) (n : Z)
  (r : Row.row) : Row.row :=
  fold_left (fun b col => Row.set col (prorated L n (Row.get col b)) b) prorate r.

Definition is_nonzero (c : cell) : bool :=
  match c with
  | Num q => negb (Qeq_bool q 0)
  | _ => true
  end.

(** One iteration of [for ix, row in df.iterrows()]; [r] is the row after
    both date columns went through [pd.to_datetime]. *)
Definition step (L : PyLib) (prorate : list string) (a : acc) (r : Row.row)
  : result acc :=
  s <- of_option (KeyError START_COL) (Row.get START_COL r) ;;
  e <- of_option (KeyError END_COL) (Row.get END_COL r) ;;
  span <-
    (if (isna s || isna e)%bool
     then
       match fiscal_year L (Row.get FX_YEAR_COL r) with
       | Some y => Ok (Some (days_from_civil y 1 1, days_from_civil y 12 31))
       | None => Ok None
       end
     else
       match s, e with
       | Day x, Day y => Ok (Some (x, y))
       | _, _ => Raise AttributeError
       end) ;;
  match span with
  | None =>
      let orig_planned := Row.get PLANNED_COL r in
      listed <- in_none_empty_na orig_planned ;;
      let collect :=
        (negb listed
         && negb (String.eqb
                    (strip (match orig_planned with
                            | Some c => text L c
                            | None => "None"
                            end)) ""))%bool in
      Ok {| out_rows := out_rows a ++ [zero_row prorate r];
            debug_rows := if collect then debug_rows a ++ [r] else debug_rows a;
            total_input_planned_count := total_input_planned_count a;
            total_emitted_planned_positive := total_emitted_planned_positive a |}
  | Some (x, y) =>
      let days := date_range x y in
      let n := Z.max 1 (Z.of_nat (List.length days)) in
      let orig_parsed :=
        match Row.get PLANNED_COL r with
        | Some v => parse_number L v
        | None => None
        end in
      let base := prorate_row L prorate n r in
      Ok {| out_rows :=
              out_rows a ++ List.map (fun d => Row.set "Date" (Day d) base) days;
            debug_rows := debug_rows a;
            total_input_planned_count :=
              match orig_parsed with
              | Some _ => total_input_planned_count a + 1
              | None => total_input_planned_count a
              end;
            total_emitted_planned_positive :=
              match orig_parsed with
              | Some v =>
                  if (Row.mem PLANNED_COL base && is_nonzero v)%bool
                  then total_emitted_planned_positive a + 1
                  else total_emitted_planned_positive a
              | None => total_emitted_planned_positive a
              end |}
  end.

Fixpoint loop (L : PyLib) (prorate : list string) (a : acc)
  (rs : list Row.row) : result acc :=
  match rs with
  | [] => Ok a
  | r :: t => a' <- step L prorate a r ;; loop L prorate a' t
  end.

(** [df[START] = pd.to_datetime(df[START], errors="coerce")], row by row. *)
Definition coerce_date (L : PyLib) (c : string) (r : Row.row) : Row.row :=
  match Row.get c r with
  | Some v => Row.set c (date_cell (to_datetime L v)) r
  | None => r
  end.

(** [main], from the sheet read to the rows handed to the writer. *)
Definition main (L : PyLib) (df : sheet) : result acc :=
  if negb (has_column START_COL (columns df) && has_column END_COL (columns df))
  then Raise SystemExit
  else
    loop L (mapped_prorate (columns df)) acc0
      (List.map (fun r => coerce_date L END_COL (coerce_date L START_COL r))
         (rows df)).

End Budgets.

(** ** [scripts/split_daily_plans.py] *)

Module Plans.

Import PyStr PyFloat Calendar.

Definition PRORATE_COLS : list string :=
  [ "Impressions_Estimate"; "Views"; "Completed_Views"; "Agency_Fee";
    "Total_Cost_to_Client_Actual_Local"; "Total_Cost_to_Client_Actual_Global";
    "Total_Cost_to_Client_Local"; "Total_Cost_to_Client_Global";
    "Net_Media_Cost_Local"; "Net_Media_Cost_Global"; "Media_Cost_Gross_Local";
    "Non_Media_Cost_Local"; "Production_Costs_Local"; "Net_Media_DKK";
    "Planned_Spend_DKK"; "Actualised_Spend_DKK" ].

Definition START_COL := "Start_Date".
Definition END_COL := "End_Date".

(** [to_float_safe(v)]: the value itself when it is missing or when
    [float] raises [ValueError]. *)
Definition to_float_safe (L : PyLib) (v : cell) : cell :=
  if isna v then v
  else
    match py_float (strip (remove_char "," (text L v))) with
    | FVal q => Num q
    | FNan => NaN
    | FError => v
    end.

(** [isinstance(x, (int, float))] *)
Definition is_number (c : cell) : bool :=
  match c with
  | Num _ | NaN => true
  | _ => false
  end.

(** The value of a prorated column that is in the row: [to_float_safe],
    then the division when the result is a number. *)
Definition prorated (L : PyLib) (n : Z) (v : cell) : cell :=
  let x := to_float_safe L v in
  if is_number x then cell_div x n else x.

Definition prorate_row (L : PyLib) (n : Z) (r : Row.row) : Row.row :=
  fold_left
    (fun b c =>
       match Row.get c b with
       | Some v => Row.set c (prorated L n v) b
       | None => b
       end)
    PRORATE_COLS r.

(** One iteration of [for _, r in df.iterrows()]: the rows appended to
    [out_rows]. *)
Definition step (L : PyLib) (r : Row.row) : result (list Row.row) :=
  s <- of_option (KeyError START_COL) (Row.get START_COL r) ;;
  e <- of_option (KeyError END_COL) (Row.get END_COL r) ;;
  if (isna s || isna e)%bool then Ok [Row.set "Date" NaT r]
  else
    match s, e with
    | Day x, Day y =>
        let days := date_range x y in
        let n := Z.max 1 (Z.of_nat (List.length days)) in
        let base := prorate_row L n r in
        Ok (List.map (fun d => Row.set "Date" (Day d) base) days)
    | _, _ => Raise AttributeError
    end.

Fixpoint loop (L : PyLib) (rs : list Row.row) : result (list Row.row) :=
  match rs with
  | [] => Ok []
  | r :: t => here <- step L r ;; rest <- loop L t ;; Ok (here ++ rest)
  end.

Definition main (L : PyLib) (df : sheet) : result (list Row.row) :=
  if negb (has_column START_COL (columns df) && has_column END_COL (columns df))
  then Raise SystemExit
  else
    loop L
      (List.map (fun r => Budgets.coerce_date L END_COL
                            (Budgets.coerce_date L START_COL r))
         (rows df)).

End Plans.

(** ** [scripts/dcqa_brand_two_pass.py] *)

Module TwoPass.

Import PyStr.

Definition nbsp : ascii := ascii_of_nat 160.

(** [_SPECIALS]: the registered and copyright signs are deleted and the
    no-break space becomes a space (the trade mark and service mark signs are
    not characters of the model). *)
Definition specials (s : string) : string :=
  str_map (fun c => if Ascii.eqb c nbsp then " "%char else c)
    (str_filter
       (fun c => negb (Nat.eqb (code c) 174 || Nat.eqb (code c) 169)) s).

(** [_PUNCT], on the characters of the model. *)
Definition punct_chars : string :=
  String (ascii_of_nat 180)
    (String (ascii_of_nat 96)
       (String (ascii_of_nat 34)
          (String (ascii_of_nat 92)
             (String (ascii_of_nat 39)
                (String (ascii_of_nat 183)
                   "-.,;:!/?()[]{}|+&@#%^*~=_"))))).

Definition is_punct (c : ascii) : bool :=
  existsb (Ascii.eqb c) (list_ascii_of_string punct_chars).

Definition punct (s : string) : string :=
  str_map (fun c => if is_punct c then " "%char else c) s.

(** [norm(s)] on a [str]. *)
Definition norm (L : PyLib) (s : string) : string :=
  let s := specials s in
  let s := strip_accents L s in
  let s := punct s in
  let s := casefold L s in
  strip (squeeze false s).

(** [norm(x)] on a cell: [s = str(s)] comes first. *)
Definition norm_cell (L : PyLib) (c : cell) : string := norm L (text L c).

(** *** The alias index: a [dict] in insertion order *)

Definition key : Type := option string * string.

Definition key_eqb (a b : key) : bool :=
  (match fst a, fst b with
   | None, None => true
   | Some x, Some y => String.eqb x y
   | _, _ => false
   end && String.eqb (snd a) (snd b))%bool.

Definition index : Type := list (key * string).

Fixpoint dict_get (k : key) (idx : index) : option string :=
  match idx with
  | [] => None
  | (k', v) :: t => if key_eqb k' k then Some v else dict_get k t
  end.

Definition dict_mem (k : key) (idx : index) : bool :=
  match dict_get k idx with
  | Some _ => true
  | None => false
  end.

(** [idx.setdefault(k, v)], which is also [if k not in idx: idx[k] = v]. *)
Definition setdefault (k : key) (v : string) (idx : index) : index :=
  if dict_mem k idx then idx else idx ++ [(k, v)].

(** [x or None] on a [str] *)
Definition or_none (s : string) : option string :=
  match s with
  | EmptyString => None
  | _ => Some s
  end.

Definition nonempty (s : string) : bool := negb (String.eqb s "").

(** A row of the taxonomy after [load_brands_taxonomy]. *)
Record brand_row : Type := {
  brand_canonical : string;
  market : string;
  alias : string
}.

Definition add_unique (s : string) (l : list string) : list string :=
  if existsb (String.eqb s) l then l else l ++ [s].

Fixpoint insert_sorted (s : string) (l : list string) : list string :=
  match l with
  | [] => [s]
  | x :: t => if String.leb s x then s :: l else x :: insert_sorted s t
  end.

(** [sorted(canons)] for a set of strings *)
Definition sorted (l : list string) : list string :=
  fold_right insert_sorted [] l.

(** [r['alias'].strip() or canon] *)
Definition row_alias (r : brand_row) : string :=
  match strip (alias r) with
  | EmptyString => strip (brand_canonical r)
  | a => a
  end.

(** The body of the loop of [build_index]. *)
Definition index_row (L : PyLib) (st : index * list string) (r : brand_row)
  : index * list string :=
  let '(idx, canons) := st in
  let canon := strip (brand_canonical r) in
  let alias := row_alias r in
  let market := strip (market r) in
  if negb (nonempty canon) then st
  else
    let canons := add_unique canon canons in
    let idx := setdefault (None, norm L alias) canon idx in
    let idx := if nonempty market
               then setdefault (Some (norm L market), norm L alias) canon idx
               else idx in
    let idx := setdefault (None, norm L canon) canon idx in
    let idx := if nonempty market
               then setdefault (Some (norm L market), norm L canon) canon idx
               else idx in
    (idx, canons).

Definition build_index (L : PyLib) (brands : list brand_row)
  : index * list string :=
  let '(idx, canons) := fold_left (index_row L) brands ([], []) in
  (idx, sorted canons).

(** *** Title inference *)

(** Truth value of a cell. *)
Definition truthy (c : cell) : bool :=
  match c with
  | Str s => nonempty s
  | Num q => negb (Qeq_bool q 0)
  | _ => true
  end.

(** [f"{x or ''}"] *)
Definition or_empty (L : PyLib) (c : cell) : string :=
  if truthy c then text L c else "".

Definition canon_hits (L : PyLib) (t : string) (canon_list : list string)
  : list (string * string) :=
  flat_map
    (fun canon =>
       let ncanon := norm L canon in
       if (nonempty ncanon && contains ncanon t
           && (4 <=? String.length ncanon)%nat)%bool
       then [(canon, "title_contains_canon")] else [])
    canon_list.

Definition scope_eqb (a b : option string) : bool :=
  match a, b with
  | None, None => true
  | Some x, Some y => String.eqb x y
  | _, _ => false
  end.

Definition aliases_of (scope : option string) (idx : index) : list string :=
  List.map (fun e => snd (fst e))
    (List.filter (fun e => scope_eqb (fst (fst e)) scope) idx).

(** The loop over [local_aliases + global_aliases]; [idx[...]] raises
    [KeyError] on a key that is absent. *)
Fixpoint alias_hits (m t : string) (idx : index) (aliases : list string)
  : result (list (string * string)) :=
  match aliases with
  | [] => Ok []
  | a :: rest =>
      if (nonempty a && contains a t && (4 <=? String.length a)%nat)%bool
      then
        canon <- of_option (KeyError a)
                   (dict_get (if dict_mem (Some m, a) idx then Some m else None, a)
                      idx) ;;
        more <- alias_hits m t idx rest ;;
        Ok ((canon, "title_contains_alias") :: more)
      else alias_hits m t idx rest
  end.

(** The de-duplication that keeps the first reason of every brand. *)
Fixpoint dedup (seen : list (string * string)) (hits : list (string * string))
  : list (string * string) :=
  match hits with
  | [] => seen
  | (canon, reason) :: t =>
      if existsb (fun e => String.eqb (fst e) canon) seen
      then dedup seen t
      else dedup (seen ++ [(canon, reason)]) t
  end.

Fixpoint insert_longest (s : string) (l : list string) : list string :=
  match l with
  | [] => [s]
  | x :: t =>
      if (String.length x <=? String.length s)%nat then s :: l
      else x :: insert_longest s t
  end.

(** [sorted(seen, key=len, reverse=True)]: stable, longest first. *)
Definition sorted_longest (l : list string) : list string :=
  fold_right insert_longest [] l.

(** [detect_from_titles]: the brand ([None] when there is none) and the
    reason. *)
Definition detect_from_titles (L : PyLib) (plan_name campaign_name market : cell)
  (idx : index) (canon_list : list string) : result (option string * string) :=
  let t := norm L (or_empty L plan_name ++ " " ++ or_empty L campaign_name)%string in
  let m := norm_cell L market in
  let local_aliases := aliases_of (or_none m) idx in
  let global_aliases := aliases_of None idx in
  more <- alias_hits m t idx (local_aliases ++ global_aliases) ;;
  let hits := canon_hits L t canon_list ++ more in
  match dedup [] hits with
  | [] => Ok (None, "")
  | [(canon, reason)] => Ok (Some canon, reason)
  | seen =>
      match sorted_longest (List.map fst seen) with
      | c :: _ => Ok (Some c, "title_ambiguous")
      | [] => Ok (None, "")
      end
  end.

(** *** The resolver *)

(** Pass A of [two_pass_brand] on the normalised brand [b] and market [m]. *)
Definition pass_a (L : PyLib) (idx : index) (canon_list : list string)
  (m b : string) : option string * string :=
  match dict_get (or_none m, b) idx with
  | Some c => (Some c, "tax_exact_local")
  | None =>
      match dict_get (None, b) idx with
      | Some c => (Some c, "tax_exact_global")
      | None =>
          match List.find (fun canon => String.eqb (norm L canon) b) canon_list with
          | Some canon => (Some canon, "tax_canonical_equal")
          | None => (None, "")
          end
      end
  end.

(** [x or ''] and the truth value of an optional string. *)
Definition opt_truthy (o : option string) : bool :=
  match o with
  | Some s => nonempty s
  | None => false
  end.

Definition opt_or (o : option string) (d : string) : string :=
  if opt_truthy o then match o with Some s => s | None => d end else d.

Record resolution : Type := {
  Brand_raw : cell;
  Market : cell;
  Plan_Name : cell;
  Campaign_Name : cell;
  Brand_taxonomy : string;
  Brand_title : string;
  Brand_final : string;
  Reason_tax : string;
  Reason_title : string;
  Issue : string;
  Recommendation : string
}.

Definition quote (s : string) : string := ("'" ++ s ++ "'")%string.

Definition issue_of (mapped title_brand : option string) : string * string :=
  let a := opt_truthy mapped in
  let b := opt_truthy title_brand in
  let ms := match mapped with Some s => s | None => "None" end in
  let ts := match title_brand with Some s => s | None => "None" end in
  if (a && b && negb (String.eqb ms ts))%bool
  then ("brand_conflict_title",
        ("Check Market/Brand. Taxonomy maps to " ++ quote ms
         ++ ", titles suggest " ++ quote ts ++ ".")%string)
  else if (negb a && b)%bool
  then ("brand_inferred_from_title",
        ("Consider " ++ quote ts
         ++ " (from titles). Add alias to taxonomy if correct.")%string)
  else if (a && negb b)%bool
  then ("brand_ok_no_title_signal", "")
  else if (negb a && negb b)%bool
  then ("brand_unmapped", "Add alias to taxonomy or fix Brand field.")
  else ("", "").

(** The body of the loop of [two_pass_brand]. *)
Definition resolve_row (L : PyLib) (idx : index) (canon_list : list string)
  (r : Row.row) : result resolution :=
  let brand_raw := Row.get_or_empty "Brand" r in
  let market := Row.get_or_empty "Market" r in
  let plan := Row.get_or_empty "Plan Name" r in
  let camp := Row.get_or_empty "Campaign Name" r in
  let b := norm_cell L brand_raw in
  let m := norm_cell L market in
  let '(mapped, reasonA) := pass_a L idx canon_list m b in
  tb <- detect_from_titles L plan camp market idx canon_list ;;
  let '(title_brand, reasonB) := tb in
  let final := opt_or mapped (opt_or title_brand "") in
  let '(issue, recommend) := issue_of mapped title_brand in
  Ok {| Brand_raw := brand_raw; Market := market; Plan_Name := plan;
        Campaign_Name := camp;
        Brand_taxonomy := opt_or mapped "";
        Brand_title := opt_or title_brand "";
        Brand_final := final;
        Reason_tax := reasonA; Reason_title := reasonB;
        Issue := issue; Recommendation := recommend |}.

(** The column fix-up at the top of [two_pass_brand]: a column that differs
    only by case is renamed, a missing one is added empty. *)
Definition rename_in_row (old new : string) (r : Row.row) : Row.row :=
  List.map (fun e => if String.eqb (fst e) old then (new, snd e) else e) r.

Definition ensure_column (c : string) (df : sheet) : sheet :=
  if has_column c (columns df) then df
  else
    match List.find (fun col => String.eqb (lower col) (lower c))
            (rev (columns df)) with
    | Some old =>
        {| columns := List.map (fun col => if String.eqb col old then c else col)
                        (columns df);
           rows := List.map (rename_in_row old c) (rows df) |}
    | None =>
        {| columns := columns df ++ [c];
           rows := List.map (Row.set c (Str "")) (rows df) |}
    end.

Fixpoint resolve_rows (L : PyLib) (idx : index) (canon_list : list string)
  (rs : list Row.row) : result (list resolution) :=
  match rs with
  | [] => Ok []
  | r :: t =>
      x <- resolve_row L idx canon_list r ;;
      xs <- resolve_rows L idx canon_list t ;;
      Ok (x :: xs)
  end.

Definition clean_row (r : Row.row) (x : resolution) : Row.row :=
  Row.set "Reason_title" (Str (Reason_title x))
    (Row.set "Reason_tax" (Str (Reason_tax x))
       (Row.set "Brand_final" (Str (Brand_final x))
          (Row.set "Brand_title" (Str (Brand_title x))
             (Row.set "Brand_taxonomy" (Str (Brand_taxonomy x)) r)))).

(** [two_pass_brand]: the clean rows and the issue rows.  For a sheet
    without records [pd.DataFrame(results, index=df.index)] has no column,
    and [out['Brand_taxonomy']] raises [KeyError]. *)
Definition two_pass_brand (L : PyLib) (df : sheet) (brands : list brand_row)
  : result (list Row.row * list resolution) :=
  let df := fold_left (fun d c => ensure_column c d)
              ["Brand"; "Market"; "Plan Name"; "Campaign Name"] df in
  let '(idx, canon_list) := build_index L brands in
  out <- resolve_rows L idx canon_list (rows df) ;;
  match out with
  | [] => Raise (KeyError "Brand_taxonomy")
  | _ :: _ =>
      Ok (List.map (fun p => clean_row (fst p) (snd p)) (combine (rows df) out),
          out)
  end.

(** [resolve(market, alias)]: the brand Pass A gives for a raw market and a
    raw brand text against the index built from [brands]. *)
Definition resolve (L : PyLib) (brands : list brand_row) (market brand : string)
  : option string :=
  let '(idx, canon_list) := build_index L brands in
  fst (pass_a L idx canon_list (norm L market) (norm L brand)).

End TwoPass.

(** ** The pandas frames of [scripts/run_cleaning.py]

    A frame is kept by columns, as pandas does: the index labels and the
    named columns in their order. *)

Module Pandas.

Import PyStr.

Definition column : Type := list cell.

Record frame : Type := {
  index : list Z;
  cols : list (string * column)
}.

Definition nrows (f : frame) : nat := List.length (index f).

Definition names (f : frame) : list string := List.map fst (cols f).

Fixpoint lookup (c : string) (cs : list (string * column)) : option column :=
  match cs with
  | [] => None
  | (k, v) :: t => if String.eqb k c then Some v else lookup c t
  end.

(** [c in f.columns] *)
Definition has (c : string) (f : frame) : bool :=
  match lookup c (cols f) with
  | Some _ => true
  | None => false
  end.

(** [f[c]] *)
Definition get_col (c : string) (f : frame) : result column :=
  of_option (KeyError c) (lookup c (cols f)).

Fixpoint assign (c : string) (v : column) (cs : list (string * column))
  : list (string * column) :=
  match cs with
  | [] => [(c, v)]
  | (k, w) :: t => if String.eqb k c then (k, v) :: t else (k, w) :: assign c v t
  end.

(** [f[c] = v]: an existing column is replaced in place, a new one is added
    last. *)
Definition set_col (c : string) (v : column) (f : frame) : frame :=
  {| index := index f; cols := assign c v (cols f) |}.

(** [f[c] = x] for a scalar [x] *)
Definition set_scalar (c : string) (x : cell) (f : frame) : frame :=
  set_col c (repeat x (nrows f)) f.

(** [if c not in f.columns: f[c] = ""] *)
Definition ensure (c : string) (f : frame) : frame :=
  if has c f then f else set_scalar c (Str "") f.

(** [f.drop(columns=[c], errors="ignore")] *)
Definition drop (c : string) (f : frame) : frame :=
  {| index := index f;
     cols := List.filter (fun e => negb (String.eqb (fst e) c)) (cols f) |}.

(** [f[cs]] *)
Fixpoint select (cs : list string) (f : frame) : result (list (string * column)) :=
  match cs with
  | [] => Ok []
  | c :: t => v <- get_col c f ;; rest <- select t f ;; Ok ((c, v) :: rest)
  end.

(** The row at a position, as [iterrows] yields it. *)
Definition row_at (f : frame) (i : nat) : Row.row :=
  List.map (fun e => (fst e, nth i (snd e) NaN)) (cols f).

Definition iterrows (f : frame) : list Row.row :=
  List.map (row_at f) (seq 0 (nrows f)).

(** [f.loc[mask].iterrows()] *)
Definition rows_where (f : frame) (mask : list bool) : list Row.row :=
  List.map fst (List.filter snd (combine (iterrows f) mask)).

(** [s.astype(str).str.strip()] *)
Definition str_strip (L : PyLib) (v : column) : column :=
  List.map (fun c => Str (strip (text L c))) v.

(** [s.astype(str).str.strip() == ""] *)
Definition blank (L : PyLib) (c : cell) : bool :=
  String.eqb (strip (text L c)) "".

Definition is_blank (L : PyLib) (v : column) : list bool :=
  List.map (blank L) v.

(** [f.get(c, "").astype(str).str.strip()]: without the column, [get] gives
    the default [""], a [str], which has no [astype]. *)
Definition get_stripped (L : PyLib) (c : string) (f : frame) : result column :=
  match lookup c (cols f) with
  | Some v => Ok (str_strip L v)
  | None => Raise AttributeError
  end.

(** [s.fillna("")] *)
Definition fillna_empty (v : column) : column :=
  List.map (fun c => if isna c then Str "" else c) v.

(** [np.where(mask, a, b)] *)
Fixpoint where_ (mask : list bool) (a b : column) : column :=
  match mask, a, b with
  | m :: mt, x :: at_, y :: bt => (if m then x else y) :: where_ mt at_ bt
  | _, _, _ => []
  end.

(** *** [merge(how="left")] *)

(** Equality of join keys: missing values match each other. *)
Definition cell_eqb (a b : cell) : bool :=
  match a, b with
  | Str x, Str y => String.eqb x y
  | Num x, Num y => Qeq_bool x y
  | Day x, Day y => Z.eqb x y
  | _, _ => (isna a && isna b)%bool
  end.

Fixpoint tuple_eqb (a b : list cell) : bool :=
  match a, b with
  | [], [] => true
  | x :: s, y :: t => (cell_eqb x y && tuple_eqb s t)%bool
  | _, _ => false
  end.

(** The key tuple of every row. *)
Fixpoint key_columns (ks : list string) (f : frame) : result (list column) :=
  match ks with
  | [] => Ok []
  | k :: t => v <- get_col k f ;; rest <- key_columns t f ;; Ok (v :: rest)
  end.

Definition key_tuples (ks : list string) (f : frame) : result (list (list cell)) :=
  vs <- key_columns ks f ;;
  Ok (List.map (fun i => List.map (fun v => nth i v NaN) vs) (seq 0 (nrows f))).

(** The positions of the right rows with a given key, in the order of the
    right frame. *)
Definition matches (k : list cell) (rkeys : list (list cell)) : list nat :=
  List.map fst
    (List.filter (fun e => tuple_eqb k (snd e))
       (combine (seq 0 (List.length rkeys)) rkeys)).

(** The rows of a left merge: the left rows in their order, each once per
    matching right row, or once with no right row. *)
Definition merge_pairs (lkeys rkeys : list (list cell)) : list (nat * option nat) :=
  flat_map
    (fun e =>
       match matches (snd e) rkeys with
       | [] => [(fst e, None)]
       | js => List.map (fun j => (fst e, Some j)) js
       end)
    (combine (seq 0 (List.length lkeys)) lkeys).

(** The result of [left.merge(right, how="left", left_on=.., right_on=..,
    suffixes=("", sfx))].  Its index is [0 .. len-1]. *)
Record merged : Type := {
  m_left : list (string * column);
  m_right : list (string * column);
  m_pairs : list (nat * option nat)
}.

Definition merge (left right : frame) (left_on right_on : list string)
  : result merged :=
  match left_on with
  | [] => Raise MergeError
  | _ =>
      lk <- key_tuples left_on left ;;
      rk <- key_tuples right_on right ;;
      Ok {| m_left := cols left; m_right := cols right;
            m_pairs := merge_pairs lk rk |}
  end.

(** [m[c]]: a name of the left frame keeps its column (the right one of the
    same name gets the suffix); another name of the right frame gives the
    matched right cell, NaN where nothing matched. *)
Definition merged_col (m : merged) (c : string) : option column :=
  match lookup c (m_left m) with
  | Some v => Some (List.map (fun p => nth (fst p) v NaN) (m_pairs m))
  | None =>
      match lookup c (m_right m) with
      | Some w =>
          Some (List.map
                  (fun p => match snd p with
                            | Some j => nth j w NaN
                            | None => NaN
                            end)
                  (m_pairs m))
      | None => None
      end
  end.

(** [s.reindex(labels)] for a series [s] with the index [0 .. len-1]. *)
Definition reindex (s : column) (labels : list Z) : column :=
  List.map
    (fun l => if (0 <=? l) && (l <? Z.of_nat (List.length s))
              then nth (Z.to_nat l) s NaN else NaN)
    labels.

(** *** A merge, row by row *)

(** The key of the row at position [i] for the key columns [ks]. *)
Definition row_key (f : frame) (ks : list string) (i : nat) : list cell :=
  List.map (fun k => match lookup k (cols f) with
                     | Some v => nth i v NaN
                     | None => NaN
                     end) ks.

Definition all_keys (f : frame) (ks : list string) : list (list cell) :=
  List.map (row_key f ks) (seq 0 (nrows f)).

(** The first row of [ref] whose key on [right_on] is the key of the row [i]
    of [f] on [left_on]. *)
Definition first_match (f ref : frame) (left_on right_on : list string) (i : nat)
  : option nat :=
  hd_error (matches (row_key f left_on i) (all_keys ref right_on)).

(** The number of rows of [ref] that match the row [i] of [f]. *)
Definition match_count (f ref : frame) (left_on right_on : list string) (i : nat)
  : nat :=
  List.length (matches (row_key f left_on i) (all_keys ref right_on)).

(** [m[src].fillna("")] for a row whose reference row is [j]: the cell of the
    column [src] of [ref] ([""] when [ref] has no such column, when no row
    matched, or when the cell is missing). *)
Definition joined_cell (ref : frame) (src : string) (j : option nat) : cell :=
  match lookup src (cols ref) with
  | Some w =>
      let c := match j with
               | Some j => nth j w NaN
               | None => NaN
               end in
      if isna c then Str "" else c
  | None => Str ""
  end.

(** The default index [0 .. n-1]. *)
Definition range_index (f : frame) : Prop :=
  index f = List.map Z.of_nat (seq 0 (nrows f)).

(** Every column has one cell per row. *)
Definition well_formed (f : frame) : Prop :=
  forall c v, lookup c (cols f) = Some v -> List.length v = nrows f.

(** *** Relations between a frame and the frame a stage returns *)

(** [g] keeps the index of [f] and every column of [f] outside [S]. *)
Definition keeps (S : list string) (f g : frame) : Prop :=
  index g = index f
  /\ forall c v, lookup c (cols f) = Some v -> ~ In c S ->
                 lookup c (cols g) = Some v.

(** Every column of [g] is a column of [f] or one of [N]. *)
Definition adds (N : list string) (f g : frame) : Prop :=
  forall c, has c g = true -> has c f = true \/ In c N.

(** Every column of [f] is still a column of [g]. *)
Definition extends (f g : frame) : Prop :=
  forall c, has c f = true -> has c g = true.

(** What a stage does to the frame: the columns it may change, the columns
    it may add, and no column removed. *)
Definition stage (S N : list string) (f g : frame) : Prop :=
  keeps S f g /\ adds N f g /\ extends f g.

End Pandas.

(** ** [scripts/run_cleaning.py] *)

Module Cleaning.

Import PyStr Pandas.

(** The part of [rules/validation_rules.yaml] the functions below read;
    an absent section is an empty list, an absent scalar is [None]. *)
Record rules : Type := {
  brand_precedence : list (list string);
  brand_outputs : list (string * string);
  brand_regex : list (string * string);
  campaign_precedence : list (list string);
  campaign_outputs : list (string * string);
  compute_pairs : list (string * list (string * string));
  audit_enabled : option bool;
  tolerance_ratio : option Q
}.

(** An exception event, the dictionary [qa_event] builds. *)
Record event : Type := {
  ev_Market : cell;
  ev_Region : cell;
  ev_FX_Year : cell;
  ev_Plan_ID : cell;
  ev_Plan_Name : cell;
  Field : string;
  Issue_Type : string;
  Current_Value : cell;
  Suggested_Value : cell;
  Priority : string;
  Owner : string;
  Notes : string
}.

Definition qa_event (r : Row.row) (field issue : string)
  (current suggested : cell) (owner priority : string) : event :=
  {| ev_Market := Row.get_or_empty "Market" r;
     ev_Region := Row.get_or_empty "Region" r;
     ev_FX_Year := Row.get_or_empty "FX_Year" r;
     ev_Plan_ID := Row.get_or_empty "Plan ID" r;
     ev_Plan_Name := Row.get_or_empty "Plan Name" r;
     Field := field;
     Issue_Type := issue;
     Current_Value := current;
     Suggested_Value := suggested;
     Priority := priority;
     Owner := owner;
     Notes := "" |}.

(** [for c in cs: if c not in f.columns: f[c] = ""] *)
Definition ensure_all (cs : list string) (f : frame) : frame :=
  fold_left (fun g c => ensure c g) cs f.

(** [for c in cs: (add c if missing); f[c] = f[c].astype(str).str.strip()] *)
Definition normalise_columns (L : PyLib) (cs : list string) (f : frame) : frame :=
  fold_left
    (fun g c =>
       let g := ensure c g in
       match lookup c (cols g) with
       | Some v => set_col c (str_strip L v) g
       | None => g
       end)
    cs f.

(** The update of one target column from a merge [m] of [out]: the cells
    that are blank take the cell of [m[src]] found at their index label,
    an absent one counting as [""].  [brands_map] writes it with [np.where],
    [campaigns_map] and [vendors_map] with [out.loc[mask, dst] = ...]. *)
Definition fill_blank (L : PyLib) (msrc : column) (dst : string) (out : frame)
  : result frame :=
  d <- get_col dst out ;;
  let fill := is_blank L d in
  Ok (set_col dst (where_ fill (fillna_empty (reindex msrc (index out))) d) out).

(** A target cell after one rule: a blank cell takes the candidate. *)
Definition fill_cell (L : PyLib) (old cand : cell) : cell :=
  if blank L old then cand else old.

(** The candidate a rule [keys] offers to the row [i] of the plans for the
    reference column [src]. *)
Definition rule_cell (left_key : string -> string) (ref out : frame)
  (src : string) (i : nat) (keys : list string) : cell :=
  joined_cell ref src (first_match out ref (List.map left_key keys) keys i).

(** What the joiner needs from the plans, the reference table and the
    rules for the rows of its merges to line up with the plans: the default
    index, one cell per row in every column, at most one reference row per
    plan and rule, distinct targets, reference columns that are not columns
    of the plans, and keys that are not targets. *)
Record aligned (left_key : string -> string) (precedence : list (list string))
  (outputs : list (string * string)) (ref out : frame) : Prop := {
  al_index : range_index out;
  al_columns : well_formed out;
  al_single : forall keys j, In keys precedence -> (j < nrows out)%nat ->
      (match_count out ref (List.map left_key keys) keys j <= 1)%nat;
  al_targets : NoDup (List.map snd outputs);
  al_sources : forall src, In src (List.map fst outputs) -> has src out = false;
  al_keys : forall keys k, In keys precedence -> In k keys ->
      ~ In (left_key k) (List.map snd outputs)
}.

(** [if src not in m.columns: m[src] = ""], then [m[src]] *)
Definition merged_col_or_empty (m : merged) (src : string) : column :=
  match merged_col m src with
  | Some v => v
  | None => repeat (Str "") (List.length (m_pairs m))
  end.

Fixpoint fill_outputs (L : PyLib) (m : merged) (outputs : list (string * string))
  (out : frame) : result frame :=
  match outputs with
  | [] => Ok out
  | (src, dst) :: t =>
      out' <- fill_blank L (merged_col_or_empty m src) dst out ;;
      fill_outputs L m t out'
  end.

(** The loop [for keys in precedence] shared by [brands_map] and
    [campaigns_map]; [left_key] renames the keys on the side of the plans. *)
Fixpoint merge_by_precedence (L : PyLib) (left_key : string -> string)
  (precedence : list (list string)) (outputs : list (string * string))
  (ref out : frame) : result frame :=
  match precedence with
  | [] => Ok out
  | keys :: t =>
      m <- merge out ref (List.map left_key keys) keys ;;
      out' <- fill_outputs L m outputs out ;;
      merge_by_precedence L left_key t outputs ref out'
  end.

Definition brand_left_key (k : string) : string :=
  if String.eqb k "raw_brand" then "_raw_brand"
  else if String.eqb k "raw_variant" then "_raw_variant"
  else if String.eqb k "market" then "_market"
  else k.

(** The key columns [brands_map] and [vendors_map] add to the plans. *)
Definition brand_helpers : list string := ["_raw_brand"; "_raw_variant"; "_market"].
Definition vendor_helpers : list string := ["_raw_vendor"].

Definition brand_targets : list string :=
  ["Brand_clean"; "Brand_Type"; "Category_clean"; "SubCategory_clean";
   "Variant_clean"].

Definition brand_reference_columns : list string :=
  ["raw_brand"; "raw_variant"; "market"; "region"; "brand_clean";
   "brand_type"; "variant"; "category"; "subcategory"].

Definition is_empty_str (c : cell) : bool :=
  match c with
  | Str EmptyString => true
  | _ => false
  end.

(** One turn of [for k, rgx in hints.items()] *)
Definition apply_hint (L : PyLib) (plan_name : column) (hint : column)
  (k_rgx : string * string) : column :=
  let hit := List.map (fun c => re_contains L (snd k_rgx) (text L c)) plan_name in
  where_ (List.map (fun p => (fst p && is_empty_str (snd p))%bool)
            (combine hit hint))
    (repeat (Str (fst k_rgx)) (List.length hint)) hint.

Fixpoint map2 {A B C : Type} (f : A -> B -> C) (a : list A) (b : list B) : list C :=
  match a, b with
  | x :: s, y :: t => f x y :: map2 f s t
  | _, _ => []
  end.

(** [brands_map] up to the end of the loop over the precedence rules. *)
Definition brands_join (L : PyLib) (plans : frame) (R : rules) (brands_df : frame)
  : result frame :=
  let out := ensure_all brand_targets plans in
  rb <- get_stripped L "Brand" out ;;
  let out := set_col "_raw_brand" rb out in
  rv <- get_stripped L "Variant" out ;;
  let out := set_col "_raw_variant" rv out in
  mk <- get_stripped L "Market" out ;;
  let out := set_col "_market" mk out in
  let b := normalise_columns L brand_reference_columns brands_df in
  merge_by_precedence L brand_left_key (brand_precedence R) (brand_outputs R) b out.

Definition brand_unmapped_event (r : Row.row) : event :=
  qa_event r "Brand" "brand_unmapped" (Row.get_or_empty "Brand" r) (Str "")
    "Analytics" "P2".

Definition brand_conflict_event (r : Row.row) : event :=
  qa_event r "Brand" "brand_conflict_with_plan_name"
    (Row.get_or_empty "Brand_clean" r) (Row.get_or_empty "__hint" r)
    "Analytics" "P2".

(** The end of [brands_map], from [out["__hint"] = ""]: the frame with the
    hint column and the conflict events. *)
Definition brand_hints (L : PyLib) (R : rules) (out : frame)
  : result (frame * list event) :=
  let out := set_scalar "__hint" (Str "") out in
  let out :=
    match lookup "Plan Name" (cols out), lookup "__hint" (cols out) with
    | Some pn, Some h =>
        set_col "__hint" (fold_left (apply_hint L pn) (brand_regex R) h) out
    | _, _ => out
    end in
  h <- get_col "__hint" out ;;
  bc <- get_col "Brand_clean" out ;;
  let conflict :=
    map2 (fun x y => (negb (is_empty_str x)
                      && negb (String.eqb (text L y) (text L x)))%bool) h bc in
  Ok (out, List.map brand_conflict_event (rows_where out conflict)).

Definition brands_map (L : PyLib) (plans : frame) (R : rules) (brands_df : frame)
  (qa : list event) : result (frame * list event) :=
  out <- brands_join L plans R brands_df ;;
  bc <- get_col "Brand_clean" out ;;
  let qa := qa ++ List.map brand_unmapped_event (rows_where out (is_blank L bc)) in
  hc <- brand_hints L R out ;;
  Ok (drop "__hint" (fst hc), qa ++ snd hc).

Definition campaign_left_key (k : string) : string :=
  if String.eqb k "raw_campaign" then "_raw_campaign"
  else if String.eqb k "market" then "_market"
  else if String.eqb k "brand" then "_brand"
  else k.

Definition campaign_targets : list string :=
  ["Campaign_clean"; "Campaign_Type"; "Campaign_SubType"].

Definition campaign_reference_columns : list string :=
  ["raw_campaign"; "raw_plan_name"; "market"; "brand"; "campaign_clean";
   "campaign_type"; "campaign_subtype"].

(** [campaigns_map] up to the end of the loop over the precedence rules. *)
Definition campaigns_join (L : PyLib) (plans : frame) (R : rules) (camp_df : frame)
  : result frame :=
  let out := ensure_all campaign_targets plans in
  rc <- get_stripped L "Campaign Name" out ;;
  let out := set_col "_raw_campaign" rc out in
  mk <- get_stripped L "Market" out ;;
  let out := set_col "_market" mk out in
  br <- get_stripped L "Brand_clean" out ;;
  let out := set_col "_brand" br out in
  let c := normalise_columns L campaign_reference_columns camp_df in
  merge_by_precedence L campaign_left_key (campaign_precedence R)
    (campaign_outputs R) c out.

Definition campaign_unmapped_event (r : Row.row) : event :=
  qa_event r "Campaign Name" "campaign_unmapped"
    (Row.get_or_empty "Campaign Name" r) (Str "") "Analytics" "P3".

Definition campaigns_map (L : PyLib) (plans : frame) (R : rules) (camp_df : frame)
  (qa : list event) : result (frame * list event) :=
  out <- campaigns_join L plans R camp_df ;;
  cc <- get_col "Campaign_clean" out ;;
  let miss := is_blank L cc in
  cn <- get_col "Campaign Name" out ;;
  let out :=
    set_col "Campaign_clean"
      (where_ miss (List.map (fun x => Str (text L x)) cn) cc) out in
  Ok (out, qa ++ List.map campaign_unmapped_event (rows_where out miss)).

Definition vendor_targets : list string :=
  ["Vendor_clean"; "Vendor_House"; "Vendor_Type"].

Definition vendor_reference_columns : list string :=
  ["raw_vendor"; "vendor_clean"; "vendor_house"; "vendor_type"].

Definition vendor_outputs : list (string * string) :=
  [("vendor_clean", "Vendor_clean"); ("vendor_house", "Vendor_House");
   ("vendor_type", "Vendor_Type")].

Fixpoint fill_vendor (L : PyLib) (m : merged) (outputs : list (string * string))
  (out : frame) : result frame :=
  match outputs with
  | [] => Ok out
  | (src, dst) :: t =>
      d <- get_col dst out ;;
      msrc <- of_option (KeyError src) (merged_col m src) ;;
      out' <- fill_blank L msrc dst out ;;
      fill_vendor L m t out'
  end.

(** [vendors_map] up to the end of the loop over the three targets. *)
Definition vendors_join (L : PyLib) (plans : frame) (vend_df : frame)
  : result frame :=
  let out := ensure_all vendor_targets plans in
  rv <- get_stripped L "Vendor" out ;;
  let out := set_col "_raw_vendor" rv out in
  let v := normalise_columns L vendor_reference_columns vend_df in
  m <- merge out v ["_raw_vendor"] ["raw_vendor"] ;;
  fill_vendor L m vendor_outputs out.

Definition vendor_unmapped_event (r : Row.row) : event :=
  qa_event r "Vendor" "vendor_unmapped" (Row.get_or_empty "Vendor" r)
    (Str "_Placeholder") "Partnerships" "P2".

Definition vendors_map (L : PyLib) (plans : frame) (R : rules) (vend_df : frame)
  (qa : list event) : result (frame * list event) :=
  out <- vendors_join L plans vend_df ;;
  vc <- get_col "Vendor_clean" out ;;
  let miss := is_blank L vc in
  let out :=
    set_col "Vendor_clean"
      (where_ miss (repeat (Str "_Placeholder") (List.length vc)) vc) out in
  Ok (out, qa ++ List.map vendor_unmapped_event (rows_where out miss)).

(** *** FX merge, derived columns and audit *)

(** [pd.to_numeric(x, errors="coerce")] on one cell; [None] is NaN. *)
Definition to_numeric (L : PyLib) (c : cell) : option Q :=
  match c with
  | Str s => to_numeric_str L s
  | Num q => Some q
  | _ => None
  end.

Definition num_cell (o : option Q) : cell :=
  match o with
  | Some q => Num q
  | None => NaN
  end.

(** [.fillna(0)] on a numeric cell *)
Definition fillna0 (o : option Q) : Q :=
  match o with
  | Some q => q
  | None => 0%Q
  end.

Definition Qlt_bool (a b : Q) : bool := negb (Qle_bool b a).

Definition fx_reference_columns : list string :=
  ["market"; "currency"; "fx_year"; "fx_to_eur"; "fx_to_dkk"; "region"].

Definition fx_keys : list string := ["_Market"; "_Currency"; "_Year"].

(** [out[c] = pd.to_numeric(m[c], errors="coerce")]: the new series is
    aligned on the index labels of [out]. *)
Definition assign_rate (L : PyLib) (m : merged) (c : string) (out : frame)
  : result frame :=
  v <- of_option (KeyError c) (merged_col m c) ;;
  Ok (set_col c
        (reindex (List.map (fun x => num_cell (to_numeric L x)) v) (index out))
        out).

(** The inner loop [for local_col, out_col in mapping] *)
Definition derive_pairs (L : PyLib) (rate : list Q)
  (mapping : list (string * string)) (out : frame) : frame :=
  fold_left
    (fun g p =>
       match lookup (fst p) (cols g) with
       | Some v =>
           set_col (snd p)
             (map2 (fun x r => Num (fillna0 (to_numeric L x) * r)%Q) v rate) g
       | None => g
       end)
    mapping out.

Fixpoint derive (L : PyLib) (pairs : list (string * list (string * string)))
  (out : frame) : result frame :=
  match pairs with
  | [] => Ok out
  | (cur, mapping) :: t =>
      let rate_col :=
        if String.eqb (lower cur) "dkk" then "fx_to_dkk" else "fx_to_eur" in
      r <- get_col rate_col out ;;
      let rate := List.map (fun x => fillna0 (to_numeric L x)) r in
      derive L t (derive_pairs L rate mapping out)
  end.

Definition audit_checks : list (string * string) :=
  [("Total Cost to Client (Global)", "Planned_Spend_EUR");
   ("Total Cost to Client Actual (Global)", "Actualised_Spend_EUR");
   ("Net Media Cost (Global)", "Net_Media_EUR")].

(** The mask [bad] for one record, on the doubles [given] and [calc]: the
    difference and the quotient are rounded, the absolute value and the
    comparisons are exact. *)
Definition audit_bad (tol given calc : Q) : bool :=
  (Qlt_bool 0 given
   && Qlt_bool tol
        (Float64.round
           (Qabs (Float64.round (given - calc))
            / (if Qeq_bool given 0 then 1 else given))%Q))%bool.

Definition default_tolerance : Q := 2 # 100.

(** [float(audit.get("tolerance_ratio", 0.02))] *)
Definition tolerance (R : rules) : Q :=
  Float64.round
    match tolerance_ratio R with
    | Some t => t
    | None => default_tolerance
    end.

Definition audit_is_enabled (R : rules) : bool :=
  match audit_enabled R with
  | Some b => b
  | None => true
  end.

(** [pd.to_numeric(x, errors="coerce").fillna(0)] on one cell, as the
    double of the resulting [float64] series. *)
Definition to_float64 (L : PyLib) (c : cell) : Q :=
  Float64.round (fillna0 (to_numeric L c)).

(** The mask [bad] of one pair of columns. *)
Definition audit_mask (L : PyLib) (tol : Q) (given calc : column) : list bool :=
  map2 (fun g c => audit_bad tol (to_float64 L g) (to_float64 L c)) given calc.

(** [qa_event(r, calc_col, "eur_mismatch", current=str(r.get(given_col, 0)),
    suggested=str(r.get(calc_col, 0)), owner="Analytics", priority="P3")] *)
Definition mismatch_event (L : PyLib) (p : string * string) (r : Row.row) : event :=
  qa_event r (snd p) "eur_mismatch"
    (Str (text L (match Row.get (fst p) r with
                  | Some x => x
                  | None => Num 0
                  end)))
    (Str (text L (match Row.get (snd p) r with
                  | Some x => x
                  | None => Num 0
                  end)))
    "Analytics" "P3".

(** The events of one pair [(given_col, calc_col)] of the audit. *)
Definition audit_pair (L : PyLib) (tol : Q) (out : frame) (p : string * string)
  : list event :=
  match lookup (fst p) (cols out), lookup (snd p) (cols out) with
  | Some given, Some calc =>
      List.map (mismatch_event L p)
        (rows_where out (audit_mask L tol given calc))
  | _, _ => []
  end.

Definition audit (L : PyLib) (R : rules) (out : frame) : list event :=
  if audit_is_enabled R
  then flat_map (audit_pair L (tolerance R) out) audit_checks
  else [].

(** The reported and the computed total of a record, as the audit reads
    them: [pd.to_numeric(.., errors="coerce").fillna(0)]. *)
Definition audited (L : PyLib) (v : column) (i : nat) : Q :=
  to_float64 L (nth i v NaN).

Definition fx_missing_event (L : PyLib) (r : Row.row) : event :=
  qa_event r "FX" "fx_missing"
    (Str (text L (Row.get_or_empty "Market" r) ++ "/"
          ++ text L (Row.get_or_empty "Currency" r) ++ "/"
          ++ text L (Row.get_or_empty "FX_Year" r))%string)
    (Str "") "Analytics" "P1".

(** The plans with the three key columns of the FX merge. *)
Definition fx_left (L : PyLib) (plans : frame) : result frame :=
  let out := plans in
  mk <- get_stripped L "Market" out ;;
  let out := set_col "_Market" mk out in
  cu <- get_stripped L "Currency" out ;;
  let out := set_col "_Currency" (List.map (fun c => Str (upper (text L c))) cu) out in
  yr <- get_stripped L "FX_Year" out ;;
  Ok (set_col "_Year" yr out).

(** The rate table as it enters the merge: its six columns stripped, the
    three key columns, and the selection of the columns merged. *)
Definition fx_right (L : PyLib) (fx_df : frame) : result frame :=
  let fx := normalise_columns L fx_reference_columns fx_df in
  fm <- get_col "market" fx ;;
  let fx := set_col "_Market" fm fx in
  fc <- get_col "currency" fx ;;
  let fx := set_col "_Currency" (List.map (fun c => Str (upper (text L c))) fc) fx in
  fy <- get_col "fx_year" fx ;;
  let fx := set_col "_Year" fy fx in
  right <- select (fx_keys ++ ["fx_to_eur"; "fx_to_dkk"; "region"]) fx ;;
  Ok {| index := index fx; cols := right |}.

(** [fx_merge_and_derive] up to the two rate columns. *)
Definition fx_rates (L : PyLib) (plans fx_df : frame) : result frame :=
  left <- fx_left L plans ;;
  right <- fx_right L fx_df ;;
  m <- merge left right fx_keys fx_keys ;;
  out <- assign_rate L m "fx_to_eur" left ;;
  assign_rate L m "fx_to_dkk" out.

Definition fx_merge_and_derive (L : PyLib) (plans : frame) (R : rules)
  (fx_df : frame) (qa : list event) : result (frame * list event) :=
  out <- fx_rates L plans fx_df ;;
  e <- get_col "fx_to_eur" out ;;
  d <- get_col "fx_to_dkk" out ;;
  let miss := map2 (fun x y => (isna x || isna y)%bool) e d in
  let qa := qa ++ List.map (fx_missing_event L) (rows_where out miss) in
  out <- derive L (compute_pairs R) out ;;
  Ok (out, qa ++ audit L R out).

(** A cell that holds a number equal to zero. *)
Definition zero_at (i : nat) (f : frame) (c : string) : Prop :=
  exists col q, lookup c (cols f) = Some col /\ nth i col NaN = Num q /\ (q == 0)%Q.

(** A cell that holds no number. *)
Definition missing_at (i : nat) (f : frame) (c : string) : Prop :=
  exists col, lookup c (cols f) = Some col /\ nth i col NaN = NaN.

End Cleaning.

(** ** A concrete library for the examples

    The examples below run the scripts on concrete sheets; they take the
    library functions at the values these have on plain ASCII data: decimal
    rendering of numbers, ISO dates, decimal literals, literal patterns. *)

Module Lib.

Import PyStr PyFloat Calendar.

Definition render_Z (z : Z) : string := NilZero.string_of_int (Z.to_int z).

(** The digits of [r / d] after the decimal point, at most [fuel] of them. *)
Fixpoint frac_digits (fuel : nat) (r d : Z) : string :=
  match fuel with
  | O => EmptyString
  | S k =>
      if r =? 0 then EmptyString
      else String (ascii_of_nat (Z.to_nat (48 + (10 * r) / d)))
             (frac_digits k ((10 * r) mod d) d)
  end.

(** Integral values print as a Python [int], the others as a decimal
    expansion. *)
Definition render_Q (q : Q) : string :=
  let n := Qnum q in
  let d := Zpos (Qden q) in
  let a := Z.abs n in
  let body :=
    if a mod d =? 0 then render_Z (a / d)
    else (render_Z (a / d) ++ "." ++ frac_digits 17 (a mod d) d)%string in
  if n <? 0 then String "-" body else body.

(** The civil date of a day number. *)
Definition civil_from_days (z : Z) : Z * Z * Z :=
  let z := z + 719468 in
  let era := z / 146097 in
  let doe := z - era * 146097 in
  let yoe := (doe - doe / 1460 + doe / 36524 - doe / 146096) / 365 in
  let y := yoe + era * 400 in
  let doy := doe - (365 * yoe + yoe / 4 - yoe / 100) in
  let mp := (5 * doy + 2) / 153 in
  let d := doy - (153 * mp + 2) / 5 + 1 in
  let m := if mp <? 10 then mp + 3 else mp - 9 in
  (if m <=? 2 then y + 1 else y, m, d).

Definition pad2 (z : Z) : string :=
  if z <? 10 then String "0" (render_Z z) else render_Z z.

Definition render_day (d : Z) : string :=
  let '(y, m, dd) := civil_from_days d in
  (render_Z y ++ "-" ++ pad2 m ++ "-" ++ pad2 dd ++ " 00:00:00")%string.

Definition lib_str (c : cell) : string :=
  match c with
  | Str s => s
  | Num q => render_Q q
  | NaN => "nan"
  | Day d => render_day d
  | NaT => "NaT"
  end.

(** [YYYY-MM-DD] *)
Definition iso_date (s : string) : option Z :=
  match split_first (fun c => Ascii.eqb c "-") s with
  | (ys, Some rest) =>
      match split_first (fun c => Ascii.eqb c "-") rest with
      | (ms, Some ds) =>
          match digits_us 0 0 false ys, digits_us 0 0 false ms,
                digits_us 0 0 false ds with
          | Some (y, 4%nat), Some (m, 2%nat), Some (d, 2%nat) =>
              let n := days_from_civil y m d in
              if (let '(y', m', d') := civil_from_days n in
                  (y' =? y) && (m' =? m) && (d' =? d))%bool
              then Some n else None
          | _, _, _ => None
          end
      | _ => None
      end
  | _ => None
  end.

Definition lib_to_datetime (c : cell) : option Z :=
  match c with
  | Day d => Some d
  | Str s => iso_date (strip s)
  | Num q => Some (Qfloor (q / 86400000000000))
  | _ => None
  end.

Definition lib_to_numeric (s : string) : option Q :=
  match py_float s with
  | FVal q => Some q
  | _ => None
  end.

Definition ascii_lib : PyLib :=
  {| py_str := lib_str;
     to_datetime := lib_to_datetime;
     year_ok := fun y => (1678 <=? y) && (y <=? 2261);
     to_numeric_str := lib_to_numeric;
     re_contains := contains;
     strip_accents := fun s => s;
     casefold := lower |}.

End Lib.

From Stdlib Require Import Sorted Qpower Lqa.

(** ** Day counts and totals of a sheet

    What the two expanders are expected to conserve: the number of days of a
    record and the total of a column over the records of a sheet.  An
    amount is the double the parser returns; the totals are the exact sums
    of these doubles. *)

Module Totals.

(** The day a date column holds for a record, as [pd.to_datetime] reads
    it. *)
Definition day_of (L : PyLib) (c : string) (r : Row.row) : option Z :=
  match Row.get c r with
  | Some v => to_datetime L v
  | None => None
  end.

(** A record with both dates, the end not before the start. *)
Definition dated (L : PyLib) (start_col end_col : string) (r : Row.row) : bool :=
  match day_of L start_col r, day_of L end_col r with
  | Some x, Some y => x <=? y
  | _, _ => false
  end.

(** The number of days of a record, both ends included. *)
Definition days (L : PyLib) (start_col end_col : string) (r : Row.row) : Z :=
  match day_of L start_col r, day_of L end_col r with
  | Some x, Some y => y - x + 1
  | _, _ => 0
  end.

Definition total_days (L : PyLib) (start_col end_col : string)
  (rs : list Row.row) : Z :=
  fold_right (fun r acc => days L start_col end_col r + acc) 0 rs.

(** The amount a record holds in a column, as [parse_number] reads it. *)
Definition budget_value (L : PyLib) (c : string) (r : Row.row) : Q :=
  Float64.round
    (cell_value (match Row.get c r with
                 | Some v => Budgets.parse_number L v
                 | None => None
                 end)).

Definition budget_total (L : PyLib) (c : string) (rs : list Row.row) : Q :=
  fold_right (fun r acc => (budget_value L c r + acc)%Q) 0%Q rs.

(** The total of the magnitudes of the amounts. *)
Definition budget_magnitude (L : PyLib) (c : string) (rs : list Row.row) : Q :=
  fold_right (fun r acc => (Qabs (budget_value L c r) + acc)%Q) 0%Q rs.

(** The amount a record holds in a column, as [to_float_safe] reads it. *)
Definition plan_value (L : PyLib) (c : string) (r : Row.row) : Q :=
  Float64.round (cell_value (option_map (Plans.to_float_safe L) (Row.get c r))).

Definition plan_total (L : PyLib) (c : string) (rs : list Row.row) : Q :=
  fold_right (fun r acc => (plan_value L c r + acc)%Q) 0%Q rs.

Definition plan_magnitude (L : PyLib) (c : string) (rs : list Row.row) : Q :=
  fold_right (fun r acc => (Qabs (plan_value L c r) + acc)%Q) 0%Q rs.

(** The leap years of the Gregorian calendar. *)
Definition leap_year (y : Z) : bool :=
  ((y mod 4 =? 0) && (negb (y mod 100 =? 0) || (y mod 400 =? 0)))%bool.

Definition days_in_year (y : Z) : Z := if leap_year y then 366 else 365.

End Totals.

(** A cell read from a sheet that is a text, a number or a missing number
    (not a timestamp). *)
Definition plain_cell (c : cell) : bool :=
  match c with
  | Str _ | Num _ | NaN => true
  | Day _ | NaT => false
  end.

(** ** Header cleaning of [scripts/split_daily_budgets.py] *)

Module Headers.

Import PyStr.

(** [clean_header(s)]: a missing header is returned as it is; else the text
    of the header after NFKC, with every run of white space turned into one
    space, stripped. *)
Definition clean_header (L : PyLib) (s : cell) : cell :=
  if isna s then s
  else Str (strip (squeeze false (Budgets.nfkc (text L s)))).

(** A text whose white space is made of single spaces only; [in_run] says
    whether the character before was white space. *)
Fixpoint spaced (in_run : bool) (s : string) : bool :=
  match s with
  | EmptyString => true
  | String c t =>
      if is_space c
      then (Ascii.eqb c " " && negb in_run && spaced true t)%bool
      else spaced false t
  end.

End Headers.

(** ** The columns of the FX rules *)

Module Fx.

(** The columns [compute_pairs] derives and the local columns it reads. *)
Definition derived_columns (pairs : list (string * list (string * string)))
  : list string :=
  flat_map (fun p => List.map snd (snd p)) pairs.

Definition local_columns (pairs : list (string * list (string * string)))
  : list string :=
  flat_map (fun p => List.map fst (snd p)) pairs.

(** [rate_col = "fx_to_dkk" if cur.lower()=="dkk" else "fx_to_eur"] *)
Definition rate_column (cur : string) : string :=
  if String.eqb (PyStr.lower cur) "dkk" then "fx_to_dkk" else "fx_to_eur".

(** The first hint, in the order of the rules, whose pattern is found in a
    plan name and whose key is not empty. *)
Definition first_hint (L : PyLib) (hints : list (string * string))
  (plan_name : cell) : cell :=
  match List.find (fun kr => (re_contains L (snd kr) (text L plan_name)
                              && negb (String.eqb (fst kr) ""))%bool) hints with
  | Some kr => Str (fst kr)
  | None => Str ""
  end.

End Fx.

(** ** More of [scripts/run_cleaning.py]: coercion, fiscal year, region *)

Module Coercion.

Import PyStr Pandas Cleaning.

(** The alternatives of the pattern of [coerce_numeric_cols]. *)
Definition numeric_words : list string :=
  ["cost"; "spend"; "views"; "impressions"; "fee"; "percent"; "rate"; "eur";
   "dkk"; "cpm"; "vcr"; "reach"; "frequency"; "budget"].

(** [re.search(pat, c, re.I)]: one of the words occurs in the name, letter
    case apart. *)
Definition num_like (c : string) : bool :=
  existsb (fun w => contains w (lower c)) numeric_words.

(** The characters of [[,%€$£ ]] the model can spell: comma, percent,
    dollar, space and the pound sign (character 163). *)
Definition dropped_char (c : ascii) : bool :=
  (Ascii.eqb c "," || Ascii.eqb c "%" || Ascii.eqb c "$" || Ascii.eqb c " "
   || Nat.eqb (code c) 163)%bool.

(** What [[^\d\.\-]] leaves: digits, dot and minus. *)
Definition kept_char (c : ascii) : bool :=
  (is_digit c || Ascii.eqb c "." || Ascii.eqb c "-")%bool.

(** One cell of a numeric-like column: [astype(str)], the two
    [str.replace], then [pd.to_numeric(.., errors="coerce")]. *)
Definition clean_number (L : PyLib) (c : cell) : cell :=
  let s := text L c in
  let s := str_filter (fun ch => negb (dropped_char ch)) s in
  let s := str_filter kept_char s in
  num_cell (to_numeric_str L s).

Definition coerce_numeric_cols (L : PyLib) (df : frame) : frame :=
  fold_left
    (fun g c =>
       match lookup c (cols g) with
       | Some v => set_col c (List.map (clean_number L) v) g
       | None => g
       end)
    (List.filter num_like (names df)) df.

End Coercion.

Module FxYear.

Import PyStr Pandas.

(** [re.search(r"(20\d{2})", filename)] and [int(m.group(1))]: the first
    place where [20] is followed by two digits. *)
Fixpoint year_in (s : string) : option Z :=
  match s with
  | EmptyString => None
  | String c t =>
      match t with
      | String z (String a (String b _)) =>
          if (Ascii.eqb c "2" && Ascii.eqb z "0" && is_digit a && is_digit b)%bool
          then Some (2000 + 10 * digit_val a + digit_val b)
          else year_in t
      | _ => year_in t
      end
  end.

Definition add_fx_year_from_filename (df : frame) (filename : string) : frame :=
  match year_in filename with
  | Some y =>
      if has "FX_Year" df then df
      else set_scalar "FX_Year" (Num (inject_Z y)) df
  | None => df
  end.

End FxYear.

Module Region.

Import PyStr Pandas Cleaning.

(** [map_reg]: the dictionary from a market of the rate table to the region
    of the first row that has it. *)
Definition map_reg (L : PyLib) (fx_df : frame) : list (string * string) :=
  let fx := normalise_columns L ["market"; "region"] fx_df in
  match lookup "market" (cols fx), lookup "region" (cols fx) with
  | Some m, Some r =>
      List.map (fun p => (text L (fst p), text L (snd p))) (combine m r)
  | _, _ => []
  end.

(** [d.get(k)] on a dictionary whose first entry for a key is the one kept. *)
Fixpoint dict_find (k : string) (d : list (string * string)) : option string :=
  match d with
  | [] => None
  | (k', v) :: t => if String.eqb k' k then Some v else dict_find k t
  end.

(** The body of the loop of [region_check]: the events of one record. *)
Definition check_row (L : PyLib) (d : list (string * string)) (r : Row.row)
  : list event :=
  let mkt := strip (text L (Row.get_or_empty "Market" r)) in
  let reg := strip (text L (Row.get_or_empty "Region" r)) in
  let exp := match dict_find mkt d with
             | Some e => e
             | None => ""
             end in
  (if (negb (String.eqb exp "") && negb (String.eqb reg "")
       && negb (String.eqb exp reg))%bool
   then [qa_event r "Region" "region_mismatch" (Str reg) (Str exp)
           "Analytics" "P3"]
   else [])
  ++ (if (negb (String.eqb mkt "")
          && match dict_find mkt d with Some _ => false | None => true end)%bool
      then [qa_event r "Market" "market_unknown" (Str mkt) (Str "")
              "Analytics" "P3"]
      else []).

(** [region_check]; [enabled] is [rules["region_check"]["enabled"]], [None]
    when the rules do not give it. *)
Definition region_check (L : PyLib) (enabled : option bool) (plans fx_df : frame)
  (qa : list event) : frame * list event :=
  match enabled with
  | Some true => (plans, qa ++ flat_map (check_row L (map_reg L fx_df))
                                 (iterrows plans))
  | _ => (plans, qa)
  end.

End Region.

(** ** Column names of [read_excel_first] *)

Module Excel.

Import PyStr.

(** [re.sub(r"\s+", " ", c.strip())] *)
Definition normal_name (c : string) : string := squeeze false (strip c).

(** [str(n)] for a count *)
Definition decimal (n : nat) : string := NilZero.string_of_uint (Nat.to_uint n).

(** The dictionary [seen], from a name to the number of times it came
    back. *)
Fixpoint seen_get (k : string) (seen : list (string * nat)) : option nat :=
  match seen with
  | [] => None
  | (k', n) :: t => if String.eqb k' k then Some n else seen_get k t
  end.

Fixpoint seen_set (k : string) (n : nat) (seen : list (string * nat))
  : list (string * nat) :=
  match seen with
  | [] => [(k, n)]
  | (k', m) :: t =>
      if String.eqb k' k then (k', n) :: t else (k', m) :: seen_set k n t
  end.

(** The loop that normalises and de-duplicates the column names. *)
Fixpoint dedup_loop (seen : list (string * nat)) (cs : list string)
  : list string :=
  match cs with
  | [] => []
  | c :: t =>
      let cc := normal_name c in
      match seen_get cc seen with
      | Some n =>
          (cc ++ "__" ++ decimal (S n))%string
          :: dedup_loop (seen_set cc (S n) seen) t
      | None => cc :: dedup_loop (seen_set cc 0 seen) t
      end
  end.

Definition dedup_columns (cs : list string) : list string := dedup_loop [] cs.

(** The name the loop gives to a column whose normalised name [cc] was met
    [k] times before. *)
Definition renamed (cc : string) (k : nat) : string :=
  match k with
  | O => cc
  | S _ => (cc ++ "__" ++ decimal k)%string
  end.

End Excel.

(** ** The plan status step of [process_plans] *)

Module Status.

Import PyStr Pandas Cleaning.

(** The rows of a list a mask keeps. *)
Fixpoint keep {A : Type} (mask : list bool) (l : list A) : list A :=
  match mask, l with
  | m :: mt, x :: t => if m then x :: keep mt t else keep mt t
  | _, _ => []
  end.

(** [df.loc[mask]]: the rows a mask keeps, with their index labels. *)
Definition loc (mask : list bool) (df : frame) : frame :=
  {| index := keep mask (index df);
     cols := List.map (fun e => (fst e, keep mask (snd e))) (cols df) |}.

(** [s.astype(str).str.lower().isin(["cancelled","canceled"])] *)
Definition is_cancelled (L : PyLib) (c : cell) : bool :=
  existsb (String.eqb (lower (text L c))) ["cancelled"; "canceled"].

Definition status_defaulted_event (r : Row.row) : event :=
  qa_event r "Plan Status" "status_defaulted" (Str "") (Str "Planned")
    "Offshore Ops" "P3".

Definition row_dropped_event (r : Row.row) : event :=
  qa_event r "Plan Status" "row_dropped_cancelled" (Str "") (Str "")
    "Analytics" "P3".

(** The block [if "Plan Status" in df.columns: ...] of [process_plans];
    [default] is [rules["defaults"]["Plan Status"]], ["Planned"] when the
    rules do not give it. *)
Definition plan_status (L : PyLib) (default : option cell) (df : frame)
  (qa : list event) : frame * list event :=
  match lookup "Plan Status" (cols df) with
  | None => (df, qa)
  | Some st =>
      let blank := is_blank L st in
      let d := match default with Some x => x | None => Str "Planned" end in
      let st1 := if existsb (fun b => b) blank
                 then List.map (fun p : bool * cell => if fst p then d else snd p)
                        (combine blank st)
                 else st in
      let df1 := if existsb (fun b => b) blank
                 then set_col "Plan Status" st1 df else df in
      let qa1 := if existsb (fun b => b) blank
                 then qa ++ List.map status_defaulted_event (rows_where df1 blank)
                 else qa in
      let cancelled := List.map (is_cancelled L) st1 in
      (loc (List.map negb cancelled) df1,
       qa1 ++ List.map row_dropped_event (rows_where df1 cancelled))
  end.

End Status.

(** ** [actualisation_backfill] of [scripts/run_cleaning.py] *)

Module Backfill.

Import PyStr Pandas Cleaning.

(** One scope ([local] or [global]) of [rules["actualisation_backfill"]]:
    a key the rules do not give is [None]. *)
Record scope : Type := {
  actual_col : option string;
  planned_col : option string;
  qa_flag : option string
}.

Record config : Type := {
  enabled : option bool;
  age_days_threshold : option Z;
  local_scope : scope;
  global_scope : scope
}.

(** A column as [coerce_dates] leaves it: timestamps and NaT only.  The
    [.dt] accessor raises [AttributeError] on any other column. *)
Definition is_date (c : cell) : bool :=
  match c with
  | Day _ | NaT => true
  | _ => false
  end.

(** [(today - when.dt.floor("D")).dt.days >= thresh] for one record; a
    record without date is not old. *)
Definition is_old (today thresh : Z) (when : cell) : bool :=
  match when with
  | Day d => thresh <=? today - d
  | _ => false
  end.

(** [days_old] as the event records it. *)
Definition days_old (today : Z) (when : cell) : Z :=
  match when with
  | Day d => today - d
  | _ => 0
  end.

(** [end.where(end.notna(), start)]; without a [Start Date] column the
    replacement is missing. *)
Definition reference_dates (e : column) (s : option column) : column :=
  match s with
  | Some s => map2 (fun x y => if isna x then y else x) e s
  | None => List.map (fun x => if isna x then NaT else x) e
  end.

(** An event of the backfill with its extra field [Days_Since_End]. *)
Definition backfill_event (L : PyLib) (a p flag : string) (r : Row.row) (days : Z)
  : event * Z :=
  (qa_event r a flag (Str "0/blank")
     (Str (text L (match Row.get p r with Some x => x | None => Num 0 end)))
     "Analytics" "P2",
   days).

(** The rows of a list and the values of a second list a mask keeps. *)
Fixpoint masked {A B : Type} (mask : list bool) (l : list A) (m : list B)
  : list (A * B) :=
  match mask, l, m with
  | b :: bt, x :: lt, y :: mt =>
      if b then (x, y) :: masked bt lt mt else masked bt lt mt
  | _, _, _ => []
  end.

(** One turn of [for scope in ["local","global"]]. *)
Definition backfill_scope (L : PyLib) (today : Z) (old_mask : list bool)
  (when : column) (sc : scope) (st : frame * list (event * Z))
  : frame * list (event * Z) :=
  let '(out, qa) := st in
  match actual_col sc, planned_col sc with
  | Some a, Some p =>
      match lookup a (cols out), lookup p (cols out) with
      | Some av, Some pv =>
          let flag := match qa_flag sc with
                      | Some f => f
                      | None => "missing_actualisation"
                      end in
          let miss :=
            map2 (fun o x =>
                    (o && (isna x
                           || Qeq_bool (fillna0 (to_numeric L x)) 0))%bool)
              old_mask av in
          let filled :=
            List.map (fun t : bool * (cell * cell) =>
                        if fst t then Num (fillna0 (to_numeric L (snd (snd t))))
                        else fst (snd t))
              (combine miss (combine av pv)) in
          let out' := set_col a filled out in
          (out',
           qa ++ List.map (fun rd => backfill_event L a p flag (fst rd)
                                       (days_old today (snd rd)))
                   (masked miss (iterrows out') when))
      | _, _ => st
      end
  | _, _ => st
  end.

(** [actualisation_backfill]: the frame and the events it appends; [today]
    is the date of the run.  The model is positional, which is what the
    code does on a frame whose index labels are distinct. *)
Definition actualisation_backfill (L : PyLib) (today : Z) (cfg : config)
  (plans : frame) : result (frame * list (event * Z)) :=
  match enabled cfg with
  | Some false => Ok (plans, [])
  | _ =>
      let thresh := match age_days_threshold cfg with
                    | Some t => t
                    | None => 30
                    end in
      match lookup "End Date" (cols plans) with
      | None => Raise AttributeError
      | Some e =>
          let s := lookup "Start Date" (cols plans) in
          if (forallb is_date e
              && match s with Some s => forallb is_date s | None => true end)%bool
          then
            let when := reference_dates e s in
            let old_mask := List.map (is_old today thresh) when in
            Ok (backfill_scope L today old_mask when (global_scope cfg)
                  (backfill_scope L today old_mask when (local_scope cfg)
                     (plans, [])))
          else Raise AttributeError
      end
  end.

End Backfill.
(** ** Example sheets and tables *)

(** The audit on three records: reported 100 against 97 and against 99,
    and a reported total of zero. *)
Definition audit_frame : Pandas.frame :=
  {| Pandas.index := [0; 1; 2];
     Pandas.cols :=
       [("Total Cost to Client (Global)", [Num 100; Num 100; Num 0]);
        ("Planned_Spend_EUR", [Num 97; Num 99; Num 5])] |}.

Definition no_rules : Cleaning.rules :=
  {| Cleaning.brand_precedence := []; Cleaning.brand_outputs := [];
     Cleaning.brand_regex := []; Cleaning.campaign_precedence := [];
     Cleaning.campaign_outputs := []; Cleaning.compute_pairs := [];
     Cleaning.audit_enabled := None; Cleaning.tolerance_ratio := None |}.


(** A market-scoped and a global row of the brand taxonomy with the same
    alias, in both orders. *)
Definition scoped_row : TwoPass.brand_row :=
  {| TwoPass.brand_canonical := "Acme Corp"; TwoPass.market := "DK";
     TwoPass.alias := "acme" |}.

Definition global_row : TwoPass.brand_row :=
  {| TwoPass.brand_canonical := "Bolt Ltd"; TwoPass.market := "";
     TwoPass.alias := "acme" |}.

(** A plan whose brand and titles name nothing of the taxonomy. *)
Definition unknown_plan : Row.row :=
  [("Brand", Str "Zed"); ("Market", Str "DK"); ("Plan Name", Str "Spring push");
   ("Campaign Name", NaN)].

(** A budget line and a plan line whose end date precedes the start date. *)
Definition inverted_budget : sheet :=
  {| columns := ["Min Start Date"; "Max End Date"; "FX Year"; "Planned (Local)"];
     rows := [[("Min Start Date", Str "2024-01-03");
               ("Max End Date", Str "2024-01-01");
               ("FX Year", Num 2024); ("Planned (Local)", Num 300)]] |}.

Definition inverted_plan : sheet :=
  {| columns := ["Start_Date"; "End_Date"; "Views"];
     rows := [[("Start_Date", Str "2024-01-03"); ("End_Date", Str "2024-01-01");
               ("Views", Num 300)]] |}.

(** Three days of January for a planned value of 300. *)
Definition three_days : Row.row :=
  [("Min Start Date", Day 19723); ("Max End Date", Day 19725);
   ("FX Year", Num 2024); ("Planned (Local)", Num 300)].

(** A budget line without dates and without a usable fiscal year; its
    planned value is the empty string. *)
Definition undated_budget : Row.row :=
  [("Min Start Date", NaT); ("Max End Date", Day 19725); ("FX Year", Str "n/a");
   ("Planned (Local)", Str ""); ("Budget (Local)", Num 900)].

(** A plan line without a start date. *)
Definition undated_plan : sheet :=
  {| columns := ["Start_Date"; "End_Date"; "Views"];
     rows := [[("Start_Date", Str "tbc"); ("End_Date", Str "2024-01-01");
               ("Views", Num 500)]] |}.

(** Two plans, a brand table and two precedence rules.  The first plan
    matches the first rule on a row of the table whose canonical brand is
    still blank, and the second rule on another row. *)
Definition plans_frame : Pandas.frame :=
  {| Pandas.index := [0; 1];
     Pandas.cols :=
       [("Brand", [Str "acme"; Str "zed"]);
        ("Variant", [Str "classic"; Str ""]);
        ("Market", [Str "DK"; Str "DK"]);
        ("Plan Name", [Str "Spring"; Str "Autumn"]);
        ("Vendor", [Str "Metro"; Str "Nobody"]);
        ("Spend", [Num 100; Num 50])] |}.

Definition brands_table : Pandas.frame :=
  {| Pandas.index := [0; 1; 2];
     Pandas.cols :=
       [("raw_brand", [Str "acme"; Str "other"; Str "bolt"]);
        ("raw_variant", [Str "x"; Str "classic"; Str "y"]);
        ("market", [Str "DK"; Str "DK"; Str "SE"]);
        ("brand_clean", [Str ""; Str "Acme Classic"; Str "Bolt"])] |}.

Definition brand_rules : Cleaning.rules :=
  {| Cleaning.brand_precedence := [["raw_brand"; "market"]; ["raw_variant"]];
     Cleaning.brand_outputs := [("brand_clean", "Brand_clean")];
     Cleaning.brand_regex := []; Cleaning.campaign_precedence := [];
     Cleaning.campaign_outputs := []; Cleaning.compute_pairs := [];
     Cleaning.audit_enabled := None; Cleaning.tolerance_ratio := None |}.

Definition vendors_table : Pandas.frame :=
  {| Pandas.index := [0];
     Pandas.cols :=
       [("raw_vendor", [Str "Metro"]); ("vendor_clean", [Str "Metro Media"]);
        ("vendor_house", [Str "Metro Group"]); ("vendor_type", [Str "Publisher"])] |}.

(** The plans as the loop of [brands_map] sees them, and a brand table
    whose rows all have a canonical brand. *)
Definition joiner_plans : Pandas.frame :=
  {| Pandas.index := [0; 1];
     Pandas.cols :=
       [("_raw_brand", [Str "acme"; Str "zed"]);
        ("_raw_variant", [Str "classic"; Str ""]);
        ("_market", [Str "DK"; Str "DK"]);
        ("Brand_clean", [Str ""; Str ""])] |}.

Definition curated_table : Pandas.frame :=
  {| Pandas.index := [0; 1; 2];
     Pandas.cols :=
       [("raw_brand", [Str "acme"; Str "other"; Str "bolt"]);
        ("raw_variant", [Str "x"; Str "classic"; Str "y"]);
        ("market", [Str "DK"; Str "DK"; Str "SE"]);
        ("brand_clean", [Str "Acme"; Str "Acme Classic"; Str "Bolt"])] |}.

(** A budget line in Swedish kronor and a rate table without kronor. *)
Definition kronor_plans : Pandas.frame :=
  {| Pandas.index := [0; 1];
     Pandas.cols :=
       [("Market", [Str "DK"; Str "SE"]);
        ("Currency", [Str "dkk"; Str "SEK"]);
        ("FX_Year", [Num 2024; Num 2024]);
        ("Planned Spend (Local)", [Num 7450; Num 1000])] |}.

Definition rates_table : Pandas.frame :=
  {| Pandas.index := [0];
     Pandas.cols :=
       [("market", [Str "DK"]); ("currency", [Str "DKK"]);
        ("fx_year", [Str "2024"]); ("fx_to_eur", [Str "0.134"]);
        ("fx_to_dkk", [Str "1"]); ("region", [Str "Nordics"])] |}.

Definition fx_rules : Cleaning.rules :=
  {| Cleaning.brand_precedence := []; Cleaning.brand_outputs := [];
     Cleaning.brand_regex := []; Cleaning.campaign_precedence := [];
     Cleaning.campaign_outputs := [];
     Cleaning.compute_pairs :=
       [("EUR", [("Planned Spend (Local)", "Planned_Spend_EUR")]);
        ("DKK", [("Planned Spend (Local)", "Planned_Spend_DKK")])];
     Cleaning.audit_enabled := None; Cleaning.tolerance_ratio := None |}.

(** A record at the tolerance: a reported total of 1.0 against a computed
    total of 0.98, then 100 against 98, at the default tolerance of 0.02.
    The doubles of 0.98 and 0.02 make the first difference exceed the
    tolerance; the second one rounds to the tolerance itself. *)
Definition threshold_frame : Pandas.frame :=
  {| Pandas.index := [0; 1];
     Pandas.cols :=
       [("Net Media Cost (Global)", [Num 1; Num 100]);
        ("Net_Media_EUR", [Num (98 # 100); Num 98])] |}.

(** Two dated budget lines: three days of January for 300 and 1,200, two
    days of February for a negative planned amount in parentheses. *)
Definition january_budgets : sheet :=
  {| columns := ["Min Start Date"; "Max End Date"; "FX Year"; "Planned (Local)";
                 "Budget (Local)"];
     rows :=
       [[("Min Start Date", Str "2024-01-01"); ("Max End Date", Str "2024-01-03");
         ("FX Year", Num 2024); ("Planned (Local)", Num 300);
         ("Budget (Local)", Str "1,200")];
        [("Min Start Date", Str "2024-02-01"); ("Max End Date", Str "2024-02-02");
         ("FX Year", Num 2024); ("Planned (Local)", Str "(1,000)");
         ("Budget (Local)", NaN)]] |}.

(** Two dated plan lines; the views of the second are a text that is no
    number. *)
Definition january_plans : sheet :=
  {| columns := ["Start_Date"; "End_Date"; "Views"; "Agency_Fee"];
     rows :=
       [[("Start_Date", Str "2024-01-01"); ("End_Date", Str "2024-01-04");
         ("Views", Str "1,000"); ("Agency_Fee", Num 10)];
        [("Start_Date", Str "2024-03-01"); ("End_Date", Str "2024-03-01");
         ("Views", Str "tbc"); ("Agency_Fee", Num 5)]] |}.

(** A budget line of the leap year 2024 without a start date. *)
Definition yearly_budget : Row.row :=
  [("Min Start Date", NaT); ("Max End Date", Day 19725); ("FX Year", Num 2024);
   ("Planned (Local)", Num 732)].

(** A dated budget line followed by a line without dates and without a
    fiscal year, whose planned amount is 500. *)
Definition stopped_budgets : sheet :=
  {| columns := ["Min Start Date"; "Max End Date"; "FX Year"; "Planned (Local)"];
     rows :=
       [[("Min Start Date", Str "2024-01-01"); ("Max End Date", Str "2024-01-03");
         ("FX Year", Num 2024); ("Planned (Local)", Num 300)];
        [("Min Start Date", Str "tbc"); ("Max End Date", Str "2024-01-03");
         ("FX Year", Str "n/a"); ("Planned (Local)", Num 500)]] |}.

(** A plan whose brand field names one brand of the taxonomy and whose plan
    name names another. *)
Definition conflict_plan : Row.row :=
  [("Brand", Str "acme"); ("Market", Str "DK");
   ("Plan Name", Str "Bolt Ltd - launch"); ("Campaign Name", Str "")].

(** A sheet whose only record is this plan. *)
Definition conflict_sheet : sheet :=
  {| columns := ["Brand"; "Market"; "Plan Name"; "Campaign Name"];
     rows := [conflict_plan] |}.

(** Three plans after the brand join, and two plan-name hints. *)
Definition hinted_plans : Pandas.frame :=
  {| Pandas.index := [0; 1; 2];
     Pandas.cols :=
       [("Plan Name", [Str "acme and bolt"; Str "bolt only"; Str "spring"]);
        ("Brand_clean", [Str "Acme"; Str "Acme"; Str ""])] |}.

Definition hint_rules : Cleaning.rules :=
  {| Cleaning.brand_precedence := []; Cleaning.brand_outputs := [];
     Cleaning.brand_regex := [("Acme", "acme"); ("Bolt", "bolt")];
     Cleaning.campaign_precedence := []; Cleaning.campaign_outputs := [];
     Cleaning.compute_pairs := [];
     Cleaning.audit_enabled := None; Cleaning.tolerance_ratio := None |}.

(** A sheet with a spend column, a fee column and a text column. *)
Definition spend_frame : Pandas.frame :=
  {| Pandas.index := [0; 1; 2; 3];
     Pandas.cols :=
       [("Plan Name", [Str "Spring 100"; Str "Autumn"; Str "Winter"; Str "Summer"]);
        ("Net Spend (EUR)", [Str "$1,234.50"; Str "(100)"; NaN; Num 7]);
        ("Agency Fee", [Str "12 %"; Str "n/a"; Str "1-2"; Str "-3.5"])] |}.

(** Three plans: a cancelled one, one without status, a live one. *)
Definition status_plans : Pandas.frame :=
  {| Pandas.index := [0; 1; 2];
     Pandas.cols :=
       [("Plan ID", [Str "P1"; Str "P2"; Str "P3"]);
        ("Plan Status", [Str "Cancelled"; Str " "; Str "Live"])] |}.

(** Three plans on 1 March 2024 (day 19783): one that ended in January with
    no actual amount, one that ended in January with an actual amount, one
    that ends in March. *)
Definition backfill_plans : Pandas.frame :=
  {| Pandas.index := [0; 1; 2];
     Pandas.cols :=
       [("Start Date", [Day 19723; Day 19723; Day 19770]);
        ("End Date", [Day 19730; NaT; Day 19790]);
        ("Planned", [Num 100; Num 200; Num 300]);
        ("Actual", [NaN; Num 150; Str ""])] |}.

Definition backfill_rules : Backfill.config :=
  {| Backfill.enabled := None;
     Backfill.age_days_threshold := None;
     Backfill.local_scope :=
       {| Backfill.actual_col := Some "Actual";
          Backfill.planned_col := Some "Planned";
          Backfill.qa_flag := None |};
     Backfill.global_scope :=
       {| Backfill.actual_col := None; Backfill.planned_col := None;
          Backfill.qa_flag := None |} |}.
(** * Theorems *)

(** ** Lists and frames *)

Section ListFacts.

Context {A B C : Type}.

Lemma map2_length (f : A -> B -> C) (a : list A) (b : list B) :
  List.length a = List.length b ->
  List.length (Cleaning.map2 f a b) = List.length a.
Proof.
  revert b; induction a as [|x a IH]; intros [|y b] H; simpl in *;
    try discriminate; auto.
Qed.

Lemma map2_nth (f : A -> B -> C) (a : list A) (b : list B) (i : nat) da db dc :
  List.length a = List.length b ->
  (i < List.length a)%nat ->
  nth i (Cleaning.map2 f a b) dc = f (nth i a da) (nth i b db).
Proof.
  revert b i; induction a as [|x a IH]; intros [|y b] i H Hi; simpl in *;
    try discriminate; try lia.
  destruct i; auto. apply IH; lia.
Qed.

End ListFacts.

Lemma flat_map_ext_in {A B : Type} (f g : A -> list B) (l : list A) :
  (forall a, In a l -> f a = g a) -> flat_map f l = flat_map g l.
Proof.
  induction l as [|x l IH]; intros H; simpl; auto.
  rewrite (H x (or_introl eq_refl)), IH; auto.
  intros a Ha. apply H. now right.
Qed.

(** Rows selected by a mask, position by position. *)
Lemma filter_combine_seq {A : Type} (f : nat -> A) (mask : list bool) (k n : nat) :
  List.length mask = n ->
  List.map fst (List.filter snd (combine (List.map f (seq k n)) mask))
  = flat_map (fun i => if nth (i - k) mask false then [f i] else []) (seq k n).
Proof.
  revert mask k; induction n as [|n IH]; intros mask k H.
  - reflexivity.
  - destruct mask as [|b mask]; [discriminate|].
    simpl in H. injection H as H.
    assert (E : flat_map (fun i => if nth (i - k) (b :: mask) false then [f i] else [])
                  (seq (S k) n)
                = flat_map (fun i => if nth (i - S k) mask false then [f i] else [])
                    (seq (S k) n)).
    { apply flat_map_ext_in. intros i Hi. apply in_seq in Hi.
      replace (i - k)%nat with (S (i - S k)) by lia. reflexivity. }
    cbn [seq List.map combine List.filter flat_map snd fst].
    rewrite E, <- (IH mask (S k) H), Nat.sub_diag.
    destruct b; reflexivity.
Qed.

Lemma rows_where_positions (f : Pandas.frame) (mask : list bool) :
  List.length mask = Pandas.nrows f ->
  Pandas.rows_where f mask
  = flat_map (fun i => if nth i mask false then [Pandas.row_at f i] else [])
      (seq 0 (Pandas.nrows f)).
Proof.
  intros H. unfold Pandas.rows_where, Pandas.iterrows.
  rewrite (filter_combine_seq (Pandas.row_at f) mask 0 (Pandas.nrows f) H).
  apply flat_map_ext. intros i. now rewrite Nat.sub_0_r.
Qed.

(** ** The FX audit *)

Lemma Qlt_bool_iff (a b : Q) : Cleaning.Qlt_bool a b = true <-> (a < b)%Q.
Proof.
  unfold Cleaning.Qlt_bool. rewrite negb_true_iff.
  split.
  - intros H. apply Qnot_le_lt. intros Hle.
    apply Qle_bool_iff in Hle. congruence.
  - intros H. destruct (Qle_bool b a) eqn:E; auto.
    apply Qle_bool_iff in E. exfalso. exact (Qlt_not_le _ _ H E).
Qed.

Lemma audit_bad_iff (tol g c : Q) :
  Cleaning.audit_bad tol g c = true
  <-> ((0 < g)
       /\ (tol < Float64.round (Qabs (Float64.round (g - c)) / g)))%Q.
Proof.
  unfold Cleaning.audit_bad. rewrite andb_true_iff, !Qlt_bool_iff.
  split; intros [Hg H]; split; auto.
  - destruct (Qeq_bool g 0) eqn:E; auto.
    apply Qeq_bool_iff in E. rewrite E in Hg. now apply Qlt_irrefl in Hg.
  - destruct (Qeq_bool g 0) eqn:E; auto.
    apply Qeq_bool_iff in E. rewrite E in Hg. now apply Qlt_irrefl in Hg.
Qed.

Section Audit.

Variable L : PyLib.

(** The events of one pair of columns, record by record. *)
Lemma audit_pair_events (tol : Q) (out : Pandas.frame) (p : string * string)
  (given calc : Pandas.column) :
  Pandas.lookup (fst p) (Pandas.cols out) = Some given ->
  Pandas.lookup (snd p) (Pandas.cols out) = Some calc ->
  List.length given = Pandas.nrows out ->
  List.length calc = Pandas.nrows out ->
  Cleaning.audit_pair L tol out p
  = flat_map
      (fun i => if Cleaning.audit_bad tol (Cleaning.audited L given i)
                     (Cleaning.audited L calc i)
                then [Cleaning.mismatch_event L p (Pandas.row_at out i)] else [])
      (seq 0 (Pandas.nrows out)).
Proof.
  intros Hg Hc Lg Lc. unfold Cleaning.audit_pair. rewrite Hg, Hc.
  rewrite rows_where_positions.
  - rewrite flat_map_concat_map, concat_map, map_map, <- flat_map_concat_map.
    apply flat_map_ext_in. intros i Hi. apply in_seq in Hi.
    unfold Cleaning.audit_mask.
    rewrite (map2_nth _ given calc i NaN NaN false) by lia.
    unfold Cleaning.audited. now destruct (Cleaning.audit_bad _ _ _).
  - unfold Cleaning.audit_mask. rewrite map2_length; lia.
Qed.

(** C7 (amended). The audit, in the double-precision arithmetic of the
    code.  Unless
    the rules disable it, the audit goes through its three pairs (reported
    column, computed column) in order; for a pair whose two columns are in
    the frame it raises, in record order, one [eur_mismatch] event for
    exactly the records whose reported value is strictly positive and whose
    relative difference [|reported - computed| / reported] exceeds the
    tolerance, and no event for a pair with a column missing.  The values are
    the doubles [pd.to_numeric(..).fillna(0)] gives, the difference and the
    quotient are rounded to the nearest double, and the tolerance is the
    double of the configured ratio, of 0.02 when the rules give none.  A
    record whose reported total is zero (or missing) is never flagged.  The
    event names the computed column, the issue [eur_mismatch], the owner
    Analytics and the priority P3, with the texts of the two values. *)
Theorem eur_mismatch_iff (R : Cleaning.rules) (out : Pandas.frame) :
  Pandas.well_formed out ->
  let tol :=
    Float64.round match Cleaning.tolerance_ratio R with
                  | Some t => t
                  | None => 2 # 100
                  end in
  let value v i :=
    Float64.round (Cleaning.fillna0 (Cleaning.to_numeric L (nth i v NaN))) in
  let deviation g c := Float64.round (Qabs (Float64.round (g - c)) / g) in
  let flagged given calc i :=
    (Cleaning.Qlt_bool 0 (value given i)
     && Cleaning.Qlt_bool tol (deviation (value given i) (value calc i)))%bool in
  Cleaning.audit L R out
  = match Cleaning.audit_enabled R with
    | Some false => []
    | _ =>
        flat_map
          (fun p =>
             match Pandas.lookup (fst p) (Pandas.cols out),
                   Pandas.lookup (snd p) (Pandas.cols out) with
             | Some given, Some calc =>
                 flat_map
                   (fun i => if flagged given calc i
                             then [Cleaning.mismatch_event L p
                                     (Pandas.row_at out i)]
                             else [])
                   (seq 0 (Pandas.nrows out))
             | _, _ => []
             end)
          [("Total Cost to Client (Global)", "Planned_Spend_EUR");
           ("Total Cost to Client Actual (Global)", "Actualised_Spend_EUR");
           ("Net Media Cost (Global)", "Net_Media_EUR")]
    end
  /\ (forall given calc i,
        flagged given calc i = true
        <-> (0 < value given i
             /\ tol < deviation (value given i) (value calc i))%Q)
  /\ (forall given calc i,
        (value given i == 0)%Q -> flagged given calc i = false)
  /\ (Cleaning.tolerance_ratio R = None ->
      tol = 5764607523034235 # 288230376151711744)
  /\ (forall p r,
        Cleaning.Issue_Type (Cleaning.mismatch_event L p r) = "eur_mismatch"
        /\ Cleaning.Field (Cleaning.mismatch_event L p r) = snd p
        /\ Cleaning.Owner (Cleaning.mismatch_event L p r) = "Analytics"
        /\ Cleaning.Priority (Cleaning.mismatch_event L p r) = "P3"
        /\ Cleaning.Current_Value (Cleaning.mismatch_event L p r)
           = Str (text L (match Row.get (fst p) r with
                          | Some x => x
                          | None => Num 0
                          end))
        /\ Cleaning.Suggested_Value (Cleaning.mismatch_event L p r)
           = Str (text L (match Row.get (snd p) r with
                          | Some x => x
                          | None => Num 0
                          end))).
Proof.
  intros W tol value deviation flagged.
  assert (F : forall given calc i,
             flagged given calc i
             = Cleaning.audit_bad (Cleaning.tolerance R)
                 (Cleaning.audited L given i) (Cleaning.audited L calc i)).
  { intros given calc i. unfold flagged, Cleaning.audit_bad.
    change (Cleaning.audited L given i) with (value given i).
    change (Cleaning.audited L calc i) with (value calc i).
    change (Cleaning.tolerance R) with tol.
    destruct (Cleaning.Qlt_bool 0 (value given i)) eqn:P; [|reflexivity].
    apply Qlt_bool_iff in P.
    destruct (Qeq_bool (value given i) 0) eqn:E; [|reflexivity].
    apply Qeq_bool_iff in E. rewrite E in P. now apply Qlt_irrefl in P. }
  split; [|split; [|split; [|split]]].
  - unfold Cleaning.audit, Cleaning.audit_is_enabled.
    destruct (Cleaning.audit_enabled R) as [[|]|]; try reflexivity;
      unfold Cleaning.audit_checks; apply flat_map_ext; intros p;
      (destruct (Pandas.lookup (fst p) (Pandas.cols out)) as [given|] eqn:Hg;
       [|unfold Cleaning.audit_pair; now rewrite Hg]);
      (destruct (Pandas.lookup (snd p) (Pandas.cols out)) as [calc|] eqn:Hc;
       [|unfold Cleaning.audit_pair; now rewrite Hg, Hc]);
      rewrite (audit_pair_events _ out p given calc Hg Hc
                 (W _ _ Hg) (W _ _ Hc));
      apply flat_map_ext; intros i; now rewrite F.
  - intros given calc i. rewrite F. apply audit_bad_iff.
  - intros given calc i Hz. rewrite F.
    destruct (Cleaning.audit_bad _ _ _) eqn:E; auto.
    apply audit_bad_iff in E. destruct E as [E _].
    change (Cleaning.audited L given i) with (value given i) in E.
    rewrite Hz in E. now apply Qlt_irrefl in E.
  - intros H. unfold tol. rewrite H. vm_compute. reflexivity.
  - intros p r. repeat split.
Qed.

End Audit.

Lemma audit_frame_well_formed : Pandas.well_formed audit_frame.
Proof.
  intros c v H. unfold audit_frame in H. cbn [Pandas.cols Pandas.lookup] in H.
  repeat match type of H with
         | (if ?b then _ else _) = _ =>
             destruct b; [injection H as <-; reflexivity|]
         end.
  discriminate.
Qed.

Lemma threshold_frame_well_formed : Pandas.well_formed threshold_frame.
Proof.
  intros c v H. unfold threshold_frame in H.
  cbn [Pandas.cols Pandas.lookup] in H.
  repeat match type of H with
         | (if ?b then _ else _) = _ =>
             destruct b; [injection H as <-; reflexivity|]
         end.
  discriminate.
Qed.

Lemma eur_mismatch_iff_witness :
  Cleaning.audit Lib.ascii_lib no_rules audit_frame
  = [Cleaning.mismatch_event Lib.ascii_lib
       ("Total Cost to Client (Global)", "Planned_Spend_EUR")
       (Pandas.row_at audit_frame 0)]
  /\ Cleaning.audit Lib.ascii_lib no_rules threshold_frame
     = [Cleaning.mismatch_event Lib.ascii_lib
          ("Net Media Cost (Global)", "Net_Media_EUR")
          (Pandas.row_at threshold_frame 0)].
Proof.
  split.
  - destruct (eur_mismatch_iff Lib.ascii_lib no_rules audit_frame
                audit_frame_well_formed) as [H _].
    rewrite H. vm_compute. reflexivity.
  - destruct (eur_mismatch_iff Lib.ascii_lib no_rules threshold_frame
                threshold_frame_well_formed) as [H _].
    rewrite H. vm_compute. reflexivity.
Defined.

(** C7 as stated fails at the tolerance.  A reported total of 1.0 against a
    computed total of 0.98 differs by exactly 0.02 of the reported total,
    which does not exceed the tolerance of 0.02, and so does 100 against 98;
    yet the first record is flagged and the second is not: the double of
    0.98 is below 0.98 and the double of 0.02 is above 0.02. *)
Lemma eur_mismatch_iff_counterexample :
  (Qabs (1 - (98 # 100)) / 1 == 2 # 100)%Q
  /\ (Qabs (100 - 98) / 100 == 2 # 100)%Q
  /\ ~ (2 # 100 < Qabs (1 - (98 # 100)) / 1)%Q
  /\ Cleaning.audit Lib.ascii_lib no_rules threshold_frame
     = [Cleaning.mismatch_event Lib.ascii_lib
          ("Net Media Cost (Global)", "Net_Media_EUR")
          (Pandas.row_at threshold_frame 0)]
  /\ (Float64.round (98 # 100) < 98 # 100)%Q
  /\ (2 # 100 < Float64.round (2 # 100))%Q.
Proof.
  split; [reflexivity|]. split; [reflexivity|].
  split; [vm_compute; intros H; discriminate H|].
  split; [vm_compute; reflexivity|].
  split; vm_compute; reflexivity.
Qed.

(** ** The alias index *)

Section AliasIndex.

Import TwoPass.

Lemma scope_eqb_refl (a : option string) : scope_eqb a a = true.
Proof. destruct a; simpl; auto using String.eqb_refl. Qed.

Lemma key_eqb_refl (k : key) : key_eqb k k = true.
Proof.
  destruct k as [[s|] a]; unfold key_eqb; simpl;
    rewrite ?String.eqb_refl; reflexivity.
Qed.

Lemma key_eqb_eq (a b : key) : key_eqb a b = true <-> a = b.
Proof.
  destruct a as [[x|] s], b as [[y|] t]; unfold key_eqb; simpl;
    rewrite ?andb_true_iff, ?String.eqb_eq; split; intros H;
    try (destruct H; subst; reflexivity); try (injection H as -> ->; auto);
    try (injection H as ->; auto); try discriminate; try (destruct H; discriminate).
Qed.

Lemma dict_get_app (k : key) (a b : index) :
  dict_get k (a ++ b)
  = match dict_get k a with
    | Some v => Some v
    | None => dict_get k b
    end.
Proof.
  induction a as [|[k' v] a IH]; simpl; auto.
  destruct (key_eqb k' k); auto.
Qed.

(** [setdefault] never changes a binding that is there. *)
Lemma setdefault_keeps (k k' : key) (v w : string) (idx : index) :
  dict_get k idx = Some w -> dict_get k (setdefault k' v idx) = Some w.
Proof.
  intros H. unfold setdefault. destruct (dict_mem k' idx); auto.
  rewrite dict_get_app, H. reflexivity.
Qed.

(** [setdefault] binds a key that is free. *)
Lemma setdefault_new (k : key) (v : string) (idx : index) :
  dict_get k idx = None -> dict_get k (setdefault k v idx) = Some v.
Proof.
  intros H. unfold setdefault, dict_mem. rewrite H.
  rewrite dict_get_app, H. simpl. now rewrite key_eqb_refl.
Qed.

Lemma setdefault_other (k k' : key) (v : string) (idx : index) :
  k' <> k -> dict_get k (setdefault k' v idx) = dict_get k idx.
Proof.
  intros H. unfold setdefault. destruct (dict_mem k' idx); auto.
  rewrite dict_get_app. destruct (dict_get k idx); auto.
  simpl. destruct (key_eqb k' k) eqn:E; auto.
  apply key_eqb_eq in E. contradiction.
Qed.

Lemma setdefault_bound (k : key) (v : string) (idx : index) :
  exists w, dict_get k (setdefault k v idx) = Some w
            /\ (dict_get k idx = None -> w = v)
            /\ (forall u, dict_get k idx = Some u -> w = u).
Proof.
  destruct (dict_get k idx) as [u|] eqn:E.
  - exists u. split; [|split]; try congruence.
    now apply setdefault_keeps.
  - exists v. split; [|split]; try congruence.
    now apply setdefault_new.
Qed.

Variable L : PyLib.

(** A row of the taxonomy never changes a binding made by an earlier row:
    first seen wins. *)
Lemma index_row_keeps (k : key) (w : string) (idx : index) (cs : list string)
  (r : brand_row) :
  dict_get k idx = Some w ->
  dict_get k (fst (index_row L (idx, cs) r)) = Some w.
Proof.
  intros H. unfold index_row.
  destruct (negb (nonempty (PyStr.strip (brand_canonical r)))); auto.
  destruct (nonempty (PyStr.strip (market r))); simpl;
    repeat apply setdefault_keeps; auto.
Qed.

Lemma build_keeps (k : key) (w : string) (rows : list brand_row)
  (st : index * list string) :
  dict_get k (fst st) = Some w ->
  dict_get k (fst (fold_left (index_row L) rows st)) = Some w.
Proof.
  revert st; induction rows as [|r rows IH]; intros [idx cs] H; simpl; auto.
  apply IH. now apply index_row_keeps.
Qed.

(** A scope that no row of the taxonomy has stays out of the index. *)
Lemma index_row_absent (u b : string) (idx : index) (cs : list string)
  (r : brand_row) :
  PyStr.strip (market r) = "" \/ norm L (PyStr.strip (market r)) <> u ->
  dict_get (Some u, b) idx = None ->
  dict_get (Some u, b) (fst (index_row L (idx, cs) r)) = None.
Proof.
  intros Hm H. unfold index_row.
  destruct (negb (nonempty (PyStr.strip (brand_canonical r)))); auto.
  destruct (nonempty (PyStr.strip (market r))) eqn:E; simpl.
  - destruct Hm as [Hm|Hm].
    + rewrite Hm in E. discriminate.
    + rewrite !setdefault_other; auto; congruence.
  - rewrite !setdefault_other; auto; congruence.
Qed.

Lemma build_absent (u b : string) (rows : list brand_row)
  (st : index * list string) :
  (forall r, In r rows ->
     PyStr.strip (market r) = "" \/ norm L (PyStr.strip (market r)) <> u) ->
  dict_get (Some u, b) (fst st) = None ->
  dict_get (Some u, b) (fst (fold_left (index_row L) rows st)) = None.
Proof.
  revert st; induction rows as [|r rows IH]; intros [idx cs] Hm H; simpl; auto.
  apply IH.
  - intros r' Hr. apply Hm. now right.
  - apply index_row_absent; auto. apply Hm. now left.
Qed.

(** What a row with a canonical name binds: its alias at global scope and,
    with a market, at the scope of the market, unless bound before. *)
Lemma index_row_global (idx : index) (cs : list string) (r : brand_row) :
  PyStr.strip (brand_canonical r) <> "" ->
  exists w,
    dict_get (None, norm L (row_alias r)) (fst (index_row L (idx, cs) r)) = Some w
    /\ (dict_get (None, norm L (row_alias r)) idx = None ->
        w = PyStr.strip (brand_canonical r)).
Proof.
  intros Hc. unfold index_row.
  assert (E : nonempty (PyStr.strip (brand_canonical r)) = true).
  { unfold nonempty. destruct (String.eqb_spec (PyStr.strip (brand_canonical r)) "");
      auto; contradiction. }
  rewrite E. simpl negb. cbv iota.
  destruct (setdefault_bound (None, norm L (row_alias r))
              (PyStr.strip (brand_canonical r)) idx) as (w & Hw & Hnew & _).
  exists w. split; auto.
  destruct (nonempty (PyStr.strip (market r))); simpl;
    [do 3 apply setdefault_keeps | apply setdefault_keeps]; exact Hw.
Qed.

Lemma index_row_scoped (idx : index) (cs : list string) (r : brand_row) :
  PyStr.strip (brand_canonical r) <> "" ->
  PyStr.strip (market r) <> "" ->
  exists w,
    dict_get (Some (norm L (PyStr.strip (market r))), norm L (row_alias r))
      (fst (index_row L (idx, cs) r)) = Some w
    /\ (dict_get (Some (norm L (PyStr.strip (market r))), norm L (row_alias r)) idx
        = None -> w = PyStr.strip (brand_canonical r)).
Proof.
  intros Hc Hm.
  set (k := (Some (norm L (PyStr.strip (market r))), norm L (row_alias r))).
  unfold index_row.
  assert (E : nonempty (PyStr.strip (brand_canonical r)) = true).
  { unfold nonempty. destruct (String.eqb_spec (PyStr.strip (brand_canonical r)) "");
      auto; contradiction. }
  assert (E' : nonempty (PyStr.strip (market r)) = true).
  { unfold nonempty. destruct (String.eqb_spec (PyStr.strip (market r)) "");
      auto; contradiction. }
  rewrite E, E'. simpl negb. cbv iota.
  set (idx1 := setdefault (None, norm L (row_alias r)) _ idx).
  destruct (setdefault_bound k (PyStr.strip (brand_canonical r)) idx1)
    as (w & Hw & Hnew & _).
  exists w. split.
  - simpl. do 2 apply setdefault_keeps. exact Hw.
  - intros Hk. apply Hnew. unfold idx1. rewrite setdefault_other; auto.
    unfold k. congruence.
Qed.

End AliasIndex.

Section Resolve.

Import TwoPass.

Variable L : PyLib.

Lemma resolve_unfold (brands : list brand_row) (m b : string) :
  resolve L brands m b
  = fst (pass_a L (fst (fold_left (index_row L) brands ([], [])))
           (sorted (snd (fold_left (index_row L) brands ([], []))))
           (norm L m) (norm L b)).
Proof.
  unfold resolve, build_index.
  destruct (fold_left (index_row L) brands ([], [])); reflexivity.
Qed.

(** Pass A answers from the entry at the scope of the market whenever there
    is one, whatever the global entry is. *)
Lemma pass_a_local (idx : index) (cl : list string) (m b c : string) :
  dict_get (or_none m, b) idx = Some c ->
  pass_a L idx cl m b = (Some c, "tax_exact_local").
Proof. intros H. unfold pass_a. now rewrite H. Qed.

Lemma pass_a_global (idx : index) (cl : list string) (m b c : string) :
  dict_get (or_none m, b) idx = None ->
  dict_get (None, b) idx = Some c ->
  pass_a L idx cl m b = (Some c, "tax_exact_global").
Proof. intros H G. unfold pass_a. now rewrite H, G. Qed.

Lemma or_none_some (s : string) : s <> "" -> or_none s = Some s.
Proof. destruct s; simpl; congruence. Qed.

Lemma resolve_from_global (brands : list brand_row) (m b c : string) :
  (forall r, In r brands ->
     PyStr.strip (market r) = "" \/ norm L (PyStr.strip (market r)) <> norm L m) ->
  dict_get (None, norm L b) (fst (fold_left (index_row L) brands ([], []))) = Some c ->
  resolve L brands m b = Some c.
Proof.
  intros Hm Hg. rewrite resolve_unfold.
  destruct (String.eqb_spec (norm L m) "") as [E|E].
  - rewrite (pass_a_local _ _ _ _ c); auto. rewrite E. exact Hg.
  - rewrite (pass_a_global _ _ _ _ c); auto.
    rewrite or_none_some by auto. apply build_absent; auto.
Qed.

Lemma row_alias_trim (A DK X : string) :
  PyStr.strip X = X -> X <> "" ->
  row_alias {| brand_canonical := A; market := DK; alias := X |} = X.
Proof. unfold row_alias; simpl. intros -> H. destruct X; congruence. Qed.

(** C2 (amended). For the reference rows [(A, DK, X)] and [(B, global, X)],
    in this order, [resolve(DK, X)] is [A] and [resolve(US, X)] is [A] too:
    the market-scoped row also registers its alias at global scope, and the
    first row seen wins.  [resolve(US, X)] is [B] when the global row comes
    first, and [resolve(DK, X)] is [A] in both orders.  In general, whenever
    the index has an entry for the alias at the scope of the market, Pass A
    answers with it, whatever the global entry is. *)
Theorem scope_precedence (A B X DK US : string) :
  PyStr.strip A = A -> A <> "" ->
  PyStr.strip B = B -> B <> "" ->
  PyStr.strip X = X -> X <> "" ->
  PyStr.strip DK = DK -> DK <> "" -> norm L DK <> "" ->
  norm L US <> norm L DK ->
  let scoped := {| brand_canonical := A; market := DK; alias := X |} in
  let global := {| brand_canonical := B; market := ""; alias := X |} in
  resolve L [scoped; global] DK X = Some A
  /\ resolve L [scoped; global] US X = Some A
  /\ resolve L [global; scoped] DK X = Some A
  /\ resolve L [global; scoped] US X = Some B
  /\ (forall brands m b c,
        dict_get (or_none (norm L m), norm L b) (fst (build_index L brands)) = Some c ->
        resolve L brands m b = Some c).
Proof.
  intros At An Bt Bn Xt Xn Dt Dn Dm Um scoped global.
  assert (Ga : row_alias global = X) by (apply row_alias_trim; auto).
  assert (Sa : row_alias scoped = X) by (apply row_alias_trim; auto).
  assert (Gm : PyStr.strip (market global) = "") by reflexivity.
  assert (Markets : forall rows, (forall r, In r rows -> r = scoped \/ r = global) ->
            forall r, In r rows ->
              PyStr.strip (market r) = ""
              \/ norm L (PyStr.strip (market r)) <> norm L US).
  { intros rows Hrows r Hr. destruct (Hrows r Hr) as [-> | ->]; [right | now left].
    simpl. rewrite Dt. congruence. }
  assert (HcA : PyStr.strip (brand_canonical scoped) <> "")
    by (simpl; now rewrite At).
  assert (HcB : PyStr.strip (brand_canonical global) <> "")
    by (simpl; now rewrite Bt).
  assert (HmS : PyStr.strip (market scoped) <> "")
    by (simpl; now rewrite Dt).
  assert (S1 : forall idx1 cs1, index_row L ([], []) scoped = (idx1, cs1) ->
            dict_get (Some (norm L DK), norm L X) idx1 = Some A
            /\ dict_get (None, norm L X) idx1 = Some A).
  { intros idx1 cs1 E1. change idx1 with (fst (idx1, cs1)). rewrite <- E1. split.
    - destruct (index_row_scoped L [] [] scoped HcA HmS) as (w & Hw & Hnew).
      rewrite Sa in Hw. change (market scoped) with DK in Hw.
      rewrite Dt in Hw. specialize (Hnew eq_refl). subst w.
      change (brand_canonical scoped) with A in Hw. rewrite At in Hw. exact Hw.
    - destruct (index_row_global L [] [] scoped HcA) as (w & Hw & Hnew).
      rewrite Sa in Hw. specialize (Hnew eq_refl). subst w.
      change (brand_canonical scoped) with A in Hw. rewrite At in Hw. exact Hw. }
  assert (G1 : forall idx1 cs1, index_row L ([], []) global = (idx1, cs1) ->
            dict_get (Some (norm L DK), norm L X) idx1 = None
            /\ dict_get (None, norm L X) idx1 = Some B).
  { intros idx1 cs1 E1. change idx1 with (fst (idx1, cs1)). rewrite <- E1. split.
    - apply index_row_absent; auto.
    - destruct (index_row_global L [] [] global HcB) as (w & Hw & Hnew).
      rewrite Ga in Hw. specialize (Hnew eq_refl). subst w.
      change (brand_canonical global) with B in Hw. rewrite Bt in Hw. exact Hw. }
  split; [|split; [|split; [|split]]].
  - (* scoped row first, market DK *)
    rewrite resolve_unfold. cbn [fold_left].
    destruct (index_row L ([], []) scoped) as [idx1 cs1] eqn:E1.
    destruct (S1 idx1 cs1 eq_refl) as [H1 _].
    erewrite pass_a_local; [reflexivity|].
    rewrite or_none_some by auto.
    apply index_row_keeps. exact H1.
  - (* scoped row first, another market *)
    apply resolve_from_global.
    + apply Markets. intros r [<-|[<-|[]]]; auto.
    + cbn [fold_left].
      destruct (index_row L ([], []) scoped) as [idx1 cs1] eqn:E1.
      destruct (S1 idx1 cs1 eq_refl) as [_ H1].
      apply index_row_keeps. exact H1.
  - (* global row first, market DK *)
    rewrite resolve_unfold. cbn [fold_left].
    destruct (index_row L ([], []) global) as [idx1 cs1] eqn:E1.
    destruct (G1 idx1 cs1 eq_refl) as [H1 _].
    erewrite pass_a_local; [reflexivity|].
    rewrite or_none_some by auto.
    destruct (index_row_scoped L idx1 cs1 scoped HcA HmS) as (w & Hw & Hnew).
    rewrite Sa in Hw, Hnew. change (market scoped) with DK in Hw, Hnew.
    rewrite Dt in Hw, Hnew. specialize (Hnew H1). subst w.
    change (brand_canonical scoped) with A in Hw. rewrite At in Hw. exact Hw.
  - (* global row first, another market *)
    apply resolve_from_global.
    + apply Markets. intros r [<-|[<-|[]]]; auto.
    + cbn [fold_left].
      destruct (index_row L ([], []) global) as [idx1 cs1] eqn:E1.
      destruct (G1 idx1 cs1 eq_refl) as [_ H1].
      apply index_row_keeps. exact H1.
  - intros brands m b c H. rewrite resolve_unfold.
    unfold build_index in H.
    destruct (fold_left (index_row L) brands ([], [])) as [idx cs]; simpl in *.
    erewrite pass_a_local; [reflexivity|exact H].
Qed.

End Resolve.

Lemma scope_precedence_witness :
  TwoPass.resolve Lib.ascii_lib [scoped_row; global_row] "DK" "acme" = Some "Acme Corp"
  /\ TwoPass.resolve Lib.ascii_lib [scoped_row; global_row] "US" "acme" = Some "Acme Corp"
  /\ TwoPass.resolve Lib.ascii_lib [global_row; scoped_row] "DK" "acme" = Some "Acme Corp"
  /\ TwoPass.resolve Lib.ascii_lib [global_row; scoped_row] "US" "acme" = Some "Bolt Ltd".
Proof.
  destruct (scope_precedence Lib.ascii_lib "Acme Corp" "Bolt Ltd" "acme" "DK" "US"
              eq_refl ltac:(discriminate) eq_refl ltac:(discriminate)
              eq_refl ltac:(discriminate) eq_refl ltac:(discriminate)
              ltac:(vm_compute; discriminate) ltac:(vm_compute; discriminate))
    as (H1 & H2 & H3 & H4 & _).
  split; [exact H1 | split; [exact H2 | split; [exact H3 | exact H4]]].
Defined.

(** C2 as stated fails: with the market-scoped row first, another market
    resolves the alias to the canonical name of the scoped row, not to the
    one of the global row. *)
Lemma scope_precedence_counterexample :
  ~ (TwoPass.resolve Lib.ascii_lib [scoped_row; global_row] "DK" "acme"
     = Some "Acme Corp"
     /\ TwoPass.resolve Lib.ascii_lib [scoped_row; global_row] "US" "acme"
        = Some "Bolt Ltd").
Proof. vm_compute. intros [_ H]. discriminate. Qed.

Section Resolver.

Import TwoPass.

Variable L : PyLib.

Lemma key_eqb_scope (a b : option string) (s : string) :
  scope_eqb a b = true -> key_eqb (a, s) (b, s) = true.
Proof.
  unfold key_eqb; simpl. destruct a, b; simpl; try discriminate;
    intros H; rewrite ?H, String.eqb_refl; reflexivity.
Qed.

(** Every alias listed for a scope is a key of the index at that scope. *)
Lemma aliases_of_mem (sc : option string) (idx : index) (a : string) :
  In a (aliases_of sc idx) -> dict_mem (sc, a) idx = true.
Proof.
  unfold aliases_of, dict_mem.
  induction idx as [|[[sc' a'] v] idx IH]; simpl; [tauto|].
  destruct (scope_eqb sc' sc) eqn:E; simpl.
  - intros [<-|H].
    + now rewrite key_eqb_scope.
    + destruct (key_eqb (sc', a') (sc, a)); auto.
  - intros H. destruct (key_eqb (sc', a') (sc, a)); auto.
Qed.

(** The look-up of [detect_from_titles] never meets an absent key. *)
Lemma alias_hits_total (m t : string) (idx : index) (aliases : list string) :
  (forall a, In a aliases ->
     dict_mem (Some m, a) idx = true \/ dict_mem (None, a) idx = true) ->
  exists hits, alias_hits m t idx aliases = Ok hits.
Proof.
  induction aliases as [|a rest IH]; intros H; cbn [alias_hits].
  - now exists [].
  - destruct IH as [more Hmore]; [intros x Hx; apply H; now right|].
    rewrite Hmore.
    destruct (nonempty a && PyStr.contains a t && (4 <=? String.length a)%nat)%bool;
      [|now exists more].
    assert (Hk : exists c,
               dict_get (if dict_mem (Some m, a) idx then Some m else None, a) idx
               = Some c).
    { destruct (dict_mem (Some m, a) idx) eqn:E.
      - unfold dict_mem in E. destruct (dict_get (Some m, a) idx) as [c|];
          [now exists c|discriminate].
      - destruct (H a (or_introl eq_refl)) as [H'|H']; [congruence|].
        unfold dict_mem in H'. destruct (dict_get (None, a) idx) as [c|];
          [now exists c|discriminate]. }
    destruct Hk as [c Hc]. rewrite Hc. simpl. now eexists.
Qed.

Lemma or_none_scope (m a : string) (idx : index) :
  dict_mem (or_none m, a) idx = true ->
  dict_mem (Some m, a) idx = true \/ dict_mem (None, a) idx = true.
Proof. destruct m; simpl; auto. Qed.

(** [detect_from_titles] always returns. *)
Lemma detect_from_titles_total (plan camp market : cell) (idx : index)
  (canon_list : list string) :
  exists tb rb,
    detect_from_titles L plan camp market idx canon_list = Ok (tb, rb).
Proof.
  unfold detect_from_titles.
  destruct (alias_hits_total (norm_cell L market)
              (norm L (or_empty L plan ++ " " ++ or_empty L camp)%string) idx
              (aliases_of (or_none (norm_cell L market)) idx
               ++ aliases_of None idx)) as [more Hmore].
  { intros a Ha. apply in_app_or in Ha. destruct Ha as [Ha|Ha].
    - apply or_none_scope. now apply aliases_of_mem.
    - right. now apply aliases_of_mem. }
  rewrite Hmore. cbn [bind].
  destruct (dedup [] _) as [|[c r0] [|x seen]];
    [do 2 eexists; reflexivity | do 2 eexists; reflexivity |].
  destruct (sorted_longest _); do 2 eexists; reflexivity.
Qed.

Lemma opt_or_falsy (o : option string) (d : string) :
  opt_truthy o = false -> opt_or o d = d.
Proof. unfold opt_or. now intros ->. Qed.

Lemma opt_or_empty (o : option string) :
  opt_or o "" = "" <-> opt_truthy o = false.
Proof.
  unfold opt_or. destruct (opt_truthy o) eqn:E; split; auto; try discriminate.
  destruct o as [s|]; simpl in *; [|discriminate].
  unfold nonempty in E. intros ->. discriminate.
Qed.

(** C6. The resolver returns for every record; when neither Pass A nor
    Pass B produced a brand (the record's [Brand_taxonomy] and [Brand_title]
    are both empty), the final brand is the empty string and the issue is
    [brand_unmapped]; and [brand_unmapped] is recorded in no other case. *)
Theorem unresolved_brand_is_blank (idx : index) (canon_list : list string)
  (r : Row.row) :
  exists res,
    resolve_row L idx canon_list r = Ok res
    /\ (Brand_taxonomy res = "" -> Brand_title res = "" ->
        Brand_final res = "" /\ Issue res = "brand_unmapped")
    /\ (Issue res = "brand_unmapped" ->
        Brand_taxonomy res = "" /\ Brand_title res = "" /\ Brand_final res = "").
Proof.
  unfold resolve_row.
  destruct (pass_a L idx canon_list _ _) as [mapped reasonA].
  destruct (detect_from_titles_total (Row.get_or_empty "Plan Name" r)
              (Row.get_or_empty "Campaign Name" r)
              (Row.get_or_empty "Market" r) idx canon_list) as (tb & rb & Hd).
  rewrite Hd. simpl.
  destruct (issue_of mapped tb) as [issue recommend] eqn:Ei.
  eexists. split; [reflexivity|]. simpl.
  unfold issue_of in Ei.
  split.
  - intros Ha Hb. apply opt_or_empty in Ha, Hb.
    rewrite Ha, Hb in Ei. simpl in Ei. injection Ei as <- _.
    rewrite (opt_or_falsy mapped) by auto. rewrite (opt_or_falsy tb) by auto.
    auto.
  - intros ->.
    destruct (opt_truthy mapped) eqn:Ea, (opt_truthy tb) eqn:Eb; simpl in Ei.
    + destruct (negb _); discriminate.
    + discriminate.
    + discriminate.
    + rewrite !opt_or_falsy by auto. auto.
Qed.

End Resolver.

Lemma unresolved_brand_is_blank_witness :
  exists res,
    TwoPass.resolve_row Lib.ascii_lib
      (fst (TwoPass.build_index Lib.ascii_lib [scoped_row; global_row]))
      (snd (TwoPass.build_index Lib.ascii_lib [scoped_row; global_row]))
      unknown_plan = Ok res
    /\ TwoPass.Brand_final res = ""
    /\ TwoPass.Issue res = "brand_unmapped".
Proof.
  destruct (unresolved_brand_is_blank Lib.ascii_lib
              (fst (TwoPass.build_index Lib.ascii_lib [scoped_row; global_row]))
              (snd (TwoPass.build_index Lib.ascii_lib [scoped_row; global_row]))
              unknown_plan) as (res & Hres & H & _).
  exists res. split; [exact Hres|].
  vm_compute in Hres. injection Hres as <-.
  apply H; reflexivity.
Defined.

(** ** Strings *)

Section Strings.

Import PyStr.

Lemma str_all_filter (p : ascii -> bool) (s : string) :
  str_all p (str_filter p s) = true.
Proof.
  induction s as [|c s IH]; simpl; auto.
  destruct (p c) eqn:E; simpl; auto. now rewrite E.
Qed.

Lemma str_filter_id (p : ascii -> bool) (s : string) :
  str_all p s = true -> str_filter p s = s.
Proof.
  induction s as [|c s IH]; simpl; auto.
  intros H. apply andb_true_iff in H as [-> H]. now rewrite IH.
Qed.

Lemma str_all_weaken (p q : ascii -> bool) (s : string) :
  (forall c, p c = true -> q c = true) ->
  str_all p s = true -> str_all q s = true.
Proof.
  intros Hpq. induction s as [|c s IH]; simpl; auto.
  intros H. apply andb_true_iff in H as [Hc H].
  now rewrite (Hpq c Hc), IH.
Qed.

Lemma lstrip_id (s : string) : str_all no_space s = true -> lstrip s = s.
Proof.
  destruct s as [|c s]; simpl; auto. unfold no_space at 1.
  intros H. apply andb_true_iff in H as [H _].
  now destruct (is_space c).
Qed.

Lemma rstrip_id (s : string) : str_all no_space s = true -> rstrip s = s.
Proof.
  induction s as [|c s IH]; simpl; auto. unfold no_space at 1.
  intros H. apply andb_true_iff in H as [Hc H]. rewrite IH by auto.
  destruct s; auto. now destruct (is_space c).
Qed.

Lemma strip_id (s : string) : str_all no_space s = true -> strip s = s.
Proof. intros H. unfold strip. rewrite lstrip_id by auto. now apply rstrip_id. Qed.

(** White space at either end is invisible to a filter that drops it. *)
Lemma filter_lstrip (p : ascii -> bool) (s : string) :
  (forall c, is_space c = true -> p c = false) ->
  str_filter p (lstrip s) = str_filter p s.
Proof.
  intros Hp. induction s as [|c s IH]; simpl; auto.
  destruct (is_space c) eqn:E; auto. now rewrite (Hp c E).
Qed.

Lemma filter_rstrip (p : ascii -> bool) (s : string) :
  (forall c, is_space c = true -> p c = false) ->
  str_filter p (rstrip s) = str_filter p s.
Proof.
  intros Hp. induction s as [|c s IH]; simpl; auto.
  destruct (rstrip s) as [|d t] eqn:R.
  - simpl in IH. rewrite <- IH.
    destruct (is_space c) eqn:E; simpl.
    + now rewrite (Hp c E).
    + reflexivity.
  - simpl. simpl in IH. now rewrite IH.
Qed.

Lemma filter_strip (p : ascii -> bool) (s : string) :
  (forall c, is_space c = true -> p c = false) ->
  str_filter p (strip s) = str_filter p s.
Proof.
  intros Hp. unfold strip. now rewrite filter_rstrip, filter_lstrip.
Qed.

Lemma str_all_lstrip (p : ascii -> bool) (s : string) :
  str_all p s = true -> str_all p (lstrip s) = true.
Proof.
  induction s as [|c s IH]; simpl; auto.
  intros H. destruct (is_space c); auto.
  apply andb_true_iff in H as [_ H]. auto.
Qed.

Lemma str_all_rstrip (p : ascii -> bool) (s : string) :
  str_all p s = true -> str_all p (rstrip s) = true.
Proof.
  induction s as [|c s IH]; simpl; auto.
  intros H. apply andb_true_iff in H as [Hc H]. specialize (IH H).
  destruct (rstrip s) as [|d t].
  - destruct (is_space c); simpl; auto. now rewrite Hc.
  - simpl in *. now rewrite Hc.
Qed.

Lemma str_all_strip (p : ascii -> bool) (s : string) :
  str_all p s = true -> str_all p (strip s) = true.
Proof. intros H. unfold strip. now apply str_all_rstrip, str_all_lstrip. Qed.

Lemma str_all_drop_last (p : ascii -> bool) (s : string) :
  str_all p s = true -> str_all p (drop_last s) = true.
Proof.
  induction s as [|c s IH]; simpl; auto.
  intros H. apply andb_true_iff in H as [Hc H]. specialize (IH H).
  destruct s; simpl in *; auto. now rewrite Hc.
Qed.

Lemma str_all_app (p : ascii -> bool) (s t : string) :
  str_all p (s ++ t) = (str_all p s && str_all p t)%bool.
Proof.
  induction s as [|c s IH]; simpl; auto. now rewrite IH, andb_assoc.
Qed.

End Strings.

(** ** The tolerant numeric parser *)

Section ParseNumber.

Import PyStr PyFloat Budgets.

Ltac each_char c :=
  destruct c as [[] [] [] [] [] [] [] []]; vm_compute; try reflexivity;
  try discriminate; try congruence.

Lemma num_char_no_space (c : ascii) : num_char c = true -> no_space c = true.
Proof. each_char c. Qed.

Lemma space_not_num_char (c : ascii) : is_space c = true -> num_char c = false.
Proof. each_char c. Qed.

Lemma num_char_not_nbsp (c : ascii) : num_char c = true -> Ascii.eqb c nbsp = false.
Proof. each_char c. Qed.

Lemma nbsp_not_num_char (c : ascii) : Ascii.eqb c nbsp = true -> num_char c = false.
Proof. each_char c. Qed.

Lemma num_char_lower (c : ascii) :
  num_char c = true -> Ascii.eqb (lower_char c) "n" = false.
Proof. each_char c. Qed.

Lemma unsigned_num_char (c : ascii) : unsigned_char c = true -> num_char c = true.
Proof. each_char c. Qed.

Lemma unsigned_not_sign (c : ascii) :
  unsigned_char c = true ->
  Ascii.eqb c "-" = false /\ Ascii.eqb c "+" = false /\ Ascii.eqb c "(" = false.
Proof. each_char c; auto. Qed.

Lemma nfkc_char_space (c : ascii) :
  is_space c = true -> str_filter num_char (nfkc_char c) = "".
Proof. each_char c. Qed.

Lemma nfkc_char_num (c : ascii) :
  num_char c = true -> nfkc_char c = String c "".
Proof. each_char c. Qed.

Lemma str_filter_app (p : ascii -> bool) (a b : string) :
  str_filter p (a ++ b) = (str_filter p a ++ str_filter p b)%string.
Proof.
  induction a as [|c a IH]; simpl; auto.
  destruct (p c); simpl; now rewrite IH.
Qed.

Lemma filter_remove_nbsp (s : string) :
  str_filter num_char (remove_char nbsp s) = str_filter num_char s.
Proof.
  unfold remove_char. induction s as [|c s IH]; simpl; auto.
  destruct (Ascii.eqb c nbsp) eqn:E; simpl.
  - now rewrite IH, (nbsp_not_num_char c E).
  - now rewrite IH.
Qed.

Lemma filter_nfkc_lstrip (s : string) :
  str_filter num_char (nfkc (lstrip s)) = str_filter num_char (nfkc s).
Proof.
  induction s as [|c s IH]; [reflexivity|]. cbn [lstrip].
  destruct (is_space c) eqn:E; [|reflexivity].
  cbn [nfkc]. now rewrite str_filter_app, (nfkc_char_space c E), IH.
Qed.

Lemma filter_nfkc_rstrip (s : string) :
  str_filter num_char (nfkc (rstrip s)) = str_filter num_char (nfkc s).
Proof.
  induction s as [|c s IH]; [reflexivity|].
  change (rstrip (String c s))
    with (match rstrip s with
          | EmptyString => if is_space c then EmptyString else String c EmptyString
          | String d u => String c (String d u)
          end).
  destruct (rstrip s) as [|d u].
  - cbn [nfkc str_filter] in IH.
    destruct (is_space c) eqn:E; cbn [nfkc]; rewrite !str_filter_app, <- IH.
    + now rewrite (nfkc_char_space c E).
    + reflexivity.
  - change (nfkc (String c (String d u)))
      with (nfkc_char c ++ nfkc (String d u))%string.
    change (nfkc (String c s)) with (nfkc_char c ++ nfkc s)%string.
    now rewrite !str_filter_app, IH.
Qed.

(** Surrounding white space and the removal of no-break spaces are invisible
    once [_num_re] has run on the normalised text. *)
Lemma filter_nfkc (s : string) :
  str_filter num_char (remove_char nbsp (nfkc (strip s)))
  = str_filter num_char (nfkc s).
Proof.
  rewrite filter_remove_nbsp. unfold strip.
  now rewrite filter_nfkc_rstrip, filter_nfkc_lstrip.
Qed.

(** Normalisation changes nothing in what [_num_re] leaves. *)
Lemma nfkc_id (s : string) :
  str_all num_char s = true -> nfkc s = s.
Proof.
  induction s as [|c s IH]; simpl; auto.
  intros H. apply andb_true_iff in H as [Hc H].
  now rewrite (nfkc_char_num c Hc), IH.
Qed.

(** Normalisation changes nothing in an ASCII text. *)
Lemma nfkc_ascii (s : string) :
  str_all (fun c => Nat.ltb (code c) 128) s = true -> nfkc s = s.
Proof.
  induction s as [|c s IH]; simpl; auto.
  intros H. apply andb_true_iff in H as [Hc H]. rewrite (IH H).
  clear IH H. revert Hc. each_char c.
Qed.

Lemma placeholder_cases (s : string) :
  existsb (String.eqb s) placeholders = true ->
  s = "-" \/ s = "NA" \/ s = "N/A" \/ s = "n/a" \/ s = "na" \/ s = "--".
Proof.
  unfold placeholders. simpl. rewrite !orb_true_iff, !String.eqb_eq.
  intuition discriminate.
Qed.

Lemma lower_not_nan (s : string) :
  str_all num_char s = true -> String.eqb (lower s) "nan" = false.
Proof.
  destruct s as [|c s]; simpl; auto.
  intros H. apply andb_true_iff in H as [Hc _].
  now rewrite (num_char_lower c Hc).
Qed.

Lemma signed_all (p : ascii -> bool) (s : string) :
  str_all p s = true -> str_all p (snd (signed s)) = true.
Proof.
  destruct s as [|c s]; simpl; auto.
  intros H. pose proof H as H'. apply andb_true_iff in H' as [_ Ht].
  destruct c as [[] [] [] [] [] [] [] []]; simpl; auto.
Qed.

(** [float] gives no NaN on what [_num_re] leaves. *)
Lemma py_float_not_nan (s : string) :
  str_all num_char s = true -> py_float s <> FNan.
Proof.
  intros H. unfold py_float.
  pose proof (signed_all num_char (strip s) (str_all_strip _ _ H)) as Hb.
  destruct (signed (strip s)) as [neg body]. simpl in Hb.
  rewrite (lower_not_nan body Hb).
  destruct (decimal body); discriminate.
Qed.

Lemma parse_cleaned_number_or_null (s : string) :
  str_all num_char s = true ->
  parse_cleaned s = None \/ exists q, parse_cleaned s = Some (Num q).
Proof.
  intros H. unfold parse_cleaned.
  destruct (String.eqb s ""); auto.
  set (s' := if (starts_with_paren s && ends_with_paren s)%bool
             then String "-" (slice_1_m1 s) else s).
  assert (H' : str_all num_char s' = true).
  { unfold s'. destruct (starts_with_paren s && ends_with_paren s)%bool; auto.
    simpl. destruct s as [|c t]; simpl; auto.
    apply str_all_drop_last. simpl in H. now apply andb_true_iff in H as [_ H]. }
  pose proof (py_float_not_nan s' H') as Hn.
  destruct (py_float s'); auto; [eauto | contradiction].
Qed.

Variable L : PyLib.

(** On a string, [parse_number] sees only what [_num_re] leaves of the
    normalised text. *)
Lemma parse_number_str (s : string) :
  parse_number L (Str s) = parse_cleaned (str_filter num_char (nfkc s)).
Proof.
  unfold parse_number. cbn [isna text].
  pose proof (filter_nfkc s) as F.
  destruct (String.eqb_spec (strip s) "") as [E|E].
  - rewrite <- F, E. reflexivity.
  - destruct (existsb _ placeholders) eqn:P.
    + rewrite <- F. apply placeholder_cases in P.
      destruct P as [-> | [-> | [-> | [-> | [-> | ->]]]]]; reflexivity.
    + now rewrite F.
Qed.

Lemma parse_number_number_or_null (x : cell) :
  parse_number L x = None \/ exists q, parse_number L x = Some (Num q).
Proof.
  assert (G : forall s, parse_number L (Str s) = None
                        \/ exists q, parse_number L (Str s) = Some (Num q)).
  { intros s. rewrite parse_number_str.
    apply parse_cleaned_number_or_null, str_all_filter. }
  destruct x as [s|q| |d|]; try (now left); apply G.
Qed.

Lemma last_char_app (s : string) (c : ascii) :
  last_char (s ++ String c "") = Some c.
Proof.
  induction s as [|a s IH]; simpl; auto.
  rewrite IH. destruct s; reflexivity.
Qed.

Lemma drop_last_app (s : string) (c : ascii) :
  drop_last (s ++ String c "") = s.
Proof.
  induction s as [|a s IH]; simpl; auto.
  rewrite IH. destruct s; reflexivity.
Qed.

Lemma starts_with_paren_char (c : ascii) (t : string) :
  starts_with_paren (String c t) = Ascii.eqb c "(".
Proof. each_char c. Qed.

Lemma signed_unsigned (c : ascii) (t : string) :
  unsigned_char c = true -> signed (String c t) = (false, String c t).
Proof. each_char c. Qed.

Lemma py_float_unsigned (s : string) :
  str_all unsigned_char s = true -> s <> "" ->
  py_float s = match decimal s with
               | Some q => FVal q
               | None => FError
               end
  /\ py_float (String "-" s) = match decimal s with
                                | Some q => FVal (- q)
                                | None => FError
                                end.
Proof.
  intros H Hs.
  assert (Hn : str_all num_char s = true)
    by (eapply str_all_weaken; [apply unsigned_num_char | exact H]).
  assert (Hsp : str_all no_space s = true)
    by (eapply str_all_weaken; [apply num_char_no_space | exact Hn]).
  unfold py_float. split.
  - rewrite (strip_id s Hsp).
    destruct s as [|c t]; [contradiction|].
    simpl in H. apply andb_true_iff in H as [Hc _].
    rewrite (signed_unsigned c t Hc).
    now rewrite (lower_not_nan _ Hn).
  - rewrite (strip_id (String "-" s)) by (simpl; now rewrite Hsp).
    cbn [signed]. now rewrite (lower_not_nan _ Hn).
Qed.

(** A value in parentheses parses as the negation of the value. *)
Lemma parse_number_paren (s : string) :
  str_all unsigned_char s = true -> s <> "" ->
  parse_number L (Str ("(" ++ s ++ ")")) = negated (parse_number L (Str s)).
Proof.
  intros H Hs.
  assert (Hn : str_all num_char s = true)
    by (eapply str_all_weaken; [apply unsigned_num_char | exact H]).
  assert (Hp : str_all num_char ("(" ++ s ++ ")") = true)
    by (simpl; rewrite str_all_app, Hn; reflexivity).
  rewrite !parse_number_str, (nfkc_id s Hn), (nfkc_id _ Hp).
  rewrite (str_filter_id num_char s Hn).
  rewrite (str_filter_id num_char ("(" ++ s ++ ")") Hp).
  destruct (py_float_unsigned s H Hs) as [P N].
  unfold parse_cleaned.
  change ("(" ++ s ++ ")")%string with (String "(" (s ++ ")")).
  cbn [String.eqb Ascii.eqb Bool.eqb starts_with_paren slice_1_m1].
  assert (E : ends_with_paren (String "(" (s ++ ")")) = true).
  { unfold ends_with_paren. cbn [last_char].
    destruct (s ++ ")")%string eqn:A.
    - destruct s; discriminate.
    - rewrite <- A, last_char_app. reflexivity. }
  rewrite E, drop_last_app. cbn [andb]. rewrite N.
  destruct s as [|c t]; [contradiction|].
  simpl in H. apply andb_true_iff in H as [Hc _].
  rewrite starts_with_paren_char.
  destruct (unsigned_not_sign c Hc) as (_ & _ & ->).
  cbn [String.eqb andb]. rewrite P.
  destruct (decimal (String c t)); reflexivity.
Qed.

(** [to_float_safe] gives a number or the value it was given. *)
Lemma to_float_safe_cases (v : cell) :
  Plans.to_float_safe L v = v
  \/ (exists q, Plans.to_float_safe L v = Num q)
  \/ Plans.to_float_safe L v = NaN.
Proof.
  unfold Plans.to_float_safe. destruct (isna v); auto.
  destruct (py_float _); eauto.
Qed.

End ParseNumber.

(** ** Rows *)

Lemma get_set_same (c : string) (v : cell) (r : Row.row) :
  Row.get c (Row.set c v r) = Some v.
Proof.
  induction r as [|[k w] r IH]; simpl.
  - now rewrite String.eqb_refl.
  - destruct (String.eqb k c) eqn:E; simpl; now rewrite E.
Qed.

Lemma get_set_other (c c' : string) (v : cell) (r : Row.row) :
  c <> c' -> Row.get c (Row.set c' v r) = Row.get c r.
Proof.
  intros H. induction r as [|[k w] r IH]; simpl.
  - destruct (String.eqb_spec c' c); congruence.
  - destruct (String.eqb_spec k c'); simpl.
    + subst k. destruct (String.eqb_spec c' c); congruence.
    + destruct (String.eqb k c); auto.
Qed.

(** A loop that rewrites the cells of a list of distinct columns, each from
    its own cell, rewrites every listed column once and nothing else. *)
Lemma fold_set_get (f : option cell -> cell) (cols : list string) (r : Row.row)
  (c : string) :
  NoDup cols ->
  Row.get c (fold_left (fun b col => Row.set col (f (Row.get col b)) b) cols r)
  = if existsb (String.eqb c) cols then Some (f (Row.get c r)) else Row.get c r.
Proof.
  revert r. induction cols as [|col rest IH]; intros r H; simpl; auto.
  inversion H as [|? ? Hnot Hrest]; subst.
  rewrite IH by assumption.
  destruct (String.eqb_spec c col) as [->|Hc]; simpl.
  - assert (E : existsb (String.eqb col) rest = false).
    { destruct (existsb (String.eqb col) rest) eqn:E; auto.
      apply existsb_exists in E as (x & Hx & Hxc).
      apply String.eqb_eq in Hxc. subst x. contradiction. }
    rewrite E. apply get_set_same.
  - rewrite get_set_other by assumption. reflexivity.
Qed.

(** ** Rounding to the nearest double *)

Section Rounding.

Import Float64.

Lemma pow2_pos (k : Z) : (0 < pow2 k)%Q.
Proof. apply Qpower_0_lt. reflexivity. Qed.

Lemma pow2_add (a b : Z) : (pow2 (a + b) == pow2 a * pow2 b)%Q.
Proof. apply Qpower_plus. discriminate. Qed.

Lemma pow2_inject (a : Z) : 0 <= a -> (pow2 a == inject_Z (2 ^ a))%Q.
Proof. intros H. unfold pow2. now rewrite (Zpower_Qpower 2 a H). Qed.

(** The exponent is not above the number. *)
Lemma exponent_le (q : Q) : (0 < q)%Q -> (pow2 (exponent q) <= q)%Q.
Proof.
  intros Hq. unfold exponent.
  set (a := Z.log2 (Qnum q)). set (b := Z.log2 (Z.pos (Qden q))).
  destruct (Qle_bool (pow2 (a - b)) q) eqn:E; [now apply Qle_bool_iff|].
  assert (Hn : 0 < Qnum q) by (destruct q as [n d]; unfold Qlt in Hq; simpl in *; lia).
  destruct (Z.log2_spec (Qnum q) Hn) as [Ha _]. fold a in Ha.
  destruct (Z.log2_spec (Z.pos (Qden q)) eq_refl) as [_ Hb]. fold b in Hb.
  assert (A0 : 0 <= a) by apply Z.log2_nonneg.
  assert (B0 : 0 <= b) by apply Z.log2_nonneg.
  replace (a - b - 1) with (a + - (b + 1)) by lia.
  rewrite pow2_add. unfold pow2 at 2. rewrite Qpower_opp.
  fold (pow2 (b + 1)). rewrite (pow2_inject a A0), (pow2_inject (b + 1)) by lia.
  replace (Z.succ b) with (b + 1) in Hb by lia.
  assert (P : 0 < 2 ^ (b + 1)) by (apply Z.pow_pos_nonneg; lia).
  apply Qle_shift_div_r.
  - unfold Qlt, inject_Z. simpl. lia.
  - destruct q as [n d]. unfold Qle, Qmult, inject_Z. simpl in *.
    rewrite !Z.mul_1_r. nia.
Qed.

Lemma nearest_even_error (m : Q) :
  (Qabs (inject_Z (nearest_even m) - m) <= 1 # 2)%Q.
Proof.
  pose proof (Qfloor_le m) as Hl. pose proof (Qlt_floor m) as Hu.
  rewrite inject_Z_plus in Hu. change (inject_Z 1) with 1%Q in Hu.
  apply Qabs_Qle_condition. unfold nearest_even.
  destruct (Qcompare_spec (m - inject_Z (Qfloor m)) (1 # 2)) as [E|E|E].
  - destruct (Z.even (Qfloor m)); rewrite ?inject_Z_plus;
      change (inject_Z 1) with 1%Q; split; lra.
  - split; lra.
  - rewrite inject_Z_plus. change (inject_Z 1) with 1%Q. split; lra.
Qed.

Lemma round_pos_error (q : Q) :
  (0 < q)%Q -> (Qabs (round_pos q - q) <= eps * q + eta)%Q.
Proof.
  intros Hq. unfold round_pos. rewrite Qred_correct.
  set (k := ulp_exponent q).
  pose proof (pow2_pos k) as Pk.
  pose proof (nearest_even_error (q / pow2 k)) as Hm.
  set (z := inject_Z (nearest_even (q / pow2 k))) in *.
  assert (E : (z * pow2 k - q == (z - q / pow2 k) * pow2 k)%Q)
    by (field; lra).
  rewrite E, Qabs_Qmult, (Qabs_pos (pow2 k)) by lra.
  assert (B : (Qabs (z - q / pow2 k) * pow2 k <= (1 # 2) * pow2 k)%Q)
    by (apply Qmult_le_compat_r; lra).
  assert (H1 : ((1 # 2) * pow2 k == pow2 (k - 1))%Q).
  { replace (k - 1) with (k + -1) by lia. rewrite pow2_add.
    change (pow2 (-1)) with (1 # 2)%Q. ring. }
  rewrite H1 in B.
  pose proof (pow2_pos (-1075)) as Peta. fold eta in Peta.
  pose proof (pow2_pos (-53)) as Peps. fold eps in Peps.
  assert (Q0 : (0 <= eps * q)%Q) by (apply Qmult_le_0_compat; lra).
  apply (Qle_trans _ _ _ B). clear B E Hm. unfold k, ulp_exponent.
  set (v := (eps * q)%Q) in *.
  destruct (Z.max_spec (exponent q - 52) (-1074)) as [[_ M]|[_ M]]; rewrite M.
  - change (pow2 (-1074 - 1)) with eta. lra.
  - replace (exponent q - 52 - 1) with (-53 + exponent q) by lia.
    rewrite pow2_add. fold eps.
    pose proof (exponent_le q Hq) as He.
    assert (X : (eps * pow2 (exponent q) <= v)%Q)
      by (apply Qmult_le_l; lra).
    set (w := (eps * pow2 (exponent q))%Q) in *. lra.
Qed.

(** A rounding is within a relative [2^-53] of the number, or within
    [2^-1075] of it in the subnormal range. *)
Lemma round_error (q : Q) :
  (Qabs (round q - q) <= eps * Qabs q + eta)%Q.
Proof.
  unfold round.
  destruct (Qcompare_spec q 0) as [E|E|E].
  - rewrite E. pose proof (pow2_pos (-1075)) as Peta. fold eta in Peta.
    change (Qabs (0 - 0)) with 0%Q. change (Qabs 0) with 0%Q. lra.
  - assert (P : (0 < - q)%Q) by lra.
    pose proof (round_pos_error (- q) P) as H.
    rewrite (Qabs_neg q) by lra.
    assert (X : (- round_pos (- q) - q == - (round_pos (- q) - - q))%Q) by ring.
    rewrite X, Qabs_opp. exact H.
  - rewrite (Qabs_pos q) by lra. now apply round_pos_error.
Qed.

(** A quotient by [n], rounded and added [n] times. *)
Lemma divide_and_sum (q : Q) (n : Z) :
  0 < n ->
  (Qabs (inject_Z n * round (q / inject_Z n) - q)
   <= eps * Qabs q + inject_Z n * eta)%Q.
Proof.
  intros H.
  assert (Hn : (0 < inject_Z n)%Q) by (unfold Qlt, inject_Z; simpl; lia).
  set (y := (q / inject_Z n)%Q).
  pose proof (round_error y) as E.
  assert (X : (inject_Z n * round y - q == inject_Z n * (round y - y))%Q)
    by (unfold y; field; lra).
  rewrite X, Qabs_Qmult, (Qabs_pos (inject_Z n)) by lra.
  assert (Y : (inject_Z n * Qabs y == Qabs q)%Q).
  { rewrite <- (Qabs_pos (inject_Z n)) at 1 by lra.
    rewrite <- Qabs_Qmult. apply Qabs_wd. unfold y. field. lra. }
  assert (Z0 : (inject_Z n * Qabs (round y - y)
                <= inject_Z n * (eps * Qabs y + eta))%Q)
    by (apply Qmult_le_l; [lra | exact E]).
  assert (W : (inject_Z n * (eps * Qabs y + eta)
               == eps * (inject_Z n * Qabs y) + inject_Z n * eta)%Q) by ring.
  rewrite W, Y in Z0. exact Z0.
Qed.

End Rounding.

(** ** Calendar proration *)

Lemma fold_update_get (h : cell -> cell) (cols : list string) (r : Row.row)
  (c : string) :
  NoDup cols ->
  Row.get c
    (fold_left (fun b col => match Row.get col b with
                             | Some v => Row.set col (h v) b
                             | None => b
                             end) cols r)
  = if existsb (String.eqb c) cols
    then option_map h (Row.get c r) else Row.get c r.
Proof.
  revert r. induction cols as [|col rest IH]; intros r H; simpl; auto.
  inversion H as [|? ? Hnot Hrest]; subst.
  rewrite IH by assumption.
  destruct (String.eqb_spec c col) as [->|Hc]; simpl.
  - assert (E : existsb (String.eqb col) rest = false).
    { destruct (existsb (String.eqb col) rest) eqn:E; auto.
      apply existsb_exists in E as (x & Hx & Hxc).
      apply String.eqb_eq in Hxc. subst x. contradiction. }
    rewrite E. destruct (Row.get col r) as [v|] eqn:G; simpl.
    + apply get_set_same.
    + exact G.
  - destruct (Row.get col r) as [v|] eqn:G; auto.
    rewrite get_set_other by assumption. reflexivity.
Qed.

Lemma existsb_eqb_In (c : string) (l : list string) :
  existsb (String.eqb c) l = true <-> In c l.
Proof.
  rewrite existsb_exists. split.
  - intros (x & Hx & E). apply String.eqb_eq in E. now subst.
  - intros H. exists c. split; auto. apply String.eqb_refl.
Qed.

Lemma existsb_eqb_not_In (c : string) (l : list string) :
  existsb (String.eqb c) l = false <-> ~ In c l.
Proof.
  rewrite <- existsb_eqb_In. destruct (existsb (String.eqb c) l); split;
    congruence.
Qed.

Lemma nth_map_in {A B : Type} (f : A -> B) (l : list A) (i : nat) (d : B) (d' : A) :
  (i < List.length l)%nat -> nth i (List.map f l) d = f (nth i l d').
Proof.
  revert i; induction l as [|a l IH]; intros [|i] H; simpl in *; try lia; auto.
  apply IH. lia.
Qed.

Section Proration.

Import Calendar.

Variable L : PyLib.

Lemma budget_prorate_get (prorate : list string) (n : Z) (r : Row.row)
  (c : string) :
  NoDup prorate ->
  Row.get c (Budgets.prorate_row L prorate n r)
  = if existsb (String.eqb c) prorate
    then Some (Budgets.prorated L n (Row.get c r)) else Row.get c r.
Proof. intros H. apply (fold_set_get (Budgets.prorated L n)); auto. Qed.

Lemma zero_row_get (prorate : list string) (r : Row.row) (c : string) :
  NoDup prorate ->
  Row.get c (Budgets.zero_row prorate r)
  = if String.eqb c "Date" then Some NaT
    else if existsb (String.eqb c) prorate then Some (Num 0) else Row.get c r.
Proof.
  intros H. unfold Budgets.zero_row.
  destruct (String.eqb_spec c "Date") as [->|Hc].
  - apply get_set_same.
  - rewrite get_set_other by assumption.
    apply (fold_set_get (fun _ => Num 0)); auto.
Qed.

Lemma plan_prorate_get (n : Z) (r : Row.row) (c : string) :
  Row.get c (Plans.prorate_row L n r)
  = if existsb (String.eqb c) Plans.PRORATE_COLS
    then option_map (Plans.prorated L n) (Row.get c r) else Row.get c r.
Proof.
  apply (fold_update_get (Plans.prorated L n)).
  unfold Plans.PRORATE_COLS.
  repeat (constructor; [simpl; intuition discriminate|]). constructor.
Qed.

Lemma date_range_length (x y : Z) :
  x <= y -> Z.of_nat (List.length (date_range x y)) = y - x + 1.
Proof.
  intros H. unfold date_range. rewrite length_map, length_seq. lia.
Qed.

Lemma date_range_nth (x y : Z) (i : nat) :
  (Z.of_nat i < y - x + 1) -> nth i (date_range x y) 0 = x + Z.of_nat i.
Proof.
  intros H. unfold date_range.
  rewrite (nth_map_in _ _ _ _ 0%nat) by (rewrite length_seq; lia).
  rewrite seq_nth by lia. reflexivity.
Qed.

Lemma date_range_empty (x y : Z) : y < x -> date_range x y = [].
Proof.
  intros H. unfold date_range.
  replace (Z.to_nat (y - x + 1)) with 0%nat by lia. reflexivity.
Qed.

(** The sum of a prorated column over the rows of one record. *)
Lemma column_sum_days (c : string) (base : Row.row) (days : list Z) :
  c <> "Date" ->
  (column_sum c (List.map (fun d => Row.set "Date" (Day d) base) days)
   == inject_Z (Z.of_nat (List.length days)) * cell_value (Row.get c base))%Q.
Proof.
  intros Hc. induction days as [|d days IH].
  - simpl. unfold inject_Z. ring.
  - cbn [List.map column_sum fold_right List.length].
    fold (column_sum c (List.map (fun d => Row.set "Date" (Day d) base) days)).
    rewrite IH, get_set_other by assumption.
    rewrite Nat2Z.inj_succ. unfold Z.succ. rewrite inject_Z_plus. ring.
Qed.

(** Conservation for a record whose end date is not before its start date:
    one row per day, each prorated column at the parsed value over the
    number of days, and the column summing back to the parsed value up to
    the rounding of the division. *)
Lemma budget_rows_conserve (prorate : list string) (a : Budgets.acc)
  (r : Row.row) (x y : Z) :
  Row.get Budgets.START_COL r = Some (Day x) ->
  Row.get Budgets.END_COL r = Some (Day y) ->
  x <= y ->
  NoDup prorate -> ~ In "Date" prorate ->
  let n := y - x + 1 in
  exists a' emitted,
    Budgets.step L prorate a r = Ok a'
    /\ Budgets.out_rows a' = Budgets.out_rows a ++ emitted
    /\ Z.of_nat (List.length emitted) = n
    /\ (forall i, (Z.of_nat i < n) ->
          Row.get "Date" (nth i emitted []) = Some (Day (x + Z.of_nat i)))
    /\ (forall c row, In c prorate -> In row emitted ->
          Row.get c row = Some (Budgets.prorated L n (Row.get c r)))
    /\ (forall c v q, In c prorate -> Row.get c r = Some v ->
          Budgets.parse_number L v = Some (Num q) ->
          (Qabs (column_sum c emitted - Float64.round q)
           <= Float64.eps * Qabs (Float64.round q)
              + inject_Z n * Float64.eta)%Q).
Proof.
  intros Hs He Hxy Hnd Hdate n.
  pose proof (date_range_length x y Hxy) as Hlen.
  eexists. exists (List.map (fun d => Row.set "Date" (Day d)
                                (Budgets.prorate_row L prorate n r))
                     (date_range x y)).
  unfold Budgets.step. rewrite Hs, He. cbn [of_option bind isna orb].
  rewrite Hlen. replace (Z.max 1 (y - x + 1)) with n by (unfold n; lia).
  split; [reflexivity|]. cbn [Budgets.out_rows].
  split; [reflexivity|].
  split; [now rewrite length_map|].
  assert (Hget : forall c, In c prorate ->
            Row.get c (Budgets.prorate_row L prorate n r)
            = Some (Budgets.prorated L n (Row.get c r))).
  { intros c Hc. rewrite budget_prorate_get by assumption.
    apply existsb_eqb_In in Hc. now rewrite Hc. }
  assert (Hneq : forall c, In c prorate -> c <> "Date")
    by (intros c Hc ->; contradiction).
  split; [|split].
  - intros i Hi.
    rewrite (nth_map_in _ _ _ _ 0) by lia.
    rewrite get_set_same, date_range_nth by (fold n; lia).
    reflexivity.
  - intros c row Hc Hrow. apply in_map_iff in Hrow as (d & <- & _).
    rewrite get_set_other by auto. auto.
  - intros c v q Hc Hv Hq.
    rewrite column_sum_days by auto.
    rewrite Hlen, (Hget c Hc), Hv. unfold Budgets.prorated. rewrite Hq.
    cbn [cell_div cell_value]. fold n. apply divide_and_sum. unfold n; lia.
Qed.

(** A record whose end date precedes its start date leaves no row at all,
    although [n] is 1. *)
Lemma budget_rows_inverted (prorate : list string) (a : Budgets.acc)
  (r : Row.row) (x y : Z) :
  Row.get Budgets.START_COL r = Some (Day x) ->
  Row.get Budgets.END_COL r = Some (Day y) ->
  y < x ->
  exists a',
    Budgets.step L prorate a r = Ok a'
    /\ Budgets.out_rows a' = Budgets.out_rows a
    /\ Z.max 1 (Z.of_nat (List.length (date_range x y))) = 1.
Proof.
  intros Hs He Hxy. unfold Budgets.step. rewrite Hs, He.
  cbn [of_option bind isna orb]. rewrite (date_range_empty x y Hxy).
  eexists. split; [reflexivity|]. cbn [Budgets.out_rows List.map].
  split; [apply app_nil_r | reflexivity].
Qed.

Lemma plan_rows_conserve (r : Row.row) (x y : Z) :
  Row.get Plans.START_COL r = Some (Day x) ->
  Row.get Plans.END_COL r = Some (Day y) ->
  x <= y ->
  let n := y - x + 1 in
  exists emitted,
    Plans.step L r = Ok emitted
    /\ Z.of_nat (List.length emitted) = n
    /\ (forall i, (Z.of_nat i < n) ->
          Row.get "Date" (nth i emitted []) = Some (Day (x + Z.of_nat i)))
    /\ (forall c v row, In c Plans.PRORATE_COLS -> Row.get c r = Some v ->
          In row emitted -> Row.get c row = Some (Plans.prorated L n v))
    /\ (forall c v q, In c Plans.PRORATE_COLS -> Row.get c r = Some v ->
          Plans.to_float_safe L v = Num q ->
          (Qabs (column_sum c emitted - Float64.round q)
           <= Float64.eps * Qabs (Float64.round q)
              + inject_Z n * Float64.eta)%Q).
Proof.
  intros Hs He Hxy n.
  pose proof (date_range_length x y Hxy) as Hlen.
  exists (List.map (fun d => Row.set "Date" (Day d) (Plans.prorate_row L n r))
            (date_range x y)).
  unfold Plans.step. rewrite Hs, He. cbn [of_option bind isna orb].
  rewrite Hlen. replace (Z.max 1 (y - x + 1)) with n by (unfold n; lia).
  split; [reflexivity|].
  split; [now rewrite length_map|].
  assert (Hget : forall c v, In c Plans.PRORATE_COLS -> Row.get c r = Some v ->
            Row.get c (Plans.prorate_row L n r) = Some (Plans.prorated L n v)).
  { intros c v Hc Hv. rewrite plan_prorate_get.
    apply existsb_eqb_In in Hc. now rewrite Hc, Hv. }
  assert (Hneq : forall c, In c Plans.PRORATE_COLS -> c <> "Date").
  { intros c Hc ->. unfold Plans.PRORATE_COLS in Hc. simpl in Hc.
    intuition discriminate. }
  split; [|split].
  - intros i Hi.
    rewrite (nth_map_in _ _ _ _ 0) by lia.
    rewrite get_set_same, date_range_nth by (fold n; lia).
    reflexivity.
  - intros c v row Hc Hv Hrow. apply in_map_iff in Hrow as (d & <- & _).
    rewrite get_set_other by auto. auto.
  - intros c v q Hc Hv Hq.
    rewrite column_sum_days by auto.
    rewrite Hlen, (Hget c v Hc Hv). unfold Plans.prorated. rewrite Hq.
    cbn [Plans.is_number cell_div cell_value]. fold n.
    apply divide_and_sum. unfold n; lia.
Qed.

(** C8 (amended). Budget expander: a record whose start or end date is
    missing, whose fiscal-year fallback fails and whose planned-value field
    is absent or the empty string leaves exactly one row, with a null date
    and every prorated column at 0, the other fields unchanged; nothing is
    collected for review.  Plan expander: there is no fiscal-year fallback
    and no zero; a record whose start or end date is missing leaves exactly
    one row with a null date and every other field, the prorated ones
    included, at its original value. *)
Theorem undated_record_rows :
  (forall prorate a r s e,
     Row.get Budgets.START_COL r = Some s ->
     Row.get Budgets.END_COL r = Some e ->
     (isna s || isna e)%bool = true ->
     Budgets.fiscal_year L (Row.get Budgets.FX_YEAR_COL r) = None ->
     Row.get Budgets.PLANNED_COL r = None
     \/ Row.get Budgets.PLANNED_COL r = Some (Str "") ->
     NoDup prorate -> ~ In "Date" prorate ->
     exists a' row,
       Budgets.step L prorate a r = Ok a'
       /\ Budgets.out_rows a' = Budgets.out_rows a ++ [row]
       /\ Budgets.debug_rows a' = Budgets.debug_rows a
       /\ Row.get "Date" row = Some NaT
       /\ (forall c, In c prorate -> Row.get c row = Some (Num 0))
       /\ (forall c, ~ In c prorate -> c <> "Date" ->
             Row.get c row = Row.get c r))
  /\ (forall r s e,
        Row.get Plans.START_COL r = Some s ->
        Row.get Plans.END_COL r = Some e ->
        (isna s || isna e)%bool = true ->
        exists row,
          Plans.step L r = Ok [row]
          /\ Row.get "Date" row = Some NaT
          /\ (forall c, c <> "Date" -> Row.get c row = Row.get c r)).
Proof.
  split.
  - intros prorate a r s e Hs He Hna Hfy Hpl Hnd Hdate.
    exists {| Budgets.out_rows := Budgets.out_rows a ++ [Budgets.zero_row prorate r];
              Budgets.debug_rows := Budgets.debug_rows a;
              Budgets.total_input_planned_count :=
                Budgets.total_input_planned_count a;
              Budgets.total_emitted_planned_positive :=
                Budgets.total_emitted_planned_positive a |}.
    exists (Budgets.zero_row prorate r).
    split.
    + unfold Budgets.step. rewrite Hs, He. cbn [of_option bind].
      rewrite Hna, Hfy. cbn [bind].
      destruct Hpl as [-> | ->]; reflexivity.
    + cbn [Budgets.out_rows Budgets.debug_rows].
      split; [reflexivity|]. split; [reflexivity|].
      split; [|split].
      * rewrite zero_row_get by assumption. reflexivity.
      * intros c Hc. rewrite zero_row_get by assumption.
        destruct (String.eqb_spec c "Date") as [->|_]; [contradiction|].
        apply existsb_eqb_In in Hc. now rewrite Hc.
      * intros c Hc Hd. rewrite zero_row_get by assumption.
        destruct (String.eqb_spec c "Date") as [->|_]; [contradiction|].
        apply existsb_eqb_not_In in Hc. now rewrite Hc.
  - intros r s e Hs He Hna. exists (Row.set "Date" NaT r).
    unfold Plans.step. rewrite Hs, He. cbn [of_option bind]. rewrite Hna.
    split; [reflexivity|]. split.
    + apply get_set_same.
    + intros c Hc. now apply get_set_other.
Qed.

(** C9 (amended). [parse_number], the parser of the budget expander, returns
    a number or null for every value and has no way to raise; after the NFKC
    normalisation it reads only the digits, minus signs, dots and
    parentheses of the text, so that currency symbols, thousands separators,
    spaces and no-break spaces are ignored, while a character that NFKC
    turns into digits (a superscript, a fraction) counts for these digits; a
    parenthesised unsigned literal parses as the negation of the literal; the
    placeholders and the empty text parse to null; and a null becomes 0 in
    the prorated row, any other value being divided by the number of days.
    [to_float_safe], the parser of the plan expander, never raises either,
    but gives a number only for a plain numeric text (commas removed) and
    otherwise returns the value unchanged. *)
Theorem tolerant_parser :
  (forall x, Budgets.parse_number L x = None
             \/ exists q, Budgets.parse_number L x = Some (Num q))
  /\ (forall s, Budgets.parse_number L (Str s)
                = Budgets.parse_number L
                    (Str (PyStr.str_filter Budgets.num_char (Budgets.nfkc s))))
  /\ (forall s, PyStr.str_all (fun c => Nat.ltb (PyStr.code c) 128) s = true ->
                Budgets.nfkc s = s)
  /\ Budgets.parse_number L (Str "$1,234.50") = Some (Num (123450 # 100))
  /\ Budgets.parse_number L
       (Str (String "1" (String Budgets.nbsp "234"))) = Some (Num 1234)
  /\ Budgets.parse_number L
       (Str (String "5" (String (ascii_of_nat 178) ""))) = Some (Num 52)
  /\ Budgets.parse_number L
       (Str (String (ascii_of_nat 188) "")) = Some (Num 14)
  /\ (forall s, PyStr.str_all Budgets.unsigned_char s = true -> s <> "" ->
        Budgets.parse_number L (Str ("(" ++ s ++ ")"))
        = Budgets.negated (Budgets.parse_number L (Str s)))
  /\ (Budgets.parse_number L (Str "-") = None
      /\ Budgets.parse_number L (Str "N/A") = None
      /\ Budgets.parse_number L (Str "") = None
      /\ Budgets.parse_number L NaN = None)
  /\ (forall prorate n r c v,
        NoDup prorate -> In c prorate -> Row.get c r = Some v ->
        Row.get c (Budgets.prorate_row L prorate n r)
        = Some (match Budgets.parse_number L v with
                | None => Num 0
                | Some val => cell_div val n
                end))
  /\ (forall v, Plans.to_float_safe L v = v
                \/ (exists q, Plans.to_float_safe L v = Num q)
                \/ Plans.to_float_safe L v = NaN).
Proof.
  split; [apply parse_number_number_or_null|].
  split.
  { intros s. rewrite !parse_number_str.
    rewrite (nfkc_id _ (str_all_filter Budgets.num_char (Budgets.nfkc s))).
    now rewrite (str_filter_id _ _ (str_all_filter Budgets.num_char _)). }
  split; [apply nfkc_ascii|].
  split; [vm_compute; reflexivity|].
  split; [vm_compute; reflexivity|].
  split; [vm_compute; reflexivity|].
  split; [vm_compute; reflexivity|].
  split; [apply parse_number_paren|].
  split; [repeat split; reflexivity|].
  split; [|apply to_float_safe_cases].
  intros prorate n r c v Hnd Hc Hv.
  rewrite budget_prorate_get by assumption.
  apply existsb_eqb_In in Hc. rewrite Hc, Hv. reflexivity.
Qed.

End Proration.

(** C1 at a record whose end date precedes its start date: the day count
    [n] is 1, yet the budget expander and the plan expander emit no row for
    the record, so its planned value of 300 is not conserved. *)
Theorem inverted_range_loses_record :
  (exists a, Budgets.main Lib.ascii_lib inverted_budget = Ok a
             /\ Budgets.out_rows a = [])
  /\ Plans.main Lib.ascii_lib inverted_plan = Ok []
  /\ Z.max 1 (Z.of_nat (List.length (Calendar.date_range 19725 19723))) = 1.
Proof.
  split; [|split]; [eexists; split| |]; vm_compute; reflexivity.
Qed.

Lemma undated_record_rows_witness :
  (exists a' row,
     Budgets.step Lib.ascii_lib ["Planned (Local)"; "Budget (Local)"]
       Budgets.acc0 undated_budget = Ok a'
     /\ Budgets.out_rows a' = [row]
     /\ Row.get "Date" row = Some NaT
     /\ Row.get "Budget (Local)" row = Some (Num 0))
  /\ (exists row,
        Plans.main Lib.ascii_lib undated_plan = Ok [row]
        /\ Row.get "Date" row = Some NaT
        /\ Row.get "Views" row = Some (Num 500)).
Proof.
  destruct (undated_record_rows Lib.ascii_lib) as [B P]. split.
  - destruct (B ["Planned (Local)"; "Budget (Local)"] Budgets.acc0 undated_budget
                NaT (Day 19725) eq_refl eq_refl eq_refl eq_refl
                (or_intror eq_refl))
      as (a' & row & Hstep & Hout & _ & Hdate & Hzero & _).
    + repeat constructor; simpl; intuition discriminate.
    + simpl; intuition discriminate.
    + exists a', row. repeat split; auto.
      apply Hzero. simpl. auto.
  - destruct (P [("Start_Date", NaT); ("End_Date", Day 19723); ("Views", Num 500)]
                NaT (Day 19723) eq_refl eq_refl eq_refl)
      as (row & Hstep & Hdate & Hkeep).
    exists row. split; [|split; [exact Hdate|]].
    + change (Plans.main Lib.ascii_lib undated_plan)
        with (here <- Plans.step Lib.ascii_lib
                        [("Start_Date", NaT); ("End_Date", Day 19723);
                         ("Views", Num 500)] ;;
              rest <- Ok [] ;; Ok (here ++ rest)).
      rewrite Hstep. reflexivity.
    + rewrite Hkeep by discriminate. reflexivity.
Defined.

(** C8 as stated fails on the plan expander: the row of a plan line without
    a start date keeps its 500 views instead of 0. *)
Lemma undated_record_rows_counterexample :
  exists row,
    Plans.main Lib.ascii_lib undated_plan = Ok [row]
    /\ Row.get "Date" row = Some NaT
    /\ Row.get "Views" row = Some (Num 500)
    /\ Row.get "Views" row <> Some (Num 0).
Proof.
  eexists. split; [vm_compute; reflexivity|].
  split; [reflexivity|]. split; [reflexivity|]. discriminate.
Qed.


Lemma tolerant_parser_witness :
  Budgets.parse_number Lib.ascii_lib (Str "(100)")
  = Budgets.negated (Budgets.parse_number Lib.ascii_lib (Str "100")).
Proof.
  destruct (tolerant_parser Lib.ascii_lib)
    as (_ & _ & _ & _ & _ & _ & _ & Hp & _).
  exact (Hp "100" eq_refl ltac:(discriminate)).
Defined.

(** C9 as stated fails on the parser of the plan expander: a placeholder or
    a parenthesised value comes back as the text it was, neither a number
    nor null. *)
Lemma tolerant_parser_counterexample :
  Plans.to_float_safe Lib.ascii_lib (Str "N/A") = Str "N/A"
  /\ Plans.to_float_safe Lib.ascii_lib (Str "(100)") = Str "(100)"
  /\ ~ (isna (Plans.to_float_safe Lib.ascii_lib (Str "N/A")) = true
        \/ exists q, Plans.to_float_safe Lib.ascii_lib (Str "N/A") = Num q).
Proof.
  split; [vm_compute; reflexivity|]. split; [vm_compute; reflexivity|].
  vm_compute. intros [H|[q H]]; discriminate.
Qed.

(** ** Frames *)

Section Frames.

Import Pandas.

Lemma bind_ok {A B : Type} (r : result A) (k : A -> result B) (b : B) :
  bind r k = Ok b -> exists a, r = Ok a /\ k a = Ok b.
Proof. destruct r as [a|e]; simpl; [eauto | discriminate]. Qed.

Lemma ok_inj {A : Type} (a b : A) : Ok a = Ok b -> a = b.
Proof. intros H. now injection H. Qed.

Lemma lookup_assign_same (c : string) (v : column) (cs : list (string * column)) :
  lookup c (assign c v cs) = Some v.
Proof.
  induction cs as [|[k w] cs IH]; simpl.
  - now rewrite String.eqb_refl.
  - destruct (String.eqb k c) eqn:E; simpl; now rewrite E.
Qed.

Lemma lookup_assign_other (c c' : string) (v : column)
  (cs : list (string * column)) :
  c <> c' -> lookup c (assign c' v cs) = lookup c cs.
Proof.
  intros H. induction cs as [|[k w] cs IH]; simpl.
  - destruct (String.eqb_spec c' c); congruence.
  - destruct (String.eqb_spec k c'); simpl.
    + subst k. destruct (String.eqb_spec c' c); congruence.
    + destruct (String.eqb k c); auto.
Qed.

Lemma lookup_set_col (c c' : string) (v : column) (f : frame) :
  lookup c (cols (set_col c' v f))
  = if String.eqb c c' then Some v else lookup c (cols f).
Proof.
  unfold set_col; simpl. destruct (String.eqb_spec c c') as [->|H].
  - apply lookup_assign_same.
  - now apply lookup_assign_other.
Qed.

Lemma lookup_drop (c c' : string) (f : frame) :
  lookup c (cols (drop c' f))
  = if String.eqb c c' then None else lookup c (cols f).
Proof.
  unfold drop; simpl. induction (cols f) as [|[k w] cs IH]; simpl.
  - now destruct (String.eqb c c').
  - destruct (String.eqb_spec k c') as [->|Hk]; simpl.
    + rewrite IH. destruct (String.eqb_spec c c') as [->|Hc].
      * reflexivity.
      * destruct (String.eqb_spec c' c); congruence.
    + rewrite IH. destruct (String.eqb_spec k c) as [->|Hkc]; auto.
      destruct (String.eqb_spec c c'); congruence.
Qed.

Lemma lookup_ensure (c c' : string) (f : frame) :
  lookup c (cols (ensure c' f))
  = match lookup c (cols f) with
    | Some v => Some v
    | None => if String.eqb c c' then Some (repeat (Str "") (nrows f)) else None
    end.
Proof.
  unfold ensure, has. destruct (lookup c' (cols f)) as [w|] eqn:E.
  - destruct (lookup c (cols f)) eqn:G; auto.
    destruct (String.eqb_spec c c') as [->|]; congruence.
  - unfold set_scalar. rewrite lookup_set_col.
    destruct (String.eqb_spec c c') as [->|]; [now rewrite E|].
    now destruct (lookup c (cols f)).
Qed.

Lemma keeps_refl (f : frame) : keeps [] f f.
Proof. split; auto. Qed.

Lemma keeps_trans (S1 S2 : list string) (f g h : frame) :
  keeps S1 f g -> keeps S2 g h -> keeps (S1 ++ S2) f h.
Proof.
  intros [I1 K1] [I2 K2]. split; [congruence|].
  intros c v Hc Hn. apply K2; [apply K1; auto|]; intros Hin; apply Hn;
    apply in_or_app; auto.
Qed.

Lemma keeps_weaken (S S' : list string) (f g : frame) :
  (forall c, In c S -> In c S') -> keeps S f g -> keeps S' f g.
Proof. intros H [I K]. split; auto. Qed.

Lemma adds_refl (f : frame) : adds [] f f.
Proof. intros c H. now left. Qed.

Lemma adds_trans (N1 N2 : list string) (f g h : frame) :
  adds N1 f g -> adds N2 g h -> adds (N1 ++ N2) f h.
Proof.
  intros A1 A2 c Hc. destruct (A2 c Hc) as [Hg|Hn].
  - destruct (A1 c Hg); auto. right. apply in_or_app; auto.
  - right. apply in_or_app; auto.
Qed.

Lemma adds_weaken (N N' : list string) (f g : frame) :
  (forall c, In c N -> In c N') -> adds N f g -> adds N' f g.
Proof. intros H A c Hc. destruct (A c Hc); auto. Qed.

Lemma keeps_set_col (c : string) (v : column) (f : frame) :
  keeps [c] f (set_col c v f).
Proof.
  split; auto. intros x w Hx Hn. rewrite lookup_set_col.
  destruct (String.eqb_spec x c) as [->|]; auto. exfalso. apply Hn. now left.
Qed.

Lemma adds_set_col (c : string) (v : column) (f : frame) :
  adds [c] f (set_col c v f).
Proof.
  intros x. unfold has. rewrite lookup_set_col.
  destruct (String.eqb_spec x c) as [->|]; auto. right. now left.
Qed.

Lemma adds_set_col_present (c : string) (v : column) (f : frame) :
  has c f = true -> adds [] f (set_col c v f).
Proof.
  intros Hc x. unfold has. rewrite lookup_set_col.
  destruct (String.eqb_spec x c) as [->|]; auto.
Qed.

Lemma keeps_ensure (c : string) (f : frame) : keeps [] f (ensure c f).
Proof.
  split.
  - unfold ensure. now destruct (has c f).
  - intros x w Hx _. rewrite lookup_ensure. now rewrite Hx.
Qed.

Lemma adds_ensure (c : string) (f : frame) : adds [c] f (ensure c f).
Proof.
  intros x. unfold has. rewrite lookup_ensure.
  destruct (lookup x (cols f)); auto.
  destruct (String.eqb_spec x c) as [->|]; [right; now left | discriminate].
Qed.

Lemma keeps_ensure_all (cs : list string) (f : frame) :
  keeps [] f (Cleaning.ensure_all cs f).
Proof.
  unfold Cleaning.ensure_all. revert f.
  induction cs as [|c cs IH]; intros f; simpl; [apply keeps_refl|].
  apply (keeps_trans [] [] f (ensure c f)); [apply keeps_ensure | apply IH].
Qed.

Lemma adds_ensure_all (cs : list string) (f : frame) :
  adds cs f (Cleaning.ensure_all cs f).
Proof.
  unfold Cleaning.ensure_all. revert f.
  induction cs as [|c cs IH]; intros f; simpl; [apply adds_refl|].
  apply (adds_trans [c] cs f (ensure c f)); [apply adds_ensure | apply IH].
Qed.

Lemma keeps_drop (c : string) (f : frame) : keeps [c] f (drop c f).
Proof.
  split; auto. intros x w Hx Hn. rewrite lookup_drop.
  destruct (String.eqb_spec x c) as [->|]; auto. exfalso. apply Hn. now left.
Qed.

Lemma has_drop (c x : string) (f : frame) :
  has x (drop c f) = true -> x <> c /\ has x f = true.
Proof.
  unfold has. rewrite lookup_drop.
  destruct (String.eqb_spec x c); [discriminate | auto].
Qed.

End Frames.

(** ** The frame of the fallback joins *)

Section JoinFrame.

Import Pandas Cleaning.

Variable L : PyLib.

Lemma has_lookup (c : string) (f : frame) (v : column) :
  lookup c (cols f) = Some v -> has c f = true.
Proof. unfold has. now intros ->. Qed.

Lemma get_col_ok (c : string) (f : frame) (v : column) :
  get_col c f = Ok v -> lookup c (cols f) = Some v.
Proof.
  unfold get_col. destruct (lookup c (cols f)); simpl; congruence.
Qed.

Lemma fill_blank_ok (msrc : column) (dst : string) (out out' : frame) :
  fill_blank L msrc dst out = Ok out' ->
  exists d,
    lookup dst (cols out) = Some d
    /\ out' = set_col dst
                (where_ (is_blank L d)
                   (fillna_empty (reindex msrc (index out))) d) out.
Proof.
  unfold fill_blank. intros H. apply bind_ok in H as (d & Hd & H).
  apply get_col_ok in Hd. injection H as <-. eauto.
Qed.

Lemma extends_refl (f : frame) : extends f f.
Proof. intros c H; exact H. Qed.

Lemma extends_trans (f g h : frame) : extends f g -> extends g h -> extends f h.
Proof. intros A B c H. auto. Qed.

Lemma extends_set_col (c : string) (v : column) (f : frame) :
  extends f (set_col c v f).
Proof.
  intros x. unfold has. rewrite lookup_set_col.
  now destruct (String.eqb x c).
Qed.

Lemma extends_ensure_all (cs : list string) (f : frame) :
  extends f (ensure_all cs f).
Proof.
  intros c. unfold has. destruct (lookup c (cols f)) as [v|] eqn:E; [|discriminate].
  destruct (keeps_ensure_all cs f) as [_ K]. now rewrite (K c v E (fun x => x)).
Qed.

Lemma stage_trans (S1 S2 N1 N2 : list string) (f g h : frame) :
  stage S1 N1 f g -> stage S2 N2 g h -> stage (S1 ++ S2) (N1 ++ N2) f h.
Proof.
  intros (K1 & A1 & E1) (K2 & A2 & E2). split; [|split].
  - eapply keeps_trans; eauto.
  - eapply adds_trans; eauto.
  - eapply extends_trans; eauto.
Qed.

Lemma stage_weaken (S S' N N' : list string) (f g : frame) :
  (forall c, In c S -> In c S') -> (forall c, In c N -> In c N') ->
  stage S N f g -> stage S' N' f g.
Proof.
  intros HS HN (K & A & E). split; [|split]; auto.
  - eapply keeps_weaken; eauto.
  - eapply adds_weaken; eauto.
Qed.

Lemma stage_refl (f : frame) : stage [] [] f f.
Proof. split; [apply keeps_refl | split; [apply adds_refl | apply extends_refl]]. Qed.

Lemma stage_set_col (c : string) (v : column) (f : frame) :
  stage [c] [c] f (set_col c v f).
Proof.
  split; [apply keeps_set_col | split; [apply adds_set_col | apply extends_set_col]].
Qed.

Lemma stage_ensure_all (cs : list string) (f : frame) :
  stage [] cs f (ensure_all cs f).
Proof.
  split; [apply keeps_ensure_all
         | split; [apply adds_ensure_all | apply extends_ensure_all]].
Qed.

Lemma fill_blank_frame (msrc : column) (dst : string) (out out' : frame) :
  fill_blank L msrc dst out = Ok out' -> stage [dst] [] out out'.
Proof.
  intros H. apply fill_blank_ok in H as (d & Hd & ->). split; [|split].
  - apply keeps_set_col.
  - apply adds_set_col_present. now apply has_lookup in Hd.
  - apply extends_set_col.
Qed.

Lemma fill_outputs_frame (m : merged) (outputs : list (string * string))
  (out out' : frame) :
  fill_outputs L m outputs out = Ok out' ->
  stage (List.map snd outputs) [] out out'.
Proof.
  revert out. induction outputs as [|[src dst] rest IH]; intros out H; simpl in H.
  - injection H as <-. apply stage_refl.
  - apply bind_ok in H as (o1 & H1 & H).
    apply fill_blank_frame in H1. apply IH in H.
    apply (stage_trans [dst] _ [] [] out o1 out'); auto.
Qed.

Lemma merge_by_precedence_frame (left_key : string -> string)
  (precedence : list (list string)) (outputs : list (string * string))
  (ref out out' : frame) :
  merge_by_precedence L left_key precedence outputs ref out = Ok out' ->
  stage (List.map snd outputs) [] out out'.
Proof.
  revert out. induction precedence as [|keys rest IH]; intros out H; simpl in H.
  - injection H as <-.
    apply stage_weaken with (S := []) (N := []); [intros c [] | auto | apply stage_refl].
  - apply bind_ok in H as (m & _ & H). apply bind_ok in H as (o1 & H1 & H).
    apply fill_outputs_frame in H1. apply IH in H.
    apply stage_weaken with (S := List.map snd outputs ++ List.map snd outputs)
                            (N := [] ++ []).
    + intros c Hc. apply in_app_or in Hc. tauto.
    + auto.
    + apply (stage_trans _ _ _ _ out o1 out'); auto.
Qed.

Lemma fill_vendor_frame (m : merged) (outputs : list (string * string))
  (out out' : frame) :
  fill_vendor L m outputs out = Ok out' ->
  stage (List.map snd outputs) [] out out'.
Proof.
  revert out. induction outputs as [|[src dst] rest IH]; intros out H; simpl in H.
  - injection H as <-. apply stage_refl.
  - apply bind_ok in H as (d & _ & H). apply bind_ok in H as (ms & _ & H).
    apply bind_ok in H as (o1 & H1 & H).
    apply fill_blank_frame in H1. apply IH in H.
    apply (stage_trans [dst] _ [] [] out o1 out'); auto.
Qed.

Lemma brands_join_frame (plans : frame) (R : rules) (brands_df joined : frame) :
  brands_join L plans R brands_df = Ok joined ->
  stage (brand_helpers ++ List.map snd (brand_outputs R))
    (brand_targets ++ brand_helpers) plans joined
  /\ (forall c, In c brand_helpers -> has c joined = true).
Proof.
  unfold brands_join. intros H.
  apply bind_ok in H as (rb & _ & H). apply bind_ok in H as (rv & _ & H).
  apply bind_ok in H as (mk & _ & H).
  set (o0 := ensure_all brand_targets plans) in *.
  set (o1 := set_col "_raw_brand" rb o0) in *.
  set (o2 := set_col "_raw_variant" rv o1) in *.
  set (o3 := set_col "_market" mk o2) in *.
  pose proof (stage_ensure_all brand_targets plans) as S0. fold o0 in S0.
  pose proof (stage_trans _ _ _ _ _ _ _ S0 (stage_set_col "_raw_brand" rb o0)) as S1.
  pose proof (stage_trans _ _ _ _ _ _ _ S1 (stage_set_col "_raw_variant" rv o1)) as S2.
  pose proof (stage_trans _ _ _ _ _ _ _ S2 (stage_set_col "_market" mk o2)) as S3.
  fold o1 in S1. fold o2 in S2. fold o3 in S3.
  apply merge_by_precedence_frame in H.
  pose proof (stage_trans _ _ _ _ _ _ _ S3 H) as S4.
  split.
  - eapply stage_weaken; [| |exact S4].
    + intros c Hc. unfold brand_helpers. rewrite !in_app_iff in *. simpl in *. tauto.
    + intros c Hc. unfold brand_helpers. rewrite !in_app_iff in *. simpl in *. tauto.
  - intros c Hc. destruct H as (_ & _ & E). apply E.
    unfold has, o3, o2, o1. rewrite !lookup_set_col.
    unfold brand_helpers in Hc. simpl in Hc.
    destruct Hc as [<-|[<-|[<-|[]]]]; reflexivity.
Qed.

Lemma vendors_join_frame (plans vend_df joined : frame) :
  vendors_join L plans vend_df = Ok joined ->
  stage (vendor_helpers ++ vendor_targets) (vendor_targets ++ vendor_helpers)
    plans joined
  /\ has "_raw_vendor" joined = true.
Proof.
  unfold vendors_join. intros H.
  apply bind_ok in H as (rv & _ & H). apply bind_ok in H as (m & _ & H).
  set (o0 := ensure_all vendor_targets plans) in *.
  set (o1 := set_col "_raw_vendor" rv o0) in *.
  pose proof (stage_ensure_all vendor_targets plans) as S0. fold o0 in S0.
  pose proof (stage_trans _ _ _ _ _ _ _ S0 (stage_set_col "_raw_vendor" rv o0)) as S1.
  fold o1 in S1.
  apply fill_vendor_frame in H.
  pose proof (stage_trans _ _ _ _ _ _ _ S1 H) as S2.
  split.
  - eapply stage_weaken; [| |exact S2].
    + intros c Hc. unfold vendor_helpers. rewrite !in_app_iff in *. simpl in *. tauto.
    + intros c Hc. unfold vendor_helpers. rewrite !in_app_iff in *. simpl in *. tauto.
  - destruct H as (_ & _ & E). apply E.
    unfold has, o1. now rewrite lookup_set_col.
Qed.

Lemma brand_hints_frame (R : rules) (out : frame) (hc : frame * list event) :
  brand_hints L R out = Ok hc -> stage ["__hint"] ["__hint"] out (fst hc).
Proof.
  unfold brand_hints. intros H.
  set (o1 := set_scalar "__hint" (Str "") out) in *.
  pose proof (stage_set_col "__hint" (repeat (Str "") (nrows out)) out) as S1.
  change (set_col "__hint" (repeat (Str "") (nrows out)) out) with o1 in S1.
  set (o2 := match lookup "Plan Name" (cols o1), lookup "__hint" (cols o1) with
             | Some pn, Some h =>
                 set_col "__hint" (fold_left (apply_hint L pn) (brand_regex R) h) o1
             | _, _ => o1
             end) in *.
  assert (S2 : stage ["__hint"] ["__hint"] o1 o2).
  { unfold o2. destruct (lookup "Plan Name" (cols o1)); [|
      apply stage_weaken with (S := []) (N := []); [intros x [] | intros x [] | apply stage_refl]].
    destruct (lookup "__hint" (cols o1)); [apply stage_set_col|].
    apply stage_weaken with (S := []) (N := []); [intros x [] | intros x [] | apply stage_refl]. }
  apply bind_ok in H as (h & _ & H). apply bind_ok in H as (bc & _ & H).
  injection H as <-. cbn [fst].
  eapply stage_weaken; [| |exact (stage_trans _ _ _ _ _ _ _ S1 S2)];
    intros c Hc; simpl in *; tauto.
Qed.

(** C10 (amended). [brands_map] and [vendors_map] keep the index and every
    input column that is neither a target output field nor one of the key
    columns they add ([_raw_brand], [_raw_variant], [_market] for brands,
    [_raw_vendor] for vendors; [brands_map] also drops a column named
    [__hint]); the columns of the result are those of the input, the target
    output fields and these key columns, which stay in the result. *)
Theorem join_frame :
  (forall plans R brands_df qa out qa',
     brands_map L plans R brands_df qa = Ok (out, qa') ->
     index out = index plans
     /\ (forall c v, lookup c (cols plans) = Some v ->
           ~ In c (List.map snd (brand_outputs R)) ->
           ~ In c brand_helpers -> c <> "__hint" ->
           lookup c (cols out) = Some v)
     /\ (forall c, has c out = true ->
           has c plans = true \/ In c brand_targets \/ In c brand_helpers)
     /\ (forall c, In c brand_helpers -> has c out = true))
  /\ (forall plans R vend_df qa out qa',
        vendors_map L plans R vend_df qa = Ok (out, qa') ->
        index out = index plans
        /\ (forall c v, lookup c (cols plans) = Some v ->
              ~ In c vendor_targets -> ~ In c vendor_helpers ->
              lookup c (cols out) = Some v)
        /\ (forall c, has c out = true ->
              has c plans = true \/ In c vendor_targets \/ In c vendor_helpers)
        /\ (forall c, In c vendor_helpers -> has c out = true)).
Proof.
  split.
  - intros plans R brands_df qa out qa' H. unfold brands_map in H.
    apply bind_ok in H as (joined & Hj & H). apply bind_ok in H as (bc & _ & H).
    apply bind_ok in H as (hc & Hh & H). injection H as <- _.
    apply brands_join_frame in Hj as [(Kj & Aj & Ej) Hhelp].
    apply brand_hints_frame in Hh as (Kh & Ah & Eh).
    destruct Kj as [Ij Kj]. destruct Kh as [Ih Kh].
    destruct (keeps_drop "__hint" (fst hc)) as [Id Kd].
    split; [congruence|]. split; [|split].
    + intros c v Hc Ho Hb Hn. apply Kd; [apply Kh; [apply Kj|]|]; auto.
      * rewrite in_app_iff. tauto.
      * simpl. intuition congruence.
      * simpl. intuition congruence.
    + intros c Hc. apply has_drop in Hc as [Hn Hc].
      destruct (Ah c Hc) as [Hc'|Hin]; [|simpl in Hin; intuition congruence].
      destruct (Aj c Hc') as [|Hin]; auto. rewrite in_app_iff in Hin. tauto.
    + intros c Hc. specialize (Hhelp c Hc). apply Eh in Hhelp.
      unfold has in *.
      destruct (lookup c (cols (fst hc))) as [v|] eqn:E; [|discriminate].
      rewrite (Kd c v E); auto.
      unfold brand_helpers in Hc. simpl in *. intuition (subst; discriminate).
  - intros plans R vend_df qa out qa' H. unfold vendors_map in H.
    apply bind_ok in H as (joined & Hj & H). apply bind_ok in H as (vc & Hvc & H).
    injection H as <- _.
    apply vendors_join_frame in Hj as [(Kj & Aj & Ej) Hhelp].
    destruct Kj as [Ij Kj].
    set (o := set_col "Vendor_clean" _ joined).
    destruct (stage_set_col "Vendor_clean"
                (where_ (is_blank L vc)
                   (repeat (Str "_Placeholder") (List.length vc)) vc) joined)
      as ([Io Ko] & Ao & Eo). fold o in Io, Ko, Ao, Eo.
    split; [congruence|]. split; [|split].
    + intros c v Hc Ht Hh. apply Ko; [apply Kj; auto|].
      * rewrite in_app_iff. tauto.
      * intros [<-|[]]. apply Ht. unfold vendor_targets. simpl. auto.
    + intros c Hc. destruct (Ao c Hc) as [Hc'|[<-|[]]].
      * destruct (Aj c Hc') as [|Hin]; auto. rewrite in_app_iff in Hin. tauto.
      * right. left. unfold vendor_targets. simpl. auto.
    + intros c [<-|[]]. apply Eo. exact Hhelp.
Qed.

End JoinFrame.

Lemma join_frame_witness :
  exists out qa,
    Cleaning.brands_map Lib.ascii_lib plans_frame brand_rules brands_table []
    = Ok (out, qa)
    /\ Pandas.lookup "Spend" (Pandas.cols out) = Some [Num 100; Num 50].
Proof.
  destruct (Cleaning.brands_map Lib.ascii_lib plans_frame brand_rules brands_table [])
    as [[out qa]|e] eqn:E; [|vm_compute in E; discriminate].
  exists out, qa. split; [reflexivity|].
  destruct (join_frame Lib.ascii_lib) as [B _].
  destruct (B plans_frame brand_rules brands_table [] out qa E) as (_ & K & _).
  apply K; [reflexivity | | |]; simpl; intuition discriminate.
Defined.

(** C10 as stated fails: the result of [brands_map] has the column
    [_raw_brand], which is neither a column of the input nor a target
    output field. *)
Lemma join_frame_counterexample :
  exists out qa,
    Cleaning.brands_map Lib.ascii_lib plans_frame brand_rules brands_table []
    = Ok (out, qa)
    /\ Pandas.has "_raw_brand" out = true
    /\ Pandas.has "_raw_brand" plans_frame = false
    /\ ~ In "_raw_brand"
         (List.map snd (Cleaning.brand_outputs brand_rules) ++ Cleaning.brand_targets).
Proof.
  eexists. eexists. split; [vm_compute; reflexivity|].
  split; [reflexivity|]. split; [reflexivity|].
  simpl. intuition discriminate.
Qed.

(** ** Alignment of a left merge *)

Section Alignment.

Import Pandas.

Lemma where_length (m : list bool) (a b : column) :
  List.length m = List.length b -> List.length a = List.length b ->
  List.length (where_ m a b) = List.length b.
Proof.
  revert a b; induction m as [|x m IH]; intros [|y a] [|z b] Hm Ha;
    simpl in *; try discriminate; auto.
Qed.

Lemma where_nth (m : list bool) (a b : column) (i : nat) :
  List.length m = List.length b -> List.length a = List.length b ->
  (i < List.length b)%nat ->
  nth i (where_ m a b) NaN = if nth i m false then nth i a NaN else nth i b NaN.
Proof.
  revert a b i; induction m as [|x m IH]; intros [|y a] [|z b] i Hm Ha Hi;
    simpl in *; try discriminate; try lia.
  destruct i; auto. apply IH; lia.
Qed.

Lemma reindex_length (s : column) (labels : list Z) :
  List.length (reindex s labels) = List.length labels.
Proof. unfold reindex. apply length_map. Qed.

(** On the default index, [reindex] reads the series position by position. *)
Lemma reindex_range (s : column) (n i : nat) :
  (i < n)%nat ->
  nth i (reindex s (List.map Z.of_nat (seq 0 n))) NaN = nth i s NaN.
Proof.
  intros Hi. unfold reindex.
  rewrite (nth_map_in _ _ _ _ 0) by (rewrite length_map, length_seq; lia).
  rewrite (nth_map_in _ _ _ _ 0%nat) by (rewrite length_seq; lia).
  rewrite seq_nth by lia. cbn [Nat.add].
  replace (0 <=? Z.of_nat i) with true by (symmetry; apply Z.leb_le; lia).
  cbn [andb].
  destruct (Z.of_nat i <? Z.of_nat (List.length s)) eqn:E.
  - now rewrite Nat2Z.id.
  - apply Z.ltb_ge in E. symmetry. apply nth_overflow. lia.
Qed.

Lemma key_columns_ok (ks : list string) (f : frame) (vs : list column) :
  key_columns ks f = Ok vs ->
  forall i, List.map (fun v => nth i v NaN) vs = row_key f ks i.
Proof.
  revert vs. induction ks as [|k ks IH]; intros vs H i; simpl in H.
  - injection H as <-. reflexivity.
  - apply bind_ok in H as (v & Hv & H). apply bind_ok in H as (rest & Hr & H).
    injection H as <-. apply get_col_ok in Hv. simpl.
    rewrite Hv. f_equal. now apply IH.
Qed.

Lemma key_tuples_ok (ks : list string) (f : frame) (ts : list (list cell)) :
  key_tuples ks f = Ok ts -> ts = all_keys f ks.
Proof.
  unfold key_tuples, all_keys. intros H.
  apply bind_ok in H as (vs & Hvs & H). injection H as <-.
  apply map_ext. intros i. now apply key_columns_ok.
Qed.

(** With at most one match for every left row, the merge has one row for
    every left row, in order. *)
Lemma merge_pairs_aligned (lkeys rkeys : list (list cell)) :
  (forall k, In k lkeys -> (List.length (matches k rkeys) <= 1)%nat) ->
  merge_pairs lkeys rkeys
  = List.map (fun e => (fst e, hd_error (matches (snd e) rkeys)))
      (combine (seq 0 (List.length lkeys)) lkeys).
Proof.
  intros H. unfold merge_pairs. generalize 0%nat as s.
  induction lkeys as [|k lkeys IH]; intros s; simpl; auto.
  rewrite IH by (intros k' Hk'; apply H; now right). f_equal.
  specialize (H k (or_introl eq_refl)).
  destruct (matches k rkeys) as [|j [|j' rest]]; simpl in *; auto; lia.
Qed.

Lemma combine_seq_nth {A : Type} (l : list A) (s i : nat) (d : A) :
  (i < List.length l)%nat ->
  nth i (combine (seq s (List.length l)) l) (0%nat, d) = ((s + i)%nat, nth i l d).
Proof.
  revert s i; induction l as [|a l IH]; intros s i Hi; simpl in *; [lia|].
  destruct i; [now rewrite Nat.add_0_r|].
  rewrite IH by lia. f_equal. lia.
Qed.

Lemma all_keys_length (f : frame) (ks : list string) :
  List.length (all_keys f ks) = nrows f.
Proof. unfold all_keys. now rewrite length_map, length_seq. Qed.

Lemma all_keys_nth (f : frame) (ks : list string) (i : nat) :
  (i < nrows f)%nat -> nth i (all_keys f ks) [] = row_key f ks i.
Proof.
  intros Hi. unfold all_keys.
  rewrite (nth_map_in _ _ _ _ 0%nat) by (rewrite length_seq; lia).
  now rewrite seq_nth by lia.
Qed.

Lemma in_all_keys (f : frame) (ks : list string) (k : list cell) :
  In k (all_keys f ks) -> exists i, (i < nrows f)%nat /\ k = row_key f ks i.
Proof.
  unfold all_keys. intros H. apply in_map_iff in H as (i & <- & Hi).
  apply in_seq in Hi. exists i. split; [lia | reflexivity].
Qed.

(** The cell of [m[src]] that a left merge of [out] and [ref], re-indexed
    on the index of [out], gives to the row [i]. *)
Lemma merged_cell (out ref : frame) (left_on right_on : list string)
  (m : merged) (src : string) (i : nat) :
  merge out ref left_on right_on = Ok m ->
  range_index out ->
  (forall j, (j < nrows out)%nat ->
     (match_count out ref left_on right_on j <= 1)%nat) ->
  has src out = false ->
  (i < nrows out)%nat ->
  nth i (fillna_empty (reindex (Cleaning.merged_col_or_empty m src) (index out))) NaN
  = joined_cell ref src (first_match out ref left_on right_on i).
Proof.
  intros Hm Hr Hu Hs Hi. unfold merge in Hm.
  destruct left_on as [|k0 ks0] eqn:Elo; [discriminate|]. rewrite <- Elo in *.
  apply bind_ok in Hm as (lk & Hlk & Hm). apply bind_ok in Hm as (rk & Hrk & Hm).
  injection Hm as <-.
  apply key_tuples_ok in Hlk, Hrk. subst lk rk.
  assert (Hp : merge_pairs (all_keys out left_on) (all_keys ref right_on)
               = List.map (fun e => (fst e, hd_error (matches (snd e)
                                                        (all_keys ref right_on))))
                   (combine (seq 0 (List.length (all_keys out left_on)))
                      (all_keys out left_on))).
  { apply merge_pairs_aligned. intros k Hk.
    apply in_all_keys in Hk as (j & Hj & ->). apply (Hu j Hj). }
  assert (Hlen : List.length (merge_pairs (all_keys out left_on)
                                (all_keys ref right_on)) = nrows out).
  { rewrite Hp, length_map, length_combine, length_seq, all_keys_length. lia. }
  assert (Hnth : nth i (merge_pairs (all_keys out left_on) (all_keys ref right_on))
                   (0%nat, None)
                 = (i, first_match out ref left_on right_on i)).
  { rewrite Hp.
    rewrite (nth_map_in _ _ _ _ (0%nat, []))
      by (rewrite length_combine, length_seq, all_keys_length; lia).
    rewrite combine_seq_nth by (rewrite all_keys_length; lia).
    simpl. now rewrite all_keys_nth by lia. }
  unfold fillna_empty.
  rewrite (nth_map_in _ _ _ _ NaN) by (rewrite reindex_length; fold (nrows out); lia).
  rewrite Hr, reindex_range by lia.
  unfold Cleaning.merged_col_or_empty, merged_col, joined_cell. cbn [m_left m_right m_pairs].
  unfold has in Hs. destruct (lookup src (cols out)); [discriminate|].
  destruct (lookup src (cols ref)) as [w|].
  - rewrite (nth_map_in _ _ _ _ (0%nat, None)) by lia.
    rewrite Hnth. reflexivity.
  - rewrite nth_repeat_lt by lia. reflexivity.
Qed.

End Alignment.

(** ** The precedence of the fallback joins *)

Lemma fold_left_ext_in {A B : Type} (f g : A -> B -> A) (l : list B) (a : A) :
  (forall x b, In b l -> f x b = g x b) -> fold_left f l a = fold_left g l a.
Proof.
  revert a; induction l as [|b l IH]; intros a H; simpl; auto.
  rewrite (H a b (or_introl eq_refl)). apply IH.
  intros x b' Hb. apply H. now right.
Qed.

Section Joiner.

Import Pandas Cleaning.

Variable L : PyLib.

(** Outside the columns a stage may change, and without added columns, the
    two frames have the same columns. *)
Lemma stage_lookup (S : list string) (f g : frame) (c : string) :
  stage S [] f g -> ~ In c S -> lookup c (cols g) = lookup c (cols f).
Proof.
  intros ([_ K] & A & _) Hc.
  destruct (lookup c (cols f)) as [v|] eqn:E; [now apply K|].
  destruct (lookup c (cols g)) as [w|] eqn:G; auto.
  destruct (A c) as [H|[]]; [unfold has; now rewrite G|].
  unfold has in H. rewrite E in H. discriminate.
Qed.

Lemma stage_nrows (S N : list string) (f g : frame) :
  stage S N f g -> nrows g = nrows f.
Proof. intros ([I _] & _). unfold nrows. now rewrite I. Qed.

Lemma stage_row_key (S : list string) (f g : frame) (ks : list string) (i : nat) :
  stage S [] f g -> (forall k, In k ks -> ~ In k S) ->
  row_key g ks i = row_key f ks i.
Proof.
  intros H Hk. unfold row_key. apply map_ext_in. intros k Hin.
  now rewrite (stage_lookup S f g k H (Hk k Hin)).
Qed.

Lemma is_blank_nth (v : column) (i : nat) :
  (i < List.length v)%nat -> nth i (is_blank L v) false = blank L (nth i v NaN).
Proof. intros H. unfold is_blank. now apply nth_map_in. Qed.

Lemma fill_blank_well_formed (msrc : column) (dst : string) (out out' : frame) :
  fill_blank L msrc dst out = Ok out' -> well_formed out -> well_formed out'.
Proof.
  intros H W. apply fill_blank_ok in H as (d & Hd & ->).
  intros c v. rewrite lookup_set_col.
  destruct (String.eqb c dst); [|apply W].
  intros E. injection E as <-. change (nrows (set_col dst _ out)) with (nrows out).
  rewrite where_length.
  - now apply W in Hd.
  - unfold is_blank. now rewrite length_map.
  - unfold fillna_empty. rewrite length_map, reindex_length.
    apply W in Hd. unfold nrows in Hd. congruence.
Qed.

Lemma fill_outputs_well_formed (m : merged) (outputs : list (string * string))
  (out out' : frame) :
  fill_outputs L m outputs out = Ok out' -> well_formed out -> well_formed out'.
Proof.
  revert out. induction outputs as [|[src dst] rest IH]; intros out H W; simpl in H.
  - now injection H as <-.
  - apply bind_ok in H as (o1 & H1 & H).
    eapply IH; eauto. eapply fill_blank_well_formed; eauto.
Qed.

(** The column a rule leaves in a target, for distinct targets. *)
Lemma fill_outputs_column (m : merged) (outputs : list (string * string))
  (out out' : frame) (src dst : string) (old : column) :
  fill_outputs L m outputs out = Ok out' ->
  NoDup (List.map snd outputs) ->
  In (src, dst) outputs ->
  lookup dst (cols out) = Some old ->
  lookup dst (cols out')
  = Some (where_ (is_blank L old)
            (fillna_empty (reindex (merged_col_or_empty m src) (index out))) old).
Proof.
  revert out. induction outputs as [|[s d] rest IH]; intros out H Hnd Hin Hold;
    [contradiction|].
  simpl in H. apply bind_ok in H as (o1 & H1 & H).
  simpl in Hnd. inversion Hnd as [|? ? Hd Hrest]; subst.
  pose proof (fill_blank_ok L _ _ _ _ H1) as (d0 & Hd0 & Ho1).
  destruct Hin as [E|Hin].
  - injection E as -> ->. rewrite Hold in Hd0. injection Hd0 as <-.
    destruct (fill_outputs_frame L m rest o1 out' H) as ([_ K] & _ & _).
    apply K; auto. subst o1. now rewrite lookup_set_col, String.eqb_refl.
  - assert (Hne : dst <> d).
    { intros ->. apply Hd. change d with (snd (src, d)). now apply in_map. }
    assert (Hold1 : lookup dst (cols o1) = Some old).
    { subst o1. rewrite lookup_set_col.
      destruct (String.eqb_spec dst d); [contradiction | exact Hold]. }
    rewrite (IH o1 H Hrest Hin Hold1). subst o1. reflexivity.
Qed.

(** One rule, one target, one record. *)
Lemma one_rule_cell (left_key : string -> string) (keys : list string)
  (outputs : list (string * string)) (ref out out' : frame) (m : merged)
  (src dst : string) (old : column) (i : nat) :
  merge out ref (List.map left_key keys) keys = Ok m ->
  fill_outputs L m outputs out = Ok out' ->
  range_index out -> well_formed out ->
  (forall j, (j < nrows out)%nat ->
     (match_count out ref (List.map left_key keys) keys j <= 1)%nat) ->
  NoDup (List.map snd outputs) ->
  In (src, dst) outputs ->
  has src out = false ->
  lookup dst (cols out) = Some old ->
  (i < nrows out)%nat ->
  exists new,
    lookup dst (cols out') = Some new
    /\ nth i new NaN
       = fill_cell L (nth i old NaN) (rule_cell left_key ref out src i keys).
Proof.
  intros Hm Hf Hr Hw Hu Hnd Hin Hs Hold Hi.
  eexists. split; [eapply fill_outputs_column; eauto|].
  pose proof (Hw dst old Hold) as Hlen.
  rewrite where_nth.
  - rewrite is_blank_nth by lia.
    rewrite (merged_cell out ref _ _ m src i Hm Hr Hu Hs Hi). reflexivity.
  - unfold is_blank. now rewrite length_map.
  - unfold fillna_empty. rewrite length_map, reindex_length. fold (nrows out). lia.
  - lia.
Qed.

Lemma aligned_tail (left_key : string -> string) (keys : list string)
  (rest : list (list string)) (outputs : list (string * string))
  (ref out o1 : frame) :
  aligned left_key (keys :: rest) outputs ref out ->
  stage (List.map snd outputs) [] out o1 ->
  well_formed o1 ->
  aligned left_key rest outputs ref o1.
Proof.
  intros [Hi Hc Hs Ht Hsrc Hk] St W.
  pose proof (stage_nrows _ _ _ _ St) as Hn.
  assert (Hrk : forall ks j, In ks rest ->
            row_key o1 (List.map left_key ks) j = row_key out (List.map left_key ks) j).
  { intros ks j Hks. apply (stage_row_key _ _ _ _ _ St).
    intros k Hin. apply in_map_iff in Hin as (k0 & <- & Hk0).
    apply (Hk ks k0); [now right | exact Hk0]. }
  constructor; auto.
  - unfold range_index in *. rewrite Hn. destruct St as ([I _] & _). congruence.
  - intros ks j Hks Hj. unfold match_count. rewrite Hrk by assumption.
    apply (Hs ks j); [now right | lia].
  - intros src Hin. destruct St as (_ & A & _).
    destruct (has src o1) eqn:E; auto.
    destruct (A src E) as [H|[]]. rewrite (Hsrc src Hin) in H. discriminate.
  - intros ks k Hks. apply Hk. now right.
Qed.

(** The cell of a target after all the rules: the rules are tried in order
    and each one fills the cell only while it is blank. *)
Lemma precedence_cell (left_key : string -> string)
  (precedence : list (list string)) (outputs : list (string * string))
  (ref out out' : frame) (src dst : string) (old : column) (i : nat) :
  merge_by_precedence L left_key precedence outputs ref out = Ok out' ->
  aligned left_key precedence outputs ref out ->
  In (src, dst) outputs ->
  lookup dst (cols out) = Some old ->
  (i < nrows out)%nat ->
  exists new,
    lookup dst (cols out') = Some new
    /\ nth i new NaN
       = fold_left (fun v keys => fill_cell L v (rule_cell left_key ref out src i keys))
           precedence (nth i old NaN).
Proof.
  revert out old. induction precedence as [|keys rest IH];
    intros out old H Hal Hin Hold Hi; simpl in H.
  - injection H as <-. exists old. auto.
  - apply bind_ok in H as (m & Hm & H). apply bind_ok in H as (o1 & H1 & H).
    pose proof (fill_outputs_frame L m outputs out o1 H1) as St.
    pose proof (fill_outputs_well_formed m outputs out o1 H1 (al_columns _ _ _ _ _ Hal))
      as W1.
    pose proof (aligned_tail _ _ _ _ _ _ _ Hal St W1) as Hal1.
    assert (Hsrc : has src out = false).
    { apply (al_sources _ _ _ _ _ Hal). change src with (fst (src, dst)).
      now apply in_map. }
    destruct (one_rule_cell left_key keys outputs ref out o1 m src dst old i)
      as (mid & Hmid & Hcell); auto.
    + apply (al_index _ _ _ _ _ Hal).
    + apply (al_columns _ _ _ _ _ Hal).
    + intros j Hj. apply (al_single _ _ _ _ _ Hal); [now left | exact Hj].
    + apply (al_targets _ _ _ _ _ Hal).
    + pose proof (stage_nrows _ _ _ _ St) as Hn.
      destruct (IH o1 mid H Hal1 Hin Hmid) as (new & Hnew & Hfold); [lia|].
      exists new. split; [exact Hnew|].
      rewrite Hfold. cbn [fold_left]. rewrite Hcell.
      apply fold_left_ext_in. intros v ks Hks. f_equal.
      unfold rule_cell, first_match.
      rewrite (stage_row_key _ _ _ (List.map left_key ks) i St); [reflexivity|].
      intros k Hk. apply in_map_iff in Hk as (k0 & <- & Hk0).
      apply (al_keys _ _ _ _ _ Hal ks k0); [now right | exact Hk0].
Qed.

End Joiner.

Section Precedence.

Import Pandas Cleaning.

Variable L : PyLib.

Lemma blank_empty : blank L (Str "") = true.
Proof. reflexivity. Qed.

(** A cell that is not blank goes through the rules unchanged. *)
Lemma fold_fill_nonblank (cand : list string -> cell) (rules : list (list string))
  (v : cell) :
  blank L v = false ->
  fold_left (fun v keys => fill_cell L v (cand keys)) rules v = v.
Proof.
  intros H. induction rules as [|k rules IH]; simpl; auto.
  unfold fill_cell at 2. now rewrite H.
Qed.

(** While the candidates are blank, the cell stays blank. *)
Lemma fold_fill_blank (cand : list string -> cell) (rules : list (list string))
  (v : cell) :
  blank L v = true ->
  (forall k, In k rules -> blank L (cand k) = true) ->
  blank L (fold_left (fun v keys => fill_cell L v (cand keys)) rules v) = true.
Proof.
  revert v. induction rules as [|k rules IH]; intros v Hv H; simpl; auto.
  apply IH.
  - unfold fill_cell. rewrite Hv. apply H. now left.
  - intros k' Hk'. apply H. now right.
Qed.

(** The first rule with a value that is not blank gives the cell. *)
Lemma fold_fill_first (cand : list string -> cell)
  (before after : list (list string)) (k : list string) (v : cell) :
  blank L v = true ->
  (forall k0, In k0 before -> blank L (cand k0) = true) ->
  blank L (cand k) = false ->
  fold_left (fun v keys => fill_cell L v (cand keys)) (before ++ k :: after) v
  = cand k.
Proof.
  intros Hv Hb Hk. rewrite fold_left_app. cbn [fold_left].
  pose proof (fold_fill_blank cand before v Hv Hb) as Hmid.
  unfold fill_cell at 2. rewrite Hmid.
  now apply fold_fill_nonblank.
Qed.

(** C3 (amended). On plans with the default index and a reference table in
    which every plan matches at most one row for every rule, the joiner
    handles every record and every target field as follows: the rules are
    tried in the configured order and each one writes its mapped value only
    while the field is blank.  So a field that is not blank is never
    overwritten, and when the field starts blank it receives the mapped
    value of the first rule, in order, whose matched reference row has a
    value that is not blank for it: an earlier rule [k1] wins over a later
    rule [k2] whenever the value mapped by [k1] is not blank. *)
Theorem first_rule_wins (left_key : string -> string)
  (precedence : list (list string)) (outputs : list (string * string))
  (ref out out' : frame) (src dst : string) (old : column) (i : nat) :
  merge_by_precedence L left_key precedence outputs ref out = Ok out' ->
  aligned left_key precedence outputs ref out ->
  In (src, dst) outputs ->
  lookup dst (cols out) = Some old ->
  (i < nrows out)%nat ->
  let cand := rule_cell left_key ref out src i in
  exists new,
    lookup dst (cols out') = Some new
    /\ nth i new NaN
       = fold_left (fun v keys => fill_cell L v (cand keys)) precedence
           (nth i old NaN)
    /\ (blank L (nth i old NaN) = false -> nth i new NaN = nth i old NaN)
    /\ (forall before k after,
          precedence = before ++ k :: after ->
          blank L (nth i old NaN) = true ->
          (forall k0, In k0 before -> blank L (cand k0) = true) ->
          blank L (cand k) = false ->
          nth i new NaN = cand k).
Proof.
  intros H Hal Hin Hold Hi cand.
  destruct (precedence_cell L left_key precedence outputs ref out out' src dst old i
              H Hal Hin Hold Hi) as (new & Hnew & Hfold).
  exists new. split; [exact Hnew|]. split; [exact Hfold|]. split.
  - intros Hb. rewrite Hfold. now apply fold_fill_nonblank.
  - intros before k after -> Hb Hbefore Hk. rewrite Hfold.
    now apply fold_fill_first.
Qed.

(** A rule that matches no reference row offers the empty string. *)
Lemma rule_cell_unmatched (left_key : string -> string) (ref out : frame)
  (src : string) (i : nat) (keys : list string) :
  match_count out ref (List.map left_key keys) keys i = 0%nat ->
  rule_cell left_key ref out src i keys = Str "".
Proof.
  unfold match_count, rule_cell, first_match, joined_cell. intros H.
  destruct (matches _ _); [|discriminate]. simpl.
  now destruct (lookup src (cols ref)).
Qed.

Lemma where_placeholder (p : cell) (v : column) :
  where_ (is_blank L v) (repeat p (List.length v)) v
  = List.map (fun c => if blank L c then p else c) v.
Proof. induction v as [|c v IH]; simpl; auto. now rewrite IH. Qed.

Lemma where_fallback (g : cell -> cell) (v w : column) :
  where_ (is_blank L v) (List.map g w) v
  = map2 (fun c n => if blank L c then g n else c) v w.
Proof.
  revert w. induction v as [|c v IH]; intros [|n w]; simpl; auto.
  now rewrite IH.
Qed.

(** C4 (amended). A record that matches no precedence rule against the
    reference table keeps every blank target field blank through the joiner
    (on plans with the default index and at most one matching reference row
    per plan and rule).  What the calling stage does with a field that is
    still blank differs by domain: [brands_map] leaves [Brand_clean] as the
    joiner left it and reports it by a [brand_unmapped] event only;
    [vendors_map] writes the placeholder [_Placeholder] into [Vendor_clean]
    and reports [vendor_unmapped]; [campaigns_map] writes the text of the raw
    [Campaign Name] into [Campaign_clean] and reports [campaign_unmapped]. *)
Theorem unmatched_targets :
  (forall left_key precedence outputs ref out out' src dst old i,
     merge_by_precedence L left_key precedence outputs ref out = Ok out' ->
     aligned left_key precedence outputs ref out ->
     In (src, dst) outputs ->
     lookup dst (cols out) = Some old ->
     (i < nrows out)%nat ->
     (forall keys, In keys precedence ->
        match_count out ref (List.map left_key keys) keys i = 0%nat) ->
     blank L (nth i old NaN) = true ->
     exists new,
       lookup dst (cols out') = Some new /\ blank L (nth i new NaN) = true)
  /\ (forall plans R brands_df qa out qa',
        brands_map L plans R brands_df qa = Ok (out, qa') ->
        exists joined bc conflicts,
          brands_join L plans R brands_df = Ok joined
          /\ lookup "Brand_clean" (cols joined) = Some bc
          /\ lookup "Brand_clean" (cols out) = Some bc
          /\ qa' = qa ++ List.map brand_unmapped_event
                          (rows_where joined (is_blank L bc)) ++ conflicts)
  /\ (forall plans R vend_df qa out qa',
        vendors_map L plans R vend_df qa = Ok (out, qa') ->
        exists joined vc,
          vendors_join L plans vend_df = Ok joined
          /\ lookup "Vendor_clean" (cols joined) = Some vc
          /\ lookup "Vendor_clean" (cols out)
             = Some (List.map (fun c => if blank L c then Str "_Placeholder" else c) vc)
          /\ qa' = qa ++ List.map vendor_unmapped_event
                          (rows_where out (is_blank L vc)))
  /\ (forall plans R camp_df qa out qa',
        campaigns_map L plans R camp_df qa = Ok (out, qa') ->
        exists joined cc cn,
          campaigns_join L plans R camp_df = Ok joined
          /\ lookup "Campaign_clean" (cols joined) = Some cc
          /\ lookup "Campaign Name" (cols joined) = Some cn
          /\ lookup "Campaign_clean" (cols out)
             = Some (map2 (fun c n => if blank L c then Str (text L n) else c) cc cn)
          /\ qa' = qa ++ List.map campaign_unmapped_event
                          (rows_where out (is_blank L cc))).
Proof.
  split; [|split; [|split]].
  - intros left_key precedence outputs ref out out' src dst old i
      H Hal Hin Hold Hi Hnone Hb.
    destruct (precedence_cell L left_key precedence outputs ref out out' src dst old i
                H Hal Hin Hold Hi) as (new & Hnew & Hfold).
    exists new. split; [exact Hnew|]. rewrite Hfold.
    apply fold_fill_blank; auto.
    intros k Hk. now rewrite rule_cell_unmatched by auto.
  - intros plans R brands_df qa out qa' H. unfold brands_map in H.
    apply bind_ok in H as (joined & Hj & H). apply bind_ok in H as (bc & Hbc & H).
    apply bind_ok in H as (hc & Hh & H). injection H as <- <-.
    apply get_col_ok in Hbc.
    exists joined, bc, (snd hc). split; [exact Hj|]. split; [exact Hbc|].
    split; [|now rewrite app_assoc].
    apply brand_hints_frame in Hh as ([_ Kh] & _).
    destruct (keeps_drop "__hint" (fst hc)) as [_ Kd].
    apply Kd; [apply Kh; auto|]; simpl; intuition discriminate.
  - intros plans R vend_df qa out qa' H. unfold vendors_map in H.
    apply bind_ok in H as (joined & Hj & H). apply bind_ok in H as (vc & Hvc & H).
    injection H as <- <-. apply get_col_ok in Hvc.
    exists joined, vc. split; [exact Hj|]. split; [exact Hvc|].
    split; [|reflexivity].
    now rewrite lookup_set_col, String.eqb_refl, where_placeholder.
  - intros plans R camp_df qa out qa' H. unfold campaigns_map in H.
    apply bind_ok in H as (joined & Hj & H). apply bind_ok in H as (cc & Hcc & H).
    apply bind_ok in H as (cn & Hcn & H).
    injection H as <- <-. apply get_col_ok in Hcc, Hcn.
    exists joined, cc, cn. split; [exact Hj|]. split; [exact Hcc|].
    split; [exact Hcn|]. split; [|reflexivity].
    now rewrite lookup_set_col, String.eqb_refl, where_fallback.
Qed.

End Precedence.

(** The example plans line up with the curated table. *)
Lemma joiner_plans_aligned :
  Cleaning.aligned Cleaning.brand_left_key
    (Cleaning.brand_precedence brand_rules) (Cleaning.brand_outputs brand_rules)
    curated_table joiner_plans.
Proof.
  constructor.
  - reflexivity.
  - intros c v H. unfold joiner_plans in H. cbn [Pandas.cols Pandas.lookup] in H.
    repeat match type of H with
           | (if ?b then _ else _) = _ =>
               destruct b; [injection H as <-; reflexivity|]
           end.
    discriminate.
  - intros keys j Hk Hj. apply Nat.leb_le.
    destruct Hk as [<-|[<-|[]]];
      (destruct j as [|[|j]]; [vm_compute; reflexivity | vm_compute; reflexivity |]);
      exfalso; unfold Pandas.nrows, joiner_plans in Hj; simpl in Hj; lia.
  - repeat constructor. simpl. tauto.
  - intros src [<-|[]]. reflexivity.
  - intros keys k Hk Hin.
    destruct Hk as [<-|[<-|[]]]; simpl in Hin;
      repeat (destruct Hin as [<-|Hin]; [simpl; intuition discriminate|]);
      contradiction.
Qed.

Lemma first_rule_wins_witness :
  exists out' new,
    Cleaning.merge_by_precedence Lib.ascii_lib Cleaning.brand_left_key
      (Cleaning.brand_precedence brand_rules) (Cleaning.brand_outputs brand_rules)
      curated_table joiner_plans = Ok out'
    /\ Pandas.lookup "Brand_clean" (Pandas.cols out') = Some new
    /\ nth 0 new NaN = Str "Acme".
Proof.
  destruct (Cleaning.merge_by_precedence Lib.ascii_lib Cleaning.brand_left_key
              (Cleaning.brand_precedence brand_rules)
              (Cleaning.brand_outputs brand_rules) curated_table joiner_plans)
    as [out'|e] eqn:E; [|vm_compute in E; discriminate].
  destruct (first_rule_wins Lib.ascii_lib Cleaning.brand_left_key _ _ _ _ out'
              "brand_clean" "Brand_clean" [Str ""; Str ""] 0%nat
              E joiner_plans_aligned (or_introl eq_refl) eq_refl
              ltac:(vm_compute; lia))
    as (new & Hnew & _ & _ & Hfirst).
  exists out', new. split; [reflexivity|]. split; [exact Hnew|].
  rewrite (Hfirst [] ["raw_brand"; "market"] [["raw_variant"]]);
    [vm_compute; reflexivity | reflexivity | reflexivity | intros k0 []
     | vm_compute; reflexivity].
Defined.

(** C3 as stated fails: the first plan matches the first rule on a row whose
    canonical brand is blank and the second rule on another row; its brand
    is the value mapped by the second rule, not the one mapped by the
    first. *)
Lemma first_rule_wins_counterexample :
  exists out qa,
    Cleaning.brands_map Lib.ascii_lib plans_frame brand_rules brands_table []
    = Ok (out, qa)
    /\ Pandas.first_match out brands_table ["_raw_brand"; "_market"]
         ["raw_brand"; "market"] 0 = Some 0%nat
    /\ Pandas.first_match out brands_table ["_raw_variant"] ["raw_variant"] 0
       = Some 1%nat
    /\ Pandas.lookup "brand_clean" (Pandas.cols brands_table)
       = Some [Str ""; Str "Acme Classic"; Str "Bolt"]
    /\ Pandas.lookup "Brand_clean" (Pandas.cols out)
       = Some [Str "Acme Classic"; Str ""].
Proof.
  eexists. eexists. split; [vm_compute; reflexivity|].
  repeat split; vm_compute; reflexivity.
Qed.

Lemma unmatched_targets_witness :
  exists out' new,
    Cleaning.merge_by_precedence Lib.ascii_lib Cleaning.brand_left_key
      (Cleaning.brand_precedence brand_rules) (Cleaning.brand_outputs brand_rules)
      curated_table joiner_plans = Ok out'
    /\ Pandas.lookup "Brand_clean" (Pandas.cols out') = Some new
    /\ Pandas.blank Lib.ascii_lib (nth 1 new NaN) = true.
Proof.
  destruct (Cleaning.merge_by_precedence Lib.ascii_lib Cleaning.brand_left_key
              (Cleaning.brand_precedence brand_rules)
              (Cleaning.brand_outputs brand_rules) curated_table joiner_plans)
    as [out'|e] eqn:E; [|vm_compute in E; discriminate].
  destruct (unmatched_targets Lib.ascii_lib) as (J & _).
  destruct (J Cleaning.brand_left_key _ _ _ _ out'
              "brand_clean" "Brand_clean" [Str ""; Str ""] 1%nat
              E joiner_plans_aligned (or_introl eq_refl) eq_refl
              ltac:(vm_compute; lia))
    as (new & Hnew & Hblank).
  - intros keys [<-|[<-|[]]]; vm_compute; reflexivity.
  - reflexivity.
  - exists out', new. split; [reflexivity|]. split; [exact Hnew | exact Hblank].
Defined.

(** C4 as stated fails: the second plan matches no row of the vendor table,
    and its [Vendor_clean] is the placeholder, not blank. *)
Lemma unmatched_targets_counterexample :
  exists out qa,
    Cleaning.vendors_map Lib.ascii_lib plans_frame brand_rules vendors_table []
    = Ok (out, qa)
    /\ Pandas.match_count out vendors_table ["_raw_vendor"] ["raw_vendor"] 1 = 0%nat
    /\ Pandas.lookup "Vendor_clean" (Pandas.cols out)
       = Some [Str "Metro Media"; Str "_Placeholder"].
Proof.
  eexists. eexists. split; [vm_compute; reflexivity|].
  split; vm_compute; reflexivity.
Qed.

(** ** The FX merge *)

Section FxMerge.

Import Pandas Cleaning.

Variable L : PyLib.

(** The column [m[src]] of an aligned merge, for a column of the reference
    table that is not a column of the plans. *)
Lemma merged_col_aligned (out ref : frame) (left_on right_on : list string)
  (m : merged) (src : string) (w : column) :
  merge out ref left_on right_on = Ok m ->
  (forall j, (j < nrows out)%nat ->
     (match_count out ref left_on right_on j <= 1)%nat) ->
  has src out = false ->
  lookup src (cols ref) = Some w ->
  exists v,
    merged_col m src = Some v
    /\ List.length v = nrows out
    /\ forall i, (i < nrows out)%nat ->
         nth i v NaN = match first_match out ref left_on right_on i with
                       | Some j => nth j w NaN
                       | None => NaN
                       end.
Proof.
  intros Hm Hu Hs Hw. unfold merge in Hm.
  destruct left_on as [|k0 ks0] eqn:Elo; [discriminate|]. rewrite <- Elo in *.
  apply bind_ok in Hm as (lk & Hlk & Hm). apply bind_ok in Hm as (rk & Hrk & Hm).
  injection Hm as <-.
  apply key_tuples_ok in Hlk, Hrk. subst lk rk.
  assert (Hp : merge_pairs (all_keys out left_on) (all_keys ref right_on)
               = List.map (fun e => (fst e, hd_error (matches (snd e)
                                                        (all_keys ref right_on))))
                   (combine (seq 0 (List.length (all_keys out left_on)))
                      (all_keys out left_on))).
  { apply merge_pairs_aligned. intros k Hk.
    apply in_all_keys in Hk as (j & Hj & ->). apply (Hu j Hj). }
  assert (Hlen : List.length (merge_pairs (all_keys out left_on)
                                (all_keys ref right_on)) = nrows out).
  { rewrite Hp, length_map, length_combine, length_seq, all_keys_length. lia. }
  unfold merged_col. cbn [m_left m_right m_pairs].
  unfold has in Hs. destruct (lookup src (cols out)); [discriminate|].
  rewrite Hw. eexists. split; [reflexivity|].
  split; [now rewrite length_map|].
  intros i Hi. rewrite (nth_map_in _ _ _ _ (0%nat, None)) by lia.
  rewrite Hp.
  rewrite (nth_map_in _ _ _ _ (0%nat, []))
    by (rewrite length_combine, length_seq, all_keys_length; lia).
  rewrite combine_seq_nth by (rewrite all_keys_length; lia).
  simpl. rewrite all_keys_nth by lia. reflexivity.
Qed.

Lemma select_lookup (cs : list string) (f : frame) (l : list (string * column))
  (c : string) :
  select cs f = Ok l -> In c cs -> exists v, lookup c l = Some v.
Proof.
  revert l. induction cs as [|k cs IH]; intros l H Hin; [contradiction|].
  simpl in H. apply bind_ok in H as (v & Hv & H).
  apply bind_ok in H as (rest & Hr & H). injection H as <-. simpl.
  destruct (String.eqb_spec k c) as [->|Hne]; [eauto|].
  destruct Hin as [->|Hin]; [contradiction|]. eapply IH; eauto.
Qed.

Lemma str_strip_length (v : column) : List.length (str_strip L v) = List.length v.
Proof. unfold str_strip. apply length_map. Qed.

Lemma get_stripped_ok (c : string) (f : frame) (v : column) :
  get_stripped L c f = Ok v ->
  exists w, lookup c (cols f) = Some w /\ v = str_strip L w.
Proof.
  unfold get_stripped. destruct (lookup c (cols f)) as [w|]; [|discriminate].
  intros H. injection H as <-. eauto.
Qed.

Lemma well_formed_set_col (c : string) (v : column) (f : frame) :
  well_formed f -> List.length v = nrows f -> well_formed (set_col c v f).
Proof.
  intros W Hv x w. rewrite lookup_set_col.
  destruct (String.eqb x c); [|apply W].
  intros E. injection E as <-. exact Hv.
Qed.

Lemma fx_left_frame (plans left : frame) :
  fx_left L plans = Ok left ->
  stage fx_keys fx_keys plans left
  /\ (well_formed plans -> well_formed left).
Proof.
  unfold fx_left. intros H.
  apply bind_ok in H as (mk & Hmk & H). apply bind_ok in H as (cu & Hcu & H).
  apply bind_ok in H as (yr & Hyr & H). injection H as <-.
  set (o1 := set_col "_Market" mk plans) in *.
  set (o2 := set_col "_Currency" _ o1) in *.
  split.
  - pose proof (stage_set_col "_Market" mk plans) as S1. fold o1 in S1.
    pose proof (stage_trans _ _ _ _ _ _ _ S1
                  (stage_set_col "_Currency"
                     (List.map (fun c => Str (PyStr.upper (text L c))) cu) o1)) as S2.
    fold o2 in S2.
    pose proof (stage_trans _ _ _ _ _ _ _ S2 (stage_set_col "_Year" yr o2)) as S3.
    exact S3.
  - intros W.
    apply get_stripped_ok in Hmk as (w1 & Hw1 & ->).
    assert (W1 : well_formed o1).
    { apply well_formed_set_col; auto. rewrite str_strip_length. now apply W in Hw1. }
    apply get_stripped_ok in Hcu as (w2 & Hw2 & ->).
    assert (W2 : well_formed o2).
    { apply well_formed_set_col; auto.
      rewrite length_map, str_strip_length. now apply W1 in Hw2. }
    apply get_stripped_ok in Hyr as (w3 & Hw3 & ->).
    apply well_formed_set_col; auto.
    rewrite str_strip_length. now apply W2 in Hw3.
Qed.

Lemma fx_right_columns (fx_df right : frame) (c : string) :
  fx_right L fx_df = Ok right ->
  In c (fx_keys ++ ["fx_to_eur"; "fx_to_dkk"; "region"]) ->
  exists w, lookup c (cols right) = Some w.
Proof.
  unfold fx_right. intros H Hin.
  apply bind_ok in H as (fm & _ & H). apply bind_ok in H as (fc & _ & H).
  apply bind_ok in H as (fy & _ & H). apply bind_ok in H as (r & Hr & H).
  apply ok_inj in H. subst right. cbn [cols]. eapply select_lookup; eauto.
Qed.

(** The rate a record gets in a rate column, on aligned plans. *)
Lemma assign_rate_cell (left right out out' : frame) (m : merged) (c : string)
  (w : column) (i : nat) :
  merge left right fx_keys fx_keys = Ok m ->
  assign_rate L m c out = Ok out' ->
  index out = index left ->
  range_index left ->
  (forall j, (j < nrows left)%nat ->
     (match_count left right fx_keys fx_keys j <= 1)%nat) ->
  has c left = false ->
  lookup c (cols right) = Some w ->
  (i < nrows left)%nat ->
  exists col,
    out' = set_col c col out
    /\ List.length col = nrows left
    /\ nth i col NaN
       = num_cell (to_numeric L
           match first_match left right fx_keys fx_keys i with
           | Some j => nth j w NaN
           | None => NaN
           end).
Proof.
  intros Hm Ha Hidx Hr Hu Hc Hw Hi.
  destruct (merged_col_aligned left right _ _ m c w Hm Hu Hc Hw)
    as (v & Hv & Hlen & Hnth).
  unfold assign_rate in Ha. rewrite Hv in Ha. cbn [of_option bind] in Ha.
  injection Ha as <-. eexists. split; [reflexivity|].
  split.
  - rewrite reindex_length, Hidx. reflexivity.
  - rewrite Hidx, Hr, reindex_range by lia.
    rewrite (nth_map_in _ _ _ _ NaN) by lia.
    now rewrite Hnth.
Qed.

(** A record without an entry in the rate table has no rate. *)
Lemma fx_rates_missing (plans fx_df rated left right : frame) (i : nat) :
  fx_rates L plans fx_df = Ok rated ->
  fx_left L plans = Ok left ->
  fx_right L fx_df = Ok right ->
  range_index plans -> well_formed plans ->
  (forall j, (j < nrows plans)%nat ->
     (match_count left right fx_keys fx_keys j <= 1)%nat) ->
  has "fx_to_eur" plans = false ->
  has "fx_to_dkk" plans = false ->
  (i < nrows plans)%nat ->
  match_count left right fx_keys fx_keys i = 0%nat ->
  stage (fx_keys ++ ["fx_to_eur"; "fx_to_dkk"]) (fx_keys ++ ["fx_to_eur"; "fx_to_dkk"])
    plans rated
  /\ well_formed rated
  /\ missing_at i rated "fx_to_eur"
  /\ missing_at i rated "fx_to_dkk".
Proof.
  intros H Hl Hrt Hr Hw Hu He Hd Hi Hnone.
  unfold fx_rates in H. rewrite Hl, Hrt in H. cbn [bind] in H.
  apply bind_ok in H as (m & Hm & H). apply bind_ok in H as (o1 & H1 & H2).
  destruct (fx_left_frame plans left Hl) as [Sl Wl]. specialize (Wl Hw).
  pose proof (stage_nrows _ _ _ _ Sl) as Hn.
  assert (Hrl : range_index left).
  { unfold range_index in *. rewrite Hn. destruct Sl as ([I _] & _). congruence. }
  assert (Hnot : forall c, has c plans = false -> ~ In c fx_keys -> has c left = false).
  { intros c Hc Hk. destruct (has c left) eqn:E; auto.
    destruct Sl as (_ & A & _). destruct (A c E); [congruence | contradiction]. }
  assert (Hel : has "fx_to_eur" left = false)
    by (apply Hnot; auto; simpl; intuition discriminate).
  assert (Hdl : has "fx_to_dkk" left = false)
    by (apply Hnot; auto; simpl; intuition discriminate).
  destruct (fx_right_columns fx_df right "fx_to_eur" Hrt) as [we Hwe];
    [simpl; tauto|].
  destruct (fx_right_columns fx_df right "fx_to_dkk" Hrt) as [wd Hwd];
    [simpl; tauto|].
  assert (Hul : forall j, (j < nrows left)%nat ->
            (match_count left right fx_keys fx_keys j <= 1)%nat)
    by (intros j Hj; apply Hu; lia).
  assert (Hfm : first_match left right fx_keys fx_keys i = None).
  { unfold first_match. unfold match_count in Hnone.
    destruct (matches _ _); [reflexivity | discriminate]. }
  destruct (assign_rate_cell left right left o1 m "fx_to_eur" we i
              Hm H1 eq_refl Hrl Hul Hel Hwe ltac:(lia)) as (e & -> & Hle & Hie).
  destruct (assign_rate_cell left right _ rated m "fx_to_dkk" wd i
              Hm H2 eq_refl Hrl Hul Hdl Hwd ltac:(lia)) as (d & -> & Hld & Hid).
  rewrite Hfm in Hie, Hid. cbn [to_numeric num_cell] in Hie, Hid.
  split; [|split; [|split]].
  - pose proof (stage_trans _ _ _ _ _ _ _ Sl (stage_set_col "fx_to_eur" e left)) as S1.
    pose proof (stage_trans _ _ _ _ _ _ _ S1
                  (stage_set_col "fx_to_dkk" d (set_col "fx_to_eur" e left))) as S2.
    eapply stage_weaken; [| |exact S2];
      intros c Hc; rewrite !in_app_iff in *; simpl in *; tauto.
  - apply well_formed_set_col; [apply well_formed_set_col; auto|].
    exact Hld.
  - exists e. split; [|exact Hie]. now rewrite !lookup_set_col.
  - exists d. split; [|exact Hid]. now rewrite lookup_set_col.
Qed.

End FxMerge.

(** ** The derived columns *)

Section FxDerive.

Import Pandas Cleaning.

Variable L : PyLib.
Variable i n : nat.

Lemma get_row_at (c : string) (f : frame) :
  Row.get c (row_at f i) = option_map (fun v => nth i v NaN) (lookup c (cols f)).
Proof.
  unfold row_at. induction (cols f) as [|[k v] cs IH]; simpl; auto.
  destruct (String.eqb k c); auto.
Qed.

Lemma stage_lookup_new (S N : list string) (f g : frame) (c : string) :
  stage S N f g -> ~ In c S -> ~ In c N ->
  lookup c (cols g) = lookup c (cols f).
Proof.
  intros ([_ K] & A & _) Hs Hn.
  destruct (lookup c (cols f)) as [v|] eqn:E; [now apply K|].
  destruct (lookup c (cols g)) as [w|] eqn:G; auto.
  destruct (A c) as [H|H]; [unfold has; now rewrite G| |contradiction].
  unfold has in H. rewrite E in H. discriminate.
Qed.

Lemma zero_at_set_col (c x : string) (v : column) (g : frame) :
  zero_at i g c -> x <> c -> zero_at i (set_col x v g) c.
Proof.
  intros (col & q & Hc & Hq) Hx. exists col, q. rewrite lookup_set_col.
  destruct (String.eqb_spec c x) as [->|_]; [contradiction | auto].
Qed.

(** One write of the inner loop, for a record whose rate counts as zero. *)
Lemma derive_write_zero (rate : list Q) (v : column) (c : string) (g : frame) :
  List.length v = n -> List.length rate = n -> (i < n)%nat ->
  (nth i rate 0 == 0)%Q ->
  zero_at i
    (set_col c (map2 (fun x r => Num (fillna0 (to_numeric L x) * r)%Q) v rate) g) c.
Proof.
  intros Hv Hr Hi H0. eexists.
  exists (fillna0 (to_numeric L (nth i v NaN)) * nth i rate 0)%Q.
  split; [|split].
  - rewrite lookup_set_col, String.eqb_refl. reflexivity.
  - rewrite (map2_nth _ v rate i NaN 0%Q NaN) by lia. reflexivity.
  - rewrite H0. apply Qmult_0_r.
Qed.

Lemma derive_pairs_zero (rate : list Q) (mapping : list (string * string))
  (g : frame) :
  well_formed g -> nrows g = n -> (i < n)%nat ->
  List.length rate = n -> (nth i rate 0 == 0)%Q ->
  (forall p, In p mapping -> snd p <> "fx_to_eur" /\ snd p <> "fx_to_dkk") ->
  well_formed (derive_pairs L rate mapping g)
  /\ nrows (derive_pairs L rate mapping g) = n
  /\ lookup "fx_to_eur" (cols (derive_pairs L rate mapping g))
     = lookup "fx_to_eur" (cols g)
  /\ lookup "fx_to_dkk" (cols (derive_pairs L rate mapping g))
     = lookup "fx_to_dkk" (cols g)
  /\ extends g (derive_pairs L rate mapping g)
  /\ (forall c,
        zero_at i g c
        \/ (exists local, In (local, c) mapping /\ has local g = true) ->
        zero_at i (derive_pairs L rate mapping g) c).
Proof.
  unfold derive_pairs. intros W N Hi Hr H0.
  revert g W N. induction mapping as [|[local outc] mapping IH]; intros g W N Hp.
  - simpl. split; [|split; [|split; [|split; [|split]]]]; auto.
    + apply extends_refl.
    + intros c [H|(x & Hx & _)]; [auto | destruct Hx].
  - cbn [fold_left fst snd].
    destruct (Hp (local, outc) (or_introl eq_refl)) as [He Hd]. cbn [snd] in He, Hd.
    assert (Hp' : forall p, In p mapping ->
              snd p <> "fx_to_eur" /\ snd p <> "fx_to_dkk")
      by (intros p Hin; apply Hp; now right).
    destruct (lookup local (cols g)) as [v|] eqn:Ev.
    + set (w := map2 _ v rate).
      assert (Hv : List.length v = n) by (rewrite <- N; eapply W; eauto).
      assert (Hw : List.length w = n)
        by (unfold w; rewrite map2_length; lia).
      destruct (IH (set_col outc w g)) as (W' & N' & E' & D' & X' & Z'); auto.
      { apply well_formed_set_col; auto. unfold nrows in *. lia. }
      rewrite lookup_set_col in E', D'.
      destruct (String.eqb_spec "fx_to_eur" outc) as [<-|_]; [contradiction|].
      destruct (String.eqb_spec "fx_to_dkk" outc) as [<-|_]; [contradiction|].
      repeat (split; auto).
      * eapply extends_trans; [apply extends_set_col | exact X'].
      * intros c Hc. apply Z'.
        destruct (String.eqb_spec outc c) as [<-|Hne].
        { left. apply derive_write_zero; auto. }
        destruct Hc as [Hc|(x & [Hx|Hx] & Hh)].
        { left. now apply zero_at_set_col. }
        { congruence. }
        { right. exists x. split; auto. now apply extends_set_col. }
    + destruct (IH g) as (W' & N' & E' & D' & X' & Z'); auto.
      repeat (split; auto).
      intros c [Hc|(x & [Hx|Hx] & Hh)]; apply Z'; auto.
      * injection Hx as <- <-. unfold has in Hh. rewrite Ev in Hh. discriminate.
      * right. eauto.
Qed.

Lemma missing_rate_zero (g : frame) (c : string) (r : column) :
  well_formed g -> nrows g = n -> (i < n)%nat ->
  missing_at i g c -> get_col c g = Ok r ->
  List.length (List.map (fun x => fillna0 (to_numeric L x)) r) = n
  /\ (nth i (List.map (fun x => fillna0 (to_numeric L x)) r) 0 == 0)%Q.
Proof.
  intros W N Hi (col & Hc & Hn) Hr. apply get_col_ok in Hr.
  rewrite Hc in Hr. injection Hr as <-.
  assert (Hl : List.length col = n) by (rewrite <- N; eapply W; eauto).
  split; [now rewrite length_map|].
  rewrite (nth_map_in _ _ _ _ NaN) by lia. rewrite Hn. reflexivity.
Qed.

Lemma derive_zero (pairs : list (string * list (string * string)))
  (g out : frame) :
  derive L pairs g = Ok out ->
  well_formed g -> nrows g = n -> (i < n)%nat ->
  missing_at i g "fx_to_eur" -> missing_at i g "fx_to_dkk" ->
  (forall cur mapping p, In (cur, mapping) pairs -> In p mapping ->
     snd p <> "fx_to_eur" /\ snd p <> "fx_to_dkk") ->
  missing_at i out "fx_to_eur"
  /\ missing_at i out "fx_to_dkk"
  /\ (forall c,
        zero_at i g c
        \/ (exists cur mapping local,
              In (cur, mapping) pairs /\ In (local, c) mapping
              /\ has local g = true) ->
        zero_at i out c).
Proof.
  intros H W N Hi. revert g H W N.
  induction pairs as [|[cur mapping] pairs IH]; intros g H W N Me Md Hp.
  - simpl in H. injection H as <-. repeat (split; auto).
    intros c [Hc|(? & ? & ? & Hx & _)]; [auto | destruct Hx].
  - cbn [derive] in H. apply bind_ok in H as (r & Hr & H).
    set (rate_col := if String.eqb (PyStr.lower cur) "dkk"
                     then "fx_to_dkk" else "fx_to_eur") in *.
    assert (Mr : missing_at i g rate_col)
      by (unfold rate_col; destruct (String.eqb _ _); auto).
    destruct (missing_rate_zero g rate_col r W N Hi Mr Hr) as [Hl H0].
    destruct (derive_pairs_zero _ mapping g W N Hi Hl H0)
      as (W' & N' & E' & D' & X' & Z').
    { intros p Hin. eapply Hp; [now left | exact Hin]. }
    destruct (IH _ H W' N') as (Me' & Md' & Zo).
    { destruct Me as (col & Hc & Hn). exists col. now rewrite E'. }
    { destruct Md as (col & Hc & Hn). exists col. now rewrite D'. }
    { intros cu m p Hin. apply (Hp cu m p). now right. }
    repeat (split; auto).
    intros c [Hc|(cu & m & x & [Hx|Hx] & Hm & Hh)]; apply Zo.
    + left. apply Z'. now left.
    + injection Hx as <- <-. left. apply Z'. right. eauto.
    + right. exists cu, m, x. repeat (split; auto).
Qed.

End FxDerive.

Section FxMissing.

Import Pandas Cleaning.

Variable L : PyLib.

Lemma fx_missing_event_plans (plans rated : frame) (i : nat) :
  stage (fx_keys ++ ["fx_to_eur"; "fx_to_dkk"]) (fx_keys ++ ["fx_to_eur"; "fx_to_dkk"])
    plans rated ->
  fx_missing_event L (row_at rated i) = fx_missing_event L (row_at plans i).
Proof.
  intros S.
  assert (G : forall c, ~ In c (fx_keys ++ ["fx_to_eur"; "fx_to_dkk"]) ->
            Row.get_or_empty c (row_at rated i) = Row.get_or_empty c (row_at plans i)).
  { intros c Hc. unfold Row.get_or_empty. rewrite !get_row_at.
    now rewrite (stage_lookup_new _ _ _ _ c S Hc Hc). }
  unfold fx_missing_event, qa_event.
  rewrite !G; [reflexivity| | | | | |];
    simpl; intuition discriminate.
Qed.

(** C5 (amended): on plans with the default index whose records match at
    most one row of the rate table each, a record whose (market, upper-cased
    currency, fiscal year) key has no entry in the rate table gets an
    [fx_missing] event of priority P1 and no number in the two rate columns
    [fx_to_eur] and [fx_to_dkk]; every derived column of a local column of
    the plans is computed with the missing rate counted as zero
    ([rate.fillna(0)]), so it holds the number zero for that record. *)
Theorem missing_rate (plans : frame) (R : rules) (fx_df : frame)
  (qa : list event) (out : frame) (qa' : list event) (left right : frame)
  (i : nat) :
  fx_merge_and_derive L plans R fx_df qa = Ok (out, qa') ->
  fx_left L plans = Ok left ->
  fx_right L fx_df = Ok right ->
  range_index plans -> well_formed plans ->
  (forall j, (j < nrows plans)%nat ->
     (match_count left right fx_keys fx_keys j <= 1)%nat) ->
  has "fx_to_eur" plans = false ->
  has "fx_to_dkk" plans = false ->
  (forall cur mapping p, In (cur, mapping) (compute_pairs R) -> In p mapping ->
     snd p <> "fx_to_eur" /\ snd p <> "fx_to_dkk") ->
  (i < nrows plans)%nat ->
  match_count left right fx_keys fx_keys i = 0%nat ->
  (exists ev,
     In ev qa' /\ ev = fx_missing_event L (row_at plans i)
     /\ Issue_Type ev = "fx_missing" /\ Priority ev = "P1")
  /\ missing_at i out "fx_to_eur"
  /\ missing_at i out "fx_to_dkk"
  /\ (forall cur mapping local outc,
        In (cur, mapping) (compute_pairs R) -> In (local, outc) mapping ->
        has local plans = true ->
        zero_at i out outc).
Proof.
  intros H Hl Hrt Hr Hw Hu He Hd Hp Hi Hnone.
  unfold fx_merge_and_derive in H.
  apply bind_ok in H as (rated & Hrated & H).
  apply bind_ok in H as (e & Hge & H). apply bind_ok in H as (d & Hgd & H).
  apply bind_ok in H as (o & Ho & H). apply ok_inj in H.
  injection H as -> <-.
  destruct (fx_rates_missing L plans fx_df rated left right i
              Hrated Hl Hrt Hr Hw Hu He Hd Hi Hnone) as (S & W & Me & Md).
  pose proof (stage_nrows _ _ _ _ S) as N.
  assert (Hi' : (i < nrows rated)%nat) by lia.
  destruct (derive_zero L i (nrows rated) _ rated out Ho W eq_refl Hi' Me Md Hp)
    as (Me' & Md' & Z).
  split; [|split; [|split]]; auto.
  - exists (fx_missing_event L (row_at plans i)).
    split; [|repeat split].
    apply in_or_app. left. apply in_or_app. right.
    rewrite <- (fx_missing_event_plans plans rated i S).
    apply in_map.
    apply get_col_ok in Hge, Hgd.
    pose proof (W _ _ Hge) as Le. pose proof (W _ _ Hgd) as Ld.
    rewrite rows_where_positions by (rewrite map2_length; lia).
    apply in_flat_map. exists i. split; [apply in_seq; lia|].
    rewrite (map2_nth _ e d i NaN NaN false) by lia.
    destruct Me as (col & Hc & Hn). rewrite Hge in Hc. injection Hc as <-.
    rewrite Hn. simpl. now left.
  - intros cur mapping local outc Hin Hm Hh. apply Z. right.
    exists cur, mapping, local. repeat (split; auto).
    destruct S as (_ & _ & X). now apply X.
Qed.

End FxMissing.

(** The example plans: one cell per row in every column. *)
Lemma kronor_plans_well_formed : Pandas.well_formed kronor_plans.
Proof.
  intros c v H. unfold kronor_plans in H. cbn [Pandas.cols Pandas.lookup] in H.
  repeat match type of H with
         | (if ?b then _ else _) = _ =>
             destruct b; [injection H as <-; reflexivity|]
         end.
  discriminate.
Qed.

Lemma kronor_pairs_derived (cur : string) (mapping : list (string * string))
  (p : string * string) :
  In (cur, mapping) (Cleaning.compute_pairs fx_rules) -> In p mapping ->
  snd p <> "fx_to_eur" /\ snd p <> "fx_to_dkk".
Proof.
  intros [H|[H|[]]] Hp; injection H as <- <-;
    destruct Hp as [<-|[]]; split; discriminate.
Qed.

Lemma missing_rate_witness :
  exists out qa',
    Cleaning.fx_merge_and_derive Lib.ascii_lib kronor_plans fx_rules rates_table []
    = Ok (out, qa')
    /\ In (Cleaning.fx_missing_event Lib.ascii_lib (Pandas.row_at kronor_plans 1)) qa'
    /\ Cleaning.missing_at 1 out "fx_to_eur"
    /\ Cleaning.missing_at 1 out "fx_to_dkk"
    /\ Cleaning.zero_at 1 out "Planned_Spend_EUR"
    /\ Cleaning.zero_at 1 out "Planned_Spend_DKK".
Proof.
  destruct (Cleaning.fx_merge_and_derive Lib.ascii_lib kronor_plans fx_rules
              rates_table []) as [[out qa']|e] eqn:E;
    [|vm_compute in E; discriminate E].
  destruct (Cleaning.fx_left Lib.ascii_lib kronor_plans) as [left|e] eqn:El;
    [|vm_compute in El; discriminate El].
  destruct (Cleaning.fx_right Lib.ascii_lib rates_table) as [right|e] eqn:Er;
    [|vm_compute in Er; discriminate Er].
  assert (Hu : forall j, (j < Pandas.nrows kronor_plans)%nat ->
             (Pandas.match_count left right Cleaning.fx_keys Cleaning.fx_keys j
              <= 1)%nat).
  { vm_compute in El, Er. apply ok_inj in El, Er. subst left right.
    intros j Hj. apply Nat.leb_le.
    destruct j as [|[|j]]; [vm_compute; reflexivity | vm_compute; reflexivity |].
    exfalso. unfold Pandas.nrows, kronor_plans in Hj. simpl in Hj. lia. }
  assert (Hn : Pandas.match_count left right Cleaning.fx_keys Cleaning.fx_keys 1
               = 0%nat).
  { vm_compute in El, Er. apply ok_inj in El, Er. subst left right.
    vm_compute. reflexivity. }
  destruct (missing_rate Lib.ascii_lib kronor_plans fx_rules rates_table []
              out qa' left right 1%nat E El Er eq_refl kronor_plans_well_formed
              Hu eq_refl eq_refl kronor_pairs_derived
              (Nat.lt_succ_diag_r 1) Hn)
    as ((ev & Hin & Hev & _) & Me & Md & Z).
  exists out, qa'. split; [reflexivity|].
  split; [rewrite <- Hev; exact Hin|].
  split; [exact Me|]. split; [exact Md|].
  split.
  - apply (Z "EUR" [("Planned Spend (Local)", "Planned_Spend_EUR")]
             "Planned Spend (Local)" "Planned_Spend_EUR");
      [left; reflexivity | left; reflexivity | reflexivity].
  - apply (Z "DKK" [("Planned Spend (Local)", "Planned_Spend_DKK")]
             "Planned Spend (Local)" "Planned_Spend_DKK");
      [right; left; reflexivity | left; reflexivity | reflexivity].
Defined.

(** C5 as stated fails: the second plan is in Swedish kronor, the rate table
    has no kronor, the plan gets its [fx_missing] event and no rate, and its
    converted columns hold the number zero. *)
Lemma missing_rate_counterexample :
  exists out qa,
    Cleaning.fx_merge_and_derive Lib.ascii_lib kronor_plans fx_rules rates_table []
    = Ok (out, qa)
    /\ qa = [Cleaning.fx_missing_event Lib.ascii_lib (Pandas.row_at kronor_plans 1)]
    /\ Pandas.lookup "fx_to_eur" (Pandas.cols out) = Some [Num (134 # 1000); NaN]
    /\ Pandas.lookup "Planned_Spend_EUR" (Pandas.cols out)
       = Some [Num (998300 # 1000); Num 0]
    /\ Pandas.lookup "Planned_Spend_DKK" (Pandas.cols out)
       = Some [Num 7450; Num 0].
Proof.
  eexists. eexists. split; [vm_compute; reflexivity|].
  repeat split; vm_compute; reflexivity.
Qed.

(** ** The expanders on a whole sheet *)

Lemma column_sum_app (c : string) (l1 l2 : list Row.row) :
  (column_sum c (l1 ++ l2) == column_sum c l1 + column_sum c l2)%Q.
Proof.
  induction l1 as [|r l1 IH]; simpl.
  - ring.
  - fold (column_sum c (l1 ++ l2)). fold (column_sum c l1). rewrite IH. ring.
Qed.

(** Two totals that are each near their target are together near the sum of
    the targets. *)
Lemma near_plus (s1 s2 v t m : Q) (n1 n2 : Z) :
  (Qabs (s1 - v) <= Float64.eps * Qabs v + inject_Z n1 * Float64.eta)%Q ->
  (Qabs (s2 - t) <= Float64.eps * m + inject_Z n2 * Float64.eta)%Q ->
  (Qabs (s1 + s2 - (v + t))
   <= Float64.eps * (Qabs v + m) + inject_Z (n1 + n2) * Float64.eta)%Q.
Proof.
  intros H1 H2.
  assert (E : (s1 + s2 - (v + t) == (s1 - v) + (s2 - t))%Q) by ring.
  rewrite E. eapply Qle_trans; [apply Qabs_triangle|].
  rewrite inject_Z_plus.
  assert (R : (Float64.eps * (Qabs v + m)
               + (inject_Z n1 + inject_Z n2) * Float64.eta
               == (Float64.eps * Qabs v + inject_Z n1 * Float64.eta)
                  + (Float64.eps * m + inject_Z n2 * Float64.eta))%Q) by ring.
  rewrite R. now apply Qplus_le_compat.
Qed.

(** A column at zero on every row of a record misses nothing. *)
Lemma near_zero (n : Z) :
  0 < n ->
  (Qabs (inject_Z n * 0 - Float64.round 0)
   <= Float64.eps * Qabs (Float64.round 0) + inject_Z n * Float64.eta)%Q.
Proof.
  intros H. change (Float64.round 0) with 0%Q.
  assert (E : (inject_Z n * 0 - 0 == 0)%Q) by ring.
  rewrite E. change (Qabs 0) with 0%Q.
  pose proof (pow2_pos (-1075)) as P. fold Float64.eta in P.
  assert (Hn : (0 < inject_Z n)%Q) by (unfold Qlt, inject_Z; simpl; lia).
  assert (Z0 : (0 < inject_Z n * Float64.eta)%Q)
    by (apply Qmult_lt_0_compat; assumption).
  set (w := (inject_Z n * Float64.eta)%Q) in *.
  assert (X : (Float64.eps * 0 == 0)%Q) by ring. rewrite X. lra.
Qed.

Lemma budget_prorate_cols (c : string) :
  In c Budgets.PRORATE_COLS ->
  c <> "Date" /\ c <> Budgets.START_COL /\ c <> Budgets.END_COL.
Proof.
  unfold Budgets.PRORATE_COLS. simpl.
  intros H; repeat (destruct H as [<-|H]; [repeat split; discriminate|]).
  contradiction.
Qed.

Lemma budget_prorate_nodup : NoDup Budgets.PRORATE_COLS.
Proof.
  unfold Budgets.PRORATE_COLS.
  repeat (constructor; [simpl; intuition discriminate|]). constructor.
Qed.

Lemma mapped_prorate_nodup (cols : list string) :
  NoDup (Budgets.mapped_prorate cols).
Proof. apply NoDup_filter, budget_prorate_nodup. Qed.

Lemma mapped_prorate_in (cols : list string) (c : string) :
  In c (Budgets.mapped_prorate cols) -> In c Budgets.PRORATE_COLS.
Proof. unfold Budgets.mapped_prorate. intros H. now apply filter_In in H. Qed.

Lemma plan_prorate_cols (c : string) :
  In c Plans.PRORATE_COLS ->
  c <> "Date" /\ c <> Plans.START_COL /\ c <> Plans.END_COL.
Proof.
  unfold Plans.PRORATE_COLS. simpl.
  intros H; repeat (destruct H as [<-|H]; [repeat split; discriminate|]).
  contradiction.
Qed.

Section SheetTotals.

Import Calendar Totals.

Variable L : PyLib.

Lemma coerce_date_get (k c : string) (r : Row.row) :
  Row.get c (Budgets.coerce_date L k r)
  = if String.eqb c k
    then option_map (fun v => date_cell (to_datetime L v)) (Row.get k r)
    else Row.get c r.
Proof.
  unfold Budgets.coerce_date.
  destruct (String.eqb_spec c k) as [->|Hc].
  - destruct (Row.get k r) as [v|] eqn:E; simpl.
    + apply get_set_same.
    + exact E.
  - destruct (Row.get k r); auto. now apply get_set_other.
Qed.

(** The two date cells of a dated record after both columns went through
    [pd.to_datetime]. *)
Lemma dated_coerced (sc ec : string) (r : Row.row) :
  sc <> ec ->
  dated L sc ec r = true ->
  exists x y,
    Row.get sc (Budgets.coerce_date L ec (Budgets.coerce_date L sc r)) = Some (Day x)
    /\ Row.get ec (Budgets.coerce_date L ec (Budgets.coerce_date L sc r))
       = Some (Day y)
    /\ x <= y /\ days L sc ec r = y - x + 1.
Proof.
  intros Hne H. unfold dated, days, day_of in *.
  destruct (Row.get sc r) as [s|] eqn:Es; [|discriminate].
  destruct (to_datetime L s) as [x|] eqn:Ex; [|discriminate].
  destruct (Row.get ec r) as [e|] eqn:Ee; [|discriminate].
  destruct (to_datetime L e) as [y|] eqn:Ey; [|discriminate].
  exists x, y. rewrite !coerce_date_get, !String.eqb_refl.
  destruct (String.eqb_spec sc ec) as [|_]; [contradiction|].
  destruct (String.eqb_spec ec sc) as [E|_]; [symmetry in E; contradiction|].
  rewrite Es, Ee. simpl. rewrite Ex, Ey. simpl.
  repeat split; auto. now apply Z.leb_le.
Qed.

Lemma coerced_value (sc ec c : string) (r : Row.row) :
  c <> sc -> c <> ec ->
  Row.get c (Budgets.coerce_date L ec (Budgets.coerce_date L sc r)) = Row.get c r.
Proof.
  intros H1 H2. rewrite !coerce_date_get.
  destruct (String.eqb_spec c ec) as [|_]; [contradiction|].
  destruct (String.eqb_spec c sc) as [|_]; [contradiction|]. reflexivity.
Qed.

(** The regular branch of the loop of the budget expander, in full. *)
Lemma budget_step_dated (prorate : list string) (a : Budgets.acc) (r : Row.row)
  (x y : Z) :
  Row.get Budgets.START_COL r = Some (Day x) ->
  Row.get Budgets.END_COL r = Some (Day y) ->
  x <= y ->
  exists a',
    Budgets.step L prorate a r = Ok a'
    /\ Budgets.out_rows a'
       = Budgets.out_rows a
         ++ List.map (fun d => Row.set "Date" (Day d)
                                 (Budgets.prorate_row L prorate (y - x + 1) r))
              (date_range x y)
    /\ Budgets.debug_rows a' = Budgets.debug_rows a.
Proof.
  intros Hs He Hxy. unfold Budgets.step. rewrite Hs, He.
  cbn [of_option bind isna orb].
  rewrite (date_range_length x y Hxy).
  replace (Z.max 1 (y - x + 1)) with (y - x + 1) by lia.
  eexists. split; [reflexivity|]. split; reflexivity.
Qed.

(** The total of a prorated column over the daily rows of one record. *)
Lemma budget_days_sum (prorate : list string) (r : Row.row) (x y : Z)
  (c : string) :
  x <= y -> NoDup prorate -> In c prorate -> c <> "Date" ->
  (Qabs (column_sum c
           (List.map (fun d => Row.set "Date" (Day d)
                                 (Budgets.prorate_row L prorate (y - x + 1) r))
              (date_range x y))
         - budget_value L c r)
   <= Float64.eps * Qabs (budget_value L c r)
      + inject_Z (y - x + 1) * Float64.eta)%Q.
Proof.
  intros Hxy Hnd Hc Hd.
  rewrite column_sum_days by assumption.
  rewrite (date_range_length x y Hxy).
  rewrite budget_prorate_get by assumption.
  apply existsb_eqb_In in Hc. rewrite Hc.
  unfold Budgets.prorated, budget_value.
  destruct (Row.get c r) as [v|]; [|apply near_zero; lia].
  destruct (parse_number_number_or_null L v) as [->|[q ->]];
    [apply near_zero; lia|].
  cbn [cell_div cell_value]. apply divide_and_sum. lia.
Qed.

Lemma budget_loop_conserves (prorate : list string) (rs : list Row.row)
  (a : Budgets.acc) :
  NoDup prorate ->
  (forall c, In c prorate -> In c Budgets.PRORATE_COLS) ->
  (forall r, In r rs -> dated L Budgets.START_COL Budgets.END_COL r = true) ->
  exists a' emitted,
    Budgets.loop L prorate a
      (List.map (fun r => Budgets.coerce_date L Budgets.END_COL
                            (Budgets.coerce_date L Budgets.START_COL r)) rs)
    = Ok a'
    /\ Budgets.out_rows a' = Budgets.out_rows a ++ emitted
    /\ Budgets.debug_rows a' = Budgets.debug_rows a
    /\ Z.of_nat (List.length emitted)
       = total_days L Budgets.START_COL Budgets.END_COL rs
    /\ (forall c, In c prorate ->
          (Qabs (column_sum c emitted - budget_total L c rs)
           <= Float64.eps * budget_magnitude L c rs
              + inject_Z (total_days L Budgets.START_COL Budgets.END_COL rs)
                * Float64.eta)%Q).
Proof.
  intros Hnd Hin. revert a.
  induction rs as [|r rs IH]; intros a Hd.
  - exists a, []. simpl. rewrite app_nil_r. repeat split; auto.
    intros c _. vm_compute. discriminate.
  - destruct (dated_coerced Budgets.START_COL Budgets.END_COL r
                ltac:(discriminate) (Hd r (or_introl eq_refl)))
      as (x & y & Hs & He & Hxy & Hdays).
    set (r' := Budgets.coerce_date L Budgets.END_COL
                 (Budgets.coerce_date L Budgets.START_COL r)) in *.
    destruct (budget_step_dated prorate a r' x y Hs He Hxy)
      as (a1 & Hstep & Hout & Hdbg).
    destruct (IH a1) as (a' & em & Hloop & Hout' & Hdbg' & Hlen & Hsum).
    { intros r0 H0. apply Hd. now right. }
    exists a'. eexists. cbn [List.map Budgets.loop]. fold r'.
    rewrite Hstep. cbn [bind]. split; [exact Hloop|].
    rewrite Hout', Hout, <- app_assoc.
    split; [reflexivity|]. split; [congruence|].
    split.
    + rewrite length_app, length_map, Nat2Z.inj_add, Hlen.
      rewrite (date_range_length x y Hxy). cbn [total_days fold_right].
      fold (total_days L Budgets.START_COL Budgets.END_COL rs). lia.
    + intros c Hc. rewrite column_sum_app.
      destruct (budget_prorate_cols c (Hin c Hc)) as (Hdate & Hcs & Hce).
      pose proof (budget_days_sum prorate r' x y c Hxy Hnd Hc Hdate) as H1.
      assert (V : budget_value L c r' = budget_value L c r)
        by (unfold budget_value, r'; now rewrite coerced_value by assumption).
      rewrite V in H1.
      cbn [budget_total budget_magnitude total_days fold_right].
      fold (budget_total L c rs). fold (budget_magnitude L c rs).
      fold (total_days L Budgets.START_COL Budgets.END_COL rs).
      rewrite Hdays. apply near_plus; [exact H1 | exact (Hsum c Hc)].
Qed.

(** X1. Budget expander, on a sheet that has both date columns and whose
    records all have a start date and an end date that is not before it: the
    run completes, collects no row for debugging, writes one row per day of
    every record, and the total of every prorated column of the sheet over
    the daily rows is the total of the amounts [parse_number] reads in the
    sheet up to the rounding of the divisions: the two, as exact sums of the
    doubles, differ by at most [2^-53] of the total magnitude of the
    amounts, and [2^-1075] per daily row. *)
Theorem budget_sheet_conserves (df : sheet) :
  has_column Budgets.START_COL (columns df) = true ->
  has_column Budgets.END_COL (columns df) = true ->
  (forall r, In r (rows df) ->
     dated L Budgets.START_COL Budgets.END_COL r = true) ->
  exists a,
    Budgets.main L df = Ok a
    /\ Budgets.debug_rows a = []
    /\ Z.of_nat (List.length (Budgets.out_rows a))
       = total_days L Budgets.START_COL Budgets.END_COL (rows df)
    /\ (forall c, In c (Budgets.mapped_prorate (columns df)) ->
          (Qabs (column_sum c (Budgets.out_rows a) - budget_total L c (rows df))
           <= Float64.eps * budget_magnitude L c (rows df)
              + inject_Z (total_days L Budgets.START_COL Budgets.END_COL
                            (rows df))
                * Float64.eta)%Q).
Proof.
  intros Hs He Hd. unfold Budgets.main. rewrite Hs, He. cbn [andb negb].
  destruct (budget_loop_conserves (Budgets.mapped_prorate (columns df)) (rows df)
              Budgets.acc0 (mapped_prorate_nodup _) (mapped_prorate_in _) Hd)
    as (a & em & Hloop & Hout & Hdbg & Hlen & Hsum).
  exists a. split; [exact Hloop|]. cbn [Budgets.acc0 Budgets.out_rows
    Budgets.debug_rows app] in Hout, Hdbg.
  rewrite Hout. repeat split; auto.
Qed.

End SheetTotals.

Section PlanTotals.

Import Calendar Totals.

Variable L : PyLib.

Lemma plan_step_dated (r : Row.row) (x y : Z) :
  Row.get Plans.START_COL r = Some (Day x) ->
  Row.get Plans.END_COL r = Some (Day y) ->
  x <= y ->
  Plans.step L r
  = Ok (List.map (fun d => Row.set "Date" (Day d)
                             (Plans.prorate_row L (y - x + 1) r))
          (date_range x y)).
Proof.
  intros Hs He Hxy. unfold Plans.step. rewrite Hs, He.
  cbn [of_option bind isna orb].
  rewrite (date_range_length x y Hxy).
  replace (Z.max 1 (y - x + 1)) with (y - x + 1) by lia. reflexivity.
Qed.

Lemma plan_days_sum (r : Row.row) (x y : Z) (c : string) :
  x <= y -> In c Plans.PRORATE_COLS ->
  (Qabs (column_sum c
           (List.map (fun d => Row.set "Date" (Day d)
                                 (Plans.prorate_row L (y - x + 1) r))
              (date_range x y))
         - plan_value L c r)
   <= Float64.eps * Qabs (plan_value L c r)
      + inject_Z (y - x + 1) * Float64.eta)%Q.
Proof.
  intros Hxy Hc.
  destruct (plan_prorate_cols c Hc) as (Hd & _ & _).
  rewrite column_sum_days by assumption.
  rewrite (date_range_length x y Hxy), plan_prorate_get.
  apply existsb_eqb_In in Hc. rewrite Hc.
  unfold plan_value, Plans.prorated.
  destruct (Row.get c r) as [v|]; [|apply near_zero; lia].
  cbn [option_map].
  destruct (Plans.to_float_safe L v) as [s|q| |d|];
    cbn [Plans.is_number cell_div cell_value];
    try (apply near_zero; lia).
  apply divide_and_sum. lia.
Qed.

Lemma plan_loop_conserves (rs : list Row.row) :
  (forall r, In r rs -> dated L Plans.START_COL Plans.END_COL r = true) ->
  exists out,
    Plans.loop L
      (List.map (fun r => Budgets.coerce_date L Plans.END_COL
                            (Budgets.coerce_date L Plans.START_COL r)) rs)
    = Ok out
    /\ Z.of_nat (List.length out) = total_days L Plans.START_COL Plans.END_COL rs
    /\ (forall c, In c Plans.PRORATE_COLS ->
          (Qabs (column_sum c out - plan_total L c rs)
           <= Float64.eps * plan_magnitude L c rs
              + inject_Z (total_days L Plans.START_COL Plans.END_COL rs)
                * Float64.eta)%Q).
Proof.
  induction rs as [|r rs IH]; intros Hd.
  - exists []. simpl. repeat split; auto.
    intros c _. vm_compute. discriminate.
  - destruct (dated_coerced L Plans.START_COL Plans.END_COL r
                ltac:(discriminate) (Hd r (or_introl eq_refl)))
      as (x & y & Hs & He & Hxy & Hdays).
    destruct IH as (out & Hloop & Hlen & Hsum).
    { intros r0 H0. apply Hd. now right. }
    set (r' := Budgets.coerce_date L Plans.END_COL
                 (Budgets.coerce_date L Plans.START_COL r)) in *.
    eexists. cbn [List.map Plans.loop]. fold r'.
    rewrite (plan_step_dated r' x y Hs He Hxy), Hloop. cbn [bind].
    split; [reflexivity|]. split.
    + rewrite length_app, length_map, Nat2Z.inj_add, Hlen.
      rewrite (date_range_length x y Hxy). cbn [total_days fold_right].
      fold (total_days L Plans.START_COL Plans.END_COL rs). lia.
    + intros c Hc. rewrite column_sum_app.
      pose proof (plan_days_sum r' x y c Hxy Hc) as H1.
      destruct (plan_prorate_cols c Hc) as (_ & Hcs & Hce).
      assert (V : plan_value L c r' = plan_value L c r)
        by (unfold plan_value, r'; now rewrite (coerced_value L) by assumption).
      rewrite V in H1.
      cbn [plan_total plan_magnitude total_days fold_right].
      fold (plan_total L c rs). fold (plan_magnitude L c rs).
      fold (total_days L Plans.START_COL Plans.END_COL rs).
      rewrite Hdays. apply near_plus; [exact H1 | exact (Hsum c Hc)].
Qed.

(** X2. Plan expander, on a sheet that has both date columns and whose
    records all have a start date and an end date that is not before it: the
    run completes and writes one row per day of every record, and for every
    column of [PRORATE_COLS] the total over the daily rows is the total of
    the numbers [to_float_safe] reads in the sheet (a cell that is not a
    number is copied as it is and counts for nothing) up to the rounding of
    the divisions: the two, as exact sums of the doubles, differ by at most
    [2^-53] of the total magnitude of the numbers, and [2^-1075] per daily
    row. *)
Theorem plan_sheet_conserves (df : sheet) :
  has_column Plans.START_COL (columns df) = true ->
  has_column Plans.END_COL (columns df) = true ->
  (forall r, In r (rows df) -> dated L Plans.START_COL Plans.END_COL r = true) ->
  exists out,
    Plans.main L df = Ok out
    /\ Z.of_nat (List.length out)
       = total_days L Plans.START_COL Plans.END_COL (rows df)
    /\ (forall c, In c Plans.PRORATE_COLS ->
          (Qabs (column_sum c out - plan_total L c (rows df))
           <= Float64.eps * plan_magnitude L c (rows df)
              + inject_Z (total_days L Plans.START_COL Plans.END_COL (rows df))
                * Float64.eta)%Q).
Proof.
  intros Hs He Hd. unfold Plans.main. rewrite Hs, He. cbn [andb negb].
  apply plan_loop_conserves, Hd.
Qed.

End PlanTotals.

(** ** The fiscal-year fallback of the budget expander *)

Lemma year_length (y : Z) :
  Calendar.days_from_civil y 12 31 - Calendar.days_from_civil y 1 1 + 1
  = Totals.days_in_year y.
Proof.
  unfold Calendar.days_from_civil, Totals.days_in_year, Totals.leap_year.
  cbn [Z.leb Z.ltb Z.compare Pos.compare Pos.compare_cont].
  change ((153 * (12 - 3) + 2) / 5) with 275.
  change ((153 * (1 + 9) + 2) / 5) with 306.
  destruct (y mod 4 =? 0) eqn:E4; destruct (y mod 100 =? 0) eqn:E100;
    destruct (y mod 400 =? 0) eqn:E400; cbn [negb andb orb];
    rewrite ?Z.eqb_eq, ?Z.eqb_neq in *;
    Z.div_mod_to_equations; lia.
Qed.

Lemma days_in_year_pos (y : Z) : 365 <= Totals.days_in_year y <= 366.
Proof. unfold Totals.days_in_year. destruct (Totals.leap_year y); lia. Qed.

Section FiscalYear.

Import Calendar Totals.

Variable L : PyLib.

(** X3. Budget expander, fiscal-year fallback: a record whose start or end
    date is missing and whose [FX Year] reads as the year [y] is spread over
    the whole of that year, whatever the date it may still have: one row per
    day from 1 January to 31 December (365 rows, 366 in a leap year), every
    prorated column at the parsed amount over that number of days, so that
    the column total over the rows, as the exact sum of the doubles, is the
    parsed amount up to the rounding of the division (a relative [2^-53],
    and [2^-1075] per row); nothing is collected for debugging. *)
Theorem fiscal_year_fallback (prorate : list string) (a : Budgets.acc)
  (r : Row.row) (s e : cell) (y : Z) :
  Row.get Budgets.START_COL r = Some s ->
  Row.get Budgets.END_COL r = Some e ->
  (isna s || isna e)%bool = true ->
  Budgets.fiscal_year L (Row.get Budgets.FX_YEAR_COL r) = Some y ->
  NoDup prorate -> ~ In "Date" prorate ->
  exists a' emitted,
    Budgets.step L prorate a r = Ok a'
    /\ Budgets.out_rows a' = Budgets.out_rows a ++ emitted
    /\ Budgets.debug_rows a' = Budgets.debug_rows a
    /\ Z.of_nat (List.length emitted) = days_in_year y
    /\ (forall i, Z.of_nat i < days_in_year y ->
          Row.get "Date" (nth i emitted [])
          = Some (Day (days_from_civil y 1 1 + Z.of_nat i)))
    /\ days_from_civil y 1 1 + (days_in_year y - 1) = days_from_civil y 12 31
    /\ (forall c row, In c prorate -> In row emitted ->
          Row.get c row
          = Some (Budgets.prorated L (days_in_year y) (Row.get c r)))
    /\ (forall c, In c prorate ->
          (Qabs (column_sum c emitted - budget_value L c r)
           <= Float64.eps * Qabs (budget_value L c r)
              + inject_Z (days_in_year y) * Float64.eta)%Q).
Proof.
  intros Hs He Hna Hfy Hnd Hdate.
  pose proof (year_length y) as Hy. pose proof (days_in_year_pos y) as Hp.
  set (x := days_from_civil y 1 1) in *. set (z := days_from_civil y 12 31) in *.
  assert (Hxz : x <= z) by lia.
  pose proof (date_range_length x z Hxz) as Hlen.
  eexists.
  exists (List.map (fun d => Row.set "Date" (Day d)
                                (Budgets.prorate_row L prorate (days_in_year y) r))
            (date_range x z)).
  unfold Budgets.step. rewrite Hs, He. cbn [of_option bind].
  rewrite Hna, Hfy. cbn [bind]. fold x z. rewrite Hlen.
  replace (Z.max 1 (z - x + 1)) with (days_in_year y) by lia.
  split; [reflexivity|]. cbn [Budgets.out_rows Budgets.debug_rows].
  split; [reflexivity|]. split; [reflexivity|].
  split; [rewrite length_map; lia|].
  assert (Hneq : forall c, In c prorate -> c <> "Date")
    by (intros c Hc ->; contradiction).
  split; [|split; [lia|split]].
  - intros i Hi. rewrite (nth_map_in _ _ _ _ 0) by lia.
    rewrite get_set_same, date_range_nth by lia. reflexivity.
  - intros c row Hc Hrow. apply in_map_iff in Hrow as (d & <- & _).
    rewrite get_set_other by auto. rewrite budget_prorate_get by assumption.
    apply existsb_eqb_In in Hc. now rewrite Hc.
  - intros c Hc. rewrite <- Hy.
    apply (budget_days_sum L prorate r x z c); auto.
Qed.

End FiscalYear.

(** ** The review rows and the counters of the budget expander *)

Section BudgetLoop.

Import Calendar Totals.

Variable L : PyLib.

Lemma budget_loop_app (prorate : list string) (a : Budgets.acc)
  (before after : list Row.row) :
  Budgets.loop L prorate a (before ++ after)
  = (a' <- Budgets.loop L prorate a before ;; Budgets.loop L prorate a' after).
Proof.
  revert a. induction before as [|r before IH]; intros a; simpl; auto.
  destruct (Budgets.step L prorate a r) as [a1|e]; simpl; auto.
Qed.

(** X4. Budget expander: a record whose start or end date does not parse,
    whose [FX Year] gives no year and whose [Planned (Local)] cell is a text
    other than the empty one, a number or a missing number stops the run
    with [TypeError] (the membership test against [pd.NA]), whatever the
    records after it; the records before it are dated ones. *)
Theorem planned_value_stops_run (df : sheet) (before after : list Row.row)
  (r : Row.row) (s e v : cell) :
  has_column Budgets.START_COL (columns df) = true ->
  has_column Budgets.END_COL (columns df) = true ->
  rows df = before ++ r :: after ->
  (forall r0, In r0 before ->
     dated L Budgets.START_COL Budgets.END_COL r0 = true) ->
  Row.get Budgets.START_COL r = Some s ->
  Row.get Budgets.END_COL r = Some e ->
  to_datetime L s = None \/ to_datetime L e = None ->
  Budgets.fiscal_year L (Row.get Budgets.FX_YEAR_COL r) = None ->
  Row.get Budgets.PLANNED_COL r = Some v ->
  plain_cell v = true -> v <> Str "" ->
  Budgets.main L df = Raise TypeError.
Proof.
  intros Hs He Hrows Hd Hgs Hge Hnone Hfy Hv Hplain Hne.
  unfold Budgets.main. rewrite Hs, He, Hrows. cbn [andb negb].
  rewrite map_app, budget_loop_app.
  destruct (budget_loop_conserves L (Budgets.mapped_prorate (columns df)) before
              Budgets.acc0 (mapped_prorate_nodup _) (mapped_prorate_in _) Hd)
    as (a & em & -> & _).
  cbn [bind List.map Budgets.loop].
  set (r' := Budgets.coerce_date L Budgets.END_COL
               (Budgets.coerce_date L Budgets.START_COL r)).
  assert (Hstep : Budgets.step L (Budgets.mapped_prorate (columns df)) a r'
                  = Raise TypeError).
  { unfold Budgets.step, r'.
    rewrite !coerce_date_get, !String.eqb_refl.
    change (String.eqb Budgets.START_COL Budgets.END_COL) with false.
    change (String.eqb Budgets.END_COL Budgets.START_COL) with false.
    change (String.eqb Budgets.FX_YEAR_COL Budgets.END_COL) with false.
    change (String.eqb Budgets.FX_YEAR_COL Budgets.START_COL) with false.
    change (String.eqb Budgets.PLANNED_COL Budgets.END_COL) with false.
    change (String.eqb Budgets.PLANNED_COL Budgets.START_COL) with false.
    cbv iota. rewrite Hgs, Hge. cbn [option_map of_option bind].
    assert (Hna : (isna (date_cell (to_datetime L s))
                   || isna (date_cell (to_datetime L e)))%bool = true).
    { destruct Hnone as [-> | ->]; simpl; auto using orb_true_r. }
    rewrite Hna, Hfy, Hv. cbn [bind].
    destruct v as [[|c t]|q| |d|]; try discriminate; try reflexivity.
    now contradiction Hne. }
  rewrite Hstep. reflexivity.
Qed.

Lemma budget_step_counters (prorate : list string) (a a' : Budgets.acc)
  (r : Row.row) :
  Budgets.step L prorate a r = Ok a' ->
  Budgets.debug_rows a' = Budgets.debug_rows a
  /\ Budgets.total_input_planned_count a
     <= Budgets.total_input_planned_count a'
     <= Budgets.total_input_planned_count a + 1
  /\ Budgets.total_emitted_planned_positive a
     <= Budgets.total_emitted_planned_positive a'
  /\ Budgets.total_emitted_planned_positive a'
     - Budgets.total_emitted_planned_positive a
     <= Budgets.total_input_planned_count a'
        - Budgets.total_input_planned_count a.
Proof.
  unfold Budgets.step. intros H.
  apply bind_ok in H as (s & _ & H). apply bind_ok in H as (e & _ & H).
  apply bind_ok in H as (span & _ & H).
  destruct span as [[x y]|].
  - apply ok_inj in H. subst a'.
    cbn [Budgets.debug_rows Budgets.total_input_planned_count
         Budgets.total_emitted_planned_positive].
    split; [reflexivity|].
    destruct (match Row.get Budgets.PLANNED_COL r with
              | Some v => Budgets.parse_number L v
              | None => None
              end) as [v|]; [|lia].
    destruct (Row.mem Budgets.PLANNED_COL _ && Budgets.is_nonzero v)%bool; lia.
  - apply bind_ok in H as (listed & Hl & H). apply ok_inj in H. subst a'.
    cbn [Budgets.debug_rows Budgets.total_input_planned_count
         Budgets.total_emitted_planned_positive].
    split; [|lia].
    assert (listed = true) as ->.
    { unfold Budgets.in_none_empty_na in Hl.
      destruct (Row.get Budgets.PLANNED_COL r) as [[[|c t]|q| |d|]|];
        try discriminate; now apply ok_inj in Hl. }
    reflexivity.
Qed.

Lemma budget_loop_counters (prorate : list string) (rs : list Row.row)
  (a a' : Budgets.acc) :
  Budgets.loop L prorate a rs = Ok a' ->
  Budgets.debug_rows a' = Budgets.debug_rows a
  /\ Budgets.total_input_planned_count a
     <= Budgets.total_input_planned_count a'
     <= Budgets.total_input_planned_count a + Z.of_nat (List.length rs)
  /\ Budgets.total_emitted_planned_positive a
     <= Budgets.total_emitted_planned_positive a'
  /\ Budgets.total_emitted_planned_positive a'
     - Budgets.total_emitted_planned_positive a
     <= Budgets.total_input_planned_count a'
        - Budgets.total_input_planned_count a.
Proof.
  revert a. induction rs as [|r rs IH]; intros a H.
  - simpl in H. apply ok_inj in H. subst a'. simpl. repeat split; lia.
  - cbn [Budgets.loop] in H. apply bind_ok in H as (a1 & Hstep & H).
    apply budget_step_counters in Hstep as (D1 & I1 & E1 & B1).
    apply IH in H as (D2 & I2 & E2 & B2).
    cbn [List.length]. rewrite Nat2Z.inj_succ.
    split; [congruence|]. lia.
Qed.

(** X5. Budget expander, any run that completes on a sheet whose
    [Planned (Local)] cells are texts, numbers or missing numbers: no row is
    ever collected for the debug file, and the two counters the script
    prints are ordered: the count of records emitted with a non-zero planned
    amount is at most the count of records with a parseable planned amount,
    which is at most the number of records. *)
Theorem budget_run_counters (df : sheet) (a : Budgets.acc) :
  Budgets.main L df = Ok a ->
  (forall r v, In r (rows df) -> Row.get Budgets.PLANNED_COL r = Some v ->
     plain_cell v = true) ->
  Budgets.debug_rows a = []
  /\ 0 <= Budgets.total_emitted_planned_positive a
     <= Budgets.total_input_planned_count a
  /\ Budgets.total_input_planned_count a <= Z.of_nat (List.length (rows df)).
Proof.
  unfold Budgets.main. intros H _.
  destruct (negb _); [discriminate|].
  apply budget_loop_counters in H as (D & I & E & B).
  rewrite length_map in I.
  cbn [Budgets.acc0 Budgets.debug_rows Budgets.total_input_planned_count
       Budgets.total_emitted_planned_positive] in *.
  split; [exact D|]. lia.
Qed.

End BudgetLoop.

Lemma budget_sheet_conserves_witness :
  exists a,
    Budgets.main Lib.ascii_lib january_budgets = Ok a
    /\ List.length (Budgets.out_rows a) = 5%nat
    /\ (Qabs (column_sum "Planned (Local)" (Budgets.out_rows a)
              - Totals.budget_total Lib.ascii_lib "Planned (Local)"
                  (rows january_budgets))
        <= Float64.eps
           * Totals.budget_magnitude Lib.ascii_lib "Planned (Local)"
               (rows january_budgets)
           + inject_Z (Totals.total_days Lib.ascii_lib Budgets.START_COL
                         Budgets.END_COL (rows january_budgets))
             * Float64.eta)%Q
    /\ Totals.budget_total Lib.ascii_lib "Planned (Local)"
         (rows january_budgets) = (300 - 1000)%Q
    /\ Totals.budget_magnitude Lib.ascii_lib "Planned (Local)"
         (rows january_budgets) = (300 + 1000)%Q.
Proof.
  destruct (budget_sheet_conserves Lib.ascii_lib january_budgets eq_refl eq_refl)
    as (a & Hmain & _ & Hlen & Hsum).
  - intros r [<-|[<-|[]]]; vm_compute; reflexivity.
  - exists a. split; [exact Hmain|]. split; [|split; [|split]].
    + apply Nat2Z.inj. rewrite Hlen. vm_compute. reflexivity.
    + apply (Hsum "Planned (Local)"). vm_compute. tauto.
    + vm_compute. reflexivity.
    + vm_compute. reflexivity.
Defined.

Lemma plan_sheet_conserves_witness :
  exists out,
    Plans.main Lib.ascii_lib january_plans = Ok out
    /\ List.length out = 5%nat
    /\ (Qabs (column_sum "Views" out
              - Totals.plan_total Lib.ascii_lib "Views" (rows january_plans))
        <= Float64.eps
           * Totals.plan_magnitude Lib.ascii_lib "Views" (rows january_plans)
           + inject_Z (Totals.total_days Lib.ascii_lib Plans.START_COL
                         Plans.END_COL (rows january_plans))
             * Float64.eta)%Q
    /\ Totals.plan_total Lib.ascii_lib "Views" (rows january_plans) = 1000%Q
    /\ Totals.plan_total Lib.ascii_lib "Agency_Fee" (rows january_plans) = 15%Q.
Proof.
  destruct (plan_sheet_conserves Lib.ascii_lib january_plans eq_refl eq_refl)
    as (out & Hmain & Hlen & Hsum).
  - intros r [<-|[<-|[]]]; vm_compute; reflexivity.
  - exists out. split; [exact Hmain|]. split; [|split; [|split]].
    + apply Nat2Z.inj. rewrite Hlen. vm_compute. reflexivity.
    + apply (Hsum "Views"). vm_compute. tauto.
    + vm_compute. reflexivity.
    + vm_compute. reflexivity.
Defined.

Lemma fiscal_year_fallback_witness :
  exists a' emitted,
    Budgets.step Lib.ascii_lib ["Planned (Local)"] Budgets.acc0 yearly_budget
    = Ok a'
    /\ Budgets.out_rows a' = emitted
    /\ List.length emitted = 366%nat
    /\ Row.get "Date" (nth 0 emitted []) = Some (Day 19723)
    /\ Row.get "Planned (Local)" (nth 0 emitted []) = Some (Num 2)
    /\ (Qabs (column_sum "Planned (Local)" emitted
              - Totals.budget_value Lib.ascii_lib "Planned (Local)"
                  yearly_budget)
        <= Float64.eps
           * Qabs (Totals.budget_value Lib.ascii_lib "Planned (Local)"
                     yearly_budget)
           + inject_Z (Totals.days_in_year 2024) * Float64.eta)%Q
    /\ Totals.budget_value Lib.ascii_lib "Planned (Local)" yearly_budget
       = 732%Q.
Proof.
  destruct (fiscal_year_fallback Lib.ascii_lib ["Planned (Local)"] Budgets.acc0
              yearly_budget NaT (Day 19725) 2024 eq_refl eq_refl eq_refl eq_refl)
    as (a' & emitted & Hstep & Hout & _ & Hlen & Hdate & _ & Hval & Hsum).
  - repeat constructor. simpl. tauto.
  - simpl. intuition discriminate.
  - exists a', emitted. split; [exact Hstep|]. split; [exact Hout|].
    assert (Hn : List.length emitted = 366%nat)
      by (apply Nat2Z.inj; rewrite Hlen; reflexivity).
    split; [exact Hn|]. split; [|split; [|split]].
    + rewrite (Hdate 0%nat) by (vm_compute; reflexivity). reflexivity.
    + rewrite (Hval "Planned (Local)" (nth 0 emitted [])).
      * vm_compute. reflexivity.
      * now left.
      * apply nth_In. rewrite Hn. lia.
    + apply (Hsum "Planned (Local)"). now left.
    + vm_compute. reflexivity.
Defined.

Lemma planned_value_stops_run_witness :
  Budgets.main Lib.ascii_lib stopped_budgets = Raise TypeError.
Proof.
  apply (planned_value_stops_run Lib.ascii_lib stopped_budgets
           [[("Min Start Date", Str "2024-01-01"); ("Max End Date", Str "2024-01-03");
             ("FX Year", Num 2024); ("Planned (Local)", Num 300)]]
           []
           [("Min Start Date", Str "tbc"); ("Max End Date", Str "2024-01-03");
            ("FX Year", Str "n/a"); ("Planned (Local)", Num 500)]
           (Str "tbc") (Str "2024-01-03") (Num 500));
    try reflexivity.
  - intros r [<-|[]]. vm_compute. reflexivity.
  - left. vm_compute. reflexivity.
  - discriminate.
Defined.

Lemma budget_run_counters_witness :
  exists a,
    Budgets.main Lib.ascii_lib january_budgets = Ok a
    /\ Budgets.debug_rows a = []
    /\ 0 <= Budgets.total_emitted_planned_positive a
       <= Budgets.total_input_planned_count a
    /\ Budgets.total_input_planned_count a <= 2.
Proof.
  destruct (Budgets.main Lib.ascii_lib january_budgets) as [a|e] eqn:E;
    [|vm_compute in E; discriminate E].
  exists a. split; [reflexivity|].
  apply (budget_run_counters Lib.ascii_lib january_budgets a E).
  intros r v [<-|[<-|[]]] H; vm_compute in H; injection H as <-; reflexivity.
Defined.

(** ** The alias index as a whole *)

Section AliasIndex.

Import PyStr TwoPass.

Variable L : PyLib.

Lemma build_index_fst (brands : list brand_row) :
  fst (build_index L brands) = fst (fold_left (index_row L) brands ([], [])).
Proof.
  unfold build_index. now destruct (fold_left (index_row L) brands ([], [])).
Qed.

Lemma build_index_snd (brands : list brand_row) :
  snd (build_index L brands)
  = sorted (snd (fold_left (index_row L) brands ([], []))).
Proof.
  unfold build_index. now destruct (fold_left (index_row L) brands ([], [])).
Qed.

Lemma add_unique_in (s x : string) (l : list string) :
  In x (add_unique s l) <-> x = s \/ In x l.
Proof.
  unfold add_unique. destruct (existsb (String.eqb s) l) eqn:E.
  - split; auto. intros [->|H]; auto. now apply existsb_eqb_In.
  - rewrite in_app_iff. simpl. intuition.
Qed.

Lemma add_unique_nodup (s : string) (l : list string) :
  NoDup l -> NoDup (add_unique s l).
Proof.
  intros H. unfold add_unique. destruct (existsb (String.eqb s) l) eqn:E; auto.
  apply existsb_eqb_not_In in E.
  apply NoDup_app; auto.
  - repeat constructor. intros [].
  - intros x Hx [<-|[]]. contradiction.
Qed.

Lemma insert_sorted_in (s x : string) (l : list string) :
  In x (insert_sorted s l) <-> x = s \/ In x l.
Proof.
  induction l as [|y l IH]; simpl.
  - intuition.
  - destruct (String.leb s y); simpl; [intuition|]. rewrite IH. intuition.
Qed.

Lemma sorted_in (x : string) (l : list string) : In x (sorted l) <-> In x l.
Proof.
  induction l as [|y l IH]; simpl; [tauto|].
  rewrite insert_sorted_in, IH. intuition.
Qed.

Lemma insert_sorted_nodup (s : string) (l : list string) :
  ~ In s l -> NoDup l -> NoDup (insert_sorted s l).
Proof.
  induction l as [|y l IH]; simpl; intros Hs Hl.
  - repeat constructor. intros [].
  - destruct (String.leb s y).
    + constructor; auto.
    + inversion Hl as [|? ? Hy Hl']; subst. constructor.
      * rewrite insert_sorted_in. intuition.
      * apply IH; auto.
Qed.

Lemma sorted_nodup (l : list string) : NoDup l -> NoDup (sorted l).
Proof.
  induction l as [|y l IH]; simpl; intros H; [constructor|].
  inversion H; subst. apply insert_sorted_nodup; auto.
  now rewrite sorted_in.
Qed.

Lemma insert_sorted_sorted (s : string) (l : list string) :
  Sorted (fun a b => String.leb a b = true) l ->
  Sorted (fun a b => String.leb a b = true) (insert_sorted s l).
Proof.
  induction l as [|y l IH]; simpl; intros H.
  - repeat constructor.
  - destruct (String.leb s y) eqn:E.
    + constructor; auto.
    + apply Sorted_inv in H as [Hl Hy]. constructor; [now apply IH|].
      destruct l as [|z l]; simpl.
      * constructor. destruct (String.leb_total s y) as [C|C]; congruence.
      * inversion Hy; subst. destruct (String.leb s z).
        -- constructor. destruct (String.leb_total s y) as [C|C]; congruence.
        -- now constructor.
Qed.

Lemma sorted_sorted (l : list string) :
  Sorted (fun a b => String.leb a b = true) (sorted l).
Proof.
  induction l as [|y l IH]; simpl; [constructor|].
  now apply insert_sorted_sorted.
Qed.

(** What one row of the taxonomy does to the set of canonical names. *)
Lemma index_row_canons (st : index * list string) (r : brand_row) :
  snd (index_row L st r)
  = if nonempty (strip (brand_canonical r))
    then add_unique (strip (brand_canonical r)) (snd st) else snd st.
Proof.
  destruct st as [idx cs]. unfold index_row.
  destruct (nonempty (strip (brand_canonical r))); reflexivity.
Qed.

Lemma nonempty_true (s : string) : nonempty s = true <-> s <> "".
Proof.
  unfold nonempty. destruct (String.eqb_spec s ""); simpl; split; congruence.
Qed.

Lemma fold_canons (brands : list brand_row) (st : index * list string) :
  NoDup (snd st) ->
  NoDup (snd (fold_left (index_row L) brands st))
  /\ forall c, In c (snd (fold_left (index_row L) brands st))
               <-> In c (snd st)
                   \/ exists r, In r brands /\ strip (brand_canonical r) = c
                                /\ c <> "".
Proof.
  revert st. induction brands as [|r brands IH]; intros st Hnd.
  - simpl. split; auto. intros c. split; auto. intros [H|(r & [] & _)]; auto.
  - cbn [fold_left]. destruct (IH (index_row L st r)) as [N M].
    { rewrite index_row_canons. destruct (nonempty _); auto.
      now apply add_unique_nodup. }
    split; auto. intros c. rewrite M, index_row_canons.
    destruct (nonempty (strip (brand_canonical r))) eqn:E.
    + apply nonempty_true in E. rewrite add_unique_in. split.
      * intros [[->|H]|(r0 & H0 & H1)]; auto.
        -- right. exists r. simpl. auto.
        -- right. exists r0. simpl. auto.
      * intros [H|(r0 & [<-|H0] & H1 & H2)]; auto.
        right. now exists r0.
    + split.
      * intros [H|(r0 & H0 & H1)]; auto. right. exists r0. simpl. auto.
      * intros [H|(r0 & [<-|H0] & H1 & H2)]; auto.
        -- subst c. apply nonempty_true in H2. congruence.
        -- right. now exists r0.
Qed.

(** The canonical names of the list come from rows of the taxonomy. *)
Lemma canonical_name_origin (brands : list brand_row) (c : string) :
  In c (snd (build_index L brands)) ->
  exists r, In r brands /\ strip (brand_canonical r) = c /\ c <> "".
Proof.
  rewrite build_index_snd, sorted_in.
  destruct (fold_canons brands ([], []) (NoDup_nil _)) as [_ M].
  intros H. apply M in H as [[]|H]. exact H.
Qed.

(** X6. [build_index]: the list of canonical names it returns is in
    ascending order, has no duplicate, and holds exactly the canonical names
    of the taxonomy rows, stripped, the rows whose canonical name is blank
    left out. *)
Theorem canonical_names_sorted (brands : list brand_row) :
  Sorted (fun a b => String.leb a b = true) (snd (build_index L brands))
  /\ NoDup (snd (build_index L brands))
  /\ (forall c, In c (snd (build_index L brands))
                <-> exists r, In r brands /\ strip (brand_canonical r) = c
                              /\ c <> "").
Proof.
  rewrite build_index_snd.
  destruct (fold_canons brands ([], []) (NoDup_nil _)) as [N M].
  split; [apply sorted_sorted|]. split; [now apply sorted_nodup|].
  intros c. rewrite sorted_in, M. simpl. intuition.
Qed.

(** X7. [build_index] only ever adds to the index: an entry of the index
    built from a taxonomy is still there, with the same brand, in the index
    built from the taxonomy with further rows appended; so the brand Pass A
    finds at the scope of a record's market is not changed by rows appended
    to the taxonomy. *)
Theorem index_is_append_only (brands more : list brand_row) :
  (forall k c,
     dict_get k (fst (build_index L brands)) = Some c ->
     dict_get k (fst (build_index L (brands ++ more))) = Some c)
  /\ (forall m b c,
        dict_get (or_none (norm L m), norm L b) (fst (build_index L brands))
        = Some c ->
        resolve L (brands ++ more) m b = Some c).
Proof.
  assert (K : forall k c,
             dict_get k (fst (build_index L brands)) = Some c ->
             dict_get k (fst (build_index L (brands ++ more))) = Some c).
  { intros k c. rewrite !build_index_fst, fold_left_app.
    apply build_keeps. }
  split; [exact K|].
  intros m b c H. apply K in H. rewrite build_index_fst in H.
  rewrite resolve_unfold.
  now rewrite (pass_a_local L _ _ _ _ c H).
Qed.

(** Every canonical name of the list is a key of the index at global
    scope. *)
Lemma setdefault_mem (k k' : key) (v : string) (idx : index) :
  dict_mem k idx = true -> dict_mem k (setdefault k' v idx) = true.
Proof.
  unfold dict_mem. destruct (dict_get k idx) as [w|] eqn:E; [|discriminate].
  intros _. now rewrite (setdefault_keeps k k' v w idx E).
Qed.

Lemma setdefault_mem_same (k : key) (v : string) (idx : index) :
  dict_mem k (setdefault k v idx) = true.
Proof.
  unfold dict_mem. destruct (setdefault_bound k v idx) as (w & -> & _).
  reflexivity.
Qed.

Lemma index_row_mem (k : key) (st : index * list string) (r : brand_row) :
  dict_mem k (fst st) = true -> dict_mem k (fst (index_row L st r)) = true.
Proof.
  unfold dict_mem. destruct (dict_get k (fst st)) as [w|] eqn:E; [|discriminate].
  intros _. destruct st as [idx cs].
  now rewrite (index_row_keeps L k w idx cs r E).
Qed.

Lemma index_row_names (st : index * list string) (r : brand_row) :
  strip (brand_canonical r) <> "" ->
  dict_mem (None, norm L (row_alias r)) (fst (index_row L st r)) = true
  /\ dict_mem (None, norm L (strip (brand_canonical r)))
       (fst (index_row L st r)) = true.
Proof.
  intros H. destruct st as [idx cs]. unfold index_row.
  apply nonempty_true in H. rewrite H. cbn [negb fst].
  destruct (nonempty (strip (market r))).
  - split.
    + do 3 apply setdefault_mem. apply setdefault_mem_same.
    + apply setdefault_mem. apply setdefault_mem_same.
  - split.
    + apply setdefault_mem. apply setdefault_mem_same.
    + apply setdefault_mem_same.
Qed.

Lemma fold_mem (k : key) (brands : list brand_row) (st : index * list string) :
  dict_mem k (fst st) = true ->
  dict_mem k (fst (fold_left (index_row L) brands st)) = true.
Proof.
  revert st. induction brands as [|r brands IH]; intros st H; simpl; auto.
  apply IH. now apply index_row_mem.
Qed.

Lemma fold_names (brands : list brand_row) (st : index * list string)
  (r : brand_row) :
  In r brands -> strip (brand_canonical r) <> "" ->
  dict_mem (None, norm L (row_alias r))
    (fst (fold_left (index_row L) brands st)) = true
  /\ dict_mem (None, norm L (strip (brand_canonical r)))
       (fst (fold_left (index_row L) brands st)) = true.
Proof.
  revert st. induction brands as [|r0 brands IH]; intros st Hin Hc; [contradiction|].
  cbn [fold_left]. destruct Hin as [->|Hin]; [|now apply IH].
  destruct (index_row_names st r Hc) as [A B].
  split; now apply fold_mem.
Qed.

Lemma pass_a_mapped (idx : index) (cl : list string) (m b : string) :
  dict_mem (None, b) idx = true ->
  exists c, fst (pass_a L idx cl m b) = Some c.
Proof.
  unfold dict_mem, pass_a. intros H.
  destruct (dict_get (or_none m, b) idx) as [c|]; [now exists c|].
  destruct (dict_get (None, b) idx) as [c|]; [now exists c | discriminate].
Qed.

(** X8. Pass A maps every name of the taxonomy in every market: for a row
    with a canonical name, a [Brand] text equal to the (stripped) canonical
    name or to the (stripped) alias of the row is mapped to some brand,
    whatever the market of the record, because [build_index] registers both
    at global scope. *)
Theorem taxonomy_names_are_mapped (brands : list brand_row) (r : brand_row)
  (m : string) :
  In r brands -> strip (brand_canonical r) <> "" ->
  (exists c, resolve L brands m (strip (brand_canonical r)) = Some c)
  /\ (exists c, resolve L brands m (row_alias r) = Some c).
Proof.
  intros Hin Hc.
  destruct (fold_names brands ([], []) r Hin Hc) as [A B].
  rewrite !resolve_unfold. split; now apply pass_a_mapped.
Qed.

(** X9. [build_index] skips the rows whose canonical name is blank: the
    index and the list of canonical names are those of the taxonomy without
    these rows (their aliases and markets are not registered). *)
Theorem blank_canonical_rows_are_skipped (brands : list brand_row) :
  build_index L brands
  = build_index L
      (List.filter (fun r => nonempty (strip (brand_canonical r))) brands).
Proof.
  unfold build_index.
  assert (H : forall st,
             fold_left (index_row L) brands st
             = fold_left (index_row L)
                 (List.filter (fun r => nonempty (strip (brand_canonical r)))
                    brands) st).
  { induction brands as [|r brands IH]; intros st; simpl; auto.
    destruct (nonempty (strip (brand_canonical r))) eqn:E; simpl.
    - apply IH.
    - rewrite <- IH. f_equal. destruct st as [idx cs]. unfold index_row.
      now rewrite E. }
  now rewrite H.
Qed.

(** X10. Pass A against the index [build_index] returns never gives the
    reason [tax_canonical_equal]: a [Brand] text equal to a canonical name
    is already found in the index at global scope.  And for a record whose
    market is blank a hit is always reported as [tax_exact_local], never as
    [tax_exact_global]. *)
Theorem canonical_equal_is_unreachable (brands : list brand_row) (m b : string) :
  let idx := fst (build_index L brands) in
  let canon_list := snd (build_index L brands) in
  snd (pass_a L idx canon_list m b) <> "tax_canonical_equal"
  /\ (snd (pass_a L idx canon_list m b) = ""
      <-> fst (pass_a L idx canon_list m b) = None)
  /\ (m = "" -> snd (pass_a L idx canon_list m b) <> "tax_exact_global").
Proof.
  intros idx canon_list. unfold pass_a.
  destruct (dict_get (or_none m, b) idx) as [c|] eqn:El; cbn [fst snd].
  { repeat split; discriminate. }
  destruct (dict_get (None, b) idx) as [c|] eqn:Eg; cbn [fst snd].
  { repeat split; try discriminate. intros ->. simpl in El. congruence. }
  destruct (List.find (fun canon => String.eqb (norm L canon) b) canon_list)
    as [canon|] eqn:Ef; cbn [fst snd].
  - exfalso. apply find_some in Ef as [Hin Hb].
    apply String.eqb_eq in Hb.
    destruct (canonical_name_origin brands canon Hin) as (r & Hr & Hs & Hne).
    destruct (fold_names brands ([], []) r Hr) as [_ B]; [congruence|].
    unfold idx in Eg. rewrite build_index_fst in Eg.
    unfold dict_mem in B. rewrite Hs, Hb, Eg in B. discriminate.
  - repeat split; auto; discriminate.
Qed.

End AliasIndex.

(** ** Title detection and the decision of the resolver *)

Lemma prefix_length (a t : string) :
  prefix a t = true -> (String.length a <= String.length t)%nat.
Proof.
  revert t. induction a as [|c a IH]; intros t H; simpl; [lia|].
  destruct t as [|d t]; simpl in *; [discriminate|].
  revert H. destruct (Ascii.ascii_dec c d); intros H; [|discriminate].
  apply IH in H. lia.
Qed.

Lemma contains_length (a t : string) :
  PyStr.contains a t = true -> (String.length a <= String.length t)%nat.
Proof.
  induction t as [|d t IH]; cbn [PyStr.contains].
  - destruct a as [|c a]; simpl; [lia | discriminate].
  - destruct (prefix a (String d t)) eqn:E.
    + intros _. now apply prefix_length in E.
    + intros H. apply IH in H. simpl. lia.
Qed.

Section TitleDetection.

Import PyStr TwoPass.

Variable L : PyLib.

(** What makes a brand a hit of the title detection for the normalised
    title text [t]: its canonical name, or an alias the index maps to it,
    normalised to at least four characters, occurs in [t]. *)
Lemma canon_hits_sound (t : string) (cl : list string) (c reason : string) :
  In (c, reason) (canon_hits L t cl) ->
  reason = "title_contains_canon"
  /\ In c cl /\ contains (norm L c) t = true
  /\ (4 <= String.length (norm L c))%nat.
Proof.
  unfold canon_hits. rewrite in_flat_map. intros (x & Hx & H).
  destruct (nonempty (norm L x) && contains (norm L x) t
            && (4 <=? String.length (norm L x))%nat)%bool eqn:E; [|contradiction].
  destruct H as [H|[]]. injection H as <- <-.
  apply andb_true_iff in E as [E E3]. apply andb_true_iff in E as [_ E2].
  apply Nat.leb_le in E3. auto.
Qed.

Lemma alias_hits_sound (m t : string) (idx : index) (aliases : list string)
  (hits : list (string * string)) (c reason : string) :
  alias_hits m t idx aliases = Ok hits ->
  In (c, reason) hits ->
  reason = "title_contains_alias"
  /\ exists k a, dict_get (k, a) idx = Some c /\ contains a t = true
                 /\ (4 <= String.length a)%nat.
Proof.
  revert hits. induction aliases as [|a rest IH]; intros hits H Hin.
  - simpl in H. apply ok_inj in H. subst hits. contradiction.
  - cbn [alias_hits] in H.
    destruct (nonempty a && contains a t && (4 <=? String.length a)%nat)%bool
      eqn:E; [|now apply (IH hits)].
    apply bind_ok in H as (canon & Hc & H). apply bind_ok in H as (more & Hm & H).
    apply ok_inj in H. subst hits.
    destruct Hin as [Hin|Hin]; [|now apply (IH more)].
    injection Hin as <- <-. split; [reflexivity|].
    apply andb_true_iff in E as [E E3]. apply andb_true_iff in E as [_ E2].
    apply Nat.leb_le in E3.
    destruct (dict_get (if dict_mem (Some m, a) idx then Some m else None, a) idx)
      as [w|] eqn:G; [|discriminate]. apply ok_inj in Hc. subst w.
    eauto.
Qed.

Lemma dedup_sound (seen hits : list (string * string)) (p : string * string) :
  In p (dedup seen hits) -> In p seen \/ In p hits.
Proof.
  revert seen. induction hits as [|[c r] hits IH]; intros seen H; simpl in *; auto.
  destruct (existsb (fun e => String.eqb (fst e) c) seen).
  - apply IH in H. tauto.
  - apply IH in H. rewrite in_app_iff in H. simpl in H. tauto.
Qed.

Lemma insert_longest_in (s x : string) (l : list string) :
  In x (insert_longest s l) <-> x = s \/ In x l.
Proof.
  induction l as [|y l IH]; simpl.
  - intuition.
  - destruct (String.length y <=? String.length s)%nat; simpl; [intuition|].
    rewrite IH. intuition.
Qed.

Lemma sorted_longest_in (x : string) (l : list string) :
  In x (sorted_longest l) <-> In x l.
Proof.
  induction l as [|y l IH]; simpl; [tauto|].
  rewrite insert_longest_in, IH. intuition.
Qed.

(** X11. Title detection only returns brands of the taxonomy whose name is
    in the titles: the brand it gives is a canonical name of the list whose
    normalised form occurs in the normalised title text, or the brand the
    index gives for an alias that occurs in it, the name being at least
    four characters long once normalised; and the reason is one of
    [title_contains_canon], [title_contains_alias], [title_ambiguous]. *)
Theorem detected_brand_is_in_titles (plan camp market : cell) (idx : index)
  (cl : list string) (c reason : string) :
  detect_from_titles L plan camp market idx cl = Ok (Some c, reason) ->
  let t := norm L (or_empty L plan ++ " " ++ or_empty L camp) in
  In reason ["title_contains_canon"; "title_contains_alias"; "title_ambiguous"]
  /\ ((In c cl /\ contains (norm L c) t = true
       /\ (4 <= String.length (norm L c))%nat)
      \/ (exists k a, dict_get (k, a) idx = Some c /\ contains a t = true
                      /\ (4 <= String.length a)%nat)).
Proof.
  intros H t. unfold detect_from_titles in H. fold t in H.
  apply bind_ok in H as (more & Hmore & H).
  set (hits := canon_hits L t cl ++ more) in *.
  assert (S : forall c r, In (c, r) hits ->
            In r ["title_contains_canon"; "title_contains_alias"]
            /\ ((In c cl /\ contains (norm L c) t = true
                 /\ (4 <= String.length (norm L c))%nat)
                \/ (exists k a, dict_get (k, a) idx = Some c
                                /\ contains a t = true
                                /\ (4 <= String.length a)%nat))).
  { intros c0 r0 Hin. unfold hits in Hin. apply in_app_iff in Hin as [Hin|Hin].
    - apply canon_hits_sound in Hin as (-> & A). split; [now left | now left].
    - destruct (alias_hits_sound _ _ _ _ _ _ _ Hmore Hin) as (-> & A).
      split; [right; now left | now right]. }
  assert (D : forall p, In p (dedup [] hits) -> In p hits).
  { intros p Hp. apply dedup_sound in Hp as [[]|Hp]. exact Hp. }
  destruct (dedup [] hits) as [|[c1 r1] [|p2 rest]] eqn:E.
  - discriminate.
  - apply ok_inj in H. injection H as <- <-.
    destruct (S c1 r1 (D _ (or_introl eq_refl))) as [R P].
    split; auto. simpl in *. tauto.
  - destruct (sorted_longest (List.map fst ((c1, r1) :: p2 :: rest)))
      as [|c0 l0] eqn:Es; [discriminate|].
    apply ok_inj in H. injection H as <- <-.
    split; [simpl; tauto|].
    assert (Hin : In c0 (List.map fst ((c1, r1) :: p2 :: rest))).
    { apply sorted_longest_in. rewrite Es. now left. }
    apply in_map_iff in Hin as ([c' r'] & Hc & Hin). simpl in Hc. subst c'.
    now destruct (S c0 r' (D _ Hin)).
Qed.

Lemma short_name_misses (a t : string) :
  (String.length t < 4)%nat ->
  (nonempty a && contains a t && (4 <=? String.length a)%nat)%bool = false.
Proof.
  intros Ht. destruct (contains a t) eqn:C.
  - apply contains_length in C.
    destruct (Nat.leb_spec 4 (String.length a)); [lia|].
    apply andb_false_r.
  - now rewrite andb_false_r.
Qed.

Lemma alias_hits_short (m t : string) (idx : index) (aliases : list string) :
  (String.length t < 4)%nat -> alias_hits m t idx aliases = Ok [].
Proof.
  intros Ht. induction aliases as [|a rest IH]; cbn [alias_hits]; auto.
  now rewrite (short_name_misses a t Ht).
Qed.

Lemma canon_hits_short (t : string) (cl : list string) :
  (String.length t < 4)%nat -> canon_hits L t cl = [].
Proof.
  intros Ht. unfold canon_hits. induction cl as [|c cl IH]; cbn [flat_map]; auto.
  now rewrite IH, (short_name_misses (norm L c) t Ht).
Qed.

(** X12. Title detection needs four characters: when the plan name and the
    campaign name together normalise to fewer than four characters, no brand
    is detected, whatever the taxonomy. *)
Theorem short_titles_detect_nothing (plan camp market : cell) (idx : index)
  (cl : list string) :
  (String.length (norm L (or_empty L plan ++ " " ++ or_empty L camp)) < 4)%nat ->
  detect_from_titles L plan camp market idx cl = Ok (None, "").
Proof.
  intros H. unfold detect_from_titles.
  rewrite (alias_hits_short _ _ _ _ H), (canon_hits_short _ _ H). reflexivity.
Qed.

Lemma resolve_row_fields (idx : index) (cl : list string) (r : Row.row)
  (res : resolution) :
  resolve_row L idx cl r = Ok res ->
  exists mapped title_brand,
    Brand_taxonomy res = opt_or mapped ""
    /\ Brand_title res = opt_or title_brand ""
    /\ Brand_final res = opt_or mapped (opt_or title_brand "")
    /\ Issue res = fst (issue_of mapped title_brand).
Proof.
  unfold resolve_row. intros H.
  destruct (pass_a L idx cl _ _) as [mapped reasonA].
  apply bind_ok in H as ([tb rb] & _ & H).
  destruct (issue_of mapped tb) as [issue recommend] eqn:E.
  apply ok_inj in H. subst res. exists mapped, tb. cbn. rewrite E. auto.
Qed.

(** X13. The decision of the resolver, read on the fields of its result:
    the final brand is the taxonomy brand when Pass A found one, else the
    title brand; the issue is [brand_conflict_title] when both passes found
    a brand and the two differ, empty when they agree,
    [brand_ok_no_title_signal] when only Pass A found one,
    [brand_inferred_from_title] when only the titles did, and
    [brand_unmapped] when neither did. *)
Theorem resolver_decision (idx : index) (cl : list string) (r : Row.row)
  (res : resolution) :
  resolve_row L idx cl r = Ok res ->
  Brand_final res
  = (if nonempty (Brand_taxonomy res) then Brand_taxonomy res
     else Brand_title res)
  /\ Issue res
     = (if nonempty (Brand_taxonomy res)
        then if nonempty (Brand_title res)
             then if String.eqb (Brand_taxonomy res) (Brand_title res)
                  then "" else "brand_conflict_title"
             else "brand_ok_no_title_signal"
        else if nonempty (Brand_title res)
             then "brand_inferred_from_title" else "brand_unmapped").
Proof.
  intros H. apply resolve_row_fields in H as (mapped & tb & -> & -> & -> & ->).
  unfold issue_of, opt_or, opt_truthy.
  destruct mapped as [[|a ms]|]; destruct tb as [[|b ts]|]; cbn;
    (split; [reflexivity|]); try reflexivity;
    destruct (String.eqb ms ts); destruct (Ascii.eqb a b); reflexivity.
Qed.

End TitleDetection.

(** ** The resolver on a whole sheet *)

Lemma nth_error_clean {A B C : Type} (f : A -> B -> C) (l : list A) (m : list B)
  (i : nat) (z : C) :
  nth_error (List.map (fun p => f (fst p) (snd p)) (combine l m)) i = Some z ->
  exists a b, nth_error l i = Some a /\ nth_error m i = Some b /\ z = f a b.
Proof.
  revert m i. induction l as [|a l IH]; intros [|b m] [|i] H; simpl in *;
    try discriminate.
  - injection H as <-. eauto.
  - now apply IH.
Qed.

Section WholeSheet.

Import PyStr TwoPass.

Variable L : PyLib.

Lemma resolve_row_total (idx : index) (cl : list string) (r : Row.row) :
  exists res, resolve_row L idx cl r = Ok res.
Proof.
  unfold resolve_row.
  destruct (pass_a L idx cl _ _) as [mapped reasonA].
  destruct (detect_from_titles_total L (Row.get_or_empty "Plan Name" r)
              (Row.get_or_empty "Campaign Name" r) (Row.get_or_empty "Market" r)
              idx cl) as (tb & rb & ->).
  cbn [bind]. destruct (issue_of mapped tb). eauto.
Qed.

Lemma resolve_rows_total (idx : index) (cl : list string) (rs : list Row.row) :
  exists out,
    resolve_rows L idx cl rs = Ok out
    /\ List.length out = List.length rs
    /\ forall i r x, nth_error rs i = Some r -> nth_error out i = Some x ->
                     resolve_row L idx cl r = Ok x.
Proof.
  induction rs as [|r rs (out & Hout & Hlen & Hnth)].
  - exists []. repeat split; auto. intros [|i]; discriminate.
  - destruct (resolve_row_total idx cl r) as [x Hx].
    exists (x :: out). cbn [resolve_rows]. rewrite Hx, Hout. cbn [bind].
    repeat split; [simpl; congruence|].
    intros [|i] r0 x0 H1 H2; simpl in *.
    + congruence.
    + eauto.
Qed.

Lemma ensure_column_rows (c : string) (df : sheet) :
  List.length (rows (ensure_column c df)) = List.length (rows df).
Proof.
  unfold ensure_column. destruct (has_column c (columns df)); auto.
  destruct (List.find _ _); simpl; now rewrite length_map.
Qed.

Lemma has_column_in (c : string) (cols : list string) :
  has_column c cols = true <-> In c cols.
Proof. apply existsb_eqb_In. Qed.

Lemma ensure_column_has (c : string) (df : sheet) :
  has_column c (columns (ensure_column c df)) = true.
Proof.
  unfold ensure_column. destruct (has_column c (columns df)) eqn:E; auto.
  destruct (List.find _ _) as [old|] eqn:F; cbn [columns]; apply has_column_in.
  - apply find_some in F as [Hin _]. apply in_rev in Hin.
    apply in_map_iff. exists old. now rewrite String.eqb_refl.
  - apply in_or_app. right. now left.
Qed.

Lemma ensure_column_keeps (c c' : string) (df : sheet) :
  lower c <> lower c' ->
  has_column c (columns df) = true ->
  has_column c (columns (ensure_column c' df)) = true.
Proof.
  intros Hne H. unfold ensure_column.
  destruct (has_column c' (columns df)); auto.
  apply has_column_in in H.
  destruct (List.find _ _) as [old|] eqn:F; cbn [columns]; apply has_column_in.
  - apply find_some in F as [_ Hl]. apply String.eqb_eq in Hl.
    apply in_map_iff. exists c. split; auto.
    destruct (String.eqb_spec c old) as [->|]; [congruence | reflexivity].
  - apply in_or_app. now left.
Qed.

Lemma columns_fixed_rows (df : sheet) :
  List.length
    (rows (fold_left (fun d c => ensure_column c d)
             ["Brand"; "Market"; "Plan Name"; "Campaign Name"] df))
  = List.length (rows df).
Proof. cbn [fold_left]. now rewrite !ensure_column_rows. Qed.

(** X14. The column fix-up at the top of [two_pass_brand]: afterwards the
    sheet has the four columns [Brand], [Market], [Plan Name] and
    [Campaign Name] (each one found under another letter case and renamed,
    or added empty), it has the same number of records, and a sheet that
    already has the four columns is left as it is. *)
Theorem columns_are_fixed_up (df : sheet) :
  let df' := fold_left (fun d c => ensure_column c d)
               ["Brand"; "Market"; "Plan Name"; "Campaign Name"] df in
  (forall c, In c ["Brand"; "Market"; "Plan Name"; "Campaign Name"] ->
     has_column c (columns df') = true)
  /\ List.length (rows df') = List.length (rows df)
  /\ ((forall c, In c ["Brand"; "Market"; "Plan Name"; "Campaign Name"] ->
         has_column c (columns df) = true) -> df' = df).
Proof.
  cbn [fold_left]. split; [|split].
  - intros c [<-|[<-|[<-|[<-|[]]]]].
    + do 3 (apply ensure_column_keeps; [discriminate|]). apply ensure_column_has.
    + do 2 (apply ensure_column_keeps; [discriminate|]). apply ensure_column_has.
    + apply ensure_column_keeps; [discriminate|]. apply ensure_column_has.
    + apply ensure_column_has.
  - now rewrite !ensure_column_rows.
  - intros H. unfold ensure_column at 4. rewrite (H "Brand") by (simpl; tauto).
    unfold ensure_column at 3. rewrite (H "Market") by (simpl; tauto).
    unfold ensure_column at 2. rewrite (H "Plan Name") by (simpl; tauto).
    unfold ensure_column. now rewrite (H "Campaign Name") by (simpl; tauto).
Qed.

(** X15. [two_pass_brand] on a sheet without records stops with
    [KeyError]: the frame of the issues has no column to copy.  On a sheet
    with at least one record it never fails, whatever the taxonomy: it
    returns one issue row and one clean row per record, in order; the clean
    row of a record is the record (after the column fix-up) with the five
    fields [Brand_taxonomy], [Brand_title], [Brand_final], [Reason_tax] and
    [Reason_title] of its issue row, every other field unchanged. *)
Theorem two_pass_brand_rows (df : sheet) (brands : list brand_row) :
  let df' := fold_left (fun d c => ensure_column c d)
               ["Brand"; "Market"; "Plan Name"; "Campaign Name"] df in
  (rows df = [] ->
   two_pass_brand L df brands = Raise (KeyError "Brand_taxonomy"))
  /\ (rows df <> [] ->
  exists clean out,
    two_pass_brand L df brands = Ok (clean, out)
    /\ List.length out = List.length (rows df)
    /\ List.length clean = List.length (rows df)
    /\ forall i row,
         nth_error clean i = Some row ->
         exists r x,
           nth_error (rows df') i = Some r
           /\ nth_error out i = Some x
           /\ resolve_row L (fst (build_index L brands))
                (snd (build_index L brands)) r = Ok x
           /\ Row.get "Brand_taxonomy" row = Some (Str (Brand_taxonomy x))
           /\ Row.get "Brand_title" row = Some (Str (Brand_title x))
           /\ Row.get "Brand_final" row = Some (Str (Brand_final x))
           /\ Row.get "Reason_tax" row = Some (Str (Reason_tax x))
           /\ Row.get "Reason_title" row = Some (Str (Reason_title x))
           /\ (forall c,
                 ~ In c ["Brand_taxonomy"; "Brand_title"; "Brand_final";
                         "Reason_tax"; "Reason_title"] ->
                 Row.get c row = Row.get c r)).
Proof.
  intros df'. unfold two_pass_brand. fold df'.
  destruct (build_index L brands) as [idx cl] eqn:B. cbn [fst snd].
  destruct (resolve_rows_total idx cl (rows df')) as (out & Hout & Hlen & Hnth).
  rewrite Hout. cbn [bind].
  assert (Hrows : List.length (rows df') = List.length (rows df))
    by apply (columns_fixed_rows df).
  split.
  { intros E. rewrite E in Hrows. rewrite Hrows in Hlen.
    destruct out; [reflexivity | discriminate]. }
  intros N.
  destruct out as [|x0 out0] eqn:O.
  { destruct (rows df); [contradiction|]. simpl in *. lia. }
  rewrite <- O in *. clear O x0 out0.
  eexists. exists out. split; [reflexivity|].
  split; [congruence|].
  split; [rewrite length_map, length_combine; lia|].
  intros i row Hrow.
  apply (nth_error_clean clean_row) in Hrow as (r & x & Hr & Hx & ->).
  exists r, x. split; [exact Hr|]. split; [exact Hx|].
  split; [now apply (Hnth i)|].
  unfold clean_row.
  repeat split;
    try (repeat (first [apply get_set_same
                       | rewrite get_set_other by discriminate])).
  intros c Hc. simpl in Hc.
  rewrite !get_set_other; auto; intros ->; tauto.
Qed.

End WholeSheet.

(** ** White space after normalisation *)

Section WhiteSpace.

Import PyStr Headers.

Lemma squeeze_spaced (b : bool) (s : string) : spaced b (squeeze b s) = true.
Proof.
  revert b. induction s as [|c t IH]; intros b; simpl; auto.
  destruct (is_space c) eqn:E.
  - destruct b; [apply IH|]. simpl. apply IH.
  - simpl. rewrite E. apply IH.
Qed.

Lemma spaced_squeeze (b : bool) (s : string) :
  spaced b s = true -> squeeze b s = s.
Proof.
  revert b. induction s as [|c t IH]; intros b H; simpl in *; auto.
  destruct (is_space c).
  - apply andb_true_iff in H as [H Ht]. apply andb_true_iff in H as [Hc Hb].
    apply Ascii.eqb_eq in Hc. subst c.
    destruct b; [discriminate|]. now rewrite (IH true Ht).
  - now rewrite (IH false H).
Qed.

Lemma spaced_weaken (b : bool) (s : string) :
  spaced b s = true -> spaced false s = true.
Proof.
  destruct s as [|c t]; simpl; auto.
  destruct (is_space c); auto. rewrite !andb_true_iff. simpl. tauto.
Qed.

Lemma spaced_lstrip (b : bool) (s : string) :
  spaced b s = true -> spaced false (lstrip s) = true.
Proof.
  revert b. induction s as [|c t IH]; intros b H; simpl in *; auto.
  destruct (is_space c) eqn:E.
  - apply andb_true_iff in H as [_ Ht]. now apply (IH true).
  - simpl. now rewrite E.
Qed.

Lemma spaced_rstrip (b : bool) (s : string) :
  spaced b s = true -> spaced b (rstrip s) = true.
Proof.
  revert b. induction s as [|c t IH]; intros b H; simpl in *; auto.
  destruct (is_space c) eqn:E.
  - apply andb_true_iff in H as [H Ht]. apply (IH true) in Ht.
    destruct (rstrip t) as [|d u]; [reflexivity|].
    simpl in *. rewrite E. now rewrite H.
  - apply (IH false) in H.
    destruct (rstrip t) as [|d u]; simpl in *; now rewrite E.
Qed.

Lemma rstrip_rstrip (s : string) : rstrip (rstrip s) = rstrip s.
Proof.
  induction s as [|c t IH]; [reflexivity|].
  change (rstrip (String c t))
    with (match rstrip t with
          | EmptyString => if is_space c then EmptyString else String c EmptyString
          | String d u => String c (String d u)
          end).
  destruct (rstrip t) as [|d u] eqn:E.
  - destruct (is_space c) eqn:Ec; [reflexivity|]. simpl. now rewrite Ec.
  - change (rstrip (String c (String d u)))
      with (match rstrip (String d u) with
            | EmptyString => if is_space c then EmptyString else String c EmptyString
            | String d' u' => String c (String d' u')
            end).
    now rewrite IH.
Qed.

Lemma rstrip_head (c : ascii) (t : string) :
  is_space c = false -> exists u, rstrip (String c t) = String c u.
Proof.
  intros H. cbn [rstrip]. destruct (rstrip t); rewrite ?H; eauto.
Qed.

Lemma lstrip_rstrip_lstrip (s : string) :
  lstrip (rstrip (lstrip s)) = rstrip (lstrip s).
Proof.
  induction s as [|c t IH]; [reflexivity|]. cbn [lstrip].
  destruct (is_space c) eqn:E; [exact IH|].
  destruct (rstrip_head c t E) as [u Hu]. rewrite Hu.
  cbn [lstrip]. now rewrite E.
Qed.

Lemma strip_strip (s : string) : strip (strip s) = strip s.
Proof.
  unfold strip. now rewrite lstrip_rstrip_lstrip, rstrip_rstrip.
Qed.

Lemma strip_squeeze_normal (s : string) :
  strip (strip (squeeze false s)) = strip (squeeze false s)
  /\ squeeze false (strip (squeeze false s)) = strip (squeeze false s)
  /\ spaced false (strip (squeeze false s)) = true.
Proof.
  assert (H : spaced false (strip (squeeze false s)) = true).
  { unfold strip. apply spaced_rstrip, (spaced_lstrip false), squeeze_spaced. }
  split; [apply strip_strip|]. split; [now apply spaced_squeeze | exact H].
Qed.

(** What NFKC gives is left as it is by NFKC. *)
Lemma nfkc_char_stable (c : ascii) :
  str_all Budgets.nfkc_stable (Budgets.nfkc_char c) = true.
Proof. destruct c as [[] [] [] [] [] [] [] []]; vm_compute; reflexivity. Qed.

Lemma nfkc_stable_all (s : string) :
  str_all Budgets.nfkc_stable (Budgets.nfkc s) = true.
Proof.
  induction s as [|c t IH]; [reflexivity|]. cbn [Budgets.nfkc].
  now rewrite str_all_app, nfkc_char_stable, IH.
Qed.

Lemma stable_nfkc (s : string) :
  str_all Budgets.nfkc_stable s = true -> Budgets.nfkc s = s.
Proof.
  induction s as [|c t IH]; [reflexivity|]. cbn [str_all Budgets.nfkc].
  intros H. apply andb_true_iff in H as [Hc H].
  apply String.eqb_eq in Hc. now rewrite Hc, (IH H).
Qed.

Lemma str_all_squeeze (p : ascii -> bool) (b : bool) (s : string) :
  p " "%char = true -> str_all p s = true -> str_all p (squeeze b s) = true.
Proof.
  intros Hp. revert b. induction s as [|c t IH]; intros b H; [reflexivity|].
  cbn [str_all] in H. apply andb_true_iff in H as [Hc H]. cbn [squeeze].
  destruct (is_space c).
  - destruct b; [now apply IH|]. cbn [str_all]. now rewrite Hp, IH.
  - cbn [str_all]. now rewrite Hc, IH.
Qed.

(** A cleaned text is left as it is by NFKC. *)
Lemma cleaned_nfkc (s : string) :
  Budgets.nfkc (strip (squeeze false (Budgets.nfkc s)))
  = strip (squeeze false (Budgets.nfkc s)).
Proof.
  apply stable_nfkc, str_all_strip, str_all_squeeze;
    [reflexivity | apply nfkc_stable_all].
Qed.

Variable L : PyLib.

(** X16. The key [norm] returns is in normal form for white space, whatever
    the text: stripping it again or squeezing its white space again changes
    nothing, so it has no leading, trailing or repeated white space and no
    white-space character other than the space. *)
Theorem norm_is_normal (s : string) :
  strip (TwoPass.norm L s) = TwoPass.norm L s
  /\ squeeze false (TwoPass.norm L s) = TwoPass.norm L s
  /\ spaced false (TwoPass.norm L s) = true.
Proof. unfold TwoPass.norm. apply strip_squeeze_normal. Qed.

(** X17. [clean_header] is idempotent: a cleaned header is left unchanged by
    cleaning it again; a cleaned text header has no leading, trailing or
    repeated white space and no no-break space; and the column names the
    budget expander looks for through [clean_header] are clean already. *)
Theorem clean_header_idempotent (c : cell) :
  clean_header L (clean_header L c) = clean_header L c
  /\ (forall s, clean_header L c = Str s ->
        strip s = s /\ spaced false s = true)
  /\ (forall k,
        In k (Budgets.START_COL :: Budgets.END_COL :: Budgets.FX_YEAR_COL
              :: Budgets.PLANNED_COL :: Budgets.PRORATE_COLS) ->
        clean_header L (Str k) = Str k).
Proof.
  split; [|split].
  - unfold clean_header. destruct (isna c) eqn:E; [now rewrite E|].
    cbn [isna text].
    destruct (strip_squeeze_normal (Budgets.nfkc (text L c))) as (A & B & C).
    now rewrite cleaned_nfkc, B, A.
  - intros s H. unfold clean_header in H. destruct (isna c) eqn:E.
    + subst c. discriminate.
    + injection H as <-.
      destruct (strip_squeeze_normal (Budgets.nfkc (text L c))) as (A & _ & C).
      now split.
  - intros k Hk. unfold clean_header. cbn [isna text].
    simpl in Hk.
    repeat (destruct Hk as [<-|Hk]; [vm_compute; reflexivity|]).
    contradiction.
Qed.

End WhiteSpace.

Lemma index_is_append_only_witness :
  TwoPass.resolve Lib.ascii_lib ([scoped_row] ++ [global_row]) "DK" "acme"
  = Some "Acme Corp".
Proof.
  destruct (index_is_append_only Lib.ascii_lib [scoped_row] [global_row])
    as [_ H].
  apply H. vm_compute. reflexivity.
Defined.

Lemma taxonomy_names_are_mapped_witness :
  (exists c, TwoPass.resolve Lib.ascii_lib [scoped_row; global_row] "SE"
               (PyStr.strip (TwoPass.brand_canonical global_row)) = Some c)
  /\ (exists c, TwoPass.resolve Lib.ascii_lib [scoped_row; global_row] "SE"
                  (TwoPass.row_alias global_row) = Some c).
Proof.
  apply (taxonomy_names_are_mapped Lib.ascii_lib [scoped_row; global_row]
           global_row "SE").
  - right. now left.
  - vm_compute. discriminate.
Defined.

Lemma detected_brand_is_in_titles_witness :
  exists c reason,
    TwoPass.detect_from_titles Lib.ascii_lib (Str "Bolt Ltd - launch") (Str "")
      (Str "DK") (fst (TwoPass.build_index Lib.ascii_lib [scoped_row; global_row]))
      (snd (TwoPass.build_index Lib.ascii_lib [scoped_row; global_row]))
    = Ok (Some c, reason)
    /\ c = "Bolt Ltd"
    /\ In reason ["title_contains_canon"; "title_contains_alias"; "title_ambiguous"].
Proof.
  exists "Bolt Ltd", "title_contains_canon".
  assert (E : TwoPass.detect_from_titles Lib.ascii_lib (Str "Bolt Ltd - launch")
                (Str "") (Str "DK")
                (fst (TwoPass.build_index Lib.ascii_lib [scoped_row; global_row]))
                (snd (TwoPass.build_index Lib.ascii_lib [scoped_row; global_row]))
              = Ok (Some "Bolt Ltd", "title_contains_canon"))
    by (vm_compute; reflexivity).
  split; [exact E|]. split; [reflexivity|].
  exact (proj1 (detected_brand_is_in_titles Lib.ascii_lib _ _ _ _ _ _ _ E)).
Defined.

Lemma short_titles_detect_nothing_witness :
  TwoPass.detect_from_titles Lib.ascii_lib (Str "ab") (Str "") (Str "DK")
    (fst (TwoPass.build_index Lib.ascii_lib [scoped_row; global_row]))
    (snd (TwoPass.build_index Lib.ascii_lib [scoped_row; global_row]))
  = Ok (None, "").
Proof.
  apply (short_titles_detect_nothing Lib.ascii_lib).
  vm_compute. lia.
Defined.

Lemma resolver_decision_witness :
  exists res,
    TwoPass.resolve_row Lib.ascii_lib
      (fst (TwoPass.build_index Lib.ascii_lib [scoped_row; global_row]))
      (snd (TwoPass.build_index Lib.ascii_lib [scoped_row; global_row]))
      conflict_plan = Ok res
    /\ TwoPass.Brand_taxonomy res = "Acme Corp"
    /\ TwoPass.Brand_title res = "Bolt Ltd"
    /\ TwoPass.Brand_final res = "Acme Corp"
    /\ TwoPass.Issue res = "brand_conflict_title".
Proof.
  destruct (TwoPass.resolve_row Lib.ascii_lib
              (fst (TwoPass.build_index Lib.ascii_lib [scoped_row; global_row]))
              (snd (TwoPass.build_index Lib.ascii_lib [scoped_row; global_row]))
              conflict_plan) as [res|e] eqn:E;
    [|vm_compute in E; discriminate E].
  destruct (resolver_decision Lib.ascii_lib _ _ _ res E) as [F I].
  assert (T : TwoPass.Brand_taxonomy res = "Acme Corp"
              /\ TwoPass.Brand_title res = "Bolt Ltd").
  { vm_compute in E. apply ok_inj in E. subst res. split; reflexivity. }
  destruct T as [T1 T2].
  exists res. split; [reflexivity|]. split; [exact T1|]. split; [exact T2|].
  rewrite F, I, T1, T2. split; reflexivity.
Defined.

Lemma two_pass_brand_rows_witness :
  (exists clean out,
     TwoPass.two_pass_brand Lib.ascii_lib conflict_sheet
       [scoped_row; global_row] = Ok (clean, out)
     /\ List.length out = 1%nat /\ List.length clean = 1%nat)
  /\ TwoPass.two_pass_brand Lib.ascii_lib
       {| columns := columns conflict_sheet; rows := [] |}
       [scoped_row; global_row]
     = Raise (KeyError "Brand_taxonomy").
Proof.
  split.
  - destruct (two_pass_brand_rows Lib.ascii_lib conflict_sheet
                [scoped_row; global_row]) as [_ H].
    destruct (H ltac:(discriminate)) as (clean & out & E & Lo & Lc & _).
    exists clean, out. split; [exact E|]. split; [exact Lo | exact Lc].
  - destruct (two_pass_brand_rows Lib.ascii_lib
                {| columns := columns conflict_sheet; rows := [] |}
                [scoped_row; global_row]) as [H _].
    apply H. reflexivity.
Defined.

(** ** The FX stage: rates, derived columns and events *)

Section FxStage.

Import Pandas Cleaning Fx.

Variable L : PyLib.

Lemma fx_rates_columns (plans fx_df rated : frame) :
  fx_rates L plans fx_df = Ok rated ->
  exists left e d,
    fx_left L plans = Ok left
    /\ rated = set_col "fx_to_dkk" d (set_col "fx_to_eur" e left)
    /\ List.length e = nrows plans
    /\ List.length d = nrows plans.
Proof.
  unfold fx_rates. intros H.
  apply bind_ok in H as (left & Hl & H). apply bind_ok in H as (right & Hr & H).
  apply bind_ok in H as (m & Hm & H). apply bind_ok in H as (o1 & H1 & H2).
  destruct (fx_left_frame L plans left Hl) as [S _].
  pose proof (stage_nrows _ _ _ _ S) as N.
  unfold assign_rate in H1, H2.
  apply bind_ok in H1 as (v1 & _ & H1). apply ok_inj in H1. subst o1.
  apply bind_ok in H2 as (v2 & _ & H2). apply ok_inj in H2. subst rated.
  exists left. eexists. eexists. split; [exact Hl|]. split; [reflexivity|].
  rewrite !reindex_length. cbn [index set_col]. unfold nrows in N. auto.
Qed.

Lemma fx_rates_stage (plans fx_df rated : frame) :
  fx_rates L plans fx_df = Ok rated ->
  stage (fx_keys ++ ["fx_to_eur"; "fx_to_dkk"]) (fx_keys ++ ["fx_to_eur"; "fx_to_dkk"])
    plans rated
  /\ (well_formed plans -> well_formed rated)
  /\ exists e d,
       lookup "fx_to_eur" (cols rated) = Some e
       /\ lookup "fx_to_dkk" (cols rated) = Some d
       /\ List.length e = nrows plans /\ List.length d = nrows plans.
Proof.
  intros H. destruct (fx_rates_columns plans fx_df rated H)
    as (left & e & d & Hl & -> & Le & Ld).
  destruct (fx_left_frame L plans left Hl) as [S W].
  pose proof (stage_nrows _ _ _ _ S) as N.
  split; [|split].
  - pose proof (stage_trans _ _ _ _ _ _ _ S (stage_set_col "fx_to_eur" e left)) as S1.
    pose proof (stage_trans _ _ _ _ _ _ _ S1
                  (stage_set_col "fx_to_dkk" d (set_col "fx_to_eur" e left))) as S2.
    eapply stage_weaken; [| |exact S2];
      intros c Hc; rewrite !in_app_iff in *; simpl in *; tauto.
  - intros Wp. apply well_formed_set_col; [apply well_formed_set_col|].
    + now apply W.
    + congruence.
    + change (nrows (set_col "fx_to_eur" e left)) with (nrows left). congruence.
  - exists e, d. rewrite !lookup_set_col. cbn. auto.
Qed.

(** *** The derived columns *)

Lemma derive_pairs_other (rate : list Q) (mapping : list (string * string))
  (g : frame) (c : string) :
  ~ In c (List.map snd mapping) ->
  lookup c (cols (derive_pairs L rate mapping g)) = lookup c (cols g).
Proof.
  unfold derive_pairs. revert g.
  induction mapping as [|[local outc] mapping IH]; intros g Hc; simpl; auto.
  simpl in Hc. rewrite IH by tauto.
  destruct (lookup local (cols g)); auto.
  rewrite lookup_set_col. destruct (String.eqb_spec c outc); [|reflexivity].
  subst. tauto.
Qed.

Lemma derive_pairs_written (rate : list Q) (mapping : list (string * string))
  (g : frame) (local outc : string) (v : column) :
  NoDup (List.map snd mapping) ->
  (forall c, In c (List.map snd mapping) -> ~ In c (List.map fst mapping)) ->
  In (local, outc) mapping ->
  lookup local (cols g) = Some v ->
  lookup outc (cols (derive_pairs L rate mapping g))
  = Some (map2 (fun x r => Num (fillna0 (to_numeric L x) * r)%Q) v rate).
Proof.
  unfold derive_pairs. revert g.
  induction mapping as [|[l0 o0] mapping IH]; intros g Hnd Hsep Hin Hv;
    [contradiction|].
  cbn [fold_left fst snd]. cbn [List.map fst snd] in Hnd, Hsep.
  inversion Hnd as [|? ? Hnot Hnd']; subst.
  destruct Hin as [Hin|Hin].
  - injection Hin as -> ->. rewrite Hv.
    fold (derive_pairs L rate mapping
            (set_col outc (map2 (fun x r => Num (fillna0 (to_numeric L x) * r)%Q)
                             v rate) g)).
    rewrite derive_pairs_other by assumption.
    now rewrite lookup_set_col, String.eqb_refl.
  - assert (Hl : local <> o0).
    { intros ->. apply (Hsep o0); [now left|].
      right. apply in_map_iff. now exists (o0, outc). }
    apply IH; auto.
    + intros c Hc Hc'. apply (Hsep c); simpl; auto.
    + destruct (lookup l0 (cols g)); auto.
      rewrite lookup_set_col. destruct (String.eqb_spec local o0); congruence.
Qed.

Lemma derive_other (pairs : list (string * list (string * string)))
  (g out : frame) (c : string) :
  derive L pairs g = Ok out ->
  ~ In c (derived_columns pairs) ->
  lookup c (cols out) = lookup c (cols g).
Proof.
  revert g. induction pairs as [|[cur mapping] pairs IH]; intros g H Hc.
  - simpl in H. apply ok_inj in H. now subst.
  - cbn [derive] in H. apply bind_ok in H as (r & _ & H).
    cbn [derived_columns flat_map snd] in Hc. rewrite in_app_iff in Hc.
    rewrite (IH _ H) by (unfold derived_columns; tauto).
    apply derive_pairs_other. tauto.
Qed.

Lemma derive_written (pairs : list (string * list (string * string)))
  (g out : frame) (cur : string) (mapping : list (string * string))
  (local outc : string) (v : column) :
  derive L pairs g = Ok out ->
  NoDup (derived_columns pairs) ->
  (forall c, In c (derived_columns pairs) ->
     ~ In c (local_columns pairs) /\ c <> "fx_to_eur" /\ c <> "fx_to_dkk") ->
  In (cur, mapping) pairs -> In (local, outc) mapping ->
  lookup local (cols g) = Some v ->
  exists r,
    lookup (rate_column cur) (cols g) = Some r
    /\ lookup outc (cols out)
       = Some (map2 (fun x q => Num (fillna0 (to_numeric L x) * q)%Q) v
                 (List.map (fun x => fillna0 (to_numeric L x)) r)).
Proof.
  revert g. induction pairs as [|[cur0 mapping0] pairs IH];
    intros g H Hnd Hsep Hin Hm Hv; [contradiction|].
  cbn [derive] in H. apply bind_ok in H as (r & Hr & H).
  cbn [derived_columns local_columns flat_map snd] in Hnd, Hsep.
  fold (derived_columns pairs) in Hnd, Hsep. fold (local_columns pairs) in Hsep.
  apply NoDup_app_remove_l in Hnd as Hnd2.
  assert (Hnd1 : NoDup (List.map snd mapping0))
    by (now apply NoDup_app_remove_r in Hnd).
  assert (Hdisj : forall c, In c (List.map snd mapping0) ->
            ~ In c (derived_columns pairs)).
  { intros c H1 H2. revert H1 H2. clear -Hnd.
    induction (List.map snd mapping0) as [|x l IHl]; intros H1 H2; [contradiction|].
    simpl in Hnd. inversion Hnd as [|? ? Hx Hl]; subst.
    destruct H1 as [->|H1]; [apply Hx, in_or_app; now right | now apply IHl]. }
  destruct Hin as [Hin|Hin].
  - injection Hin as -> ->. exists r. split; [now apply get_col_ok|].
    rewrite (derive_other _ _ _ outc H).
    + apply (derive_pairs_written _ _ _ local outc v); auto.
      intros c Hc Hc'. destruct (Hsep c) as (A & _); [apply in_or_app; now left|].
      apply A, in_or_app. now left.
    + apply Hdisj, in_map_iff. now exists (local, outc).
  - assert (Hfresh : forall c, In c (local_columns pairs) \/ c = "fx_to_eur"
                                \/ c = "fx_to_dkk" ->
              lookup c (cols (derive_pairs L
                                (List.map (fun x => fillna0 (to_numeric L x)) r)
                                mapping0 g)) = lookup c (cols g)).
    { intros c Hc. apply derive_pairs_other. intros Hc'.
      destruct (Hsep c) as (A & B & C); [apply in_or_app; now left|].
      destruct Hc as [Hc|[->| ->]]; try congruence.
      apply A, in_or_app. now right. }
    assert (Hsep2 : forall c, In c (derived_columns pairs) ->
              ~ In c (local_columns pairs) /\ c <> "fx_to_eur" /\ c <> "fx_to_dkk").
    { intros c Hc. destruct (Hsep c) as (A & B & C); [apply in_or_app; now right|].
      repeat split; auto. intros Hc'. apply A, in_or_app. now right. }
    assert (Hv2 : lookup local
                    (cols (derive_pairs L
                             (List.map (fun x => fillna0 (to_numeric L x)) r)
                             mapping0 g)) = Some v).
    { rewrite Hfresh; auto. left. unfold local_columns. apply in_flat_map.
      exists (cur, mapping). split; auto. apply in_map_iff. now exists (local, outc). }
    destruct (IH _ H Hnd2 Hsep2 Hin Hm Hv2) as (r' & Hr' & Hout).
    exists r'. split; auto. rewrite <- Hr'. symmetry. apply Hfresh.
    right. unfold rate_column.
    destruct (String.eqb (PyStr.lower cur) "dkk"); auto.
Qed.

(** X18. FX stage, derived columns: when the rules derive every column once
    and no derived column is also a local column or a rate column, the
    amount written for a record in the derived column of a local column of
    the plans is the local amount times the record's rate, read from
    [fx_to_dkk] when the currency of the pair is DKK (in any letter case)
    and from [fx_to_eur] otherwise, a local amount or a rate that is not a
    number counting as zero. *)
Theorem converted_amount (plans : frame) (R : rules) (fx_df : frame)
  (qa : list event) (out : frame) (qa' : list event) (cur : string)
  (mapping : list (string * string)) (local outc : string) (v : column)
  (i : nat) :
  fx_merge_and_derive L plans R fx_df qa = Ok (out, qa') ->
  well_formed plans ->
  NoDup (derived_columns (compute_pairs R)) ->
  (forall c, In c (derived_columns (compute_pairs R)) ->
     ~ In c (local_columns (compute_pairs R))
     /\ c <> "fx_to_eur" /\ c <> "fx_to_dkk") ->
  In (cur, mapping) (compute_pairs R) -> In (local, outc) mapping ->
  lookup local (cols plans) = Some v ->
  ~ In local (fx_keys ++ ["fx_to_eur"; "fx_to_dkk"]) ->
  (i < nrows plans)%nat ->
  exists rate col,
    lookup (rate_column cur) (cols out) = Some rate
    /\ lookup outc (cols out) = Some col
    /\ nth i col NaN
       = Num (fillna0 (to_numeric L (nth i v NaN))
              * fillna0 (to_numeric L (nth i rate NaN)))%Q.
Proof.
  intros H W Hnd Hsep Hin Hm Hv Hl Hi.
  unfold fx_merge_and_derive in H.
  apply bind_ok in H as (rated & Hrated & H).
  apply bind_ok in H as (e & Hge & H). apply bind_ok in H as (d & Hgd & H).
  apply bind_ok in H as (o & Ho & H). apply ok_inj in H. injection H as -> <-.
  destruct (fx_rates_stage plans fx_df rated Hrated)
    as (S & Wr & e' & d' & He & Hd & Le & Ld).
  assert (Hvr : lookup local (cols rated) = Some v).
  { destruct S as ([_ K] & _). now apply K. }
  destruct (derive_written _ _ _ cur mapping local outc v Ho Hnd Hsep Hin Hm Hvr)
    as (r & Hr & Hout).
  assert (Hrate : lookup (rate_column cur) (cols out) = Some r).
  { rewrite (derive_other _ _ _ _ Ho); auto.
    intros Hc. destruct (Hsep _ Hc) as (_ & A & B).
    unfold rate_column in *. destruct (String.eqb _ _); congruence. }
  assert (Lr : List.length r = nrows plans).
  { unfold rate_column in Hr. destruct (String.eqb _ _); congruence. }
  assert (Lv : List.length v = nrows plans) by now apply W in Hv.
  exists r. eexists. split; [exact Hrate|]. split; [exact Hout|].
  rewrite (map2_nth _ v _ i NaN 0%Q NaN) by (rewrite ?length_map; lia).
  now rewrite (nth_map_in _ _ _ _ NaN) by lia.
Qed.

(** X19. FX stage, rates: on plans with the default index whose records
    match at most one row of the rate table each, a record whose (market,
    upper-cased currency, fiscal year) key is the key of the row [j] of the
    rate table gets, in [fx_to_eur] and [fx_to_dkk], the numbers
    [pd.to_numeric] reads in the two rate cells of that row (no number where
    the cell is not numeric). *)
Theorem matched_rate (plans : frame) (R : rules) (fx_df : frame)
  (qa : list event) (out : frame) (qa' : list event) (left right : frame)
  (we wd : column) (i j : nat) :
  fx_merge_and_derive L plans R fx_df qa = Ok (out, qa') ->
  fx_left L plans = Ok left ->
  fx_right L fx_df = Ok right ->
  range_index plans ->
  (forall k, (k < nrows plans)%nat ->
     (match_count left right fx_keys fx_keys k <= 1)%nat) ->
  has "fx_to_eur" plans = false ->
  has "fx_to_dkk" plans = false ->
  (forall c, In c (derived_columns (compute_pairs R)) ->
     c <> "fx_to_eur" /\ c <> "fx_to_dkk") ->
  (i < nrows plans)%nat ->
  first_match left right fx_keys fx_keys i = Some j ->
  lookup "fx_to_eur" (cols right) = Some we ->
  lookup "fx_to_dkk" (cols right) = Some wd ->
  exists e d,
    lookup "fx_to_eur" (cols out) = Some e
    /\ lookup "fx_to_dkk" (cols out) = Some d
    /\ nth i e NaN = num_cell (to_numeric L (nth j we NaN))
    /\ nth i d NaN = num_cell (to_numeric L (nth j wd NaN)).
Proof.
  intros H Hl Hrt Hr Hu He Hd Hsep Hi Hfm Hwe Hwd.
  unfold fx_merge_and_derive in H.
  apply bind_ok in H as (rated & Hrated & H).
  apply bind_ok in H as (e0 & _ & H). apply bind_ok in H as (d0 & _ & H).
  apply bind_ok in H as (o & Ho & H). apply ok_inj in H. injection H as -> <-.
  unfold fx_rates in Hrated. rewrite Hl, Hrt in Hrated. cbn [bind] in Hrated.
  apply bind_ok in Hrated as (m & Hm & Hrated).
  apply bind_ok in Hrated as (o1 & H1 & H2).
  destruct (fx_left_frame L plans left Hl) as [Sl _].
  pose proof (stage_nrows _ _ _ _ Sl) as Hn.
  assert (Hrl : range_index left).
  { unfold range_index in *. rewrite Hn. destruct Sl as ([I _] & _). congruence. }
  assert (Hnot : forall c, has c plans = false -> ~ In c fx_keys ->
            has c left = false).
  { intros c Hc Hk. destruct (has c left) eqn:E; auto.
    destruct Sl as (_ & A & _). destruct (A c E); [congruence | contradiction]. }
  assert (Hel : has "fx_to_eur" left = false)
    by (apply Hnot; auto; simpl; intuition discriminate).
  assert (Hdl : has "fx_to_dkk" left = false)
    by (apply Hnot; auto; simpl; intuition discriminate).
  assert (Hul : forall k, (k < nrows left)%nat ->
            (match_count left right fx_keys fx_keys k <= 1)%nat)
    by (intros k Hk; apply Hu; lia).
  destruct (assign_rate_cell L left right left o1 m "fx_to_eur" we i
              Hm H1 eq_refl Hrl Hul Hel Hwe ltac:(lia)) as (e & -> & Hle & Hie).
  destruct (assign_rate_cell L left right _ rated m "fx_to_dkk" wd i
              Hm H2 eq_refl Hrl Hul Hdl Hwd ltac:(lia)) as (d & -> & Hld & Hid).
  rewrite Hfm in Hie, Hid.
  exists e, d.
  rewrite !(derive_other _ _ _ _ Ho)
    by (intros Hc; destruct (Hsep _ Hc); congruence).
  rewrite !lookup_set_col. cbn. auto.
Qed.

(** X20. FX stage, exceptions: the events the stage appends are, in record
    order, one [fx_missing] event (priority P1, built from the fields of the
    record in the plans) for exactly the records that have no number in
    [fx_to_eur] or in [fx_to_dkk], followed by the events of the audit; a
    record with both rates gets no [fx_missing] event. *)
Theorem fx_missing_events (plans : frame) (R : rules) (fx_df : frame)
  (qa : list event) (out : frame) (qa' : list event) :
  fx_merge_and_derive L plans R fx_df qa = Ok (out, qa') ->
  exists rated e d,
    fx_rates L plans fx_df = Ok rated
    /\ lookup "fx_to_eur" (cols rated) = Some e
    /\ lookup "fx_to_dkk" (cols rated) = Some d
    /\ qa' = (qa ++ flat_map
                      (fun i => if (isna (nth i e NaN) || isna (nth i d NaN))%bool
                                then [fx_missing_event L (row_at plans i)]
                                else [])
                      (seq 0 (nrows plans)))
             ++ audit L R out
    /\ (forall r, Priority (fx_missing_event L r) = "P1"
                   /\ Issue_Type (fx_missing_event L r) = "fx_missing").
Proof.
  intros H. unfold fx_merge_and_derive in H.
  apply bind_ok in H as (rated & Hrated & H).
  apply bind_ok in H as (e & Hge & H). apply bind_ok in H as (d & Hgd & H).
  apply bind_ok in H as (o & Ho & H). apply ok_inj in H. injection H as -> <-.
  destruct (fx_rates_stage plans fx_df rated Hrated)
    as (S & _ & e' & d' & He & Hd & Le & Ld).
  apply get_col_ok in Hge, Hgd.
  assert (e' = e) by congruence. assert (d' = d) by congruence. subst e' d'.
  pose proof (stage_nrows _ _ _ _ S) as N.
  exists rated, e, d. repeat split; auto.
  f_equal. f_equal.
  rewrite rows_where_positions by (rewrite map2_length; lia).
  rewrite N. rewrite flat_map_concat_map, concat_map, map_map.
  rewrite flat_map_concat_map. f_equal. apply map_ext_in.
  intros i Hi. apply in_seq in Hi.
  rewrite (map2_nth _ e d i NaN NaN false) by lia.
  destruct (isna (nth i e NaN) || isna (nth i d NaN))%bool; simpl; auto.
  now rewrite (fx_missing_event_plans L plans rated i S).
Qed.

End FxStage.

Lemma kronor_pairs_separate (c : string) :
  In c (Fx.derived_columns (Cleaning.compute_pairs fx_rules)) ->
  ~ In c (Fx.local_columns (Cleaning.compute_pairs fx_rules))
  /\ c <> "fx_to_eur" /\ c <> "fx_to_dkk".
Proof.
  intros [<-|[<-|[]]]; repeat split; try discriminate;
    simpl; intuition discriminate.
Qed.

Lemma converted_amount_witness :
  exists out qa rate col,
    Cleaning.fx_merge_and_derive Lib.ascii_lib kronor_plans fx_rules rates_table []
    = Ok (out, qa)
    /\ Pandas.lookup "fx_to_eur" (Pandas.cols out) = Some rate
    /\ Pandas.lookup "Planned_Spend_EUR" (Pandas.cols out) = Some col
    /\ nth 0 rate NaN = Num (134 # 1000)
    /\ nth 0 col NaN = Num (7450 * (134 # 1000)).
Proof.
  destruct (Cleaning.fx_merge_and_derive Lib.ascii_lib kronor_plans fx_rules
              rates_table []) as [[out qa]|e] eqn:E;
    [|vm_compute in E; discriminate E].
  destruct (converted_amount Lib.ascii_lib kronor_plans fx_rules rates_table []
              out qa "EUR" [("Planned Spend (Local)", "Planned_Spend_EUR")]
              "Planned Spend (Local)" "Planned_Spend_EUR" [Num 7450; Num 1000]
              0%nat E kronor_plans_well_formed)
    as (rate & col & Hrate & Hcol & Hval).
  - repeat constructor; simpl; intuition discriminate.
  - exact kronor_pairs_separate.
  - now left.
  - now left.
  - reflexivity.
  - simpl. intuition discriminate.
  - vm_compute. lia.
  - exists out, qa, rate, col. split; [reflexivity|].
    split; [exact Hrate|]. split; [exact Hcol|].
    assert (R0 : nth 0 rate NaN = Num (134 # 1000)).
    { vm_compute in E. apply ok_inj in E. injection E as <- _.
      vm_compute in Hrate. injection Hrate as <-. reflexivity. }
    split; [exact R0|]. rewrite Hval, R0. reflexivity.
Defined.

Lemma matched_rate_witness :
  exists out qa e d,
    Cleaning.fx_merge_and_derive Lib.ascii_lib kronor_plans fx_rules rates_table []
    = Ok (out, qa)
    /\ Pandas.lookup "fx_to_eur" (Pandas.cols out) = Some e
    /\ Pandas.lookup "fx_to_dkk" (Pandas.cols out) = Some d
    /\ nth 0 e NaN = Num (134 # 1000)
    /\ nth 0 d NaN = Num 1.
Proof.
  destruct (Cleaning.fx_merge_and_derive Lib.ascii_lib kronor_plans fx_rules
              rates_table []) as [[out qa]|e] eqn:E;
    [|vm_compute in E; discriminate E].
  destruct (Cleaning.fx_left Lib.ascii_lib kronor_plans) as [left|e] eqn:El;
    [|vm_compute in El; discriminate El].
  destruct (Cleaning.fx_right Lib.ascii_lib rates_table) as [right|e] eqn:Er;
    [|vm_compute in Er; discriminate Er].
  assert (Hu : forall k, (k < Pandas.nrows kronor_plans)%nat ->
             (Pandas.match_count left right Cleaning.fx_keys Cleaning.fx_keys k
              <= 1)%nat).
  { vm_compute in El, Er. apply ok_inj in El, Er. subst left right.
    intros k Hk. apply Nat.leb_le.
    destruct k as [|[|k]]; [vm_compute; reflexivity | vm_compute; reflexivity |].
    exfalso. unfold Pandas.nrows, kronor_plans in Hk. simpl in Hk. lia. }
  assert (Hf : Pandas.first_match left right Cleaning.fx_keys Cleaning.fx_keys 0
               = Some 0%nat
               /\ Pandas.lookup "fx_to_eur" (Pandas.cols right) = Some [Str "0.134"]
               /\ Pandas.lookup "fx_to_dkk" (Pandas.cols right) = Some [Str "1"]).
  { vm_compute in El, Er. apply ok_inj in El, Er. subst left right.
    repeat split; vm_compute; reflexivity. }
  destruct Hf as (Hf & Hwe & Hwd).
  destruct (matched_rate Lib.ascii_lib kronor_plans fx_rules rates_table []
              out qa left right [Str "0.134"] [Str "1"] 0%nat 0%nat
              E El Er eq_refl Hu eq_refl eq_refl
              (fun c Hc => proj2 (kronor_pairs_separate c Hc))
              (Nat.lt_0_succ 1) Hf Hwe Hwd)
    as (e & d & He & Hd & Hie & Hid).
  exists out, qa, e, d. split; [reflexivity|].
  split; [exact He|]. split; [exact Hd|].
  rewrite Hie, Hid. split; vm_compute; reflexivity.
Defined.

Lemma fx_missing_events_witness :
  exists out qa,
    Cleaning.fx_merge_and_derive Lib.ascii_lib kronor_plans fx_rules rates_table []
    = Ok (out, qa)
    /\ qa = [Cleaning.fx_missing_event Lib.ascii_lib (Pandas.row_at kronor_plans 1)].
Proof.
  destruct (Cleaning.fx_merge_and_derive Lib.ascii_lib kronor_plans fx_rules
              rates_table []) as [[out qa]|e] eqn:E;
    [|vm_compute in E; discriminate E].
  destruct (fx_missing_events Lib.ascii_lib kronor_plans fx_rules rates_table []
              out qa E) as (rated & e & d & Hr & He & Hd & Hqa & _).
  exists out, qa. split; [reflexivity|].
  rewrite Hqa.
  vm_compute in Hr. apply ok_inj in Hr. subst rated.
  vm_compute in He, Hd. injection He as <-. injection Hd as <-.
  vm_compute in E. apply ok_inj in E. injection E as <- _.
  vm_compute. reflexivity.
Defined.

(** ** The plan-name hints of [brands_map] *)

Section Hints.

Import Pandas Cleaning Fx.

Variable L : PyLib.

Lemma is_empty_str_Str (k : string) :
  is_empty_str (Str k) = String.eqb k "".
Proof. destruct k; reflexivity. Qed.

Lemma apply_hint_length (pn h : column) (kr : string * string) :
  List.length pn = List.length h ->
  List.length (apply_hint L pn h kr) = List.length h.
Proof.
  intros H. unfold apply_hint. apply where_length.
  - rewrite length_map, length_combine, length_map. lia.
  - apply repeat_length.
Qed.

Lemma apply_hint_nth (pn h : column) (kr : string * string) (i : nat) :
  List.length pn = List.length h -> (i < List.length h)%nat ->
  nth i (apply_hint L pn h kr) NaN
  = if (re_contains L (snd kr) (text L (nth i pn NaN))
        && is_empty_str (nth i h NaN))%bool
    then Str (fst kr) else nth i h NaN.
Proof.
  intros H Hi. unfold apply_hint.
  rewrite where_nth;
    [|rewrite length_map, length_combine, length_map; lia
     |apply repeat_length | exact Hi].
  rewrite (nth_map_in _ _ _ _ (false, NaN))
    by (rewrite length_combine, length_map; lia).
  rewrite combine_nth by (rewrite length_map; lia).
  cbn [fst snd].
  rewrite (nth_map_in _ _ _ _ NaN) by lia.
  rewrite nth_repeat_lt by lia. reflexivity.
Qed.

Lemma fold_hints_length (hints : list (string * string)) (pn h : column) :
  List.length pn = List.length h ->
  List.length (fold_left (apply_hint L pn) hints h) = List.length h.
Proof.
  revert h. induction hints as [|kr hints IH]; intros h H; simpl; auto.
  rewrite IH; rewrite apply_hint_length; auto.
Qed.

Lemma fold_hints (hints : list (string * string)) (pn h : column) (i : nat) :
  List.length pn = List.length h -> (i < List.length h)%nat ->
  List.length (fold_left (apply_hint L pn) hints h) = List.length h
  /\ nth i (fold_left (apply_hint L pn) hints h) NaN
     = if is_empty_str (nth i h NaN)
       then first_hint L hints (nth i pn NaN) else nth i h NaN.
Proof.
  revert h. induction hints as [|kr hints IH]; intros h H Hi.
  - simpl. split; auto. unfold first_hint. simpl.
    destruct (nth i h NaN) as [[|c s]| | | |]; reflexivity.
  - cbn [fold_left].
    pose proof (apply_hint_length pn h kr H) as Hl.
    destruct (IH (apply_hint L pn h kr)) as [A B]; [congruence | lia|].
    split; [congruence|]. rewrite B, apply_hint_nth by assumption.
    unfold first_hint. cbn [List.find].
    destruct (is_empty_str (nth i h NaN)) eqn:E.
    + rewrite andb_true_r.
      destruct (re_contains L (snd kr) (text L (nth i pn NaN))); cbn [andb].
      * rewrite is_empty_str_Str.
        destruct (String.eqb (fst kr) ""); reflexivity.
      * now rewrite E.
    + rewrite andb_false_r. now rewrite E.
Qed.

(** X21. [brands_map], plan-name hints: when the plans have a [Plan Name]
    column, the hint of a record is the key of the first hint of the rules,
    in their order, whose pattern is found in the plan name (a hint with an
    empty key never counts), and the empty text when there is none; a
    [brand_conflict_with_plan_name] event is raised, in record order, for
    exactly the records whose hint is not empty and differs from the text of
    their [Brand_clean]. *)
Theorem first_hint_wins (R : rules) (out out' : frame) (evs : list event)
  (pn bc : column) :
  brand_hints L R out = Ok (out', evs) ->
  lookup "Plan Name" (cols out) = Some pn ->
  List.length pn = nrows out ->
  lookup "Brand_clean" (cols out) = Some bc ->
  List.length bc = nrows out ->
  exists h,
    lookup "__hint" (cols out') = Some h
    /\ List.length h = nrows out
    /\ (forall i, (i < nrows out)%nat ->
          nth i h NaN = first_hint L (brand_regex R) (nth i pn NaN))
    /\ evs = flat_map
               (fun i =>
                  if (negb (is_empty_str (nth i h NaN))
                      && negb (String.eqb (text L (nth i bc NaN))
                                 (text L (nth i h NaN))))%bool
                  then [brand_conflict_event (row_at out' i)] else [])
               (seq 0 (nrows out)).
Proof.
  intros H Hpn Lpn Hbc Lbc. unfold brand_hints in H.
  set (o1 := set_scalar "__hint" (Str "") out) in *.
  assert (P1 : lookup "Plan Name" (cols o1) = Some pn)
    by (unfold o1, set_scalar; now rewrite lookup_set_col).
  assert (H1 : lookup "__hint" (cols o1) = Some (repeat (Str "") (nrows out)))
    by (unfold o1, set_scalar; now rewrite lookup_set_col).
  rewrite P1, H1 in H.
  set (h := fold_left (apply_hint L pn) (brand_regex R)
              (repeat (Str "") (nrows out))) in *.
  set (o2 := set_col "__hint" h o1) in *.
  assert (H2 : lookup "__hint" (cols o2) = Some h)
    by (unfold o2; now rewrite lookup_set_col).
  assert (B2 : lookup "Brand_clean" (cols o2) = Some bc)
    by (unfold o2, o1, set_scalar; now rewrite !lookup_set_col).
  unfold get_col in H. rewrite H2, B2 in H. cbn [of_option bind] in H.
  apply ok_inj in H. injection H as <- <-.
  assert (Lh : List.length h = nrows out).
  { unfold h. rewrite fold_hints_length; rewrite repeat_length; auto. }
  exists h. split; [exact H2|]. split; [exact Lh|]. split.
  - intros i Hi. unfold h.
    destruct (fold_hints (brand_regex R) pn (repeat (Str "") (nrows out)) i)
      as [_ B]; rewrite ?repeat_length; try lia.
    rewrite B, nth_repeat_lt by lia. reflexivity.
  - assert (N2 : nrows o2 = nrows out) by reflexivity.
    rewrite rows_where_positions by (rewrite map2_length; lia).
    rewrite N2. rewrite flat_map_concat_map, concat_map, map_map.
    rewrite flat_map_concat_map. f_equal. apply map_ext_in.
    intros i Hi. apply in_seq in Hi.
    rewrite (map2_nth _ h bc i NaN NaN false) by lia.
    now destruct (negb (is_empty_str (nth i h NaN))
                  && negb (String.eqb (text L (nth i bc NaN))
                             (text L (nth i h NaN))))%bool.
Qed.

End Hints.

Lemma first_hint_wins_witness :
  exists out' evs h,
    Cleaning.brand_hints Lib.ascii_lib hint_rules hinted_plans = Ok (out', evs)
    /\ Pandas.lookup "__hint" (Pandas.cols out') = Some h
    /\ nth 0 h NaN = Str "Acme" /\ nth 1 h NaN = Str "Bolt" /\ nth 2 h NaN = Str ""
    /\ evs = [Cleaning.brand_conflict_event (Pandas.row_at out' 1)].
Proof.
  destruct (Cleaning.brand_hints Lib.ascii_lib hint_rules hinted_plans)
    as [[out' evs]|e] eqn:E; [|vm_compute in E; discriminate E].
  destruct (first_hint_wins Lib.ascii_lib hint_rules hinted_plans out' evs
              [Str "acme and bolt"; Str "bolt only"; Str "spring"]
              [Str "Acme"; Str "Acme"; Str ""] E eq_refl eq_refl eq_refl eq_refl)
    as (h & Hh & Lh & Hnth & Hev).
  exists out', evs, h. split; [reflexivity|]. split; [exact Hh|].
  assert (H0 : nth 0 h NaN = Str "Acme")
    by (rewrite (Hnth 0%nat) by (vm_compute; lia); vm_compute; reflexivity).
  assert (H1 : nth 1 h NaN = Str "Bolt")
    by (rewrite (Hnth 1%nat) by (vm_compute; lia); vm_compute; reflexivity).
  assert (H2 : nth 2 h NaN = Str "")
    by (rewrite (Hnth 2%nat) by (vm_compute; lia); vm_compute; reflexivity).
  split; [exact H0|]. split; [exact H1|]. split; [exact H2|].
  rewrite Hev. change (Pandas.nrows hinted_plans) with 3%nat.
  cbn [seq flat_map]. rewrite H0, H1, H2. reflexivity.
Defined.

(** ** Coercion, fiscal year from the file name, region check *)

Lemma str_filter_filter (p q : ascii -> bool) (s : string) :
  (forall c, p c = true -> q c = true) ->
  PyStr.str_filter p (PyStr.str_filter q s) = PyStr.str_filter p s.
Proof.
  intros H. induction s as [|c s IH]; simpl; auto.
  destruct (q c) eqn:Q; simpl.
  - destruct (p c); now rewrite IH.
  - destruct (p c) eqn:P; [apply H in P; congruence | exact IH].
Qed.

Lemma kept_not_dropped (c : ascii) :
  Coercion.kept_char c = true -> negb (Coercion.dropped_char c) = true.
Proof.
  unfold Coercion.kept_char, Coercion.dropped_char, PyStr.is_digit, PyStr.code.
  destruct c as [[] [] [] [] [] [] [] []]; vm_compute; auto.
Qed.

Section Coerce.

Import PyStr Pandas Cleaning Coercion.

Variable L : PyLib.

Lemma clean_number_kept (c : cell) :
  clean_number L c = num_cell (to_numeric_str L (str_filter kept_char (text L c))).
Proof.
  unfold clean_number. now rewrite (str_filter_filter _ _ _ kept_not_dropped).
Qed.

Lemma names_assign (c : string) (v w : column) (cs : list (string * column)) :
  lookup c cs = Some w -> List.map fst (assign c v cs) = List.map fst cs.
Proof.
  induction cs as [|[k u] cs IH]; simpl; [discriminate|].
  destruct (String.eqb k c); simpl; auto. intros H. now rewrite IH.
Qed.

Lemma coerce_fold (l : list string) (g : frame) :
  NoDup l ->
  let g' := fold_left
              (fun g c =>
                 match lookup c (cols g) with
                 | Some v => set_col c (List.map (clean_number L) v) g
                 | None => g
                 end) l g in
  index g' = index g
  /\ names g' = names g
  /\ forall c, lookup c (cols g')
               = if existsb (String.eqb c) l
                 then option_map (List.map (clean_number L)) (lookup c (cols g))
                 else lookup c (cols g).
Proof.
  revert g. induction l as [|k l IH]; intros g Hnd; cbn [fold_left existsb].
  - repeat split.
  - inversion Hnd as [|? ? Hk Hl]; subst.
    set (g1 := match lookup k (cols g) with
               | Some v => set_col k (List.map (clean_number L) v) g
               | None => g
               end).
    destruct (IH g1 Hl) as (I & N & C).
    assert (I1 : index g1 = index g)
      by (unfold g1; destruct (lookup k (cols g)); reflexivity).
    assert (N1 : names g1 = names g).
    { unfold g1. destruct (lookup k (cols g)) as [v|] eqn:E; auto.
      unfold names, set_col. cbn [cols]. now apply (names_assign k _ v). }
    split; [congruence|]. split; [congruence|].
    intros c. rewrite C.
    destruct (String.eqb_spec c k) as [->|Hc]; cbn [orb].
    + apply existsb_eqb_not_In in Hk. rewrite Hk.
      unfold g1. destruct (lookup k (cols g)) as [v|] eqn:E.
      * now rewrite lookup_set_col, String.eqb_refl.
      * now rewrite E.
    + assert (E1 : lookup c (cols g1) = lookup c (cols g)).
      { unfold g1. destruct (lookup k (cols g)); auto.
        rewrite lookup_set_col. destruct (String.eqb_spec c k); congruence. }
      now rewrite E1.
Qed.

Lemma lookup_names (c : string) (f : frame) (v : column) :
  lookup c (cols f) = Some v -> In c (names f).
Proof.
  unfold names. induction (cols f) as [|[k w] cs IH]; simpl; [discriminate|].
  destruct (String.eqb_spec k c); auto.
Qed.

(** X22. [coerce_numeric_cols] on a frame with distinct column names keeps
    the index, the column names and every column whose name holds none of
    the numeric words; in a column whose name holds one (in any letter
    case), every cell becomes the number [pd.to_numeric] reads in the
    digits, dots and minus signs of its text, and no number (NaN) when they
    spell none; the first of the two replacements changes nothing to the
    result. *)
Theorem numeric_columns_coerced (df : frame) (c : string) (v : column) :
  NoDup (names df) ->
  lookup c (cols df) = Some v ->
  index (coerce_numeric_cols L df) = index df
  /\ names (coerce_numeric_cols L df) = names df
  /\ lookup c (cols (coerce_numeric_cols L df))
     = Some (if num_like c
             then List.map
                    (fun x => num_cell (to_numeric_str L
                                          (str_filter kept_char (text L x)))) v
             else v)
  /\ (num_like c = true ->
      forall x, In x (List.map (clean_number L) v) ->
                (exists q, x = Num q) \/ x = NaN).
Proof.
  intros Hnd Hv. unfold coerce_numeric_cols.
  destruct (coerce_fold (List.filter num_like (names df)) df
              (NoDup_filter _ Hnd)) as (I & N & C).
  split; [exact I|]. split; [exact N|]. split.
  - rewrite C, Hv. cbn [option_map].
    destruct (num_like c) eqn:E.
    + assert (Hin : In c (List.filter num_like (names df))).
      { apply filter_In. split; auto. eapply lookup_names; eauto. }
      apply existsb_eqb_In in Hin. rewrite Hin. f_equal.
      apply map_ext. apply clean_number_kept.
    + assert (Hin : ~ In c (List.filter num_like (names df))).
      { intros H. apply filter_In in H as [_ H]. congruence. }
      apply existsb_eqb_not_In in Hin. now rewrite Hin.
  - intros _ x Hx. apply in_map_iff in Hx as (y & <- & _).
    unfold clean_number. destruct (to_numeric_str L _); simpl; eauto.
Qed.

End Coerce.

Section FileYear.

Import PyStr Pandas FxYear.

Lemma digit_val_range (c : ascii) : is_digit c = true -> 0 <= digit_val c <= 9.
Proof.
  unfold is_digit, digit_val. intros H.
  apply andb_true_iff in H as [A B].
  apply Nat.leb_le in A, B. lia.
Qed.

Lemma year_in_step (c z a b : ascii) (t : string) :
  year_in (String c (String z (String a (String b t))))
  = if (Ascii.eqb c "2" && Ascii.eqb z "0" && is_digit a && is_digit b)%bool
    then Some (2000 + 10 * digit_val a + digit_val b)
    else year_in (String z (String a (String b t))).
Proof. reflexivity. Qed.

Lemma year_in_range (s : string) (y : Z) :
  year_in s = Some y -> 2000 <= y <= 2099.
Proof.
  induction s as [|c t IH]; [discriminate|].
  destruct t as [|z [|a [|b t3]]]; try exact IH.
  rewrite year_in_step.
  destruct (Ascii.eqb c "2" && Ascii.eqb z "0" && is_digit a && is_digit b)%bool
    eqn:E; [|exact IH].
  apply andb_true_iff in E as [E B]. apply andb_true_iff in E as [_ A].
  intros H.
  assert (Hy : 2000 + 10 * digit_val a + digit_val b = y) by congruence.
  apply digit_val_range in A, B. lia.
Qed.

(** X23. [add_fx_year_from_filename] never overwrites: the index and every
    column of the sheet are kept, a sheet that has an [FX_Year] column is
    returned as it is, and so is any sheet when the file name holds no
    [20] followed by two digits; the only column it can add is [FX_Year],
    and the year it writes, in every record, is between 2000 and 2099. *)
Theorem fiscal_year_from_filename (df : frame) (filename : string) :
  let df' := add_fx_year_from_filename df filename in
  index df' = index df
  /\ (forall c v, lookup c (cols df) = Some v -> lookup c (cols df') = Some v)
  /\ (forall c, has c df' = true -> has c df = true \/ c = "FX_Year")
  /\ (has "FX_Year" df = true -> df' = df)
  /\ (year_in filename = None -> df' = df)
  /\ (forall y, year_in filename = Some y ->
        2000 <= y <= 2099
        /\ (has "FX_Year" df = false ->
            lookup "FX_Year" (cols df')
            = Some (repeat (Num (inject_Z y)) (nrows df)))).
Proof.
  unfold add_fx_year_from_filename.
  destruct (year_in filename) as [y|] eqn:Y.
  - destruct (has "FX_Year" df) eqn:H.
    + split; [reflexivity|]. split; [auto|]. split; [auto|].
      split; [reflexivity|]. split; [discriminate|].
      intros y0 Hy. assert (y0 = y) by congruence. subst y0.
      split; [now apply year_in_range in Y | discriminate].
    + split; [reflexivity|]. split.
      { intros c v Hv. unfold set_scalar. rewrite lookup_set_col.
        destruct (String.eqb_spec c "FX_Year") as [->|]; auto.
        unfold has in H. now rewrite Hv in H. }
      split.
      { intros c. unfold has, set_scalar. rewrite lookup_set_col.
        destruct (String.eqb_spec c "FX_Year"); auto. }
      split; [discriminate|]. split; [discriminate|].
      intros y0 Hy. assert (y0 = y) by congruence. subst y0.
      split; [now apply year_in_range in Y|].
      intros _. unfold set_scalar. now rewrite lookup_set_col.
  - repeat split; auto; discriminate.
Qed.

End FileYear.

Section RegionCheck.

Import PyStr Pandas Cleaning Region.

Variable L : PyLib.

(** X24. [region_check] returns the plans unchanged and, unless the rules
    enable it, no event.  When enabled it raises at most one event per
    record: for a market found in the rate table, [region_mismatch] when the
    expected region and the region of the record are both non-blank and
    differ, and nothing otherwise; for a market not found there,
    [market_unknown] when the market is not blank.  So a known market is
    never reported unknown, and a record without a region is never
    reported. *)
Theorem region_check_events (enabled : option bool) (plans fx_df : frame)
  (qa : list event) :
  fst (region_check L enabled plans fx_df qa) = plans
  /\ (enabled <> Some true -> snd (region_check L enabled plans fx_df qa) = qa)
  /\ (enabled = Some true ->
      snd (region_check L enabled plans fx_df qa)
      = qa ++ flat_map (check_row L (map_reg L fx_df)) (iterrows plans))
  /\ (forall d r,
        let mkt := strip (text L (Row.get_or_empty "Market" r)) in
        let reg := strip (text L (Row.get_or_empty "Region" r)) in
        check_row L d r
        = match dict_find mkt d with
          | Some exp =>
              if (negb (String.eqb exp "") && negb (String.eqb reg "")
                  && negb (String.eqb exp reg))%bool
              then [qa_event r "Region" "region_mismatch" (Str reg) (Str exp)
                      "Analytics" "P3"]
              else []
          | None =>
              if negb (String.eqb mkt "")
              then [qa_event r "Market" "market_unknown" (Str mkt) (Str "")
                      "Analytics" "P3"]
              else []
          end)
  /\ (forall d r, (List.length (check_row L d r) <= 1)%nat).
Proof.
  assert (C : forall d r,
             check_row L d r
             = match dict_find (strip (text L (Row.get_or_empty "Market" r))) d with
               | Some exp =>
                   if (negb (String.eqb exp "")
                       && negb (String.eqb
                                  (strip (text L (Row.get_or_empty "Region" r))) "")
                       && negb (String.eqb exp
                                  (strip (text L (Row.get_or_empty "Region" r)))))%bool
                   then [qa_event r "Region" "region_mismatch"
                           (Str (strip (text L (Row.get_or_empty "Region" r))))
                           (Str exp) "Analytics" "P3"]
                   else []
               | None =>
                   if negb (String.eqb
                              (strip (text L (Row.get_or_empty "Market" r))) "")
                   then [qa_event r "Market" "market_unknown"
                           (Str (strip (text L (Row.get_or_empty "Market" r))))
                           (Str "") "Analytics" "P3"]
                   else []
               end).
  { intros d r. unfold check_row.
    destruct (dict_find _ d) as [e|].
    - rewrite andb_false_r. apply app_nil_r.
    - cbn [String.eqb negb andb app]. now rewrite andb_true_r. }
  split; [|split; [|split; [|split]]].
  - unfold region_check. destruct enabled as [[]|]; reflexivity.
  - unfold region_check.
    destruct enabled as [[]|]; intros H; [now elim H | reflexivity | reflexivity].
  - intros ->. reflexivity.
  - intros d r. apply C.
  - intros d r. rewrite C. destruct (dict_find _ d) as [e|].
    + destruct (_ && _ && _)%bool; simpl; lia.
    + destruct (negb _); simpl; lia.
Qed.

End RegionCheck.

Lemma spend_frame_names : NoDup (Pandas.names spend_frame).
Proof.
  unfold Pandas.names, spend_frame. simpl.
  repeat (constructor; [simpl; intuition discriminate|]). constructor.
Qed.

Lemma numeric_columns_coerced_witness :
  Pandas.lookup "Net Spend (EUR)"
    (Pandas.cols (Coercion.coerce_numeric_cols Lib.ascii_lib spend_frame))
  = Some [Num (123450 # 100); Num 100; NaN; Num 7]
  /\ Pandas.names (Coercion.coerce_numeric_cols Lib.ascii_lib spend_frame)
     = Pandas.names spend_frame.
Proof.
  destruct (numeric_columns_coerced Lib.ascii_lib spend_frame "Net Spend (EUR)"
              [Str "$1,234.50"; Str "(100)"; NaN; Num 7]
              spend_frame_names eq_refl) as (_ & N & C & _).
  split; [|exact N]. rewrite C. vm_compute. reflexivity.
Defined.

(** ** Column names of a sheet read by [read_excel_first] *)

Section ColumnNames.

Import PyStr Excel.

Lemma seen_get_set (k k' : string) (n : nat) (seen : list (string * nat)) :
  seen_get k (seen_set k' n seen)
  = if String.eqb k' k then Some n else seen_get k seen.
Proof.
  induction seen as [|[x m] seen IH]; simpl.
  - reflexivity.
  - destruct (String.eqb_spec x k') as [->|Hx]; simpl.
    + destruct (String.eqb_spec k' k); reflexivity.
    + rewrite IH. destruct (String.eqb_spec x k) as [->|Hk]; auto.
      destruct (String.eqb_spec k' k); congruence.
Qed.

(** The dictionary [seen] after the names [pre]: a name met [S n] times
    maps to [n]. *)
Lemma counts_step (seen : list (string * nat)) (pre : list string) (c : string) :
  (forall k, seen_get k seen
             = match count_occ string_dec (List.map normal_name pre) k with
               | O => None
               | S n => Some n
               end) ->
  forall k,
    seen_get k
      (seen_set (normal_name c)
         (count_occ string_dec (List.map normal_name pre) (normal_name c)) seen)
    = match count_occ string_dec (List.map normal_name (pre ++ [c])) k with
      | O => None
      | S n => Some n
      end.
Proof.
  intros H k. rewrite seen_get_set, map_app, count_occ_app. cbn [List.map count_occ].
  destruct (String.eqb_spec (normal_name c) k) as [->|Hk].
  - destruct (string_dec k k); [|congruence].
    now rewrite Nat.add_1_r.
  - destruct (string_dec (normal_name c) k); [congruence|].
    rewrite Nat.add_0_r. apply H.
Qed.

Lemma dedup_loop_spec (cs pre : list string) (seen : list (string * nat)) :
  (forall k, seen_get k seen
             = match count_occ string_dec (List.map normal_name pre) k with
               | O => None
               | S n => Some n
               end) ->
  List.length (dedup_loop seen cs) = List.length cs
  /\ forall i c, nth_error cs i = Some c ->
       nth_error (dedup_loop seen cs) i
       = Some (renamed (normal_name c)
                 (count_occ string_dec
                    (List.map normal_name (pre ++ firstn i cs)) (normal_name c))).
Proof.
  revert pre seen. induction cs as [|c0 cs IH]; intros pre seen H.
  - split; auto. intros [|i] c; discriminate.
  - cbn [dedup_loop]. pose proof (H (normal_name c0)) as H0.
    pose proof (counts_step seen pre c0 H) as Hs.
    destruct (count_occ string_dec (List.map normal_name pre) (normal_name c0))
      as [|n] eqn:E; rewrite H0.
    + destruct (IH (pre ++ [c0]) _ Hs) as [Hl Hn].
      split; [simpl; now rewrite Hl|].
      intros [|i] c Hc; simpl in Hc.
      * injection Hc as <-. cbn [nth_error firstn]. now rewrite app_nil_r, E.
      * cbn [nth_error firstn]. rewrite (Hn i c Hc).
        now rewrite <- app_assoc.
    + destruct (IH (pre ++ [c0]) _ Hs) as [Hl Hn].
      split; [simpl; now rewrite Hl|].
      intros [|i] c Hc; simpl in Hc.
      * injection Hc as <-. cbn [nth_error firstn]. now rewrite app_nil_r, E.
      * cbn [nth_error firstn]. rewrite (Hn i c Hc).
        now rewrite <- app_assoc.
Qed.

(** X25. The column names [read_excel_first] gives a sheet: there is one
    per column, in order; the name of a column is its normalised name
    (stripped, every run of white space turned into one space) when no
    earlier column has the same normalised name, and the normalised name
    followed by [__k] when [k] earlier columns have it. *)
Theorem column_names_deduplicated (cs : list string) :
  List.length (dedup_columns cs) = List.length cs
  /\ forall i c, nth_error cs i = Some c ->
       nth_error (dedup_columns cs) i
       = Some (renamed (normal_name c)
                 (count_occ string_dec (List.map normal_name (firstn i cs))
                    (normal_name c))).
Proof.
  unfold dedup_columns.
  apply (dedup_loop_spec cs [] []). intros k. reflexivity.
Qed.

End ColumnNames.

(** ** The plan status step *)

Section KeepRows.

Import Status.

Context {A : Type}.

Lemma keep_length (mask : list bool) (l : list A) :
  List.length mask = List.length l ->
  (List.length (keep mask l)
   + List.length (List.filter negb mask) = List.length l)%nat.
Proof.
  revert l. induction mask as [|m mask IH]; intros [|x l] H; simpl in *;
    try discriminate; auto.
  injection H as H. specialize (IH l H). destruct m; simpl; lia.
Qed.

Lemma keep_in (mask : list bool) (l : list A) (x : A) :
  In x (keep mask l) -> exists i, nth_error l i = Some x /\ nth i mask false = true.
Proof.
  revert l. induction mask as [|m mask IH]; intros [|y l] H; simpl in *;
    try contradiction.
  destruct m.
  - destruct H as [<-|H]; [now exists 0%nat|].
    destruct (IH l H) as (i & Hi & Hm). now exists (S i).
  - destruct (IH l H) as (i & Hi & Hm). now exists (S i).
Qed.

(** The position of a kept row among the kept rows. *)
Lemma keep_nth (mask : list bool) (l : list A) (j : nat) (d : A) :
  List.length mask = List.length l -> (j < List.length l)%nat ->
  nth j mask false = true ->
  nth (List.length (List.filter (fun b => b) (firstn j mask))) (keep mask l) d
  = nth j l d
  /\ (List.length (List.filter (fun b => b) (firstn j mask))
      < List.length (keep mask l))%nat.
Proof.
  revert l j. induction mask as [|m mask IH]; intros [|x l] j H Hj Hm;
    simpl in *; try discriminate; try lia.
  injection H as H. destruct j as [|j].
  - subst m. simpl. split; auto. lia.
  - destruct (IH l j H ltac:(lia) Hm) as [E Hlt].
    destruct m; simpl; split; auto; lia.
Qed.

Lemma kept_before (mask : list bool) (i j : nat) :
  (i < j)%nat -> (j <= List.length mask)%nat -> nth i mask false = false ->
  (List.length (List.filter (fun b => b) (firstn j mask)) < j)%nat.
Proof.
  revert i j. induction mask as [|m mask IH]; intros i j Hij Hj Hi; simpl in *.
  - lia.
  - destruct j as [|j]; [lia|]. cbn [firstn List.filter].
    pose proof (filter_length_le (fun b : bool => b) (firstn j mask)) as Hle.
    rewrite length_firstn in Hle.
    destruct i as [|i].
    + subst m. lia.
    + specialize (IH i j ltac:(lia) ltac:(lia) Hi). destruct m; simpl; lia.
Qed.

End KeepRows.

Lemma assign_same (c : string) (v : Pandas.column)
  (cs : list (string * Pandas.column)) :
  Pandas.lookup c cs = Some v -> Pandas.assign c v cs = cs.
Proof.
  induction cs as [|[k w] cs IH]; simpl; [discriminate|].
  destruct (String.eqb_spec k c) as [->|Hk].
  - intros H. now injection H as ->.
  - intros H. now rewrite IH.
Qed.

Lemma rows_where_none (f : Pandas.frame) (mask : list bool) :
  existsb (fun b => b) mask = false -> Pandas.rows_where f mask = [].
Proof.
  intros H. unfold Pandas.rows_where.
  generalize (Pandas.iterrows f) as rs.
  induction mask as [|m mask IH]; intros [|r rs]; simpl in *; auto.
  destruct m; [discriminate|]. now apply IH.
Qed.

Lemma lookup_loc (mask : list bool) (f : Pandas.frame) (c : string) :
  Pandas.lookup c (Pandas.cols (Status.loc mask f))
  = option_map (Status.keep mask) (Pandas.lookup c (Pandas.cols f)).
Proof.
  unfold Status.loc. cbn [Pandas.cols].
  induction (Pandas.cols f) as [|[k v] cs IH]; simpl; auto.
  destruct (String.eqb k c); auto.
Qed.

Section PlanStatus.

Import PyStr Pandas Cleaning Status.

Variable L : PyLib.

Lemma defaulted_status (d : cell) (st : column) :
  (if existsb (fun b => b) (is_blank L st)
   then List.map (fun p : bool * cell => if fst p then d else snd p)
          (combine (is_blank L st) st)
   else st)
  = List.map (fun c => if blank L c then d else c) st.
Proof.
  assert (E : List.map (fun p : bool * cell => if fst p then d else snd p)
                (combine (is_blank L st) st)
              = List.map (fun c => if blank L c then d else c) st).
  { unfold is_blank. induction st as [|c st IH]; simpl; auto. now rewrite IH. }
  destruct (existsb (fun b => b) (is_blank L st)) eqn:B; auto.
  rewrite <- E. clear E. unfold is_blank in *.
  induction st as [|c st IH]; simpl in *; auto.
  destruct (blank L c); [discriminate|]. simpl. now rewrite <- IH.
Qed.

(** X26. The plan status step of [process_plans], on a sheet with a
    [Plan Status] column: a blank status takes the default; the records
    whose status is then [cancelled] or [canceled], in any letter case, are
    dropped and the others are kept, in order, with their index labels and
    all their fields; no cancelled status is left (and no blank one when
    the default is not blank); one [row_dropped_cancelled] event is raised
    per dropped record; and once a record that is not the last one kept has
    been dropped, the index of the sheet is no longer the default one. *)
Theorem cancelled_plans_are_dropped (default : option cell) (df : frame)
  (qa : list event) (st : column) :
  lookup "Plan Status" (cols df) = Some st ->
  well_formed df ->
  let d := match default with Some x => x | None => Str "Planned" end in
  let st1 := List.map (fun c => if blank L c then d else c) st in
  let kept := List.map (fun c => negb (is_cancelled L c)) st1 in
  let df1 := set_col "Plan Status" st1 df in
  let df' := fst (plan_status L default df qa) in
  index df' = keep kept (index df)
  /\ lookup "Plan Status" (cols df') = Some (keep kept st1)
  /\ (forall c v, c <> "Plan Status" -> lookup c (cols df) = Some v ->
        lookup c (cols df') = Some (keep kept v))
  /\ (forall x, In x (keep kept st1) -> is_cancelled L x = false)
  /\ (blank L d = false -> forall x, In x (keep kept st1) -> blank L x = false)
  /\ snd (plan_status L default df qa)
     = (qa ++ List.map status_defaulted_event (rows_where df1 (is_blank L st)))
       ++ List.map row_dropped_event
            (rows_where df1 (List.map (is_cancelled L) st1))
  /\ (nrows df' + List.length (List.filter (is_cancelled L) st1) = nrows df)%nat
  /\ (forall i j, range_index df -> (i < j)%nat -> (j < nrows df)%nat ->
        nth i kept false = false -> nth j kept false = true ->
        ~ range_index df').
Proof.
  intros Hst W d st1 kept df1 df'.
  assert (Lst : List.length st = nrows df) by now apply W in Hst.
  assert (Lk : List.length kept = nrows df)
    by (unfold kept, st1; now rewrite !length_map).
  assert (Hdf1 : (if existsb (fun b => b) (is_blank L st)
                  then set_col "Plan Status" st1 df else df) = df1).
  { destruct (existsb (fun b => b) (is_blank L st)) eqn:B; auto.
    unfold df1, st1. rewrite <- (defaulted_status d st), B.
    unfold set_col. rewrite (assign_same _ _ _ Hst). now destruct df. }
  assert (Hneg : List.map negb (List.map (is_cancelled L) st1) = kept)
    by (unfold kept; now rewrite map_map).
  assert (Hrun : plan_status L default df qa
                 = (loc kept df1,
                    (if existsb (fun b => b) (is_blank L st)
                     then qa ++ List.map status_defaulted_event
                                  (rows_where df1 (is_blank L st))
                     else qa)
                    ++ List.map row_dropped_event
                         (rows_where df1 (List.map (is_cancelled L) st1)))).
  { unfold plan_status. rewrite Hst. fold d.
    rewrite (defaulted_status d st). fold st1. rewrite Hdf1, Hneg.
    reflexivity. }
  unfold df'. rewrite Hrun. cbn [fst snd].
  assert (Hin : forall x, In x (keep kept st1) ->
            exists c, In c st /\ x = (if blank L c then d else c)
                      /\ is_cancelled L x = false).
  { intros x Hx. apply keep_in in Hx as (i & Hi & Hm).
    unfold kept in Hm.
    assert (Hlt : (i < List.length st1)%nat)
      by (apply nth_error_Some; congruence).
    rewrite (nth_map_in _ _ _ _ NaN) in Hm by exact Hlt.
    apply nth_error_nth with (d := NaN) in Hi. rewrite Hi in Hm.
    apply negb_true_iff in Hm.
    unfold st1 in Hi, Hlt. rewrite length_map in Hlt.
    rewrite (nth_map_in _ _ _ _ NaN) in Hi by exact Hlt.
    exists (nth i st NaN). split; [now apply nth_In|]. now split. }
  split; [reflexivity|].
  split; [rewrite lookup_loc; unfold df1;
          now rewrite lookup_set_col, String.eqb_refl|].
  split.
  { intros c v Hc Hv. rewrite lookup_loc. unfold df1. rewrite lookup_set_col.
    destruct (String.eqb_spec c "Plan Status"); [contradiction|]. now rewrite Hv. }
  split; [intros x Hx; now destruct (Hin x Hx) as (c & _ & _ & H)|].
  split.
  { intros Hd x Hx. destruct (Hin x Hx) as (c & _ & -> & _).
    destruct (blank L c) eqn:B; auto. }
  split.
  { destruct (existsb (fun b => b) (is_blank L st)) eqn:B; auto.
    now rewrite (rows_where_none df1 _ B), app_nil_r. }
  split.
  { unfold nrows. cbn [loc index]. change (index df1) with (index df).
    pose proof (keep_length kept (index df) Lk) as K.
    assert (F : List.length (List.filter negb kept)
                = List.length (List.filter (is_cancelled L) st1)).
    { unfold kept. clear. induction st1 as [|c l IH]; simpl; auto.
      destruct (is_cancelled L c); simpl; now rewrite IH. }
    unfold nrows in K. lia. }
  intros i j Hr Hij Hj Hi Hkj R'.
  unfold range_index, nrows in R'. cbn [loc index] in R'.
  change (index df1) with (index df) in R'.
  destruct (keep_nth kept (index df) j 0 Lk Hj Hkj) as [E Hlt].
  set (p := List.length (List.filter (fun b => b) (firstn j kept))) in *.
  assert (Hp : (p < j)%nat) by (apply (kept_before kept i j); auto; lia).
  rewrite R' in E at 1.
  rewrite (nth_map_in _ _ _ _ 0%nat) in E by (rewrite length_seq; exact Hlt).
  rewrite seq_nth in E by exact Hlt.
  rewrite Hr in E.
  rewrite (nth_map_in _ _ _ _ 0%nat) in E by (rewrite length_seq; exact Hj).
  rewrite seq_nth in E by exact Hj. simpl in E. lia.
Qed.

End PlanStatus.

Lemma status_plans_well_formed : Pandas.well_formed status_plans.
Proof.
  intros c v H. unfold status_plans in H. cbn [Pandas.cols Pandas.lookup] in H.
  repeat match type of H with
         | (if ?b then _ else _) = _ =>
             destruct b; [injection H as <-; reflexivity|]
         end.
  discriminate.
Qed.

Lemma cancelled_plans_are_dropped_witness :
  let df' := fst (Status.plan_status Lib.ascii_lib None status_plans []) in
  Pandas.index df' = [1; 2]
  /\ Pandas.lookup "Plan Status" (Pandas.cols df') = Some [Str "Planned"; Str "Live"]
  /\ Pandas.lookup "Plan ID" (Pandas.cols df') = Some [Str "P2"; Str "P3"]
  /\ ~ Pandas.range_index df'.
Proof.
  destruct (cancelled_plans_are_dropped Lib.ascii_lib None status_plans []
              [Str "Cancelled"; Str " "; Str "Live"] eq_refl
              status_plans_well_formed)
    as (I & S & K & _ & _ & _ & _ & R).
  split; [rewrite I; vm_compute; reflexivity|].
  split; [rewrite S; vm_compute; reflexivity|].
  split.
  - rewrite (K "Plan ID" [Str "P1"; Str "P2"; Str "P3"]) by
      (first [discriminate | reflexivity]).
    vm_compute. reflexivity.
  - apply (R 0%nat 1%nat).
    + reflexivity.
    + lia.
    + vm_compute. lia.
    + vm_compute. reflexivity.
    + vm_compute. reflexivity.
Defined.

(** ** Backfill of the actualised amounts *)

Section BackfillRule.

Import PyStr Pandas Cleaning Backfill.

Variable L : PyLib.

Lemma backfill_scope_frame (today : Z) (old_mask : list bool) (when : column)
  (sc : scope) (st : frame * list (event * Z)) :
  index (fst (backfill_scope L today old_mask when sc st)) = index (fst st)
  /\ forall c, actual_col sc <> Some c ->
       lookup c (cols (fst (backfill_scope L today old_mask when sc st)))
       = lookup c (cols (fst st)).
Proof.
  unfold backfill_scope. destruct st as [out qa].
  destruct (actual_col sc) as [a|]; [|now split].
  destruct (planned_col sc) as [p|]; [|now split].
  destruct (lookup a (cols out)) as [av|]; [|now split].
  destruct (lookup p (cols out)) as [pv|]; [|now split].
  cbn [fst]. split; [reflexivity|].
  intros c Hc. rewrite lookup_set_col.
  destruct (String.eqb_spec c a); [subst; congruence | reflexivity].
Qed.

Lemma backfill_scope_cell (today : Z) (old_mask : list bool) (when : column)
  (sc : scope) (out : frame) (qa : list (event * Z)) (a p : string)
  (av pv : column) (i : nat) :
  actual_col sc = Some a -> planned_col sc = Some p ->
  lookup a (cols out) = Some av -> lookup p (cols out) = Some pv ->
  List.length av = List.length old_mask ->
  List.length pv = List.length old_mask ->
  (i < List.length old_mask)%nat ->
  exists new,
    lookup a (cols (fst (backfill_scope L today old_mask when sc (out, qa))))
    = Some new
    /\ nth i new NaN
       = if (nth i old_mask false
             && (isna (nth i av NaN)
                 || Qeq_bool (fillna0 (to_numeric L (nth i av NaN))) 0))%bool
         then Num (fillna0 (to_numeric L (nth i pv NaN)))
         else nth i av NaN.
Proof.
  intros Ha Hp Hav Hpv La Lp Hi. unfold backfill_scope.
  rewrite Ha, Hp, Hav, Hpv. cbn [fst]. eexists.
  split; [now rewrite lookup_set_col, String.eqb_refl|].
  rewrite (nth_map_in _ _ _ _ (false, (NaN, NaN)))
    by (rewrite !length_combine, map2_length; lia).
  rewrite !combine_nth by (rewrite ?length_combine, ?map2_length; lia).
  cbn [fst snd].
  rewrite (map2_nth _ old_mask av i false NaN false) by lia.
  reflexivity.
Qed.

(** X27. [actualisation_backfill], for the actual and planned columns of
    the [local] scope (the [global] scope writing another column): the run
    keeps the index, and the actual amount of a record is replaced by the
    planned amount (zero when the planned cell is not numeric) exactly when
    the record is old, its reference date (the end date, or the start date
    when the end date is missing) being at least the threshold number of
    days (30 by default) before the day of the run, and its actual amount
    is missing, not numeric or zero; every other record keeps its actual
    cell, so an amount that is not zero is never overwritten and a record
    without any date is never backfilled. *)
Theorem backfill_rule (today : Z) (cfg : config) (plans out : frame)
  (evs : list (event * Z)) (a p : string) (av pv e : column) (i : nat) :
  actualisation_backfill L today cfg plans = Ok (out, evs) ->
  enabled cfg <> Some false ->
  actual_col (local_scope cfg) = Some a ->
  planned_col (local_scope cfg) = Some p ->
  actual_col (global_scope cfg) <> Some a ->
  lookup a (cols plans) = Some av ->
  lookup p (cols plans) = Some pv ->
  lookup "End Date" (cols plans) = Some e ->
  well_formed plans ->
  (i < nrows plans)%nat ->
  let thresh := match age_days_threshold cfg with Some t => t | None => 30 end in
  let when := nth i (reference_dates e (lookup "Start Date" (cols plans))) NaN in
  let backfilled :=
    (is_old today thresh when
     && (isna (nth i av NaN)
         || Qeq_bool (fillna0 (to_numeric L (nth i av NaN))) 0))%bool in
  index out = index plans
  /\ (exists new,
        lookup a (cols out) = Some new
        /\ nth i new NaN
           = if backfilled then Num (fillna0 (to_numeric L (nth i pv NaN)))
             else nth i av NaN)
  /\ (when = NaT -> backfilled = false)
  /\ (forall q, nth i av NaN = Num q -> ~ (q == 0)%Q -> backfilled = false)
  /\ (forall d, when = Day d -> today - d < thresh -> backfilled = false).
Proof.
  intros H Hen Ha Hp Hg Hav Hpv He W Hi thresh when backfilled.
  unfold actualisation_backfill in H.
  destruct (enabled cfg) as [[]|] eqn:En; try congruence;
    rewrite He in H; fold thresh in H;
    destruct (forallb is_date e
              && match lookup "Start Date" (cols plans) with
                 | Some s => forallb is_date s
                 | None => true
                 end)%bool eqn:D; try discriminate;
    apply ok_inj in H.
  all: set (dates := reference_dates e (lookup "Start Date" (cols plans))) in *.
  all: set (old_mask := List.map (is_old today thresh) dates) in *.
  all: set (st1 := backfill_scope L today old_mask dates (local_scope cfg)
                     (plans, [])) in *.
  all: assert (Ld : List.length dates = nrows plans)
         by (unfold dates, reference_dates;
             destruct (lookup "Start Date" (cols plans)) as [s|] eqn:Es;
             [rewrite map2_length; [now apply W in He|];
              apply W in He; apply W in Es; congruence
             |rewrite length_map; now apply W in He]).
  all: assert (Lo : List.length old_mask = nrows plans)
         by (unfold old_mask; now rewrite length_map).
  all: destruct (backfill_scope_cell today old_mask dates (local_scope cfg)
                   plans [] a p av pv i Ha Hp Hav Hpv)
         as (new & Hnew & Hcell);
       [apply W in Hav; congruence | apply W in Hpv; congruence | lia |].
  all: fold st1 in Hnew.
  all: destruct (backfill_scope_frame today old_mask dates (global_scope cfg) st1)
         as [I2 K2].
  all: destruct (backfill_scope_frame today old_mask dates (local_scope cfg)
                   (plans, [])) as [I1 _]; fold st1 in I1; cbn [fst] in I1.
  all: assert (Hout : out = fst (backfill_scope L today old_mask dates
                                   (global_scope cfg) st1))
         by (destruct st1; rewrite H; reflexivity).
  all: assert (Hold : nth i old_mask false = is_old today thresh when)
         by (unfold old_mask, when; fold dates;
             now rewrite (nth_map_in _ _ _ _ NaN) by lia).
  all: split; [rewrite Hout; congruence|].
  all: split; [exists new; rewrite Hout, (K2 a Hg); split; [exact Hnew|];
               rewrite Hcell, Hold; reflexivity|].
  all: unfold backfilled; split; [intros ->; reflexivity|].
  all: split;
       [intros q Hq Hne; rewrite Hq; cbn [isna to_numeric fillna0 orb];
        destruct (Qeq_bool q 0) eqn:Z0;
        [apply Qeq_bool_iff in Z0; contradiction | apply andb_false_r]|].
  all: intros d -> Hlt; cbn [is_old];
       destruct (Z.leb_spec thresh (today - d)); [lia | reflexivity].
Qed.

End BackfillRule.

Lemma backfill_plans_well_formed : Pandas.well_formed backfill_plans.
Proof.
  intros c v H. unfold backfill_plans in H. cbn [Pandas.cols Pandas.lookup] in H.
  repeat match type of H with
         | (if ?b then _ else _) = _ =>
             destruct b; [injection H as <-; reflexivity|]
         end.
  discriminate.
Qed.

Lemma backfill_rule_witness :
  exists out evs,
    Backfill.actualisation_backfill Lib.ascii_lib 19783 backfill_rules
      backfill_plans = Ok (out, evs)
    /\ Pandas.index out = [0; 1; 2]
    /\ exists new,
         Pandas.lookup "Actual" (Pandas.cols out) = Some new
         /\ nth 0 new NaN = Num 100.
Proof.
  destruct (Backfill.actualisation_backfill Lib.ascii_lib 19783 backfill_rules
              backfill_plans) as [[out evs]|x] eqn:E.
  - exists out, evs. split; [reflexivity|].
    destruct (backfill_rule Lib.ascii_lib 19783 backfill_rules backfill_plans
                out evs "Actual" "Planned"
                [NaN; Num 150; Str ""] [Num 100; Num 200; Num 300]
                [Day 19730; NaT; Day 19790] 0%nat
                E ltac:(discriminate) eq_refl eq_refl ltac:(discriminate)
                eq_refl eq_refl eq_refl backfill_plans_well_formed
                ltac:(vm_compute; lia))
      as (I & (new & Hn & Hc) & _).
    split; [exact I|].
    exists new. split; [exact Hn|].
    rewrite Hc. vm_compute. reflexivity.
  - vm_compute in E. discriminate E.
Defined.
